(** * Astraea: bank-to-ledger reconciliation (reconciliation/tasks.py)

    A shallow embedding of the reconciliation pipeline of
    [reconciliation/tasks.py] and of the rows of
    [reconciliation/models.py] it reads and writes:

    - the record normalizer ([parse_amount], the row filter of
      [process_ledger_file] and [process_bank_statement_file]);
    - the similarity scorer ([calculate_match_score],
      [calculate_description_similarity]) on binary64 floats, with the
      real values of floats that bound its result;
    - the matching engine ([perform_transaction_matching]) and the
      exception and statistics builders, as programs of a small state and
      error monad over the tables of one session;
    - the two tasks [process_reconciliation_files] and
      [start_reconciliation_matching], with their [try]/[except] handlers;
    - of the models, [match_percentage] and [reconciliation_upload_path].

    Python values are read as follows.  A [str] is its list of code points.
    A [float] is a binary64 number (the kernel's primitive floats, which
    round to nearest even as CPython does).  A [Decimal] is a sign, an
    integer coefficient and an exponent, or a special value.  A stored
    [DecimalField(decimal_places=2)] is its number of hundredths, a
    [DateField] its proleptic ordinal, a [UUIDField] key a positive number. *)

From Stdlib Require Import ZArith NArith List Bool Lia String Ascii.
From Stdlib Require Import DecimalPos.
From Stdlib Require Import Floats Uint63.
From Stdlib Require Import Reals Lra.
From Stdlib Require Import Sorting.Permutation Sorting.Sorted.
Import ListNotations.

Set Implicit Arguments.
#[local] Set Warnings "-inexact-float".
Local Open Scope Z_scope.

(** ** Python strings *)

Module Str.

(** A code point. *)
Definition char := N.
Definition str := list char.

(** The string of a literal whose characters are all ASCII. *)
Definition lit (s : string) : str :=
  List.map N_of_ascii (list_ascii_of_string s).

Definition eqb (a b : str) : bool :=
  if list_eq_dec N.eq_dec a b then true else false.

Definition in_range (lo hi c : N) : bool := ((lo <=? c) && (c <=? hi))%N.

(** [str.isspace] on one code point, which is also the class [\s] of a
    [str] pattern: the ASCII controls 9..13 and 28..31, the space, and
    the Unicode separators. *)
Definition isspace (c : char) : bool :=
  in_range 9 13 c || in_range 28 32 c
  || (c =? 133)%N || (c =? 160)%N || (c =? 5760)%N
  || in_range 8192 8202 c
  || (c =? 8232)%N || (c =? 8233)%N || (c =? 8239)%N
  || (c =? 8287)%N || (c =? 12288)%N.

Definition is_digit (c : char) : bool := in_range 48 57 c.
Definition is_upper (c : char) : bool := in_range 65 90 c.
Definition is_lower (c : char) : bool := in_range 97 122 c.

(** [s.lstrip()], [s.rstrip()] and [s.strip()]. *)
Fixpoint lstrip (s : str) : str :=
  match s with
  | c :: s' => if isspace c then lstrip s' else s
  | [] => []
  end.

Definition rstrip (s : str) : str := rev (lstrip (rev s)).
Definition strip (s : str) : str := rstrip (lstrip s).

(** [s.startswith(c)] and [s.endswith(c)] for a one-character [c]. *)
Definition startswith (s : str) (c : char) : bool :=
  match s with
  | x :: _ => (x =? c)%N
  | [] => false
  end.

Definition endswith (s : str) (c : char) : bool := startswith (rev s) c.

(** The slice [s[1:-1]]. *)
Definition slice_1_m1 (s : str) : str := removelast (tl s).

(** The slice [s[:n]]. *)
Definition slice_to (n : nat) (s : str) : str := firstn n s.

(** [s.split()]: the maximal runs of non-space characters. *)
Fixpoint split_aux (cur : str) (s : str) : list str :=
  match s with
  | [] => match cur with [] => [] | _ => [rev cur] end
  | c :: s' =>
      if isspace c
      then match cur with
           | [] => split_aux [] s'
           | _ => rev cur :: split_aux [] s'
           end
      else split_aux (c :: cur) s'
  end.

Definition split (s : str) : list str := split_aux [] s.

(** [str(n)] for an [int]. *)
Definition digit_char (d : N) : char := (48 + d)%N.

Fixpoint of_uint (u : Decimal.uint) : str :=
  match u with
  | Decimal.Nil => []
  | Decimal.D0 u => 48%N :: of_uint u
  | Decimal.D1 u => 49%N :: of_uint u
  | Decimal.D2 u => 50%N :: of_uint u
  | Decimal.D3 u => 51%N :: of_uint u
  | Decimal.D4 u => 52%N :: of_uint u
  | Decimal.D5 u => 53%N :: of_uint u
  | Decimal.D6 u => 54%N :: of_uint u
  | Decimal.D7 u => 55%N :: of_uint u
  | Decimal.D8 u => 56%N :: of_uint u
  | Decimal.D9 u => 57%N :: of_uint u
  end.

(** The decimal digits of the absolute value of an integer. *)
Definition int_digits (z : Z) : str :=
  match z with
  | Z0 => [48%N]
  | Zpos p => of_uint (Pos.to_uint p)
  | Zneg p => of_uint (Pos.to_uint p)
  end.

(** [sys.int_info.default_max_str_digits]: the interpreter refuses to
    print an integer of more digits (CPython 3.11 and later). *)
Definition int_max_str_digits : nat := 4300.

(** [str(n)] for an [int]: [None] when it raises [ValueError]. *)
Definition of_int (z : Z) : option str :=
  if (List.length (int_digits z) <=? int_max_str_digits)%nat
  then Some (match z with
             | Zneg _ => 45%N :: int_digits z
             | _ => int_digits z
             end)
  else None.

End Str.

Import Str.

(** ** Python's [Decimal] and its constructor from a string *)

Inductive Decimal : Type :=
| DFinite (neg : bool) (coeff : N) (exp : Z)
| DInfinity (neg : bool)
| DNaN (signaling : bool) (neg : bool) (payload : N).

(** [Decimal('0.00')]. *)
Definition Decimal_0_00 : Decimal := DFinite false 0 (-2).

(** Exponent limits of the maximal context on a 64-bit build. *)
Definition MAX_EMAX : Z := 999999999999999999.
Definition MIN_ETINY : Z := -1999999999999999997.

Module DecimalParser.

Definition lower_ascii (c : char) : char :=
  if is_upper c then (c + 32)%N else c.

Fixpoint digits_value (acc : N) (s : str) : N :=
  match s with
  | [] => acc
  | c :: s' => digits_value (10 * acc + (c - 48))%N s'
  end.

Definition all_digits (s : str) : bool := forallb is_digit s.

(** The longest prefix of digits, and what follows it. *)
Fixpoint span_digits (s : str) : str * str :=
  match s with
  | c :: s' =>
      if is_digit c
      then let (d, r) := span_digits s' in (c :: d, r)
      else ([], s)
  | [] => ([], [])
  end.

Definition nb_digits (c : N) : Z :=
  Z.of_nat (Decimal.nb_digits (N.to_uint c)).

(** A finite value is accepted when it fits the maximal context without
    rounding or clamping. *)
Definition in_max_context (coeff : N) (e : Z) : bool :=
  (MIN_ETINY <=? e)
  && (if (coeff =? 0)%N then e <=? MAX_EMAX
      else e + nb_digits coeff - 1 <=? MAX_EMAX).

(** [[sign] digits] after the exponent indicator. *)
Definition parse_exponent (s : str) : option Z :=
  let (eneg, ds) :=
    match s with
    | 43%N :: r => (false, r)
    | 45%N :: r => (true, r)
    | _ => (false, s)
    end in
  match ds with
  | [] => None
  | _ => if all_digits ds
         then let v := Z.of_N (digits_value 0 ds) in
              Some (if eneg then - v else v)
         else None
  end.

(** [decimal-part [exponent-part]]. *)
Definition parse_numeric (neg : bool) (s : str) : option Decimal :=
  let (ip, r1) := span_digits s in
  let (fp, r2) :=
    match r1 with
    | 46%N :: r => span_digits r
    | _ => ([], r1)
    end in
  match ip ++ fp with
  | [] => None
  | ds =>
      let written :=
        match r2 with
        | [] => Some 0
        | c :: r3 => if (lower_ascii c =? 101)%N then parse_exponent r3 else None
        end in
      match written with
      | Some e =>
          let coeff := digits_value 0 ds in
          let e' := e - Z.of_nat (List.length fp) in
          if in_max_context coeff e' then Some (DFinite neg coeff e') else None
      | None => None
      end
  end.

(** After the sign: [inf], [infinity], [nan] and [snan] with an optional
    payload of digits, in any letter case, or a number. *)
Definition parse_unsigned (neg : bool) (s : str) : option Decimal :=
  let low := List.map lower_ascii s in
  if Str.eqb low (lit "inf") || Str.eqb low (lit "infinity")
  then Some (DInfinity neg)
  else
    match low with
    | 110%N :: 97%N :: 110%N :: p =>
        if all_digits p then Some (DNaN false neg (digits_value 0 p)) else None
    | 115%N :: 110%N :: 97%N :: 110%N :: p =>
        if all_digits p then Some (DNaN true neg (digits_value 0 p)) else None
    | _ => parse_numeric neg s
    end.

Definition parse_signed (s : str) : option Decimal :=
  match s with
  | 43%N :: r => parse_unsigned false r
  | 45%N :: r => parse_unsigned true r
  | _ => parse_unsigned false s
  end.

Section Digits.

(** The value of a code point above 127 as a Unicode decimal digit
    (category Nd), a table of the interpreter's Unicode database. *)
Variable unicode_decimal : char -> option N.

(** The constructor first removes underscores and maps what remains to
    ASCII: an ASCII character to itself, a space to [' '], a decimal
    digit to its ASCII digit; any other character is an error. *)
Fixpoint to_ascii (s : str) : option str :=
  match s with
  | [] => Some []
  | c :: s' =>
      if (c =? 95)%N then to_ascii s'
      else
        let oc :=
          if ((0 <? c) && (c <=? 127))%N then Some c
          else if isspace c then Some 32%N
          else match unicode_decimal c with
               | Some d => Some (digit_char d)
               | None => None
               end in
        match oc, to_ascii s' with
        | Some c', Some r => Some (c' :: r)
        | _, _ => None
        end
  end.

(** [Decimal(s)] for a string [s]; [None] when it raises
    [InvalidOperation]. *)
Definition Decimal_of_str (s : str) : option Decimal :=
  match to_ascii (strip s) with
  | Some a => parse_signed a
  | None => None
  end.

End Digits.

End DecimalParser.

Import DecimalParser.

(** [d != 0] for a [Decimal] [d]: [None] when the comparison raises (a
    signaling NaN), otherwise whether [d] differs from zero. *)
Definition Decimal_ne_0 (d : Decimal) : option bool :=
  match d with
  | DFinite _ c _ => Some (negb (c =? 0)%N)
  | DInfinity _ => Some true
  | DNaN false _ _ => Some true
  | DNaN true _ _ => None
  end.

(** ** The record normalizer *)

(** A value of a data-frame cell, as [iterrows] yields it from a file of
    text and numbers (cells that hold a timestamp or a boolean are not
    covered). *)
Inductive Cell : Type :=
| CellNA                    (* a missing value: [pd.isna] holds *)
| CellInt (z : Z)           (* an [int] *)
| CellFloat (f : float)     (* a [float] *)
| CellStr (s : str).        (* a [str] *)

(** What [row.get] returns: a cell or a default value, or the [Series] of
    the cells under a column name that several columns have. *)
Inductive Value : Type :=
| Scalar (c : Cell)
| Series (label : str) (values : list Cell).

Coercion Scalar : Cell >-> Value.

(** The data frame after its column names were stripped and lowercased
    (line 128): the column names, and the rows as lists of cells in column
    order, in index order. *)
Record DataFrame : Type := {
  df_columns : list str;
  df_rows : list (list Cell)
}.

(** The cells of a row under the columns of a name. *)
Fixpoint row_cells (cols : list str) (row : list Cell) (key : str)
    : list Cell :=
  match cols, row with
  | c :: cols', v :: row' =>
      if Str.eqb c key then v :: row_cells cols' row' key
      else row_cells cols' row' key
  | _, _ => []
  end.

(** [row.get(key, default)]: the default when no column has the name, the
    cell when one column has it, a [Series] when several have. *)
Definition row_get (cols : list str) (row : list Cell) (key : str)
    (default : Value) : Value :=
  match row_cells cols row key with
  | [] => default
  | [v] => Scalar v
  | values => Series key values
  end.

(** [d[key] = v] on a dictionary, kept in insertion order. *)
Fixpoint dict_set {V} (d : list (str * V)) (key : str) (v : V)
    : list (str * V) :=
  match d with
  | (k, v') :: d' =>
      if Str.eqb k key then (k, v) :: d' else (k, v') :: dict_set d' key v
  | [] => [(key, v)]
  end.

(** [row.to_dict()]: a column name that comes twice keeps its last cell. *)
Definition to_dict (cols : list str) (row : list Cell) : list (str * Cell) :=
  fold_left (fun d kv => dict_set d (fst kv) (snd kv)) (combine cols row) [].

(** [d.get(key, default)] on a dictionary of strings. *)
Fixpoint dict_get (d : list (str * str)) (key default : str) : str :=
  match d with
  | (k, v) :: d' => if Str.eqb k key then v else dict_get d' key default
  | [] => default
  end.

(** The first alias that is a column of the frame. *)
Fixpoint first_present (aliases cols : list str) : option str :=
  match aliases with
  | a :: aliases' =>
      if existsb (Str.eqb a) cols then Some a else first_present aliases' cols
  | [] => None
  end.

(** The loop that fills [mapped_columns]. *)
Fixpoint map_columns (column_mapping : list (str * list str))
    (cols : list str) : list (str * str) :=
  match column_mapping with
  | (field, possible_names) :: rest =>
      match first_present possible_names cols with
      | Some col_name => (field, col_name) :: map_columns rest cols
      | None => map_columns rest cols
      end
  | [] => []
  end.

Definition ledger_column_mapping : list (str * list str) :=
  [ (lit "date", List.map lit ["date"; "transaction_date"; "trans_date"; "posting_date"]%string);
    (lit "description", List.map lit ["description"; "desc"; "transaction_description"; "details"; "memo"]%string);
    (lit "amount", List.map lit ["amount"; "transaction_amount"; "debit"; "credit"; "value"]%string);
    (lit "reference", List.map lit ["reference"; "ref"; "transaction_id"; "transaction_ref"; "check_number"]%string);
    (lit "account", List.map lit ["account"; "account_number"; "account_name"]%string);
    (lit "category", List.map lit ["category"; "type"; "transaction_type"; "class"]%string) ].

Definition bank_column_mapping : list (str * list str) :=
  [ (lit "date", List.map lit ["date"; "transaction_date"; "posting_date"; "effective_date"]%string);
    (lit "description", List.map lit ["description"; "transaction_description"; "details"; "memo"; "payee"]%string);
    (lit "amount", List.map lit ["amount"; "transaction_amount"; "debit"; "credit"]%string);
    (lit "reference", List.map lit ["reference"; "confirmation_number"; "transaction_id"]%string);
    (lit "balance", List.map lit ["balance"; "running_balance"; "account_balance"]%string) ].

(** What [parse_date] returns when it does not return [None]: a date, as
    its ordinal, or the [NaT] of pandas, which is true in a test. *)
Inductive DateValue : Type :=
| ADate (ordinal : Z)
| NaT.

(** The [LedgerRecord] and [BankRecord] objects the normalizer builds,
    before they are saved. *)
Record NewLedgerRecord : Type := {
  nl_date : DateValue;
  nl_description : str;
  nl_amount : Decimal;
  nl_reference : str;
  nl_account : str;
  nl_category : str;
  nl_raw_data : list (str * Cell);
  nl_row_number : Z
}.

Record NewBankRecord : Type := {
  nb_date : DateValue;
  nb_description : str;
  nb_amount : Decimal;
  nb_reference : str;
  nb_balance : Decimal;
  nb_raw_data : list (str * Cell);
  nb_row_number : Z
}.

(** The formats [parse_date] tries, in this order. *)
Definition date_formats : list str :=
  List.map lit
    ["%Y-%m-%d"; "%m/%d/%Y"; "%d/%m/%Y"; "%m-%d-%Y"; "%d-%m-%Y"; "%Y/%m/%d";
     "%B %d, %Y"; "%b %d, %Y"; "%d %B %Y"; "%d %b %Y"]%string.

(** The characters [re.sub(r'[$£€¥,\s]', '', s)] removes. *)
Definition is_currency_formatting (c : char) : bool :=
  (c =? 36)%N || (c =? 163)%N || (c =? 8364)%N || (c =? 165)%N
  || (c =? 44)%N || isspace c.

Definition remove_currency_formatting (s : str) : str :=
  List.filter (fun c => negb (is_currency_formatting c)) s.

(** The parentheses step of [parse_amount] (lines 449-450). *)
Definition parentheses_to_minus (s : str) : str :=
  if startswith s 40%N && endswith s 41%N
  then 45%N :: slice_1_m1 s
  else s.

Section Normalizer.

(** What the interpreter and pandas supply: the Unicode decimal digits
    above ASCII; [repr] of a float; the text of a [Series] of cells, given
    the index of its row and its label; [datetime.strptime(text, format)]
    as the ordinal of the date, [None] when it raises [ValueError]; and
    [pd.to_datetime(text).date()], [None] when it raises. *)
Variable unicode_decimal : char -> option N.
Variable float_repr : float -> str.
Variable series_repr : nat -> str -> list Cell -> str.
Variable strptime : str -> str -> option Z.
Variable to_datetime : str -> option DateValue.

(** [str(v)] for a value read from the row of an index (a missing value
    prints as [nan]); [None] when it raises. *)
Definition cell_str (index : nat) (v : Value) : option str :=
  match v with
  | Scalar CellNA => Some (lit "nan")
  | Scalar (CellInt z) => of_int z
  | Scalar (CellFloat f) => Some (float_repr f)
  | Scalar (CellStr s) => Some s
  | Series label values => Some (series_repr index label values)
  end.

(** The loop over the formats of [parse_date] (lines 421-425). *)
Fixpoint first_format (formats : list str) (date_str : str) : option Z :=
  match formats with
  | fmt :: formats' =>
      match strptime date_str fmt with
      | Some d => Some d
      | None => first_format formats' date_str
      end
  | [] => None
  end.

(** [parse_date] from line 405 on, on the text of the value. *)
Definition parse_date_text (date_str : str) : option DateValue :=
  let date_str := strip date_str in
  match first_format date_formats date_str with
  | Some d => Some (ADate d)
  | None => to_datetime date_str
  end.

(** [parse_date]: [None] when it raises, which the test of line 399 does
    on a [Series] and [str] on an integer of too many digits; otherwise
    what it returns, [Some None] being [None]. *)
Definition parse_date (date_str : Value) : option (option DateValue) :=
  match date_str with
  | Series _ _ => None
  | Scalar CellNA => Some None
  | Scalar (CellInt z) =>
      if (z =? 0)%Z then Some None
      else option_map parse_date_text (of_int z)
  | Scalar (CellFloat f) =>
      if PrimFloat.is_nan f || (f =? 0)%float then Some None
      else Some (parse_date_text (float_repr f))
  | Scalar (CellStr s) =>
      if Str.eqb s [] then Some None else Some (parse_date_text s)
  end.

(** [parse_amount]; [None] when it raises, which the test of line 437 does
    on a [Series] and line 441 on an integer of too many digits or a float
    whose text is no number. *)
Definition parse_amount (amount_str : Value) : option Decimal :=
  match amount_str with
  | Series _ _ => None
  | Scalar CellNA => Some Decimal_0_00
  | Scalar (CellInt z) =>
      match of_int z with
      | Some text => Decimal_of_str unicode_decimal text
      | None => None
      end
  | Scalar (CellFloat f) =>
      if PrimFloat.is_nan f then Some Decimal_0_00
      else Decimal_of_str unicode_decimal (float_repr f)
  | Scalar (CellStr s) =>
      if Str.eqb s [] then Some Decimal_0_00
      else
        let amount_str := strip s in
        let amount_str := remove_currency_formatting amount_str in
        let amount_str := parentheses_to_minus amount_str in
        match Decimal_of_str unicode_decimal amount_str with
        | Some d => Some d
        | None => Some Decimal_0_00
        end
  end.

(** [str(v).strip()]. *)
Definition stripped_str (index : nat) (v : Value) : option str :=
  option_map strip (cell_str index v).

(** One turn of the loop of [process_ledger_file] (lines 149-172): the
    record appended to [records], or [None] when the row is filtered out
    or skipped by the [except] clause. *)
Definition ledger_row (cols : list str) (mapped_columns : list (str * str))
    (index : nat) (row : list Cell) : option NewLedgerRecord :=
  let get field default_key default :=
    row_get cols row (dict_get mapped_columns (lit field) default_key) default in
  match parse_date (get "date"%string (lit "date") (CellStr [])) with
  | None => None
  | Some date_value =>
  match parse_amount (get "amount"%string (lit "amount") (CellInt 0)) with
  | None => None
  | Some amount_value =>
  match stripped_str index
          (get "description"%string (lit "description") (CellStr [])) with
  | None => None
  | Some description_value =>
      match date_value with
      | None => None
      | Some d =>
          match Decimal_ne_0 amount_value with
          | None => None
          | Some false => None
          | Some true =>
              match description_value with
              | [] => None
              | _ =>
                  match stripped_str index (get "reference"%string [] (CellStr [])),
                        stripped_str index (get "account"%string [] (CellStr [])),
                        stripped_str index (get "category"%string [] (CellStr []))
                  with
                  | Some reference, Some account, Some category =>
                      Some {| nl_date := d;
                              nl_description := description_value;
                              nl_amount := amount_value;
                              nl_reference := reference;
                              nl_account := account;
                              nl_category := category;
                              nl_raw_data := to_dict cols row;
                              nl_row_number := Z.of_nat index + 1 |}
                  | _, _, _ => None
                  end
              end
          end
      end
  end end end.

(** The loop: [records] grows in row order. *)
Fixpoint ledger_rows (cols : list str) (mapped_columns : list (str * str))
    (index : nat) (rows : list (list Cell)) : list NewLedgerRecord :=
  match rows with
  | [] => []
  | row :: rows' =>
      match ledger_row cols mapped_columns index row with
      | Some r => r :: ledger_rows cols mapped_columns (S index) rows'
      | None => ledger_rows cols mapped_columns (S index) rows'
      end
  end.

(** The records [process_ledger_file] builds from a frame. *)
Definition ledger_file_records (df : DataFrame) : list NewLedgerRecord :=
  ledger_rows (df_columns df)
    (map_columns ledger_column_mapping (df_columns df)) 0 (df_rows df).

(** One turn of the loop of [process_bank_statement_file] (lines 213-237). *)
Definition bank_row (cols : list str) (mapped_columns : list (str * str))
    (index : nat) (row : list Cell) : option NewBankRecord :=
  let get field default_key default :=
    row_get cols row (dict_get mapped_columns (lit field) default_key) default in
  match parse_date (get "date"%string (lit "date") (CellStr [])) with
  | None => None
  | Some date_value =>
  match parse_amount (get "amount"%string (lit "amount") (CellInt 0)) with
  | None => None
  | Some amount_value =>
  match stripped_str index
          (get "description"%string (lit "description") (CellStr [])) with
  | None => None
  | Some description_value =>
      match date_value with
      | None => None
      | Some d =>
          match Decimal_ne_0 amount_value with
          | None => None
          | Some false => None
          | Some true =>
              match description_value with
              | [] => None
              | _ =>
                  match parse_amount (get "balance"%string [] CellNA),
                        stripped_str index (get "reference"%string [] (CellStr []))
                  with
                  | Some balance_value, Some reference =>
                      Some {| nb_date := d;
                              nb_description := description_value;
                              nb_amount := amount_value;
                              nb_reference := reference;
                              nb_balance := balance_value;
                              nb_raw_data := to_dict cols row;
                              nb_row_number := Z.of_nat index + 1 |}
                  | _, _ => None
                  end
              end
          end
      end
  end end end.

Fixpoint bank_rows (cols : list str) (mapped_columns : list (str * str))
    (index : nat) (rows : list (list Cell)) : list NewBankRecord :=
  match rows with
  | [] => []
  | row :: rows' =>
      match bank_row cols mapped_columns index row with
      | Some r => r :: bank_rows cols mapped_columns (S index) rows'
      | None => bank_rows cols mapped_columns (S index) rows'
      end
  end.

Definition bank_file_records (df : DataFrame) : list NewBankRecord :=
  bank_rows (df_columns df)
    (map_columns bank_column_mapping (df_columns df)) 0 (df_rows df).

End Normalizer.

(** The tables for input that is all ASCII: no digit above 127. *)
Definition ascii_only_decimal : char -> option N := fun _ => None.

(** ** Rows of the tables (reconciliation/models.py) *)

Inductive Status : Type := Created | Processing | Completed | Failed.

Inductive MatchType : Type := Exact | Partial | Manual.

Inductive ExceptionType : Type :=
| UnmatchedLedger | UnmatchedBank | DuplicateMatch
| AmountDiscrepancy | DateDiscrepancy | Other.

Inductive Severity : Type := Low | Medium | High.

Inductive ExceptionStatus : Type := Open | Resolved | Ignored.

(** A primary key. *)
Definition key := positive.

Record ReconciliationSession : Type := {
  status : Status;
  date_tolerance_days : Z;
  amount_tolerance : Z;              (* hundredths *)
  total_ledger_records : Z;
  total_bank_records : Z;
  matched_records : Z;
  unmatched_ledger_records : Z;
  unmatched_bank_records : Z;
  processed_at : option nat          (* the clock reading, once completed *)
}.

Record LedgerRecord : Type := {
  lr_id : key;
  lr_date : Z;                       (* proleptic ordinal *)
  lr_description : str;
  lr_amount : Z;                     (* hundredths *)
  lr_reference : str;
  lr_account : str;
  lr_category : str;
  lr_row_number : Z;
  lr_is_matched : bool;
  lr_match_confidence : option float
}.

Record BankRecord : Type := {
  br_id : key;
  br_date : Z;
  br_description : str;
  br_amount : Z;
  br_reference : str;
  br_balance : option Z;
  br_row_number : Z;
  br_is_matched : bool;
  br_match_confidence : option float
}.

Record TransactionMatch : Type := {
  tm_id : key;
  tm_ledger_record : key;
  tm_bank_record : key;
  match_type : MatchType;
  confidence_score : float;
  date_difference_days : Z;
  amount_difference : Z;             (* hundredths *)
  is_confirmed : bool
}.

Record ReconciliationException : Type := {
  ex_id : key;
  exception_type : ExceptionType;
  ex_status : ExceptionStatus;
  ex_ledger_record : option key;
  ex_bank_record : option key;
  ex_description : str;
  severity : Severity
}.

(** ** Binary64 arithmetic: the values of floats

    The operations on floats are those of the kernel, specified by the
    library on [spec_float]: a sign, a mantissa and an exponent, or a zero,
    an infinity or a NaN.  To bound their results, a float is given its real
    value. *)

(** The power [2^e], and the value of a mantissa at an exponent. *)
Definition bpow (e : Z) : R := powerRZ 2 e.
Definition F2R (m e : Z) : R := (IZR m * bpow e)%R.

(** The value of a finite float (and 0 for the others). *)
Definition SF2R (f : spec_float) : R :=
  match f with
  | S754_finite s m e => F2R (cond_Zopp s (Zpos m)) e
  | _ => 0%R
  end.

(** A mantissa, an exponent and a location describe the real [v] when [v]
    lies from the mantissa up to the next one, and the location is exact
    whenever [v] is the mantissa's value. *)
Definition located (v : R) (m e : Z) (l : location) : Prop :=
  (F2R m e <= v < F2R (m + 1) e)%R /\ (v = F2R m e -> l = loc_Exact).

(** The floats [+0.0], the positive finite ones and [+inf]; and the same
    without [+inf]. *)
Definition sf_nonneg (f : spec_float) : bool :=
  match f with
  | S754_zero false | S754_finite false _ _ | S754_infinity false => true
  | _ => false
  end.

Definition sf_finite_nonneg (f : spec_float) : bool :=
  match f with
  | S754_zero false | S754_finite false _ _ => true
  | _ => false
  end.

(** What [n] right shifts of a mantissa with its two round bits leave. *)
Definition shifted (n : Z) (x y : shr_record) : Prop :=
  0 <= shr_m y /\ shr_m y = shr_m x / 2 ^ n
  /\ (shr_r x || shr_s x = false -> shr_m x = shr_m y * 2 ^ n ->
      shr_r y || shr_s y = false).

(** The float [1.0]. *)
Definition sf_one : spec_float := S754_finite false 4503599627370496 (-52).

(** ** The similarity scorer *)

Local Open Scope float_scope.

(** [float(n)] for an [int] [n] of magnitude below 2^63; exact below 2^53. *)
Definition float_of_int (n : Z) : float :=
  if (n <? 0)%Z
  then - PrimFloat.of_uint63 (Uint63.of_Z (- n))
  else PrimFloat.of_uint63 (Uint63.of_Z n).

(** [a / b] for two [int]s: the quotient rounded once, which for operands
    below 2^53 is the quotient of the two floats. *)
Definition int_truediv (a b : Z) : float := float_of_int a / float_of_int b.

(** [float(d)] for a [Decimal] [d] of [c] hundredths: the nearest float to
    [c / 100], which for [c] below 2^53 is the quotient of the two floats. *)
Definition float_of_hundredths (c : Z) : float := float_of_int c / 100.

(** [min(x, y)] returns its first argument unless the second is smaller. *)
Definition py_min (x y : float) : float := if y <? x then y else x.

(** A [set] of strings, kept as a list without repetition. *)
Definition str_mem (w : str) (s : list str) : bool := existsb (Str.eqb w) s.
Definition to_set (l : list str) : list str := nodup (list_eq_dec N.eq_dec) l.
Definition intersection (s1 s2 : list str) : list str :=
  List.filter (fun w => str_mem w s2) s1.
Definition union (s1 s2 : list str) : list str :=
  s1 ++ List.filter (fun w => negb (str_mem w s1)) s2.

Section Scorer.

(** What the interpreter's Unicode database supplies: [str.lower] and the
    class [\w] of a [str] pattern. *)
Variable lower : str -> str.
Variable is_word : char -> bool.

(** [re.sub(r'[^\w\s]', '', d.lower()).strip()]. *)
Definition clean_description (d : str) : str :=
  strip (List.filter (fun c => is_word c || isspace c) (lower d)).

Definition description_words (d : str) : list str :=
  to_set (split (clean_description d)).

Definition calculate_description_similarity (desc1 desc2 : str) : float :=
  let words1 := description_words desc1 in
  let words2 := description_words desc2 in
  match words1, words2 with
  | [], _ | _, [] => 0
  | _, _ =>
      let intersection := Z.of_nat (List.length (intersection words1 words2)) in
      let union := Z.of_nat (List.length (union words1 words2)) in
      if (union =? 0)%Z then 0 else int_truediv intersection union
  end.

(** [calculate_match_score], with the tolerance in days ([date_tolerance.days])
    and in hundredths. *)
Definition calculate_match_score (ledger_record : LedgerRecord)
    (bank_record : BankRecord) (date_tolerance : Z) (amount_tolerance : Z)
    : float :=
  let score := 0 in
  (* Date matching (30% weight) *)
  let date_diff := Z.abs (lr_date ledger_record - br_date bank_record) in
  let score :=
    if (date_diff =? 0)%Z then score + 0.3
    else if (date_diff <=? date_tolerance)%Z
         then score + 0.3 * (1 - int_truediv date_diff (date_tolerance + 1))
         else score in
  (* Amount matching (40% weight) *)
  let amount_diff := Z.abs (lr_amount ledger_record - br_amount bank_record) in
  let score :=
    if (amount_diff =? 0)%Z then score + 0.4
    else if (amount_diff <=? amount_tolerance)%Z
         then score + 0.4 * (1 - float_of_hundredths amount_diff
                                   / (float_of_hundredths amount_tolerance + 0.01))
         else score in
  (* Description similarity (30% weight) *)
  let desc_score :=
    calculate_description_similarity
      (lr_description ledger_record) (br_description bank_record) in
  let score := score + 0.3 * desc_score in
  py_min score 1.

End Scorer.

(** The tables for descriptions that are all ASCII. *)
Definition ascii_lower (s : str) : str := List.map lower_ascii s.
Definition ascii_word (c : char) : bool :=
  is_digit c || is_upper c || is_lower c || (c =? 95)%N.

(** ** The score as the specification describes it

    What [calculate_match_score] is to compute: a weighted sum of a date, an
    amount and a description component, with the weights 0.30, 0.40 and
    0.30, clamped to 1.  It is a function of the two differences, the two
    descriptions and the two tolerances. *)

Section WeightedSum.

Variable lower : str -> str.
Variable is_word : char -> bool.

Definition date_weight : float := 0.3.
Definition amount_weight : float := 0.4.
Definition description_weight : float := 0.3.

(** The full weight at no difference; within the tolerance, the weight
    times a linear decay, of denominator the tolerance plus one; nothing
    beyond the tolerance. *)
Definition date_component (date_diff date_tolerance : Z) : float :=
  if (date_diff =? 0)%Z then date_weight
  else if (date_diff <=? date_tolerance)%Z
       then date_weight * (1 - int_truediv date_diff (date_tolerance + 1))
       else 0.

(** The same on amounts, of denominator the tolerance plus 0.01. *)
Definition amount_component (amount_diff amount_tolerance : Z) : float :=
  if (amount_diff =? 0)%Z then amount_weight
  else if (amount_diff <=? amount_tolerance)%Z
       then amount_weight
            * (1 - float_of_hundredths amount_diff
                   / (float_of_hundredths amount_tolerance + 0.01))
       else 0.

(** The word set of a description: lowercased, stripped of the characters
    that are neither of a word nor white space, cut at white space. *)
Definition word_set (d : str) : list str :=
  to_set (split (List.filter (fun c => is_word c || isspace c) (lower d))).

(** The Jaccard similarity of two word sets, 0 when either is empty. *)
Definition jaccard (words1 words2 : list str) : float :=
  match words1, words2 with
  | [], _ | _, [] => 0
  | _, _ =>
      int_truediv (Z.of_nat (List.length (intersection words1 words2)))
        (Z.of_nat (List.length (union words1 words2)))
  end.

Definition description_component (desc1 desc2 : str) : float :=
  description_weight * jaccard (word_set desc1) (word_set desc2).

Definition weighted_score (date_diff amount_diff : Z) (desc1 desc2 : str)
    (date_tolerance amount_tolerance : Z) : float :=
  py_min (date_component date_diff date_tolerance
          + amount_component amount_diff amount_tolerance
          + description_component desc1 desc2) 1.

End WeightedSum.

Local Close Scope float_scope.

(** ** The database of one session, and the state of a running task *)

(** The tables, each in insertion order.  One session is modelled: every
    record, match and exception row belongs to it. *)
Record DB : Type := {
  db_session : option ReconciliationSession;
  db_ledger : list LedgerRecord;
  db_bank : list BankRecord;
  db_matches : list TransactionMatch;
  db_exceptions : list ReconciliationException
}.

(** What a task runs in: the database; the task's local variable [session]
    (unbound at first); the next key [uuid4] draws; the clock; and
    [fault_at], the number of database statements that still succeed before
    one raises (no statement raises when it is [None]). *)
Record World : Type := {
  db : DB;
  session : option ReconciliationSession;
  next_key : key;
  now : nat;
  fault_at : option nat
}.

Inductive exn : Type :=
| DoesNotExist          (* ReconciliationSession.DoesNotExist *)
| OverflowError         (* timedelta out of range *)
| UnboundLocalError     (* a local variable read before assignment *)
| DatabaseError.        (* a statement the database failed *)

Inductive outcome (A : Type) : Type :=
| Return (a : A)
| Raise (e : exn).

Arguments Return {A} a.
Arguments Raise {A} e.

(** A computation that reads and writes the world and returns or raises;
    what was written before a [Raise] stays written. *)
Definition M (A : Type) : Type := World -> outcome A * World.

Definition ret {A} (a : A) : M A := fun w => (Return a, w).

Definition bind {A B} (m : M A) (k : A -> M B) : M B :=
  fun w =>
    match m w with
    | (Return a, w') => k a w'
    | (Raise e, w') => (Raise e, w')
    end.

Definition raise {A} (e : exn) : M A := fun w => (Raise e, w).

(** [try: m except: handler]. *)
Definition try_except {A} (m : M A) (handler : exn -> M A) : M A :=
  fun w =>
    match m w with
    | (Return a, w') => (Return a, w')
    | (Raise e, w') => handler e w'
    end.

Declare Scope task_scope.
Delimit Scope task_scope with task.
Notation "x <- m ;; k" := (bind m (fun x => k))
  (at level 100, m at next level, right associativity) : task_scope.
Notation "m ;; k" := (bind m (fun _ => k))
  (at level 100, right associativity) : task_scope.
Local Open Scope task_scope.

(** A [for] loop that threads an accumulator. *)
Fixpoint for_each {A S} (l : list A) (body : S -> A -> M S) (s : S) : M S :=
  match l with
  | [] => ret s
  | x :: l' => s' <- body s x ;; for_each l' body s'
  end.

Definition get_world : M World := fun w => (Return w, w).

Definition set_db (d : DB) : M unit :=
  fun w => (Return tt, {| db := d; session := session w; next_key := next_key w;
                          now := now w; fault_at := fault_at w |}).

Definition set_session (s : option ReconciliationSession) : M unit :=
  fun w => (Return tt, {| db := db w; session := s; next_key := next_key w;
                          now := now w; fault_at := fault_at w |}).

(** [uuid.uuid4()]: a key no row has yet. *)
Definition uuid4 : M key :=
  fun w => (Return (next_key w),
            {| db := db w; session := session w; next_key := Pos.succ (next_key w);
               now := now w; fault_at := fault_at w |}).

(** One statement sent to the database: it raises when the fault is due. *)
Definition statement : M unit :=
  fun w =>
    match fault_at w with
    | None => (Return tt, w)
    | Some (S n) =>
        (Return tt, {| db := db w; session := session w; next_key := next_key w;
                       now := now w; fault_at := Some n |})
    | Some O =>
        (Raise DatabaseError,
         {| db := db w; session := session w; next_key := next_key w;
            now := now w; fault_at := None |})
    end.

(** *** Query sets *)

(** A query set is a query not yet run: the rows it yields from a database. *)
Definition QuerySet (A : Type) : Type := DB -> list A.

Fixpoint insert_by {A} (le : A -> A -> bool) (x : A) (l : list A) : list A :=
  match l with
  | [] => [x]
  | y :: l' => if le x y then x :: l else y :: insert_by le x l'
  end.

(** [ORDER BY]: rows that tie keep their table order. *)
Definition order_by {A} (le : A -> A -> bool) (l : list A) : list A :=
  fold_right (insert_by le) [] l.

(** [Meta.ordering = ['date', 'amount']] of both record models. *)
Definition date_amount_le (d1 a1 d2 a2 : Z) : bool :=
  (d1 <? d2) || ((d1 =? d2) && (a1 <=? a2)).

Definition ledger_le (a b : LedgerRecord) : bool :=
  date_amount_le (lr_date a) (lr_amount a) (lr_date b) (lr_amount b).

Definition bank_le (a b : BankRecord) : bool :=
  date_amount_le (br_date a) (br_amount a) (br_date b) (br_amount b).

(** [session.ledger_records], [session.bank_records], [session.matches]. *)
Definition session_ledger_records : QuerySet LedgerRecord :=
  fun d => order_by ledger_le (db_ledger d).

Definition session_bank_records : QuerySet BankRecord :=
  fun d => order_by bank_le (db_bank d).

Definition session_matches : QuerySet TransactionMatch :=
  fun d => db_matches d.

(** [qs.filter(...)]. *)
Definition qs_filter {A} (p : A -> bool) (qs : QuerySet A) : QuerySet A :=
  fun d => List.filter p (qs d).

Definition ledger_unmatched (r : LedgerRecord) : bool := negb (lr_is_matched r).
Definition bank_unmatched (r : BankRecord) : bool := negb (br_is_matched r).

(** The query sets [ledger_records] and [bank_records] of
    [start_reconciliation_matching] (lines 74-75). *)
Definition task_ledger_records : QuerySet LedgerRecord :=
  qs_filter ledger_unmatched session_ledger_records.

Definition task_bank_records : QuerySet BankRecord :=
  qs_filter bank_unmatched session_bank_records.

(** Iterating a query set runs it. *)
Definition fetch {A} (qs : QuerySet A) : M (list A) :=
  statement ;; w <- get_world ;; ret (qs (db w)).

(** [qs.count()]. *)
Definition count {A} (qs : QuerySet A) : M Z :=
  statement ;; w <- get_world ;; ret (Z.of_nat (List.length (qs (db w)))).

(** *** Writes *)

(** [UPDATE ... WHERE id = k]: every row with the key takes the new value. *)
Definition update_rows {A} (id : A -> key) (r : A) (l : list A) : list A :=
  List.map (fun x => if Pos.eqb (id x) (id r) then r else x) l.

(** [obj.save()] of an object that has a key: the row is updated, or
    inserted when the table has none with this key. *)
Definition save_rows {A} (id : A -> key) (r : A) (l : list A) : list A :=
  if existsb (fun x => Pos.eqb (id x) (id r)) l
  then update_rows id r l
  else l ++ [r].

(** The tables after each kind of write. *)
Definition db_save_ledger (r : LedgerRecord) (d : DB) : DB :=
  {| db_session := db_session d;
     db_ledger := save_rows lr_id r (db_ledger d);
     db_bank := db_bank d;
     db_matches := db_matches d;
     db_exceptions := db_exceptions d |}.

Definition db_save_bank (r : BankRecord) (d : DB) : DB :=
  {| db_session := db_session d;
     db_ledger := db_ledger d;
     db_bank := save_rows br_id r (db_bank d);
     db_matches := db_matches d;
     db_exceptions := db_exceptions d |}.

Definition db_add_match (m : TransactionMatch) (d : DB) : DB :=
  {| db_session := db_session d;
     db_ledger := db_ledger d;
     db_bank := db_bank d;
     db_matches := db_matches d ++ [m];
     db_exceptions := db_exceptions d |}.

Definition db_add_exception (e : ReconciliationException) (d : DB) : DB :=
  {| db_session := db_session d;
     db_ledger := db_ledger d;
     db_bank := db_bank d;
     db_matches := db_matches d;
     db_exceptions := db_exceptions d ++ [e] |}.

Definition db_save_session (s : ReconciliationSession) (d : DB) : DB :=
  {| db_session := Some s;
     db_ledger := db_ledger d;
     db_bank := db_bank d;
     db_matches := db_matches d;
     db_exceptions := db_exceptions d |}.

Definition db_add_ledger (rows : list LedgerRecord) (d : DB) : DB :=
  {| db_session := db_session d;
     db_ledger := db_ledger d ++ rows;
     db_bank := db_bank d;
     db_matches := db_matches d;
     db_exceptions := db_exceptions d |}.

Definition db_add_bank (rows : list BankRecord) (d : DB) : DB :=
  {| db_session := db_session d;
     db_ledger := db_ledger d;
     db_bank := db_bank d ++ rows;
     db_matches := db_matches d;
     db_exceptions := db_exceptions d |}.

(** A write is one statement; when it raises, nothing is written. *)
Definition write (f : DB -> DB) : M unit :=
  statement ;; w <- get_world ;; set_db (f (db w)).

Definition LedgerRecord_save (r : LedgerRecord) : M unit :=
  write (db_save_ledger r).

Definition BankRecord_save (r : BankRecord) : M unit :=
  write (db_save_bank r).

(** [TransactionMatch.objects.create(...)], given the row but for its key. *)
Definition TransactionMatch_create (mk : key -> TransactionMatch)
    : M TransactionMatch :=
  k <- uuid4 ;;
  write (db_add_match (mk k)) ;;
  ret (mk k).

(** [ReconciliationException.objects.create(...)]. *)
Definition ReconciliationException_create (mk : key -> ReconciliationException)
    : M unit :=
  k <- uuid4 ;;
  write (db_add_exception (mk k)).

(** [session = ReconciliationSession.objects.get(id=session_id)]. *)
Definition ReconciliationSession_get : M unit :=
  statement ;;
  w <- get_world ;;
  match db_session (db w) with
  | Some s => set_session (Some s)
  | None => raise DoesNotExist
  end.

(** Reading the local variable [session]. *)
Definition the_session : M ReconciliationSession :=
  w <- get_world ;;
  match session w with
  | Some s => ret s
  | None => raise UnboundLocalError
  end.

(** An assignment to attributes of [session], in memory only. *)
Definition session_assign (f : ReconciliationSession -> ReconciliationSession)
    : M unit :=
  s <- the_session ;; set_session (Some (f s)).

(** [session.save()]. *)
Definition session_save : M unit :=
  s <- the_session ;;
  write (db_save_session s).

(** Attribute assignments on a session object. *)
Definition with_status (v : Status) (s : ReconciliationSession) :=
  {| status := v; date_tolerance_days := date_tolerance_days s;
     amount_tolerance := amount_tolerance s;
     total_ledger_records := total_ledger_records s;
     total_bank_records := total_bank_records s;
     matched_records := matched_records s;
     unmatched_ledger_records := unmatched_ledger_records s;
     unmatched_bank_records := unmatched_bank_records s;
     processed_at := processed_at s |}.

Definition with_total_ledger_records (v : Z) (s : ReconciliationSession) :=
  {| status := status s; date_tolerance_days := date_tolerance_days s;
     amount_tolerance := amount_tolerance s;
     total_ledger_records := v;
     total_bank_records := total_bank_records s;
     matched_records := matched_records s;
     unmatched_ledger_records := unmatched_ledger_records s;
     unmatched_bank_records := unmatched_bank_records s;
     processed_at := processed_at s |}.

Definition with_total_bank_records (v : Z) (s : ReconciliationSession) :=
  {| status := status s; date_tolerance_days := date_tolerance_days s;
     amount_tolerance := amount_tolerance s;
     total_ledger_records := total_ledger_records s;
     total_bank_records := v;
     matched_records := matched_records s;
     unmatched_ledger_records := unmatched_ledger_records s;
     unmatched_bank_records := unmatched_bank_records s;
     processed_at := processed_at s |}.

Definition with_matched_records (v : Z) (s : ReconciliationSession) :=
  {| status := status s; date_tolerance_days := date_tolerance_days s;
     amount_tolerance := amount_tolerance s;
     total_ledger_records := total_ledger_records s;
     total_bank_records := total_bank_records s;
     matched_records := v;
     unmatched_ledger_records := unmatched_ledger_records s;
     unmatched_bank_records := unmatched_bank_records s;
     processed_at := processed_at s |}.

Definition with_unmatched_ledger_records (v : Z) (s : ReconciliationSession) :=
  {| status := status s; date_tolerance_days := date_tolerance_days s;
     amount_tolerance := amount_tolerance s;
     total_ledger_records := total_ledger_records s;
     total_bank_records := total_bank_records s;
     matched_records := matched_records s;
     unmatched_ledger_records := v;
     unmatched_bank_records := unmatched_bank_records s;
     processed_at := processed_at s |}.

Definition with_unmatched_bank_records (v : Z) (s : ReconciliationSession) :=
  {| status := status s; date_tolerance_days := date_tolerance_days s;
     amount_tolerance := amount_tolerance s;
     total_ledger_records := total_ledger_records s;
     total_bank_records := total_bank_records s;
     matched_records := matched_records s;
     unmatched_ledger_records := unmatched_ledger_records s;
     unmatched_bank_records := v;
     processed_at := processed_at s |}.

Definition with_processed_at (v : option nat) (s : ReconciliationSession) :=
  {| status := status s; date_tolerance_days := date_tolerance_days s;
     amount_tolerance := amount_tolerance s;
     total_ledger_records := total_ledger_records s;
     total_bank_records := total_bank_records s;
     matched_records := matched_records s;
     unmatched_ledger_records := unmatched_ledger_records s;
     unmatched_bank_records := unmatched_bank_records s;
     processed_at := v |}.

(** Marking a record as matched (lines 295-296 and 299-300). *)
Definition ledger_mark_matched (c : float) (r : LedgerRecord) : LedgerRecord :=
  {| lr_id := lr_id r; lr_date := lr_date r; lr_description := lr_description r;
     lr_amount := lr_amount r; lr_reference := lr_reference r;
     lr_account := lr_account r; lr_category := lr_category r;
     lr_row_number := lr_row_number r;
     lr_is_matched := true; lr_match_confidence := Some c |}.

Definition bank_mark_matched (c : float) (r : BankRecord) : BankRecord :=
  {| br_id := br_id r; br_date := br_date r; br_description := br_description r;
     br_amount := br_amount r; br_reference := br_reference r;
     br_balance := br_balance r; br_row_number := br_row_number r;
     br_is_matched := true; br_match_confidence := Some c |}.

(** [timedelta(days=n).days]: the constructor raises beyond its range. *)
Definition timedelta_days (n : Z) : M Z :=
  if (Z.abs n <=? 999999999)%Z then ret n else raise OverflowError.

(** What a task returns: one of its two success dictionaries, or one of the
    two error dictionaries. *)
Inductive TaskResult : Type :=
| FilesProcessed (ledger_records bank_records : Z)
| MatchingDone (matches_found : Z)
| ErrorNotFound
| Error.

(** ** The matching engine *)

Section Engine.

Variable lower : str -> str.
Variable is_word : char -> bool.

(** The variables of the inner loop: [best_match], [best_score], and
    [score], which is unbound until a first pair was scored. *)
Record Scan : Type := {
  best_match : option BankRecord;
  best_score : float;
  score : option float
}.

(** One turn of the inner loop (lines 258-268). *)
Definition consider (ledger_record : LedgerRecord)
    (date_tolerance amount_tolerance : Z) (st : Scan)
    (bank_record : BankRecord) : Scan :=
  let sc := calculate_match_score lower is_word ledger_record bank_record
              date_tolerance amount_tolerance in
  if ((best_score st <? sc) && (0.7 <=? sc))%float
  then {| best_match := Some bank_record; best_score := sc; score := Some sc |}
  else {| best_match := best_match st; best_score := best_score st;
          score := Some sc |}.

(** The inner loop over the candidates, from [best_match = None] and
    [best_score = 0.0]; [score] keeps what the turn before left in it. *)
Definition scan_candidates (ledger_record : LedgerRecord)
    (date_tolerance amount_tolerance : Z) (score : option float)
    (candidates : list BankRecord) : Scan :=
  fold_left (consider ledger_record date_tolerance amount_tolerance)
    candidates
    {| best_match := None; best_score := 0%float; score := score |}.

(** Lines 277-282. *)
Definition classify (score : float) : MatchType :=
  if (0.95 <=? score)%float then Exact
  else if (0.8 <=? score)%float then Partial
  else Partial.

(** The row of lines 272-292, but for its key: [score] decides the type
    and [best_score] is recorded. *)
Definition make_match (ledger_record : LedgerRecord) (best : BankRecord)
    (best_score score : float) (k : key) : TransactionMatch :=
  let date_diff := Z.abs (lr_date ledger_record - br_date best) in
  let amount_diff := Z.abs (lr_amount ledger_record - br_amount best) in
  {| tm_id := k;
     tm_ledger_record := lr_id ledger_record;
     tm_bank_record := br_id best;
     match_type := classify score;
     confidence_score := best_score;
     date_difference_days := date_diff;
     amount_difference := amount_diff;
     is_confirmed := false |}.

(** One turn of the outer loop (lines 254-303), on the list [matches] and
    the variable [score]. *)
Definition match_ledger_record (date_tolerance amount_tolerance : Z)
    (bank_records : QuerySet BankRecord)
    (acc : list TransactionMatch * option float)
    (ledger_record : LedgerRecord)
    : M (list TransactionMatch * option float) :=
  candidates <- fetch (qs_filter bank_unmatched bank_records) ;;
  let st := scan_candidates ledger_record date_tolerance amount_tolerance
              (snd acc) candidates in
  match best_match st with
  | Some best =>
      sc <- match score st with
            | Some sc => ret sc
            | None => raise UnboundLocalError
            end ;;
      m <- TransactionMatch_create
             (make_match ledger_record best (best_score st) sc) ;;
      LedgerRecord_save (ledger_mark_matched (best_score st) ledger_record) ;;
      BankRecord_save (bank_mark_matched (best_score st) best) ;;
      ret (fst acc ++ [m], score st)
  | None => ret (fst acc, score st)
  end.

(** [perform_transaction_matching(session, ledger_records, bank_records)]. *)
Definition perform_transaction_matching (session : ReconciliationSession)
    (ledger_records : QuerySet LedgerRecord)
    (bank_records : QuerySet BankRecord) : M (list TransactionMatch) :=
  date_tolerance <- timedelta_days (date_tolerance_days session) ;;
  let amount_tolerance := amount_tolerance session in
  rows <- fetch ledger_records ;;
  r <- for_each rows
         (match_ledger_record date_tolerance amount_tolerance bank_records)
         ([], None) ;;
  ret (fst r).

(** ** Exceptions and statistics *)

Definition unmatched_ledger_exception (record : LedgerRecord) (k : key)
    : ReconciliationException :=
  {| ex_id := k;
     exception_type := UnmatchedLedger;
     ex_status := Open;
     ex_ledger_record := Some (lr_id record);
     ex_bank_record := None;
     ex_description :=
       lit "Unmatched ledger transaction: " ++ slice_to 100 (lr_description record);
     severity := Medium |}.

Definition unmatched_bank_exception (record : BankRecord) (k : key)
    : ReconciliationException :=
  {| ex_id := k;
     exception_type := UnmatchedBank;
     ex_status := Open;
     ex_ledger_record := None;
     ex_bank_record := Some (br_id record);
     ex_description :=
       lit "Unmatched bank transaction: " ++ slice_to 100 (br_description record);
     severity := Medium |}.

(** [create_exception_records(session)]. *)
Definition create_exception_records : M unit :=
  unmatched_ledger <- fetch (qs_filter ledger_unmatched session_ledger_records) ;;
  for_each unmatched_ledger
    (fun _ record =>
       ReconciliationException_create (unmatched_ledger_exception record))
    tt ;;
  unmatched_bank <- fetch (qs_filter bank_unmatched session_bank_records) ;;
  for_each unmatched_bank
    (fun _ record =>
       ReconciliationException_create (unmatched_bank_exception record))
    tt.

(** [update_session_statistics(session)]. *)
Definition update_session_statistics : M unit :=
  n <- count session_matches ;;
  session_assign (with_matched_records n) ;;
  n <- count (qs_filter ledger_unmatched session_ledger_records) ;;
  session_assign (with_unmatched_ledger_records n) ;;
  n <- count (qs_filter bank_unmatched session_bank_records) ;;
  session_assign (with_unmatched_bank_records n) ;;
  session_save.

(** The handler of [except Exception] in both tasks (lines 52-59 and
    106-113). *)
Definition on_exception : M TaskResult :=
  w <- get_world ;;
  match session w with
  | Some _ =>
      session_assign (with_status Failed) ;;
      session_save ;;
      ret Error
  | None => ret Error
  end.

Definition except_clauses (e : exn) : M TaskResult :=
  match e with
  | DoesNotExist => ret ErrorNotFound
  | _ => on_exception
  end.

(** The [try] block of [start_reconciliation_matching] once the session is
    loaded (lines 69-100). *)
Definition matching_steps : M TaskResult :=
  s <- the_session ;;
  match status s with
  | Processing => ret tt
  | _ => session_assign (with_status Processing) ;; session_save
  end ;;
  let ledger_records := task_ledger_records in
  let bank_records := task_bank_records in
  count ledger_records ;;
  count bank_records ;;
  s <- the_session ;;
  matches <- perform_transaction_matching s ledger_records bank_records ;;
  create_exception_records ;;
  update_session_statistics ;;
  w <- get_world ;;
  session_assign (with_status Completed) ;;
  session_assign (with_processed_at (Some (now w))) ;;
  session_save ;;
  ret (MatchingDone (Z.of_nat (List.length matches))).

(** [start_reconciliation_matching(session_id)]. *)
Definition start_reconciliation_matching : M TaskResult :=
  set_session None ;;
  try_except (ReconciliationSession_get ;; matching_steps) except_clauses.

End Engine.

(** ** File processing *)

Section Files.

Variable unicode_decimal : char -> option N.
Variable float_repr : float -> str.
Variable series_repr : nat -> str -> list Cell -> str.
Variable strptime : str -> str -> option Z.
Variable to_datetime : str -> option DateValue.

(** What the database does with the values of a row to insert.  How it
    stores a [Decimal] in a column of two decimal places, as its number of
    hundredths, and a date, as its ordinal: [None] when it rejects the
    value.  Whether it accepts a text for a column of the given maximal
    length ([None] for a column without one), and a dictionary as the JSON
    value of [raw_data]. *)
Variable db_amount : Decimal -> option Z.
Variable db_date : DateValue -> option Z.
Variable db_text : option nat -> str -> bool.
Variable db_json : list (str * Cell) -> bool.

(** The row inserted for a record, under a key; [None] when the database
    rejects one of its values. *)
Definition ledger_table_row (k : key) (r : NewLedgerRecord)
    : option LedgerRecord :=
  match db_date (nl_date r), db_amount (nl_amount r) with
  | Some d, Some a =>
      if db_text None (nl_description r)
         && db_text (Some 255%nat) (nl_reference r)
         && db_text (Some 255%nat) (nl_account r)
         && db_text (Some 255%nat) (nl_category r)
         && db_json (nl_raw_data r)
      then Some {| lr_id := k; lr_date := d;
                   lr_description := nl_description r; lr_amount := a;
                   lr_reference := nl_reference r; lr_account := nl_account r;
                   lr_category := nl_category r;
                   lr_row_number := nl_row_number r;
                   lr_is_matched := false; lr_match_confidence := None |}
      else None
  | _, _ => None
  end.

Definition bank_table_row (k : key) (r : NewBankRecord)
    : option BankRecord :=
  match db_date (nb_date r), db_amount (nb_amount r),
        db_amount (nb_balance r) with
  | Some d, Some a, Some b =>
      if db_text None (nb_description r)
         && db_text (Some 255%nat) (nb_reference r)
         && db_json (nb_raw_data r)
      then Some {| br_id := k; br_date := d;
                   br_description := nb_description r; br_amount := a;
                   br_reference := nb_reference r; br_balance := Some b;
                   br_row_number := nb_row_number r;
                   br_is_matched := false; br_match_confidence := None |}
      else None
  | _, _, _ => None
  end.

(** The rows [bulk_create] inserts, keyed from [k] on; [None] when the
    database rejects one of them. *)
Fixpoint ledger_table_rows (k : key) (records : list NewLedgerRecord)
    : option (list LedgerRecord) :=
  match records with
  | [] => Some []
  | r :: records' =>
      match ledger_table_row k r, ledger_table_rows (Pos.succ k) records' with
      | Some row, Some rows => Some (row :: rows)
      | _, _ => None
      end
  end.

Fixpoint bank_table_rows (k : key) (records : list NewBankRecord)
    : option (list BankRecord) :=
  match records with
  | [] => Some []
  | r :: records' =>
      match bank_table_row k r, bank_table_rows (Pos.succ k) records' with
      | Some row, Some rows => Some (row :: rows)
      | _, _ => None
      end
  end.

Definition advance_key (n : nat) : M unit :=
  fun w => (Return tt,
            {| db := db w; session := session w;
               next_key := Nat.iter n Pos.succ (next_key w);
               now := now w; fault_at := fault_at w |}).

(** [LedgerRecord.objects.bulk_create(records)]: one statement, which
    fails when the database rejects a row; the exception it raises then
    is not [DoesNotExist]. *)
Definition LedgerRecord_bulk_create (records : list NewLedgerRecord) : M unit :=
  w <- get_world ;;
  advance_key (List.length records) ;;
  match ledger_table_rows (next_key w) records with
  | Some rows => write (db_add_ledger rows)
  | None => statement ;; raise DatabaseError
  end.

Definition BankRecord_bulk_create (records : list NewBankRecord) : M unit :=
  w <- get_world ;;
  advance_key (List.length records) ;;
  match bank_table_rows (next_key w) records with
  | Some rows => write (db_add_bank rows)
  | None => statement ;; raise DatabaseError
  end.

(** [process_ledger_file(session)], on the frame read from the file. *)
Definition process_ledger_file (df : DataFrame) : M (list NewLedgerRecord) :=
  let records :=
    ledger_file_records unicode_decimal float_repr series_repr strptime
      to_datetime df in
  match records with
  | [] => ret tt
  | _ => LedgerRecord_bulk_create records
  end ;;
  ret records.

(** [process_bank_statement_file(session)]. *)
Definition process_bank_statement_file (df : DataFrame)
    : M (list NewBankRecord) :=
  let records :=
    bank_file_records unicode_decimal float_repr series_repr strptime
      to_datetime df in
  match records with
  | [] => ret tt
  | _ => BankRecord_bulk_create records
  end ;;
  ret records.

(** [process_reconciliation_files(session_id)], on the two frames. *)
Definition process_reconciliation_files (ledger_df bank_df : DataFrame)
    : M TaskResult :=
  set_session None ;;
  try_except
    (ReconciliationSession_get ;;
     session_assign (with_status Processing) ;;
     session_save ;;
     ledger_records <- process_ledger_file ledger_df ;;
     session_assign
       (with_total_ledger_records (Z.of_nat (List.length ledger_records))) ;;
     bank_records <- process_bank_statement_file bank_df ;;
     session_assign
       (with_total_bank_records (Z.of_nat (List.length bank_records))) ;;
     session_save ;;
     ret (FilesProcessed (Z.of_nat (List.length ledger_records))
                         (Z.of_nat (List.length bank_records))))
    except_clauses.

End Files.


(** ** Auxiliary notions of the proofs *)

(** What a world keeps apart from its database and its fault counter. *)
Definition same_frame (w w' : World) : Prop :=
  session w' = session w /\ next_key w' = next_key w /\ now w' = now w.

Section ScanInvariant.

Variable lower : str -> str.
Variable is_word : char -> bool.
Variable ledger_record : LedgerRecord.
Variables date_tolerance amount_tolerance : Z.

(** What the variables of the inner loop satisfy among the candidates
    [seen] so far. *)
Definition scan_ok (seen : list BankRecord) (st : Scan) : Prop :=
  match best_match st with
  | Some b =>
      In b seen
      /\ best_score st
         = calculate_match_score lower is_word ledger_record b
             date_tolerance amount_tolerance
      /\ (0.7 <=? best_score st)%float = true
      /\ exists sc, score st = Some sc
  | None => best_score st = 0%float
  end.

End ScanInvariant.

Section PassInvariant.

Variable lower : str -> str.
Variable is_word : char -> bool.
Variables date_tolerance amount_tolerance : Z.

(** The database when the outer loop starts, and the rows it iterates. *)
Variable d0 : DB.
Variable rows : list LedgerRecord.

(** Where a match of the pass comes from: a ledger row of the loop and a
    bank row that was unmatched when the loop started, whose score it
    records, at or above the threshold. *)
Definition match_origin (m : TransactionMatch) : Prop :=
  exists l b,
    In l rows /\ In b (db_bank d0) /\ br_is_matched b = false
    /\ tm_ledger_record m = lr_id l /\ tm_bank_record m = br_id b
    /\ confidence_score m
       = calculate_match_score lower is_word l b date_tolerance amount_tolerance
    /\ (0.7 <=? confidence_score m)%float = true.

(** The records of the matches carry their flag and their confidence. *)
Definition bank_rows_agree (new : list TransactionMatch) (d : DB) : Prop :=
  forall m r, In m new -> In r (db_bank d) -> br_id r = tm_bank_record m ->
    br_is_matched r = true
    /\ br_match_confidence r = Some (confidence_score m).

Definition ledger_rows_agree (new : list TransactionMatch) (d : DB) : Prop :=
  forall m r, In m new -> In r (db_ledger d) -> lr_id r = tm_ledger_record m ->
    lr_is_matched r = true
    /\ lr_match_confidence r = Some (confidence_score m).

(** The invariant of the outer loop, at the head of a turn with the rows
    [rest] still to come. *)
Record pass_inv (rest : list LedgerRecord)
    (acc : list TransactionMatch * option float) (w : World) : Prop := {
  pi_matches : db_matches (db w) = db_matches d0 ++ fst acc;
  pi_origin : Forall match_origin (fst acc);
  pi_done : exists proc,
      rows = proc ++ rest
      /\ forall m, In m (fst acc) ->
           In (tm_ledger_record m) (List.map lr_id proc);
  pi_bank : bank_rows_agree (fst acc) (db w);
  pi_bank_nodup : NoDup (List.map tm_bank_record (fst acc));
  pi_ledger_nodup :
    NoDup (List.map lr_id rows) -> NoDup (List.map tm_ledger_record (fst acc));
  pi_pool : forall r, In r (db_bank (db w)) -> br_is_matched r = false ->
              In r (db_bank d0);
  pi_ledger_kept : forall r, In r (db_ledger d0) ->
      (forall m, In m (fst acc) -> tm_ledger_record m <> lr_id r) ->
      In r (db_ledger (db w))
}.

(** What holds however the loop ends. *)
Definition pass_exit (w : World) : Prop :=
  exists new,
    db_matches (db w) = db_matches d0 ++ new
    /\ Forall match_origin new
    /\ NoDup (List.map tm_bank_record new)
    /\ (NoDup (List.map lr_id rows) ->
        NoDup (List.map tm_ledger_record new)).

(** What the loop keeps besides, when the keys of each table are
    distinct. *)
Record pass_inv_keyed (rest : list LedgerRecord)
    (acc : list TransactionMatch * option float) (w : World) : Prop := {
  pk_ledger_ids : List.map lr_id (db_ledger (db w)) = List.map lr_id (db_ledger d0);
  pk_bank_ids : List.map br_id (db_bank (db w)) = List.map br_id (db_bank d0);
  pk_rest : forall l, In l rest -> In l (db_ledger (db w));
  pk_ledger_count :
    (List.length (fst acc)
     + List.length (List.filter ledger_unmatched (db_ledger (db w))))%nat
    = List.length (List.filter ledger_unmatched (db_ledger d0));
  pk_bank_count :
    (List.length (fst acc)
     + List.length (List.filter bank_unmatched (db_bank (db w))))%nat
    = List.length (List.filter bank_unmatched (db_bank d0));
  pk_ledger : ledger_rows_agree (fst acc) (db w);
  pk_ledger_src : forall r, In r (db_ledger (db w)) ->
      In r (db_ledger d0)
      \/ exists m, In m (fst acc) /\ tm_ledger_record m = lr_id r;
  pk_bank_src : forall r, In r (db_bank (db w)) ->
      In r (db_bank d0)
      \/ exists m, In m (fst acc) /\ tm_bank_record m = br_id r
}.

End PassInvariant.

(** [s.split(c)] for a separator [c] of one character: the pieces between
    its occurrences, at least one. *)
Fixpoint split_on (c : char) (s : str) : list str :=
  match s with
  | [] => [[]]
  | x :: s' =>
      if (x =? c)%N then [] :: split_on c s'
      else match split_on c s' with
           | p :: ps => (x :: p) :: ps
           | [] => [[x]]
           end
  end.

(** ** Sample sessions *)

Module Sample.

Definition ledger (id : key) (date : Z) (description : string)
    (amount row : Z) : LedgerRecord :=
  {| lr_id := id; lr_date := date; lr_description := lit description;
     lr_amount := amount; lr_reference := []; lr_account := [];
     lr_category := []; lr_row_number := row;
     lr_is_matched := false; lr_match_confidence := None |}.

Definition bank (id : key) (date : Z) (description : string)
    (amount row : Z) : BankRecord :=
  {| br_id := id; br_date := date; br_description := lit description;
     br_amount := amount; br_reference := []; br_balance := None;
     br_row_number := row;
     br_is_matched := false; br_match_confidence := None |}.

(** A session whose files were processed into [nl] ledger and [nb] bank
    records. *)
Definition parsed_session (date_tolerance amount_tolerance nl nb : Z)
    : ReconciliationSession :=
  {| status := Processing;
     date_tolerance_days := date_tolerance;
     amount_tolerance := amount_tolerance;
     total_ledger_records := nl; total_bank_records := nb;
     matched_records := 0; unmatched_ledger_records := 0;
     unmatched_bank_records := 0; processed_at := None |}.

Definition world (s : ReconciliationSession) (ledger : list LedgerRecord)
    (bank : list BankRecord) (fault : option nat) : World :=
  {| db := {| db_session := Some s; db_ledger := ledger; db_bank := bank;
              db_matches := []; db_exceptions := [] |};
     session := None; next_key := 100%positive; now := 0%nat;
     fault_at := fault |}.

(** One ledger record; a bank record equal to it in date, amount and
    description; and a later, unrelated bank record. *)
Definition last_score_world : World :=
  world (parsed_session 0 0 1 2)
    [ledger 1%positive 738000 "rent" 5000 1]
    [bank 11%positive 738000 "rent" 5000 1; bank 12%positive 738100 "coffee" 700 2] None.

(** Two ledger records, the one in row 2 dated before the one in row 1,
    and one bank record within three days of both. *)
Definition row_order_world : World :=
  world (parsed_session 3 0 2 1)
    [ledger 1%positive 738012 "rent" 5000 1; ledger 2%positive 738010 "rent" 5000 2]
    [bank 11%positive 738011 "rent" 5000 1] None.

(** Two ledger records and their two bank records, with a fault due after
    the given number of statements, if any. *)
Definition two_pairs_world (fault : option nat) : World :=
  world (parsed_session 0 0 2 2)
    [ledger 1%positive 738010 "rent" 5000 1; ledger 2%positive 738020 "tax" 700 2]
    [bank 11%positive 738010 "rent" 5000 1; bank 12%positive 738020 "tax" 700 2] fault.

(** A ledger record and a bank record with nothing in common. *)
Definition unrelated_world : World :=
  world (parsed_session 0 0 1 1)
    [ledger 1%positive 738000 "rent" 5000 1]
    [bank 11%positive 738100 "coffee" 700 1] None.

(** An unmatched ledger record whose description has 120 characters, and
    a bank record that is matched already. *)
Definition long_description_world : World :=
  world (parsed_session 0 0 1 1)
    [ {| lr_id := 1%positive; lr_date := 738000;
         lr_description := lit "Invoice " ++ List.repeat 120%N 112;
         lr_amount := 5000; lr_reference := []; lr_account := [];
         lr_category := []; lr_row_number := 1;
         lr_is_matched := false; lr_match_confidence := None |} ]
    [ {| br_id := 11%positive; br_date := 738000;
         br_description := lit "coffee"; br_amount := 700;
         br_reference := []; br_balance := None; br_row_number := 1;
         br_is_matched := true; br_match_confidence := Some 1%float |} ] None.

(** Stand-ins for what the interpreter, pandas and the database supply,
    enough for the frames below: ASCII text, dates written with digits,
    amounts of two decimal places, no float.  The date of a year, a month
    and a day is its proleptic Gregorian ordinal, as [date.toordinal]
    gives it. *)
Definition is_leap (y : Z) : bool :=
  (y mod 4 =? 0) && (negb (y mod 100 =? 0) || (y mod 400 =? 0)).

Definition days_in_month (y m : Z) : Z :=
  if m =? 2 then (if is_leap y then 29 else 28)
  else if (m =? 4) || (m =? 6) || (m =? 9) || (m =? 11) then 30
  else 31.

Definition days_before_month (y m : Z) : Z :=
  fold_left (fun acc i => acc + days_in_month y (Z.of_nat i))
    (seq 1 (Z.to_nat (m - 1))) 0.

Definition toordinal (y m d : Z) : option Z :=
  if (1 <=? y) && (y <=? 9999) && (1 <=? m) && (m <=? 12)
     && (1 <=? d) && (d <=? days_in_month y m)
  then Some (365 * (y - 1) + (y - 1) / 4 - (y - 1) / 100 + (y - 1) / 400
             + days_before_month y m + d)
  else None.

(** The fields of the directives [%Y], [%m] and [%d]. *)
Definition year_field (s : str) : option Z :=
  if (List.length s =? 4)%nat && forallb is_digit s
  then Some (Z.of_N (digits_value 0 s))
  else None.

Definition month_field (s : str) : option Z :=
  let v := Z.of_N (digits_value 0 s) in
  if forallb is_digit s
     && (((List.length s =? 1)%nat && (1 <=? v))
         || ((List.length s =? 2)%nat && (1 <=? v) && (v <=? 12)))
  then Some v
  else None.

Definition day_field (s : str) : option Z :=
  let digits := match s with 32%N :: d => d | _ => s end in
  let v := Z.of_N (digits_value 0 digits) in
  match s with
  | [32%N; d] => if in_range 49 57 d then Some v else None
  | _ =>
      if forallb is_digit s
         && (((List.length s =? 1)%nat && (1 <=? v))
             || ((List.length s =? 2)%nat && (1 <=? v) && (v <=? 31)))
      then Some v
      else None
  end.

Definition date_of_fields (y m d : str) : option Z :=
  match year_field y, month_field m, day_field d with
  | Some y, Some m, Some d => toordinal y m d
  | _, _, _ => None
  end.

(** [strptime] for the six formats of [date_formats] that are written with
    digits; the formats with a month name are not read. *)
Definition strptime (date_str fmt : str) : option Z :=
  let fields sep := split_on sep date_str in
  if Str.eqb fmt (lit "%Y-%m-%d") then
    match fields 45%N with [y; m; d] => date_of_fields y m d | _ => None end
  else if Str.eqb fmt (lit "%m/%d/%Y") then
    match fields 47%N with [m; d; y] => date_of_fields y m d | _ => None end
  else if Str.eqb fmt (lit "%d/%m/%Y") then
    match fields 47%N with [d; m; y] => date_of_fields y m d | _ => None end
  else if Str.eqb fmt (lit "%m-%d-%Y") then
    match fields 45%N with [m; d; y] => date_of_fields y m d | _ => None end
  else if Str.eqb fmt (lit "%d-%m-%Y") then
    match fields 45%N with [d; m; y] => date_of_fields y m d | _ => None end
  else if Str.eqb fmt (lit "%Y/%m/%d") then
    match fields 47%N with [y; m; d] => date_of_fields y m d | _ => None end
  else None.

(** [pd.to_datetime(text).date()] on a text no format reads: [NaT] for
    the empty text; other texts are taken to raise. *)
Definition to_datetime (date_str : str) : option DateValue :=
  match date_str with
  | [] => Some NaT
  | _ => None
  end.

Definition float_repr (f : float) : str := [].

Definition series_repr (index : nat) (label : str) (values : list Cell) : str :=
  lit "Series".

Definition db_amount (d : Decimal) : option Z :=
  match d with
  | DFinite neg c (-2) => Some (if neg then - Z.of_N c else Z.of_N c)
  | _ => None
  end.

Definition db_date (d : DateValue) : option Z :=
  match d with
  | ADate ordinal => Some ordinal
  | NaT => None
  end.

Definition db_text (max_length : option nat) (s : str) : bool :=
  match max_length with
  | Some n => (List.length s <=? n)%nat
  | None => true
  end.

(** A dictionary is a JSON value when it holds no missing value and no
    float that is not finite. *)
Definition db_json (d : list (str * Cell)) : bool :=
  forallb (fun kv => match snd kv with
                     | CellNA => false
                     | CellFloat f => PrimFloat.is_finite f
                     | _ => true
                     end) d.

Definition ledger_frame : DataFrame :=
  {| df_columns := List.map lit ["date"; "description"; "amount"]%string;
     df_rows :=
       [ [CellStr (lit "2021-08-08"); CellStr (lit "Rent March"); CellStr (lit "$1,250.00")];
         [CellStr (lit "08/10/2021"); CellStr (lit "Office supplies"); CellStr (lit "(45.00)")];
         [CellStr (lit "2021-08-11"); CellStr (lit "Void"); CellStr (lit "abc")] ] |}.

Definition bank_frame : DataFrame :=
  {| df_columns := List.map lit ["date"; "description"; "amount"]%string;
     df_rows :=
       [ [CellStr (lit "2021-08-08"); CellStr (lit "RENT MARCH"); CellStr (lit "1250.00")];
         [CellStr (lit "2021-08-18"); CellStr (lit "Interest"); CellStr (lit "3.10")] ] |}.

(** Ledger frames with a second date column, with a missing value in a
    column the task does not read, and with a date cell of blank text. *)
Definition two_dates_frame : DataFrame :=
  {| df_columns := List.map lit ["date"; "date"; "description"; "amount"]%string;
     df_rows :=
       [ [CellStr (lit "2021-08-08"); CellStr (lit "2021-08-09");
          CellStr (lit "Rent March"); CellStr (lit "$1,250.00")] ] |}.

Definition missing_note_frame : DataFrame :=
  {| df_columns := List.map lit ["date"; "description"; "amount"; "note"]%string;
     df_rows :=
       [ [CellStr (lit "2021-08-08"); CellStr (lit "Rent March");
          CellStr (lit "$1,250.00"); CellNA] ] |}.

Definition blank_date_frame : DataFrame :=
  {| df_columns := List.map lit ["date"; "description"; "amount"]%string;
     df_rows :=
       [ [CellStr (lit "2021-08-08"); CellStr (lit "Rent March"); CellStr (lit "$1,250.00")];
         [CellStr (lit "  "); CellStr (lit "Office supplies"); CellStr (lit "(45.00)")] ] |}.

(** A session whose files were uploaded and not processed yet. *)
Definition uploaded_world : World :=
  {| db := {| db_session :=
                Some {| status := Created; date_tolerance_days := 3;
                        amount_tolerance := 1;
                        total_ledger_records := 0; total_bank_records := 0;
                        matched_records := 0; unmatched_ledger_records := 0;
                        unmatched_bank_records := 0; processed_at := None |};
              db_ledger := []; db_bank := [];
              db_matches := []; db_exceptions := [] |};
     session := None; next_key := 1%positive; now := 0%nat;
     fault_at := None |}.

Definition process (ledger_df bank_df : DataFrame) : M TaskResult :=
  process_reconciliation_files ascii_only_decimal float_repr series_repr
    strptime to_datetime db_amount db_date db_text db_json ledger_df bank_df.

Definition process_files : M TaskResult := process ledger_frame bank_frame.

End Sample.

(** The rows a sequence of [objects.create] calls inserts, keyed from [k]
    on. *)
Fixpoint keyed_from {A} (k : key) (mks : list (key -> A)) : list A :=
  match mks with
  | [] => []
  | mk :: mks' => mk k :: keyed_from (Pos.succ k) mks'
  end.

(** Whether an exception refers to a ledger record, or to a bank record. *)
Definition refers_to_ledger (k : key) (e : ReconciliationException) : bool :=
  match ex_ledger_record e with
  | Some k' => Pos.eqb k' k
  | None => false
  end.

Definition refers_to_bank (k : key) (e : ReconciliationException) : bool :=
  match ex_bank_record e with
  | Some k' => Pos.eqb k' k
  | None => false
  end.

(** A session as file processing leaves it: the totals count the rows of
    the two tables, no record is matched, there is no match, and the keys
    of each table are distinct. *)
Definition freshly_parsed (d : DB) : Prop :=
  exists s,
    db_session d = Some s
    /\ total_ledger_records s = Z.of_nat (List.length (db_ledger d))
    /\ total_bank_records s = Z.of_nat (List.length (db_bank d))
    /\ db_matches d = []
    /\ (forall l, In l (db_ledger d) -> lr_is_matched l = false)
    /\ (forall b, In b (db_bank d) -> br_is_matched b = false)
    /\ NoDup (List.map lr_id (db_ledger d))
    /\ NoDup (List.map br_id (db_bank d)).

(** A session before file processing: it has no record and no match yet. *)
Definition uploaded (d : DB) : Prop :=
  db_ledger d = [] /\ db_bank d = [] /\ db_matches d = [].

(** The counters of a session add up. *)
Definition counters_consistent (s : ReconciliationSession) : Prop :=
  matched_records s + unmatched_ledger_records s = total_ledger_records s
  /\ matched_records s + unmatched_bank_records s = total_bank_records s.

(** The fields the matching task never assigns. *)
Definition same_settings (s s' : ReconciliationSession) : Prop :=
  total_ledger_records s' = total_ledger_records s
  /\ total_bank_records s' = total_bank_records s
  /\ date_tolerance_days s' = date_tolerance_days s
  /\ amount_tolerance s' = amount_tolerance s.

(** A list of distinct keys, by computation. *)
Ltac distinct_keys :=
  simpl; repeat (constructor; [simpl; intuition discriminate|]); constructor.


(** A string of ASCII digits and decimal points. *)
Definition digits_and_points (s : str) : bool :=
  forallb (fun c => is_digit c || (c =? 46)%N) s.

(** The sign a negative number is written with. *)
Definition sign_prefix (neg : bool) : str := if neg then [45%N] else [].

(** What every step of the matching task respects: the local variable
    [session] stays bound once it is, and the matches table only grows. *)
Definition grows (w w' : World) : Prop :=
  (session w <> None -> session w' <> None)
  /\ exists new, db_matches (db w') = db_matches (db w) ++ new.

(** A computation all of whose runs respect [grows] and never raise
    [DoesNotExist]. *)
Definition steady {A} (m : M A) : Prop :=
  forall w, grows w (snd (m w)) /\ fst (m w) <> Raise DoesNotExist.

(** The tables an aborted pass would have to leave as they were, were
    nothing of it persisted. *)
Definition leaves_no_trace (w w' : World) : Prop :=
  db_matches (db w') = db_matches (db w)
  /\ db_ledger (db w') = db_ledger (db w)
  /\ db_bank (db w') = db_bank (db w).

(** The world a write leaves when no fault is due. *)
Definition with_db (d : DB) (w : World) : World :=
  {| db := d; session := session w; next_key := next_key w; now := now w;
     fault_at := fault_at w |}.

Definition with_next_key (k : key) (w : World) : World :=
  {| db := db w; session := session w; next_key := k; now := now w;
     fault_at := fault_at w |}.

(** ** Notions of the further properties *)

(** What a matching pass may do to a record: leave it, or mark an
    unmatched one as matched, with a confidence. *)
Definition ledger_marked (r0 r : LedgerRecord) : Prop :=
  r = r0
  \/ (lr_is_matched r0 = false /\ exists c, r = ledger_mark_matched c r0).

Definition bank_marked (r0 r : BankRecord) : Prop :=
  r = r0
  \/ (br_is_matched r0 = false /\ exists c, r = bank_mark_matched c r0).

(** The two record tables hold the same records in the same order, but for
    the marks. *)
Definition records_kept (d d' : DB) : Prop :=
  Forall2 ledger_marked (db_ledger d) (db_ledger d')
  /\ Forall2 bank_marked (db_bank d) (db_bank d').

Definition keys_distinct (d : DB) : Prop :=
  NoDup (List.map lr_id (db_ledger d)) /\ NoDup (List.map br_id (db_bank d)).

(** A computation that, however it ends, keeps the records of tables with
    distinct keys. *)
Definition tidy {A} (m : M A) : Prop :=
  forall w, keys_distinct (db w) -> records_kept (db w) (db (snd (m w))).

Section Eligibility.

Variable lower : str -> str.
Variable is_word : char -> bool.
Variables date_tolerance amount_tolerance : Z.

(** A pair the engine may match: its score reaches the threshold. *)
Definition eligible (l : LedgerRecord) (b : BankRecord) : bool :=
  (0.7 <=? calculate_match_score lower is_word l b date_tolerance
             amount_tolerance)%float.

(** No unmatched ledger record and unmatched bank record of the tables are
    eligible together. *)
Definition no_eligible_pair (d : DB) : Prop :=
  forall l b,
    In l (db_ledger d) -> lr_is_matched l = false ->
    In b (db_bank d) -> br_is_matched b = false ->
    eligible l b = false.

(** The ledger records [proc] the loop is done with and left unmatched are
    eligible with no bank record that is still unmatched. *)
Definition settled (proc : list LedgerRecord)
    (matches : list TransactionMatch) (d : DB) : Prop :=
  forall l, In l proc ->
    (forall m, In m matches -> tm_ledger_record m <> lr_id l) ->
    forall b, In b (db_bank d) -> br_is_matched b = false ->
      eligible l b = false.

End Eligibility.

(** A computation that, when no statement fails and [P] holds, returns,
    with [Q] of its result. *)
Definition returns {A} (P : World -> Prop) (m : M A)
    (Q : A -> World -> Prop) : Prop :=
  forall w, fault_at w = None -> P w ->
    exists a w', m w = (Return a, w') /\ fault_at w' = None /\ Q a w'.

(** The descriptions of the records have fewer than [2 ^ 52] distinct
    words each, so that the counts of words are exact as floats. *)
Definition descriptions_bounded (lower : str -> str) (is_word : char -> bool)
    (d : DB) : Prop :=
  (forall l, In l (db_ledger d) ->
     Z.of_nat (List.length (word_set lower is_word (lr_description l))) < 2 ^ 52)
  /\ (forall b, In b (db_bank d) ->
        Z.of_nat (List.length (word_set lower is_word (br_description b)))
        < 2 ^ 52).

(** The local variable [session] is bound, to a session whose date
    tolerance [timedelta] accepts. *)
Definition ready (w : World) : Prop :=
  exists s, session w = Some s /\ Z.abs (date_tolerance_days s) <= 999999999.

(** A computation that returns whenever no statement fails and the session
    is ready, and leaves it ready. *)
Definition completes {A} (m : M A) : Prop :=
  returns ready m (fun _ => ready).

(** ** Notions of the file properties *)

(** The tables after are the tables before with rows added at the end of
    the two record tables, and nothing else. *)
Definition appends (d d' : DB) : Prop :=
  (exists rows, db_ledger d' = db_ledger d ++ rows)
  /\ (exists rows, db_bank d' = db_bank d ++ rows)
  /\ db_matches d' = db_matches d
  /\ db_exceptions d' = db_exceptions d.

(** A computation that only appends records, however it ends. *)
Definition appending {A} (m : M A) : Prop :=
  forall w, appends (db w) (db (snd (m w))).

(** The names under which each task looks for a column. *)
Definition aliases (column_mapping : list (str * list str)) (field : string)
    : list str :=
  match List.find (fun e => Str.eqb (fst e) (lit field)) column_mapping with
  | Some e => snd e
  | None => []
  end.

(** No name of the field is a column of the frame. *)
Definition column_missing (column_mapping : list (str * list str))
    (field : string) (df : DataFrame) : Prop :=
  forall a, In a (aliases column_mapping field) -> ~ In a (df_columns df).

(** The number of columns of a name, and the frames in which every row
    has a cell for each column. *)
Definition column_count (cols : list str) (key : str) : nat :=
  List.length (List.filter (fun c => Str.eqb c key) cols).

Definition rectangular (df : DataFrame) : Prop :=
  Forall (fun row => List.length row = List.length (df_columns df))
    (df_rows df).

(** The mappings have one entry for each field, which lists the field's
    own name. *)
Ltac one_entry :=
  let e := fresh "e" in
  let He := fresh "He" in
  let Heq := fresh "Heq" in
  intros e He Heq; simpl in He;
  repeat (destruct He as [<-|He];
          [vm_compute in Heq; try discriminate Heq; reflexivity|]);
  destruct He.

(** ** The models (reconciliation/models.py) *)

(** A Python number: an [int] or a [float]. *)
Inductive PyNumber : Type :=
| PyInt (z : Z)
| PyFloat (f : float).

(** [ReconciliationSession.match_percentage] (lines 60-65). *)
Definition match_percentage (s : ReconciliationSession) : PyNumber :=
  if (total_ledger_records s =? 0)%Z then PyInt 0
  else PyFloat (int_truediv (matched_records s) (total_ledger_records s) * 100)%float.

(** [os.path.join(a, b)] of [posixpath]. *)
Definition path_join (a b : str) : str :=
  if startswith b 47%N then b
  else match a with
       | [] => b
       | _ => if endswith a 47%N then a ++ b else a ++ 47%N :: b
       end.

(** [reconciliation_upload_path(instance, filename)] (lines 7-11), given
    the digits [uuid.uuid4().hex] draws. *)
Definition reconciliation_upload_path (hex filename : str) : str :=
  let ext := last (split_on 46%N filename) [] in
  let filename := hex ++ 46%N :: ext in
  path_join (lit "reconciliation") filename.

(** The digits of [uuid.UUID.hex]. *)
Definition is_hex_digit (c : char) : bool :=
  in_range 48 57 c || in_range 97 102 c.
(** * Properties *)

Unset Implicit Arguments.

(** ** Strings *)

Lemma Str_eqb_eq (a b : str) : Str.eqb a b = true <-> a = b.
Proof.
  unfold Str.eqb. destruct (list_eq_dec N.eq_dec a b); split; congruence.
Qed.

Lemma Str_eqb_refl (a : str) : Str.eqb a a = true.
Proof. apply Str_eqb_eq. reflexivity. Qed.

(** ** Running a task *)

Lemma bind_run {A B} (m : M A) (k : A -> M B) w o w' :
  bind m k w = (o, w') ->
  (exists a w1, m w = (Return a, w1) /\ k a w1 = (o, w'))
  \/ (exists e, m w = (Raise e, w') /\ o = Raise e).
Proof.
  unfold bind. destruct (m w) as [[a|e] w1]; intros H.
  - left. eauto.
  - right. exists e. inversion H; subst. auto.
Qed.

Lemma bind_return {A B} (m : M A) (k : A -> M B) w b w' :
  bind m k w = (Return b, w') ->
  exists a w1, m w = (Return a, w1) /\ k a w1 = (Return b, w').
Proof.
  intros H. apply bind_run in H. destruct H as [H|[e [_ H]]]; [exact H|discriminate].
Qed.

Lemma statement_run w o w' :
  statement w = (o, w') ->
  db w' = db w /\ same_frame w w'
  /\ (o = Return tt \/ o = Raise DatabaseError).
Proof.
  unfold statement, same_frame.
  destruct (fault_at w) as [[|n]|]; intros H; inversion H; subst; simpl; auto.
Qed.

Lemma write_run f w o w' :
  write f w = (o, w') ->
  same_frame w w'
  /\ ((o = Return tt /\ db w' = f (db w))
      \/ (o = Raise DatabaseError /\ db w' = db w)).
Proof.
  unfold write, bind, statement, get_world, set_db, ret, same_frame.
  destruct (fault_at w) as [[|n]|]; intros H; inversion H; subst; simpl; auto.
Qed.

Lemma fetch_run {A} (qs : QuerySet A) w o w' :
  fetch qs w = (o, w') ->
  db w' = db w /\ same_frame w w'
  /\ (o = Return (qs (db w)) \/ o = Raise DatabaseError).
Proof.
  unfold fetch, bind, statement, get_world, ret, same_frame.
  destruct (fault_at w) as [[|n]|]; intros H; inversion H; subst; simpl; auto.
Qed.

Lemma count_run {A} (qs : QuerySet A) w o w' :
  count qs w = (o, w') ->
  db w' = db w /\ same_frame w w'
  /\ (o = Return (Z.of_nat (List.length (qs (db w)))) \/ o = Raise DatabaseError).
Proof.
  unfold count, bind, statement, get_world, ret, same_frame.
  destruct (fault_at w) as [[|n]|]; intros H; inversion H; subst; simpl; auto.
Qed.

(** The rule of the [for] loop: an invariant [J] of the turns that return,
    and a condition [K] every raising turn establishes. *)
Lemma for_each_rule {A S} (body : S -> A -> M S)
    (J : list A -> S -> World -> Prop) (K : World -> Prop) :
  (forall x rest s w o w',
      J (x :: rest) s w -> body s x w = (o, w') ->
      match o with Return s' => J rest s' w' | Raise _ => K w' end) ->
  forall l s w o w',
    J l s w -> for_each l body s w = (o, w') ->
    match o with Return s' => J [] s' w' | Raise _ => K w' end.
Proof.
  intros Hbody l. induction l as [|x rest IH]; intros s w o w' HJ Hrun.
  - simpl in Hrun. inversion Hrun; subst. exact HJ.
  - simpl in Hrun. destruct (bind_run _ _ _ _ _ Hrun) as [(s1 & w1 & Hb & Hk)|(e & Hb & ->)].
    + apply (IH s1 w1); [|exact Hk].
      exact (Hbody _ _ _ _ _ _ HJ Hb).
    + exact (Hbody _ _ _ _ _ _ HJ Hb).
Qed.

(** ** Floats *)

(** A score at or above the threshold is above the initial [best_score]. *)
Lemma threshold_positive (x : float) :
  (0.7 <=? x)%float = true -> (0 <? x)%float = true.
Proof.
  rewrite FloatAxioms.leb_spec, FloatAxioms.ltb_spec.
  replace (Prim2SF 0.7) with (S754_finite false 6305039478318694 (-53))
    by (vm_compute; reflexivity).
  replace (Prim2SF 0) with (S754_zero false) by (vm_compute; reflexivity).
  destruct (Prim2SF x) as [s|s| |s m e]; try destruct s;
    unfold SFleb, SFltb, SFcompare; simpl; try discriminate; reflexivity.
Qed.

(** ** The inner loop *)

Section ScanFacts.

Variable lower : str -> str.
Variable is_word : char -> bool.
Variable ledger_record : LedgerRecord.
Variables date_tolerance amount_tolerance : Z.

Let calc (b : BankRecord) : float :=
  calculate_match_score lower is_word ledger_record b
    date_tolerance amount_tolerance.

Let step := consider lower is_word ledger_record date_tolerance amount_tolerance.
Let ok := scan_ok lower is_word ledger_record date_tolerance amount_tolerance.

Lemma consider_ok seen st b :
  ok seen st -> ok (seen ++ [b]) (step st b).
Proof.
  unfold ok, scan_ok, step, consider. fold (calc b). intros H.
  destruct ((best_score st <? calc b)%float && (0.7 <=? calc b)%float) eqn:E; simpl.
  - apply andb_prop in E. destruct E as [_ E].
    repeat split; eauto. apply in_or_app. right. left. reflexivity.
  - destruct (best_match st) as [b0|]; [|exact H].
    destruct H as (Hin & Hs & Ht & _).
    repeat split; eauto. apply in_or_app. left. exact Hin.
Qed.

Lemma fold_consider_ok cands : forall seen st,
  ok seen st -> ok (seen ++ cands) (fold_left step cands st).
Proof.
  induction cands as [|b cands IH]; intros seen st H; simpl.
  - rewrite app_nil_r. exact H.
  - replace (seen ++ b :: cands) with ((seen ++ [b]) ++ cands)
      by (rewrite <- app_assoc; reflexivity).
    apply IH. apply consider_ok. exact H.
Qed.

(** The record the inner loop selects is a candidate, [best_score] is its
    score and reaches the threshold, and [score] is bound. *)
Lemma scan_candidates_best score0 cands best :
  let st := scan_candidates lower is_word ledger_record date_tolerance
              amount_tolerance score0 cands in
  best_match st = Some best ->
  In best cands /\ best_score st = calc best
  /\ (0.7 <=? best_score st)%float = true
  /\ exists sc, score st = Some sc.
Proof.
  intros st Hb.
  assert (H : scan_ok lower is_word ledger_record date_tolerance amount_tolerance ([] ++ cands) st).
  { apply fold_consider_ok. unfold ok, scan_ok. simpl. reflexivity. }
  unfold scan_ok in H. rewrite Hb in H. exact H.
Qed.

Lemma fold_consider_none cands : forall st,
  (forall b, In b cands -> (0.7 <=? calc b)%float = false) ->
  best_match st = None ->
  best_match (fold_left step cands st) = None.
Proof.
  induction cands as [|b cands IH]; intros st Hlow Hn; simpl; [exact Hn|].
  apply IH.
  - intros b' Hb'. apply Hlow. right. exact Hb'.
  - unfold step, consider. fold (calc b).
    rewrite (Hlow b (or_introl eq_refl)), andb_false_r. simpl. exact Hn.
Qed.

(** No candidate at the threshold: nothing is selected. *)
Lemma scan_candidates_none score0 cands :
  (forall b, In b cands -> (0.7 <=? calc b)%float = false) ->
  best_match (scan_candidates lower is_word ledger_record date_tolerance
                amount_tolerance score0 cands) = None.
Proof.
  intros H. apply fold_consider_none; [exact H|reflexivity].
Qed.

(** A single candidate at the threshold is selected. *)
Lemma scan_candidates_single score0 b :
  (0.7 <=? calc b)%float = true ->
  scan_candidates lower is_word ledger_record date_tolerance
    amount_tolerance score0 [b]
  = {| best_match := Some b; best_score := calc b; score := Some (calc b) |}.
Proof.
  intros H. unfold scan_candidates, consider. simpl. fold (calc b).
  rewrite (threshold_positive _ H), H. reflexivity.
Qed.

End ScanFacts.

(** ** One turn of the outer loop *)

Section TurnFacts.

Variable lower : str -> str.
Variable is_word : char -> bool.
Variables date_tolerance amount_tolerance : Z.
Variable bank_records : QuerySet BankRecord.

Let turn := match_ledger_record lower is_word date_tolerance amount_tolerance
              bank_records.

(** The runs of a turn: it changes nothing (no record selected, or a
    statement failed before the first write), or it writes the match, the
    ledger record and the bank record, in this order, as far as the
    statements succeed. *)
Lemma match_ledger_record_run acc l w o w' :
  turn acc l w = (o, w') ->
  let cands := qs_filter bank_unmatched bank_records (db w) in
  let st := scan_candidates lower is_word l date_tolerance amount_tolerance
              (snd acc) cands in
  session w' = session w /\ now w' = now w
  /\ ((o = Raise DatabaseError /\ db w' = db w)
      \/ (best_match st = None /\ o = Return (fst acc, score st)
          /\ db w' = db w)
      \/ exists best sc,
          best_match st = Some best /\ score st = Some sc
          /\ let m := make_match l best (best_score st) sc (next_key w) in
             let d1 := db_add_match m (db w) in
             let d2 := db_save_ledger (ledger_mark_matched (best_score st) l) d1 in
             let d3 := db_save_bank (bank_mark_matched (best_score st) best) d2 in
             (o = Raise DatabaseError /\ db w' = d1)
             \/ (o = Raise DatabaseError /\ db w' = d2)
             \/ (o = Return (fst acc ++ [m], score st) /\ db w' = d3)).
Proof.
  intros Hrun cands st.
  unfold turn, match_ledger_record, fetch in Hrun.
  unfold bind at 1 2 in Hrun. unfold statement at 1 in Hrun.
  assert (Hst : forall w1, db w1 = db w ->
            scan_candidates lower is_word l date_tolerance amount_tolerance
              (snd acc) (qs_filter bank_unmatched bank_records (db w1)) = st).
  { intros w1 E. rewrite E. reflexivity. }
  destruct (fault_at w) as [[|n]|] eqn:Ef.
  - inversion Hrun; subst. simpl. auto.
  - simpl in Hrun. rewrite (Hst _ eq_refl) in Hrun.
    destruct (best_match st) as [best|] eqn:Eb.
    + destruct (scan_candidates_best lower is_word l date_tolerance
                  amount_tolerance (snd acc) cands best Eb)
        as (_ & _ & _ & sc & Es).
      fold st in Es. rewrite Es in Hrun.
      unfold TransactionMatch_create, LedgerRecord_save, BankRecord_save,
        write, uuid4, bind, statement, get_world, set_db, ret in Hrun.
      simpl in Hrun.
      destruct n as [|[|[|n]]]; simpl in Hrun; inversion Hrun; subst; simpl;
        (split; [reflexivity|split; [reflexivity|]]).
      * left. auto.
      * right. right. exists best, sc. split; [reflexivity|split; [exact Es|]].
        left. auto.
      * right. right. exists best, sc. split; [reflexivity|split; [exact Es|]].
        right. left. auto.
      * right. right. exists best, sc. split; [reflexivity|split; [exact Es|]].
        right. right. rewrite Es. auto.
    + inversion Hrun; subst. simpl.
      split; [reflexivity|split; [reflexivity|right; left; auto]].
  - simpl in Hrun. rewrite (Hst _ eq_refl) in Hrun.
    destruct (best_match st) as [best|] eqn:Eb.
    + destruct (scan_candidates_best lower is_word l date_tolerance
                  amount_tolerance (snd acc) cands best Eb)
        as (_ & _ & _ & sc & Es).
      fold st in Es. rewrite Es in Hrun.
      unfold TransactionMatch_create, LedgerRecord_save, BankRecord_save,
        write, uuid4, bind, statement, get_world, set_db, ret in Hrun.
      simpl in Hrun. rewrite Ef in Hrun. simpl in Hrun.
      inversion Hrun; subst; simpl.
      split; [reflexivity|split; [reflexivity|]].
      right. right. exists best, sc. split; [reflexivity|split; [exact Es|]].
      right. right. rewrite Es. auto.
    + inversion Hrun; subst. simpl.
      split; [reflexivity|split; [reflexivity|right; left; auto]].
Qed.

End TurnFacts.

(** ** Tables and query sets *)

Lemma insert_by_perm {A} (le : A -> A -> bool) x l :
  Permutation (insert_by le x l) (x :: l).
Proof.
  induction l as [|y l IH]; simpl; [reflexivity|].
  destruct (le x y); [reflexivity|].
  rewrite IH. apply perm_swap.
Qed.

Lemma order_by_perm {A} (le : A -> A -> bool) l :
  Permutation (order_by le l) l.
Proof.
  induction l as [|x l IH]; simpl; [reflexivity|].
  unfold order_by in *. simpl. rewrite insert_by_perm. apply perm_skip. exact IH.
Qed.

Lemma order_by_in {A} (le : A -> A -> bool) l x :
  In x (order_by le l) <-> In x l.
Proof.
  split; apply Permutation_in; [|symmetry]; apply order_by_perm.
Qed.

Lemma filter_perm {A} (p : A -> bool) l l' :
  Permutation l l' -> Permutation (List.filter p l) (List.filter p l').
Proof.
  induction 1; simpl.
  - reflexivity.
  - destruct (p x); [apply perm_skip|]; assumption.
  - destruct (p x), (p y); try reflexivity; apply perm_swap.
  - etransitivity; eassumption.
Qed.

Lemma filter_order_by_length {A} (p : A -> bool) (le : A -> A -> bool) l :
  List.length (List.filter p (order_by le l)) = List.length (List.filter p l).
Proof.
  apply Permutation_length, filter_perm, order_by_perm.
Qed.

Lemma filter_NoDup_map {A B} (f : A -> B) (p : A -> bool) l :
  NoDup (List.map f l) -> NoDup (List.map f (List.filter p l)).
Proof.
  induction l as [|x l IH]; simpl; intros H; [constructor|].
  inversion H as [|? ? Hn Hd]; subst.
  destruct (p x); simpl; [constructor|]; auto.
  intros Hin. apply Hn. apply in_map_iff in Hin. destruct Hin as (y & E & Hy).
  apply in_map_iff. exists y. split; [exact E|].
  apply filter_In in Hy. tauto.
Qed.

(** The unmatched ledger rows the loop iterates over. *)
Lemma unmatched_ledger_in d l :
  In l (task_ledger_records d) <->
  In l (db_ledger d) /\ lr_is_matched l = false.
Proof.
  unfold task_ledger_records, qs_filter, session_ledger_records.
  rewrite filter_In, order_by_in.
  unfold ledger_unmatched. rewrite negb_true_iff. tauto.
Qed.

Lemma unmatched_ledger_NoDup d :
  NoDup (List.map lr_id (db_ledger d)) ->
  NoDup (List.map lr_id (task_ledger_records d)).
Proof.
  intros H. unfold task_ledger_records, qs_filter, session_ledger_records.
  apply filter_NoDup_map.
  apply (Permutation_NoDup (l := List.map lr_id (db_ledger d))); [|exact H].
  apply Permutation_map. symmetry. apply order_by_perm.
Qed.

(** The candidates of a turn. *)
Lemma candidates_in d b :
  In b (qs_filter bank_unmatched task_bank_records d) <->
  In b (db_bank d) /\ br_is_matched b = false.
Proof.
  unfold task_bank_records, qs_filter, session_bank_records.
  rewrite !filter_In, order_by_in.
  unfold bank_unmatched. rewrite negb_true_iff. tauto.
Qed.

(** *** [save] *)

Section SaveRows.

Context {A : Type} (id : A -> key).

Lemma update_rows_in r l x :
  In x (update_rows id r l) -> x = r \/ (In x l /\ id x <> id r).
Proof.
  unfold update_rows. rewrite in_map_iff. intros (y & E & Hy).
  destruct (Pos.eqb_spec (id y) (id r)); subst; auto.
Qed.

Lemma save_rows_in r l x :
  In x (save_rows id r l) -> x = r \/ (In x l /\ id x <> id r).
Proof.
  unfold save_rows. destruct (existsb _ l) eqn:E.
  - apply update_rows_in.
  - intros H. apply in_app_or in H. destruct H as [H|[H|[]]]; auto.
    right. split; [exact H|].
    intros Hid. rewrite <- not_true_iff_false in E. apply E.
    apply existsb_exists. exists x. split; [exact H|]. apply Pos.eqb_eq. exact Hid.
Qed.

Lemma save_rows_keeps r l x :
  In x l -> id x <> id r -> In x (save_rows id r l).
Proof.
  intros Hx Hid. unfold save_rows. destruct (existsb _ l).
  - unfold update_rows. apply in_map_iff. exists x. split; [|exact Hx].
    destruct (Pos.eqb_spec (id x) (id r)); [contradiction|reflexivity].
  - apply in_or_app. left. exact Hx.
Qed.

(** After [save], every row with the key is the saved object. *)
Lemma save_rows_key r l x :
  In x (save_rows id r l) -> id x = id r -> x = r.
Proof.
  intros H E. apply save_rows_in in H. destruct H as [H|[_ H]]; [exact H|contradiction].
Qed.

Lemma update_rows_ids r l :
  List.map id (update_rows id r l) = List.map id l.
Proof.
  unfold update_rows. rewrite map_map. apply map_ext_in. intros x _.
  destruct (Pos.eqb_spec (id x) (id r)); congruence.
Qed.

Lemma save_rows_ids r l x :
  In x l -> id x = id r -> List.map id (save_rows id r l) = List.map id l.
Proof.
  intros Hx E. unfold save_rows.
  replace (existsb (fun y => Pos.eqb (id y) (id r)) l) with true.
  - apply update_rows_ids.
  - symmetry. apply existsb_exists. exists x. split; [exact Hx|].
    apply Pos.eqb_eq. exact E.
Qed.

(** With distinct keys, saving a changed copy of a row replaces that row
    only: a property [p] that held of the row and fails of the copy holds
    of one row less. *)
Lemma update_rows_count (p : A -> bool) r x l :
  NoDup (List.map id l) -> In x l -> id r = id x ->
  p x = true -> p r = false ->
  S (List.length (List.filter p (update_rows id r l)))
  = List.length (List.filter p l).
Proof.
  intros Hnd Hx Hid Hpx Hpr.
  induction l as [|y l IH]; [destruct Hx|].
  simpl in Hnd. inversion Hnd as [|? ? Hn Hd]; subst.
  simpl. destruct Hx as [->|Hx].
  - rewrite Hid, Pos.eqb_refl, Hpr, Hpx. simpl. f_equal. f_equal.
    unfold update_rows. f_equal.
    rewrite <- (map_id l) at 2. apply map_ext_in. intros z Hz.
    destruct (Pos.eqb_spec (id z) (id r)) as [E|]; [|reflexivity].
    exfalso. apply Hn. rewrite <- Hid, <- E. apply in_map. exact Hz.
  - destruct (Pos.eqb_spec (id y) (id r)) as [E|E].
    + exfalso. apply Hn. rewrite E, Hid. apply in_map. exact Hx.
    + fold (update_rows id r l). destruct (p y); simpl; rewrite <- (IH Hd Hx); reflexivity.
Qed.

Lemma save_rows_count (p : A -> bool) r x l :
  NoDup (List.map id l) -> In x l -> id r = id x ->
  p x = true -> p r = false ->
  S (List.length (List.filter p (save_rows id r l)))
  = List.length (List.filter p l).
Proof.
  intros Hnd Hx Hid Hpx Hpr. unfold save_rows.
  replace (existsb (fun y => Pos.eqb (id y) (id r)) l) with true.
  - apply (update_rows_count p r x); assumption.
  - symmetry. apply existsb_exists. exists x. split; [exact Hx|].
    apply Pos.eqb_eq. symmetry. exact Hid.
Qed.

End SaveRows.

(** ** The outer loop *)

Lemma NoDup_map_snoc {A B} (f : A -> B) l x :
  NoDup (List.map f l) -> ~ In (f x) (List.map f l) ->
  NoDup (List.map f (l ++ [x])).
Proof.
  intros Hnd Hn. rewrite map_app. simpl.
  apply NoDup_app; [exact Hnd|repeat constructor; intros []|].
  intros y Hy [<-|[]]. exact (Hn Hy).
Qed.

Lemma NoDup_app_middle {B} (a : list B) x (b : list B) :
  NoDup (a ++ x :: b) -> ~ In x a.
Proof.
  intros H Hin. apply NoDup_remove_2 in H. apply H. apply in_or_app. left. exact Hin.
Qed.

Lemma NoDup_map_injective {A B} (f : A -> B) l x y :
  NoDup (List.map f l) -> In x l -> In y l -> f x = f y -> x = y.
Proof.
  induction l as [|z l IH]; simpl; intros Hnd Hx Hy E; [destruct Hx|].
  inversion Hnd as [|? ? Hn Hd]; subst.
  destruct Hx as [->|Hx], Hy as [->|Hy]; auto.
  - exfalso. apply Hn. rewrite E. apply in_map. exact Hy.
  - exfalso. apply Hn. rewrite <- E. apply in_map. exact Hx.
Qed.

Section PassFacts.

Variable lower : str -> str.
Variable is_word : char -> bool.
Variables date_tolerance amount_tolerance : Z.
Variable d0 : DB.
Variable rows : list LedgerRecord.

Let turn := match_ledger_record lower is_word date_tolerance amount_tolerance
              task_bank_records.
Let inv := pass_inv lower is_word date_tolerance amount_tolerance d0 rows.
Let exit := pass_exit lower is_word date_tolerance amount_tolerance d0 rows.
Let origin := match_origin lower is_word date_tolerance amount_tolerance d0 rows.

Lemma pass_inv_exit rest acc w : inv rest acc w -> exit w.
Proof.
  intros [Hm Ho _ _ Hbn Hln _ _]. exists (fst acc). auto.
Qed.

(** A turn keeps the invariant when it returns, and leaves the exit
    condition when it raises. *)
Lemma turn_keeps_inv l rest acc w o w' :
  inv (l :: rest) acc w ->
  turn acc l w = (o, w') ->
  match o with
  | Return acc' => inv rest acc' w'
  | Raise _ => exit w'
  end.
Proof.
  intros Hinv Hrun.
  destruct (match_ledger_record_run _ _ _ _ _ _ _ _ _ _ Hrun) as (_ & _ & Hcases).
  cbv zeta in Hcases.
  set (cands := qs_filter bank_unmatched task_bank_records (db w)) in *.
  set (st := scan_candidates lower is_word l date_tolerance amount_tolerance
               (snd acc) cands) in *.
  pose proof (pass_inv_exit _ _ _ Hinv) as Hexit.
  destruct Hinv as [Hm Ho (proc & Hp & Hd) Hb Hbn Hln Hpool Hkept].
  assert (Hdone' : exists proc', rows = proc' ++ rest
            /\ forall m, In m (fst acc) -> In (tm_ledger_record m) (List.map lr_id proc')).
  { exists (proc ++ [l]). split.
    - rewrite Hp, <- app_assoc. reflexivity.
    - intros m Hin. rewrite map_app. apply in_or_app. left. auto. }
  destruct Hcases as [[-> Hdb] | [(Hnone & -> & Hdb) | (best & sc & Hbest & Hsc & Hc)]].
  - destruct Hexit as (new & E & H). exists new. rewrite Hdb. auto.
  - constructor; simpl; rewrite ?Hdb; auto.
  - destruct (scan_candidates_best lower is_word l date_tolerance amount_tolerance
                (snd acc) cands best Hbest) as (Hin & Hscore & Hthr & _).
    fold st in Hscore, Hthr.
    apply candidates_in in Hin. destruct Hin as [Hin Hun].
    set (m := make_match l best (best_score st) sc (next_key w)) in *.
    assert (Horigin : origin m).
    { exists l, best. repeat split; auto.
      - rewrite Hp. apply in_or_app. right. left. reflexivity. }
    assert (Hfresh_b : ~ In (tm_bank_record m) (List.map tm_bank_record (fst acc))).
    { intros Hx. apply in_map_iff in Hx. destruct Hx as (m0 & E & Hm0).
      destruct (Hb m0 best Hm0 Hin) as [Hx _]; [symmetry; exact E|].
      congruence. }
    assert (Hfresh_l : NoDup (List.map lr_id rows) ->
              ~ In (tm_ledger_record m) (List.map tm_ledger_record (fst acc))).
    { intros Hnd Hx. apply in_map_iff in Hx. destruct Hx as (m0 & E & Hm0).
      rewrite Hp, map_app in Hnd. simpl in Hnd.
      apply (NoDup_app_middle _ _ _ Hnd).
      replace (lr_id l) with (tm_ledger_record m0). auto. }
    assert (Hexit1 : forall w1, db_matches (db w1) = db_matches (db w) ++ [m] -> exit w1).
    { intros w1 E. exists (fst acc ++ [m]). split; [|split; [|split]].
      - rewrite E, Hm, <- app_assoc. reflexivity.
      - apply Forall_app. split; [exact Ho|]. constructor; [exact Horigin|constructor].
      - apply NoDup_map_snoc; assumption.
      - intros Hnd. apply NoDup_map_snoc; auto. }
    destruct Hc as [[-> Hdb] | [[-> Hdb] | [-> Hdb]]].
    + apply Hexit1. rewrite Hdb. reflexivity.
    + apply Hexit1. rewrite Hdb. reflexivity.
    + destruct (Hexit1 w') as (new & _); [rewrite Hdb; reflexivity|].
      constructor; simpl fst.
      * rewrite Hdb. simpl. rewrite Hm, <- app_assoc. reflexivity.
      * apply Forall_app. split; [exact Ho|]. constructor; [exact Horigin|constructor].
      * exists (proc ++ [l]). split; [rewrite Hp, <- app_assoc; reflexivity|].
        intros m0 Hm0. rewrite map_app. apply in_or_app.
        apply in_app_or in Hm0. destruct Hm0 as [Hm0|[<-|[]]]; [left; auto|].
        right. left. reflexivity.
      * intros m0 r Hm0 Hr Hid. rewrite Hdb in Hr. simpl in Hr.
        apply save_rows_in in Hr.
        apply in_app_or in Hm0.
        destruct Hr as [->|[Hr Hne]]; destruct Hm0 as [Hm0|[<-|[]]].
        -- exfalso. apply Hfresh_b.
           change (tm_bank_record m) with (br_id best).
           change (br_id best = tm_bank_record m0) in Hid. rewrite Hid.
           apply in_map. exact Hm0.
        -- simpl. auto.
        -- apply Hb; assumption.
        -- exfalso. apply Hne. exact Hid.
      * apply NoDup_map_snoc; assumption.
      * intros Hnd. apply NoDup_map_snoc; auto.
      * intros r Hr Hun'. rewrite Hdb in Hr. simpl in Hr.
        apply save_rows_in in Hr. destruct Hr as [->|[Hr _]]; [discriminate|].
        auto.
      * intros r Hr Hnone. rewrite Hdb. simpl.
        apply save_rows_keeps.
        -- apply Hkept; [exact Hr|]. intros m0 Hm0. apply Hnone.
           apply in_or_app. left. exact Hm0.
        -- simpl. intros E. apply (Hnone m); [|symmetry; exact E].
           apply in_or_app. right. left. reflexivity.
Qed.

(** With distinct keys in both tables, a turn that returns also keeps the
    keyed part of the invariant. *)
Hypothesis ledger_keys : NoDup (List.map lr_id (db_ledger d0)).
Hypothesis bank_keys : NoDup (List.map br_id (db_bank d0)).
Hypothesis rows_unmatched : forall l, In l rows -> lr_is_matched l = false.
Hypothesis rows_keys : NoDup (List.map lr_id rows).

Let keyed := pass_inv_keyed d0.

Lemma turn_keeps_keyed l rest acc w acc' w' :
  inv (l :: rest) acc w ->
  keyed (l :: rest) acc w ->
  turn acc l w = (Return acc', w') ->
  keyed rest acc' w'.
Proof.
  intros Hinv Hkey Hrun.
  destruct (match_ledger_record_run _ _ _ _ _ _ _ _ _ _ Hrun) as (_ & _ & Hcases).
  cbv zeta in Hcases.
  set (cands := qs_filter bank_unmatched task_bank_records (db w)) in *.
  set (st := scan_candidates lower is_word l date_tolerance amount_tolerance
               (snd acc) cands) in *.
  destruct Hinv as [Hm Ho (proc & Hp & Hd) Hb Hbn Hln Hpool Hkept].
  destruct Hkey as [Hlid Hbid Hrest Hcl Hcb Hla Hls Hbs].
  destruct Hcases as [[E _] | [(Hnone & E & Hdb) | (best & sc & Hbest & Hsc & Hc)]];
    [discriminate| |].
  - inversion E; subst acc'. constructor; simpl fst; rewrite ?Hdb; auto.
    intros l0 Hl0. apply Hrest. right. exact Hl0.
  - destruct Hc as [[E _] | [[E _] | [E Hdb]]]; [discriminate|discriminate|].
    inversion E; subst acc'. clear E.
    destruct (scan_candidates_best lower is_word l date_tolerance amount_tolerance
                (snd acc) cands best Hbest) as (Hin & _ & _ & _).
    apply candidates_in in Hin. destruct Hin as [Hin Hun].
    set (m := make_match l best (best_score st) sc (next_key w)) in *.
    assert (Hl : In l (db_ledger (db w))) by (apply Hrest; left; reflexivity).
    assert (Hlu : lr_is_matched l = false).
    { apply rows_unmatched. rewrite Hp. apply in_or_app. right. left. reflexivity. }
    assert (Hnd : NoDup (List.map lr_id proc ++ lr_id l :: List.map lr_id rest)).
    { pose proof rows_keys as H. rewrite Hp, map_app in H. exact H. }
    assert (Hfresh_l : forall m0, In m0 (fst acc) -> tm_ledger_record m0 <> lr_id l).
    { intros m0 Hm0 E. apply (NoDup_app_middle _ _ _ Hnd). rewrite <- E. auto. }
    constructor; simpl fst; rewrite Hdb; simpl.
    + rewrite (save_rows_ids lr_id (ledger_mark_matched (best_score st) l) _ l Hl eq_refl).
      exact Hlid.
    + rewrite (save_rows_ids br_id (bank_mark_matched (best_score st) best) _ best Hin eq_refl).
      exact Hbid.
    + intros l0 Hl0. apply save_rows_keeps; [apply Hrest; right; exact Hl0|].
      simpl. intros E. apply NoDup_remove_2 in Hnd. apply Hnd.
      apply in_or_app. right. rewrite <- E. apply in_map. exact Hl0.
    + rewrite length_app. simpl.
      rewrite <- Hcl.
      rewrite <- (save_rows_count lr_id ledger_unmatched
                    (ledger_mark_matched (best_score st) l) l (db_ledger (db w)));
        [lia|rewrite Hlid; exact ledger_keys|exact Hl|reflexivity| |reflexivity].
      unfold ledger_unmatched. rewrite Hlu. reflexivity.
    + rewrite length_app. simpl.
      rewrite <- Hcb.
      rewrite <- (save_rows_count br_id bank_unmatched
                    (bank_mark_matched (best_score st) best) best (db_bank (db w)));
        [lia|rewrite Hbid; exact bank_keys|exact Hin|reflexivity| |reflexivity].
      unfold bank_unmatched. rewrite Hun. reflexivity.
    + intros m0 r Hm0 Hr Hid. simpl in Hr. apply save_rows_in in Hr.
      apply in_app_or in Hm0.
      destruct Hr as [->|[Hr Hne]]; destruct Hm0 as [Hm0|[<-|[]]].
      * exfalso. apply (Hfresh_l m0 Hm0). symmetry. exact Hid.
      * simpl. auto.
      * apply Hla; assumption.
      * exfalso. apply Hne. exact Hid.
    + intros r Hr. apply save_rows_in in Hr. destruct Hr as [->|[Hr _]].
      * right. exists m. split; [apply in_or_app; right; left; reflexivity|reflexivity].
      * destruct (Hls r Hr) as [H|(m0 & Hm0 & E)]; [left; exact H|].
        right. exists m0. split; [apply in_or_app; left; exact Hm0|exact E].
    + intros r Hr. apply save_rows_in in Hr. destruct Hr as [->|[Hr _]].
      * right. exists m. split; [apply in_or_app; right; left; reflexivity|reflexivity].
      * destruct (Hbs r Hr) as [H|(m0 & Hm0 & E)]; [left; exact H|].
        right. exists m0. split; [apply in_or_app; left; exact Hm0|exact E].
Qed.

End PassFacts.

(** ** The matching pass *)

Section PassRun.

Variable lower : str -> str.
Variable is_word : char -> bool.

(** The pass as [start_reconciliation_matching] calls it. *)
Let pass (s : ReconciliationSession) : M (list TransactionMatch) :=
  perform_transaction_matching lower is_word s
    task_ledger_records task_bank_records.

Lemma timedelta_days_run n w o w' :
  timedelta_days n w = (o, w') ->
  w' = w /\ (o = Return n \/ o = Raise OverflowError).
Proof.
  unfold timedelta_days, ret, raise.
  destruct (Z.abs n <=? 999999999)%Z; intros H; inversion H; auto.
Qed.

(** What a pass leaves: when it returns, the loop invariant with no row
    left (and its keyed part when the keys of each table are distinct);
    when it raises, the exit condition.  The local variables of the task
    are untouched. *)
Lemma pass_run s w o w' :
  pass s w = (o, w') ->
  let dt := date_tolerance_days s in
  let at_ := amount_tolerance s in
  let rows := task_ledger_records (db w) in
  session w' = session w /\ now w' = now w
  /\ db_session (db w') = db_session (db w)
  /\ db_exceptions (db w') = db_exceptions (db w)
  /\ match o with
     | Return matches =>
         exists sc,
           pass_inv lower is_word dt at_ (db w) rows [] (matches, sc) w'
           /\ (NoDup (List.map lr_id (db_ledger (db w))) ->
               NoDup (List.map br_id (db_bank (db w))) ->
               pass_inv_keyed (db w) [] (matches, sc) w')
     | Raise _ => pass_exit lower is_word dt at_ (db w) rows w'
     end.
Proof.
  intros Hrun dt at_ rows.
  unfold pass, perform_transaction_matching in Hrun.
  assert (Hexit0 : forall w1, db w1 = db w ->
            pass_exit lower is_word dt at_ (db w) rows w1).
  { intros w1 E. exists []. rewrite E, app_nil_r.
    repeat split; constructor. }
  apply bind_run in Hrun.
  destruct Hrun as [(n & w1 & Ht & Hrun)|(e & Ht & ->)];
    apply timedelta_days_run in Ht; destruct Ht as [-> Ht];
    [|repeat split; auto].
  destruct Ht as [Ht|Ht]; [|discriminate]. inversion Ht; subst n. clear Ht.
  apply bind_run in Hrun.
  destruct Hrun as [(rows' & w1 & Hf & Hrun)|(e & Hf & ->)];
    apply fetch_run in Hf; destruct Hf as (Hdb1 & (Hs1 & _ & Hn1) & Hf);
    [|repeat split; try congruence; auto].
  destruct Hf as [Hf|Hf]; [|discriminate]. inversion Hf; subst rows'. clear Hf.
  fold rows in Hrun. fold dt at_ in Hrun.
  apply bind_run in Hrun.
  set (J := fun (rest : list LedgerRecord) acc (w2 : World) =>
              pass_inv lower is_word dt at_ (db w) rows rest acc w2
              /\ (NoDup (List.map lr_id (db_ledger (db w))) ->
                  NoDup (List.map br_id (db_bank (db w))) ->
                  pass_inv_keyed (db w) rest acc w2)
              /\ session w2 = session w /\ now w2 = now w
              /\ db_session (db w2) = db_session (db w)
              /\ db_exceptions (db w2) = db_exceptions (db w)).
  set (K := fun (w2 : World) =>
              pass_exit lower is_word dt at_ (db w) rows w2
              /\ session w2 = session w /\ now w2 = now w
              /\ db_session (db w2) = db_session (db w)
              /\ db_exceptions (db w2) = db_exceptions (db w)).
  assert (Hloop : forall acc w2 o2 w3,
            J rows acc w2 ->
            for_each rows
              (match_ledger_record lower is_word dt at_ task_bank_records)
              acc w2 = (o2, w3) ->
            match o2 with Return acc' => J [] acc' w3 | Raise _ => K w3 end).
  { apply (for_each_rule _ J K).
    intros l rest acc w2 o2 w3 (Hinv & Hkey & Hs & Hn & Hds & Hde) Hturn.
    pose proof (turn_keeps_inv _ _ _ _ _ _ _ _ _ _ _ _ Hinv Hturn) as Hstep.
    destruct (match_ledger_record_run _ _ _ _ _ _ _ _ _ _ Hturn)
      as (Hs' & Hn' & Hcases).
    assert (Hframe : db_session (db w3) = db_session (db w2)
                     /\ db_exceptions (db w3) = db_exceptions (db w2)).
    { cbv zeta in Hcases.
      destruct Hcases as [[_ E] | [(_ & _ & E) | (best & sc & _ & _ & Hc)]];
        [rewrite E; auto|rewrite E; auto|].
      destruct Hc as [[_ E] | [[_ E] | [_ E]]]; rewrite E; auto. }
    destruct Hframe as [Hf1 Hf2].
    destruct o2 as [acc'|e].
    - split; [exact Hstep|].
      split; [|repeat split; congruence].
      intros Hlk Hbk.
      apply (turn_keeps_keyed lower is_word dt at_ (db w) rows Hlk Hbk)
        with (l := l) (acc := acc) (w := w2); auto.
      + intros l0 Hl0. apply unmatched_ledger_in in Hl0. tauto.
      + apply unmatched_ledger_NoDup. exact Hlk.
    - split; [exact Hstep|repeat split; congruence]. }
  assert (HJ0 : J rows ([], None) w1).
  { unfold J. split; [|split; [|rewrite Hdb1; auto]].
    - constructor; simpl fst; rewrite ?Hdb1.
      + rewrite app_nil_r. reflexivity.
      + constructor.
      + exists []. split; [reflexivity|intros m []].
      + intros m r [].
      + constructor.
      + constructor.
      + auto.
      + auto.
    - intros _ _. constructor; simpl fst; rewrite ?Hdb1; auto.
      + intros l Hl. apply unmatched_ledger_in in Hl. tauto.
      + intros m r []. }
  destruct Hrun as [(r & w2 & Hl & Hrun)|(e & Hl & ->)].
  - pose proof (Hloop _ _ _ _ HJ0 Hl) as H. simpl in H.
    inversion Hrun; subst. destruct r as [matches sc].
    destruct H as (Hinv & Hkey & Hs & Hn & Hds & Hde). simpl.
    repeat split; try assumption.
    exists sc. split; assumption.
  - pose proof (Hloop _ _ _ _ HJ0 Hl) as H. simpl in H.
    destruct H as (Hx & Hs & Hn & Hds & Hde). repeat split; assumption.
Qed.

End PassRun.

(** * The properties of the specification *)

(** ** The threshold *)

(** C4.  Every match the engine creates has a confidence score of at least
    0.70: whatever way the pass ends, the matches table gained a list of
    matches that all reach the threshold.  A turn of the loop whose ledger
    record scores below 0.70 against every currently unmatched bank record
    writes nothing and adds no match.  And when the pass returns, a ledger
    record that scored below 0.70 against every bank record that was
    unmatched at the start is in no match and its row is unchanged, hence
    still unmatched (the keys of the ledger table being distinct). *)
Theorem C4_confidence_threshold lower is_word s w :
  let pass := perform_transaction_matching lower is_word s
                task_ledger_records task_bank_records in
  let turn := match_ledger_record lower is_word (date_tolerance_days s)
                (amount_tolerance s) task_bank_records in
  let calc l b := calculate_match_score lower is_word l b
                    (date_tolerance_days s) (amount_tolerance s) in
  (exists new,
      db_matches (db (snd (pass w))) = db_matches (db w) ++ new
      /\ (forall matches, fst (pass w) = Return matches -> matches = new)
      /\ forall m, In m new -> (0.7 <=? confidence_score m)%float = true)
  /\ (forall acc l w1,
        (forall b, In b (qs_filter bank_unmatched task_bank_records (db w1)) ->
                   (0.7 <=? calc l b)%float = false) ->
        db (snd (turn acc l w1)) = db w1
        /\ (fst (turn acc l w1) = Raise DatabaseError
            \/ exists sc, fst (turn acc l w1) = Return (fst acc, sc)))
  /\ (forall matches l,
        NoDup (List.map lr_id (db_ledger (db w))) ->
        fst (pass w) = Return matches ->
        In l (db_ledger (db w)) -> lr_is_matched l = false ->
        (forall b, In b (db_bank (db w)) -> br_is_matched b = false ->
                   (0.7 <=? calc l b)%float = false) ->
        In l (db_ledger (db (snd (pass w))))
        /\ forall m, In m matches -> tm_ledger_record m <> lr_id l).
Proof.
  intros pass turn calc.
  destruct (pass w) as [o w'] eqn:Hrun.
  destruct (pass_run lower is_word s w o w' Hrun) as (_ & _ & _ & _ & Hpost).
  simpl fst; simpl snd.
  split; [|split].
  - destruct o as [matches|e].
    + destruct Hpost as (sc & [Hm Ho _ _ _ _ _ _] & _). simpl fst in *.
      exists matches. split; [exact Hm|split; [intros ? E; inversion E; reflexivity|]].
      intros m Hin. rewrite Forall_forall in Ho.
      destruct (Ho m Hin) as (l & b & H). tauto.
    + destruct Hpost as (new & Hm & Ho & _).
      exists new. split; [exact Hm|split; [discriminate|]].
      intros m Hin. rewrite Forall_forall in Ho.
      destruct (Ho m Hin) as (l & b & H). tauto.
  - intros acc l w1 Hlow.
    destruct (turn acc l w1) as [o1 w1'] eqn:Hturn.
    destruct (match_ledger_record_run _ _ _ _ _ _ _ _ _ _ Hturn) as (_ & _ & Hcases).
    cbv zeta in Hcases.
    rewrite (scan_candidates_none lower is_word l _ _ (snd acc) _ Hlow) in Hcases.
    simpl fst; simpl snd.
    destruct Hcases as [[-> E] | [(_ & -> & E) | (best & sc & Hb & _)]];
      [auto|eauto|discriminate].
  - intros matches l Hnd E Hl Hlu Hlow. subst o.
    destruct Hpost as (sc & [Hm Ho _ _ _ _ _ Hkept] & _). simpl fst in *.
    assert (Hno : forall m, In m matches -> tm_ledger_record m <> lr_id l).
    { intros m Hin E. rewrite Forall_forall in Ho.
      destruct (Ho m Hin) as (l' & b & Hl' & Hb & Hbu & El & _ & Ec & Ht).
      apply unmatched_ledger_in in Hl'. destruct Hl' as [Hl' _].
      assert (l' = l).
      { apply (NoDup_map_injective lr_id (db_ledger (db w))); auto. congruence. }
      subst l'. rewrite Ec in Ht. pose proof (Hlow b Hb Hbu) as Hf.
      unfold calc in Hf. congruence. }
    split; [apply Hkept; assumption|exact Hno].
Qed.

Lemma C4_confidence_threshold_witness :
  let w := Sample.unrelated_world in
  let s := Sample.parsed_session 0 0 1 1 in
  let l := Sample.ledger 1%positive 738000 "rent" 5000 1 in
  let pass := perform_transaction_matching ascii_lower ascii_word s
                task_ledger_records task_bank_records in
  In l (db_ledger (db (snd (pass w))))
  /\ forall m, In m [] -> tm_ledger_record m <> lr_id l.
Proof.
  intros w s l pass.
  destruct (C4_confidence_threshold ascii_lower ascii_word s w) as (_ & _ & H).
  apply (H [] l).
  - distinct_keys.
  - vm_compute. reflexivity.
  - left. reflexivity.
  - reflexivity.
  - intros b [<-|[]] _. vm_compute. reflexivity.
Defined.

(** ** One-to-one pairing *)

(** C5.  Within one matching pass over a session whose ledger keys are
    distinct, no ledger record and no bank record is in more than one of
    the matches the pass creates, whatever way the pass ends: the matches
    table gains a list of matches with pairwise distinct ledger records and
    pairwise distinct bank records.  Every candidate of a turn is an
    unmatched bank record, and when the pass returns, every bank row that
    carries the key of a created match is flagged as matched, so it is a
    candidate of no later turn. *)
Theorem C5_one_match_per_record lower is_word s w :
  NoDup (List.map lr_id (db_ledger (db w))) ->
  let pass := perform_transaction_matching lower is_word s
                task_ledger_records task_bank_records in
  exists new,
    db_matches (db (snd (pass w))) = db_matches (db w) ++ new
    /\ NoDup (List.map tm_ledger_record new)
    /\ NoDup (List.map tm_bank_record new)
    /\ (forall d b, In b (qs_filter bank_unmatched task_bank_records d) ->
                    br_is_matched b = false)
    /\ (forall matches, fst (pass w) = Return matches ->
          matches = new
          /\ forall m b, In m new -> In b (db_bank (db (snd (pass w)))) ->
               br_id b = tm_bank_record m -> br_is_matched b = true).
Proof.
  intros Hkeys pass.
  destruct (pass w) as [o w'] eqn:Hrun.
  destruct (pass_run lower is_word s w o w' Hrun) as (_ & _ & _ & _ & Hpost).
  simpl fst; simpl snd.
  pose proof (unmatched_ledger_NoDup (db w) Hkeys) as Hrows.
  assert (Hcand : forall d b,
            In b (qs_filter bank_unmatched task_bank_records d) ->
            br_is_matched b = false).
  { intros d b Hb. apply candidates_in in Hb. tauto. }
  destruct o as [matches|e].
  - destruct Hpost as (sc & [Hm _ _ Hb Hbn Hln _ _] & _). simpl fst in *.
    exists matches. split; [exact Hm|].
    split; [auto|]. split; [exact Hbn|]. split; [exact Hcand|].
    intros matches' E. inversion E; subst matches'. split; [reflexivity|].
    intros m b Hin Hbin Hid. destruct (Hb m b Hin Hbin Hid) as [Hx _]. exact Hx.
  - destruct Hpost as (new & Hm & _ & Hbn & Hln).
    exists new. repeat split; auto; discriminate.
Qed.

Lemma C5_one_match_per_record_witness :
  let w := Sample.two_pairs_world None in
  let s := Sample.parsed_session 0 0 2 2 in
  let pass := perform_transaction_matching ascii_lower ascii_word s
                task_ledger_records task_bank_records in
  NoDup (List.map lr_id (db_ledger (db w)))
  /\ exists new,
       db_matches (db (snd (pass w))) = db_matches (db w) ++ new
       /\ NoDup (List.map tm_ledger_record new)
       /\ NoDup (List.map tm_bank_record new).
Proof.
  intros w s pass.
  assert (H : NoDup (List.map lr_id (db_ledger (db w)))) by distinct_keys.
  split; [exact H|].
  destruct (C5_one_match_per_record ascii_lower ascii_word s w H)
    as (new & Hm & Hl & Hb & _).
  exists new. auto.
Defined.

(** ** Confidence of the matched records *)




(** ** Runs of the session operations *)

Lemma ReconciliationSession_get_return w w' :
  ReconciliationSession_get w = (Return tt, w') ->
  exists s, db_session (db w) = Some s /\ session w' = Some s
            /\ db w' = db w /\ now w' = now w.
Proof.
  unfold ReconciliationSession_get, bind, statement, get_world, set_session, raise.
  destruct (fault_at w) as [[|n]|]; simpl; try discriminate;
    destruct (db_session (db w)) as [s|]; simpl; intros H; inversion H; subst;
    simpl; eauto.
Qed.

Lemma the_session_return s w w' :
  the_session w = (Return s, w') -> w' = w /\ session w = Some s.
Proof.
  unfold the_session, bind, get_world, ret, raise.
  destruct (session w); intros H; inversion H; auto.
Qed.

Lemma session_assign_return f w w' :
  session_assign f w = (Return tt, w') ->
  exists s, session w = Some s /\ session w' = Some (f s)
            /\ db w' = db w /\ now w' = now w.
Proof.
  unfold session_assign, the_session, bind, get_world, set_session, ret, raise.
  destruct (session w) as [s|]; intros H; inversion H; subst; simpl; eauto.
Qed.

Lemma session_save_return w w' :
  session_save w = (Return tt, w') ->
  exists s, session w = Some s /\ session w' = Some s
            /\ db w' = db_save_session s (db w) /\ now w' = now w.
Proof.
  unfold session_save, the_session, write, bind, statement, get_world, set_db,
    ret, raise.
  destruct (session w) as [s|] eqn:E; [|discriminate].
  destruct (fault_at w) as [[|n]|]; simpl; intros H; inversion H; subst; simpl;
    eauto.
Qed.

Lemma count_return {A} (qs : QuerySet A) n w w' :
  count qs w = (Return n, w') ->
  n = Z.of_nat (List.length (qs (db w)))
  /\ db w' = db w /\ session w' = session w /\ now w' = now w.
Proof.
  intros H. apply count_run in H. destruct H as (Hd & (Hs & _ & Hn) & [E|E]);
    [|discriminate].
  inversion E. auto.
Qed.

(** ** Exception records *)

Lemma keyed_from_app {A} (l1 l2 : list (key -> A)) : forall k,
  keyed_from k (l1 ++ l2)
  = keyed_from k l1 ++ keyed_from (Nat.iter (List.length l1) Pos.succ k) l2.
Proof.
  induction l1 as [|x l1 IH]; intros k; simpl; [reflexivity|].
  f_equal. rewrite IH. f_equal. f_equal. symmetry. apply Nat.iter_succ_r.
Qed.

(** A loop of [objects.create] calls that returns inserted one row per
    element, in order. *)
Lemma create_exceptions_return {A} (mk : A -> key -> ReconciliationException)
    (rows : list A) : forall w w',
  for_each rows (fun _ record => ReconciliationException_create (mk record)) tt w
  = (Return tt, w') ->
  db_exceptions (db w')
  = db_exceptions (db w) ++ keyed_from (next_key w) (List.map mk rows)
  /\ next_key w' = Nat.iter (List.length rows) Pos.succ (next_key w)
  /\ db_session (db w') = db_session (db w)
  /\ db_ledger (db w') = db_ledger (db w)
  /\ db_bank (db w') = db_bank (db w)
  /\ db_matches (db w') = db_matches (db w)
  /\ session w' = session w /\ now w' = now w.
Proof.
  induction rows as [|r rows IH]; intros w w' Hrun.
  - simpl in Hrun. inversion Hrun; subst. simpl. rewrite app_nil_r. auto 10.
  - simpl in Hrun. apply bind_return in Hrun.
    destruct Hrun as ([] & w1 & Hc & Hrun).
    apply IH in Hrun.
    assert (H1 : db w1 = db_add_exception (mk r (next_key w)) (db w)
                 /\ next_key w1 = Pos.succ (next_key w)
                 /\ session w1 = session w /\ now w1 = now w).
    { unfold ReconciliationException_create, uuid4, write, bind, statement,
        get_world, set_db, ret in Hc. simpl in Hc.
      destruct (fault_at w) as [[|n]|]; simpl in Hc; inversion Hc; subst; simpl; auto. }
    destruct H1 as (Hd & Hk & Hs & Hn).
    destruct Hrun as (He & Hk' & H2 & H3 & H4 & H5 & H6 & H7).
    rewrite Hd in *. rewrite Hk in *. simpl in *.
    rewrite <- app_assoc in He. simpl in He.
    repeat split; try congruence.
    rewrite Hk'. symmetry. apply Nat.iter_succ_r.
Qed.

(** What [create_exception_records] inserts when it returns: an exception
    for each unmatched ledger record, then one for each unmatched bank
    record, in the order of the query sets. *)
Lemma create_exception_records_return w w' :
  create_exception_records w = (Return tt, w') ->
  let ul := task_ledger_records (db w) in
  let ub := task_bank_records (db w) in
  db_exceptions (db w')
  = db_exceptions (db w)
    ++ keyed_from (next_key w)
         (List.map unmatched_ledger_exception ul
          ++ List.map unmatched_bank_exception ub)
  /\ db_session (db w') = db_session (db w)
  /\ db_ledger (db w') = db_ledger (db w)
  /\ db_bank (db w') = db_bank (db w)
  /\ db_matches (db w') = db_matches (db w)
  /\ session w' = session w /\ now w' = now w.
Proof.
  intros Hrun ul ub. unfold create_exception_records in Hrun.
  apply bind_return in Hrun. destruct Hrun as (ul' & w1 & Hf & Hrun).
  apply fetch_run in Hf. destruct Hf as (Hd1 & (Hs1 & Hk1 & Hn1) & [E|E]);
    [|discriminate].
  inversion E; subst ul'. clear E.
  apply bind_return in Hrun. destruct Hrun as ([] & w2 & Hl & Hrun).
  apply create_exceptions_return in Hl.
  destruct Hl as (He2 & Hk2 & Hse2 & Hl2 & Hb2 & Hm2 & Hs2 & Hn2).
  apply bind_return in Hrun. destruct Hrun as (ub' & w3 & Hf & Hrun).
  apply fetch_run in Hf. destruct Hf as (Hd3 & (Hs3 & Hk3 & Hn3) & [E|E]);
    [|discriminate].
  inversion E; subst ub'. clear E.
  apply create_exceptions_return in Hrun.
  destruct Hrun as (He4 & Hk4 & Hse4 & Hl4 & Hb4 & Hm4 & Hs4 & Hn4).
  assert (Eb3 : db_bank (db w3) = db_bank (db w)) by congruence.
  assert (Eb2 : db_bank (db w2) = db_bank (db w)) by congruence.
  assert (Eub : forall d, db_bank d = db_bank (db w) ->
            qs_filter bank_unmatched session_bank_records d = ub).
  { intros d E. unfold ub, task_bank_records, qs_filter, session_bank_records.
    rewrite E. reflexivity. }
  rewrite ?(Eub _ Eb3), ?(Eub _ Eb2) in *.
  assert (Eul : forall d, db_ledger d = db_ledger (db w) ->
            qs_filter ledger_unmatched session_ledger_records d = ul).
  { intros d E. unfold ul, task_ledger_records, qs_filter, session_ledger_records.
    rewrite E. reflexivity. }
  rewrite ?(Eul (db w1) ltac:(congruence)), ?(Eul (db w) eq_refl) in *.
  repeat split; try congruence.
  rewrite He4.
  replace (db_exceptions (db w3)) with (db_exceptions (db w2)) by congruence.
  rewrite He2.
  replace (db_exceptions (db w1)) with (db_exceptions (db w)) by congruence.
  replace (next_key w3) with (next_key w2) by congruence.
  rewrite Hk2.
  replace (next_key w1) with (next_key w) by congruence.
  rewrite <- app_assoc. f_equal.
  rewrite keyed_from_app, length_map. reflexivity.
Qed.

Section KeyedFilter.

Context {A B : Type} (mk : A -> key -> B) (p : B -> bool).

Lemma keyed_from_filter_none rows : forall k,
  (forall r k', In r rows -> p (mk r k') = false) ->
  List.filter p (keyed_from k (List.map mk rows)) = [].
Proof.
  induction rows as [|r rows IH]; intros k H; simpl; [reflexivity|].
  rewrite (H r k (or_introl eq_refl)). apply IH.
  intros r' k' Hr'. apply H. right. exact Hr'.
Qed.

Lemma keyed_from_filter_one a x b k :
  (forall r k', In r (a ++ b) -> p (mk r k') = false) ->
  (forall k', p (mk x k') = true) ->
  exists k', List.filter p (keyed_from k (List.map mk (a ++ x :: b))) = [mk x k'].
Proof.
  intros Hothers Hx.
  rewrite map_app, keyed_from_app, filter_app.
  rewrite keyed_from_filter_none
    by (intros r k' Hr; apply Hothers; apply in_or_app; left; exact Hr).
  simpl. rewrite Hx.
  rewrite keyed_from_filter_none
    by (intros r k' Hr; apply Hothers; apply in_or_app; right; exact Hr).
  eexists. reflexivity.
Qed.

End KeyedFilter.

Lemma NoDup_map_split {A B} (f : A -> B) l x :
  NoDup (List.map f l) -> In x l ->
  exists a b, l = a ++ x :: b /\ forall r, In r (a ++ b) -> f r <> f x.
Proof.
  intros Hnd Hx. destruct (in_split x l Hx) as (a & b & ->).
  exists a, b. split; [reflexivity|].
  intros r Hr E. rewrite map_app in Hnd. simpl in Hnd.
  apply NoDup_remove_2 in Hnd. apply Hnd. rewrite <- E, <- map_app.
  apply in_map. exact Hr.
Qed.

Lemma task_bank_records_in d b :
  In b (task_bank_records d) <-> In b (db_bank d) /\ br_is_matched b = false.
Proof.
  unfold task_bank_records, qs_filter, session_bank_records.
  rewrite filter_In, order_by_in.
  unfold bank_unmatched. rewrite negb_true_iff. tauto.
Qed.

Lemma task_bank_records_NoDup d :
  NoDup (List.map br_id (db_bank d)) ->
  NoDup (List.map br_id (task_bank_records d)).
Proof.
  intros H. unfold task_bank_records, qs_filter, session_bank_records.
  apply filter_NoDup_map.
  apply (Permutation_NoDup (l := List.map br_id (db_bank d))); [|exact H].
  apply Permutation_map. symmetry. apply order_by_perm.
Qed.

Lemma task_ledger_records_ext d d' :
  db_ledger d = db_ledger d' -> task_ledger_records d = task_ledger_records d'.
Proof.
  intros E. unfold task_ledger_records, qs_filter, session_ledger_records.
  rewrite E. reflexivity.
Qed.

Lemma task_bank_records_ext d d' :
  db_bank d = db_bank d' -> task_bank_records d = task_bank_records d'.
Proof.
  intros E. unfold task_bank_records, qs_filter, session_bank_records.
  rewrite E. reflexivity.
Qed.

(** The exceptions built for the unmatched records of tables with distinct
    keys, whatever their keys: one refers to each unmatched record, none to
    a matched one. *)
Lemma unmatched_exceptions_refer d k :
  NoDup (List.map lr_id (db_ledger d)) ->
  NoDup (List.map br_id (db_bank d)) ->
  let new :=
    keyed_from k
      (List.map unmatched_ledger_exception (task_ledger_records d)
       ++ List.map unmatched_bank_exception (task_bank_records d)) in
  (forall l, In l (db_ledger d) ->
     if lr_is_matched l
     then List.filter (refers_to_ledger (lr_id l)) new = []
     else exists k', List.filter (refers_to_ledger (lr_id l)) new
                     = [unmatched_ledger_exception l k'])
  /\ (forall b, In b (db_bank d) ->
        if br_is_matched b
        then List.filter (refers_to_bank (br_id b)) new = []
        else exists k', List.filter (refers_to_bank (br_id b)) new
                        = [unmatched_bank_exception b k']).
Proof.
  intros Hlk Hbk new. unfold new. clear new.
  set (ul := task_ledger_records d).
  set (ub := task_bank_records d).
  assert (Hlb : forall k0 k, List.filter (refers_to_ledger k0)
                     (keyed_from k (List.map unmatched_bank_exception ub)) = []).
  { intros k0 k1. apply keyed_from_filter_none. reflexivity. }
  assert (Hbl : forall k0 k, List.filter (refers_to_bank k0)
                     (keyed_from k (List.map unmatched_ledger_exception ul)) = []).
  { intros k0 k1. apply keyed_from_filter_none. reflexivity. }
  split.
  - intros l Hl. rewrite keyed_from_app, filter_app, Hlb, app_nil_r.
    destruct (lr_is_matched l) eqn:Em.
    + apply keyed_from_filter_none. intros r k' Hr.
      apply unmatched_ledger_in in Hr. destruct Hr as [Hr Hru].
      unfold refers_to_ledger. simpl. apply Pos.eqb_neq. intros E.
      assert (r = l) by (apply (NoDup_map_injective lr_id (db_ledger d)); auto).
      congruence.
    + assert (Hin : In l ul) by (apply unmatched_ledger_in; auto).
      destruct (NoDup_map_split lr_id ul l (unmatched_ledger_NoDup d Hlk) Hin)
        as (a & b & Eul & Hothers).
      rewrite Eul.
      apply (keyed_from_filter_one unmatched_ledger_exception
               (refers_to_ledger (lr_id l)) a l b k).
      * intros r k'' Hr. unfold refers_to_ledger. simpl.
        apply Pos.eqb_neq. apply Hothers. exact Hr.
      * intros k''. unfold refers_to_ledger. simpl. apply Pos.eqb_refl.
  - intros b Hb. rewrite keyed_from_app, filter_app, Hbl, app_nil_l.
    destruct (br_is_matched b) eqn:Em.
    + apply keyed_from_filter_none. intros r k' Hr.
      apply task_bank_records_in in Hr. destruct Hr as [Hr Hru].
      unfold refers_to_bank. simpl. apply Pos.eqb_neq. intros E.
      assert (r = b) by (apply (NoDup_map_injective br_id (db_bank d)); auto).
      congruence.
    + assert (Hin : In b ub) by (apply task_bank_records_in; auto).
      destruct (NoDup_map_split br_id ub b (task_bank_records_NoDup d Hbk) Hin)
        as (a & c & Eub & Hothers).
      rewrite Eub.
      apply (keyed_from_filter_one unmatched_bank_exception
               (refers_to_bank (br_id b)) a b c).
      * intros r k'' Hr. unfold refers_to_bank. simpl.
        apply Pos.eqb_neq. apply Hothers. exact Hr.
      * intros k''. unfold refers_to_bank. simpl. apply Pos.eqb_refl.
Qed.

(** The text an exception keeps of a description: a prefix of it, all of
    it when it has at most 100 characters. *)
Lemma slice_to_prefix n (s : str) :
  exists kept dropped,
    slice_to n s = kept /\ s = kept ++ dropped
    /\ List.length kept = Nat.min n (List.length s).
Proof.
  exists (firstn n s), (skipn n s). unfold slice_to.
  split; [reflexivity|].
  split; [symmetry; apply firstn_skipn|apply length_firstn].
Qed.

(** C7.  When [create_exception_records] returns, over tables with distinct
    keys, the exceptions table gained a list of exceptions in which every
    ledger record that is unmatched is referred to by exactly one exception,
    of type [unmatched_ledger] and severity [medium], whose description is
    the fixed prefix followed by a prefix of the record's description: all
    of it when it has at most 100 characters, its first 100 characters
    otherwise; every matched ledger record is referred to by none; and
    likewise for the bank records with [unmatched_bank]. *)
Theorem C7_one_exception_per_unmatched_record w :
  NoDup (List.map lr_id (db_ledger (db w))) ->
  NoDup (List.map br_id (db_bank (db w))) ->
  fst (create_exception_records w) = Return tt ->
  exists new,
    db_exceptions (db (snd (create_exception_records w)))
    = db_exceptions (db w) ++ new
    /\ (forall l, In l (db_ledger (db w)) ->
          if lr_is_matched l
          then List.filter (refers_to_ledger (lr_id l)) new = []
          else exists e,
              List.filter (refers_to_ledger (lr_id l)) new = [e]
              /\ exception_type e = UnmatchedLedger
              /\ severity e = Medium
              /\ exists kept dropped,
                   ex_description e
                   = lit "Unmatched ledger transaction: " ++ kept
                   /\ lr_description l = kept ++ dropped
                   /\ List.length kept
                      = Nat.min 100 (List.length (lr_description l)))
    /\ (forall b, In b (db_bank (db w)) ->
          if br_is_matched b
          then List.filter (refers_to_bank (br_id b)) new = []
          else exists e,
              List.filter (refers_to_bank (br_id b)) new = [e]
              /\ exception_type e = UnmatchedBank
              /\ severity e = Medium
              /\ exists kept dropped,
                   ex_description e
                   = lit "Unmatched bank transaction: " ++ kept
                   /\ br_description b = kept ++ dropped
                   /\ List.length kept
                      = Nat.min 100 (List.length (br_description b))).
Proof.
  intros Hlk Hbk.
  destruct (create_exception_records w) as [o w'] eqn:Hrun. simpl fst; simpl snd.
  intros ->.
  destruct (create_exception_records_return w w' Hrun) as (He & _).
  cbv zeta in He.
  destruct (unmatched_exceptions_refer (db w) (next_key w) Hlk Hbk) as [HL HB].
  cbv zeta in HL, HB.
  eexists. split; [exact He|]. split.
  - intros l Hl. specialize (HL l Hl).
    destruct (lr_is_matched l); [exact HL|].
    destruct HL as (k' & Ek).
    exists (unmatched_ledger_exception l k'). split; [exact Ek|].
    split; [reflexivity|]. split; [reflexivity|].
    destruct (slice_to_prefix 100 (lr_description l))
      as (kept & dropped & E & Hd & Hlen).
    exists kept, dropped.
    unfold unmatched_ledger_exception, unmatched_bank_exception.
    cbn [ex_description]. rewrite E. auto.
  - intros b Hb. specialize (HB b Hb).
    destruct (br_is_matched b); [exact HB|].
    destruct HB as (k' & Ek).
    exists (unmatched_bank_exception b k'). split; [exact Ek|].
    split; [reflexivity|]. split; [reflexivity|].
    destruct (slice_to_prefix 100 (br_description b))
      as (kept & dropped & E & Hd & Hlen).
    exists kept, dropped.
    unfold unmatched_ledger_exception, unmatched_bank_exception.
    cbn [ex_description]. rewrite E. auto.
Qed.

Lemma C7_one_exception_per_unmatched_record_witness :
  let w := Sample.long_description_world in
  let w' := snd (create_exception_records w) in
  NoDup (List.map lr_id (db_ledger (db w)))
  /\ NoDup (List.map br_id (db_bank (db w)))
  /\ fst (create_exception_records w) = Return tt
  /\ List.map lr_is_matched (db_ledger (db w)) = [false]
  /\ List.map br_is_matched (db_bank (db w)) = [true]
  /\ List.map (fun l => List.length (lr_description l)) (db_ledger (db w))
     = [120%nat]
  /\ List.map ex_description (db_exceptions (db w'))
     = [lit "Unmatched ledger transaction: Invoice " ++ List.repeat 120%N 92]
  /\ exists new,
       db_exceptions (db w') = db_exceptions (db w) ++ new
       /\ forall l, In l (db_ledger (db w)) ->
            if lr_is_matched l
            then List.filter (refers_to_ledger (lr_id l)) new = []
            else exists e,
                List.filter (refers_to_ledger (lr_id l)) new = [e]
                /\ exception_type e = UnmatchedLedger
                /\ severity e = Medium
                /\ exists kept dropped,
                     ex_description e
                     = lit "Unmatched ledger transaction: " ++ kept
                     /\ lr_description l = kept ++ dropped
                     /\ List.length kept
                        = Nat.min 100 (List.length (lr_description l)).
Proof.
  intros w w'.
  assert (H1 : NoDup (List.map lr_id (db_ledger (db w)))) by distinct_keys.
  assert (H2 : NoDup (List.map br_id (db_bank (db w)))) by distinct_keys.
  assert (H3 : fst (create_exception_records w) = Return tt)
    by (vm_compute; reflexivity).
  split; [exact H1|]. split; [exact H2|]. split; [exact H3|].
  split; [reflexivity|]. split; [reflexivity|].
  split; [vm_compute; reflexivity|]. split; [vm_compute; reflexivity|].
  destruct (C7_one_exception_per_unmatched_record w H1 H2 H3)
    as (new & H & Hl & _).
  exists new. split; [exact H|exact Hl].
Defined.

(** ** Statistics *)

Lemma update_session_statistics_return w w' :
  update_session_statistics w = (Return tt, w') ->
  exists s,
    session w = Some s
    /\ let s' :=
         with_unmatched_bank_records
           (Z.of_nat (List.length (task_bank_records (db w))))
           (with_unmatched_ledger_records
              (Z.of_nat (List.length (task_ledger_records (db w))))
              (with_matched_records
                 (Z.of_nat (List.length (db_matches (db w)))) s)) in
       session w' = Some s' /\ db w' = db_save_session s' (db w)
       /\ now w' = now w.
Proof.
  unfold update_session_statistics. intros Hrun.
  apply bind_return in Hrun. destruct Hrun as (n1 & w1 & Hc & Hrun).
  apply count_return in Hc. destruct Hc as (-> & Hd1 & Hs1 & Hn1).
  apply bind_return in Hrun. destruct Hrun as ([] & w2 & Ha & Hrun).
  apply session_assign_return in Ha. destruct Ha as (s1 & Es1 & Hs2 & Hd2 & Hn2).
  apply bind_return in Hrun. destruct Hrun as (n2 & w3 & Hc & Hrun).
  apply count_return in Hc. destruct Hc as (-> & Hd3 & Hs3 & Hn3).
  apply bind_return in Hrun. destruct Hrun as ([] & w4 & Ha & Hrun).
  apply session_assign_return in Ha. destruct Ha as (s3 & Es3 & Hs4 & Hd4 & Hn4).
  apply bind_return in Hrun. destruct Hrun as (n3 & w5 & Hc & Hrun).
  apply count_return in Hc. destruct Hc as (-> & Hd5 & Hs5 & Hn5).
  apply bind_return in Hrun. destruct Hrun as ([] & w6 & Ha & Hrun).
  apply session_assign_return in Ha. destruct Ha as (s5 & Es5 & Hs6 & Hd6 & Hn6).
  apply session_save_return in Hrun. destruct Hrun as (s6 & Es6 & Hs7 & Hd7 & Hn7).
  assert (E2 : db w2 = db w) by congruence.
  assert (E4 : db w4 = db w) by congruence.
  assert (E6 : db w6 = db w) by congruence.
  exists s1. split; [congruence|]. cbv zeta.
  assert (s3 = with_matched_records
                 (Z.of_nat (List.length (session_matches (db w1)))) s1) by congruence.
  assert (s5 = with_unmatched_ledger_records
                 (Z.of_nat (List.length
                    (qs_filter ledger_unmatched session_ledger_records (db w3)))) s3)
    by congruence.
  assert (s6 = with_unmatched_bank_records
                 (Z.of_nat (List.length
                    (qs_filter bank_unmatched session_bank_records (db w5)))) s5)
    by congruence.
  subst s3 s5 s6.
  replace (db w5) with (db w) in * by congruence.
  replace (db w3) with (db w) in * by congruence.
  replace (db w1) with (db w) in * by congruence.
  unfold session_matches in *.
  fold task_ledger_records in *. fold task_bank_records in *.
  split; [exact Hs7|]. split; [rewrite Hd7, E6; reflexivity|congruence].
Qed.

Lemma on_exception_returns w r w' :
  on_exception w = (Return r, w') -> r = Error.
Proof.
  unfold on_exception. intros Hrun.
  apply bind_return in Hrun. destruct Hrun as (w0 & w1 & Hg & Hrun).
  inversion Hg; subst w0 w1. clear Hg.
  destruct (session w) as [s|]; [|inversion Hrun; reflexivity].
  apply bind_return in Hrun. destruct Hrun as ([] & w1 & _ & Hrun).
  apply bind_return in Hrun. destruct Hrun as ([] & w2 & _ & Hrun).
  inversion Hrun. reflexivity.
Qed.

(** A task that returns a success dictionary ran its [try] block to the
    end. *)
Lemma try_block_returned (body : M TaskResult) w w' r :
  r <> Error -> r <> ErrorNotFound ->
  try_except body except_clauses w = (Return r, w') ->
  body w = (Return r, w').
Proof.
  intros Hr1 Hr2. unfold try_except.
  destruct (body w) as [[a|e] w1]; intros H; [exact H|].
  exfalso. destruct e; simpl in H;
    try (apply Hr1; eapply on_exception_returns; exact H).
  inversion H. congruence.
Qed.

(** C8.  After a run of [start_reconciliation_matching] that completes on a
    freshly parsed session (its totals count the parsed records, and it has
    no match and no matched record yet), the session is [completed] and its
    recomputed counters satisfy
    [matched_records + unmatched_ledger_records = total_ledger_records] and
    [matched_records + unmatched_bank_records = total_bank_records]. *)
Theorem C8_counters_add_up lower is_word w n :
  freshly_parsed (db w) ->
  fst (start_reconciliation_matching lower is_word w) = Return (MatchingDone n) ->
  exists s,
    db_session (db (snd (start_reconciliation_matching lower is_word w))) = Some s
    /\ status s = Completed
    /\ matched_records s + unmatched_ledger_records s = total_ledger_records s
    /\ matched_records s + unmatched_bank_records s = total_bank_records s.
Proof.
  intros (s0 & Hs0 & Htl & Htb & Hnom & Hlu & Hbu & Hlk & Hbk).
  destruct (start_reconciliation_matching lower is_word w) as [o w'] eqn:Hrun.
  simpl fst; simpl snd. intros ->.
  unfold start_reconciliation_matching in Hrun.
  apply bind_return in Hrun. destruct Hrun as ([] & wa & Ha & Hrun).
  assert (Hda : db wa = db w) by (inversion Ha; reflexivity). clear Ha.
  apply try_block_returned in Hrun; [|discriminate|discriminate].
  apply bind_return in Hrun. destruct Hrun as ([] & w1 & Hg & Hrun).
  apply ReconciliationSession_get_return in Hg.
  destruct Hg as (s1 & Es1 & Hs1 & Hd1 & Hn1).
  assert (s1 = s0) by congruence. subst s1.
  unfold matching_steps in Hrun.
  apply bind_return in Hrun. destruct Hrun as (s1 & w2 & Ht & Hrun).
  apply the_session_return in Ht. destruct Ht as [-> Es1'].
  apply bind_return in Hrun. destruct Hrun as ([] & w3 & Hst & Hrun).
  assert (H3 : exists s3, session w3 = Some s3 /\ same_settings s0 s3
                /\ db_ledger (db w3) = db_ledger (db w)
                /\ db_bank (db w3) = db_bank (db w)
                /\ db_matches (db w3) = db_matches (db w)).
  { assert (s1 = s0) by congruence. subst s1.
    destruct (status s0).
    2: { inversion Hst; subst w3. exists s0.
         unfold same_settings. repeat split; congruence. }
    all: apply bind_return in Hst; destruct Hst as ([] & wb & Hx & Hst);
      apply session_assign_return in Hx; destruct Hx as (sx & Ex & Hsx & Hdx & _);
      apply session_save_return in Hst; destruct Hst as (sy & Ey & Hsy & Hdy & _);
      exists sy; assert (sy = with_status Processing s0) by congruence; subst sy;
      (split; [exact Hsy|]); rewrite Hdy; simpl;
      unfold same_settings; simpl; repeat split; congruence. }
  destruct H3 as (s3 & Es3 & Hset & Hl3 & Hb3 & Hm3).
  apply bind_return in Hrun. destruct Hrun as (c1 & w4 & Hc & Hrun).
  apply count_return in Hc. destruct Hc as (_ & Hd4 & Hs4 & _).
  apply bind_return in Hrun. destruct Hrun as (c2 & w5 & Hc & Hrun).
  apply count_return in Hc. destruct Hc as (_ & Hd5 & Hs5 & _).
  apply bind_return in Hrun. destruct Hrun as (s5 & w6 & Ht & Hrun).
  apply the_session_return in Ht. destruct Ht as [-> Es5].
  assert (s5 = s3) by congruence. subst s5.
  apply bind_return in Hrun. destruct Hrun as (matches & w7 & Hp & Hrun).
  destruct (pass_run lower is_word s3 w5 _ w7 Hp) as (Hs7 & _ & _ & _ & Hpost).
  destruct Hpost as (sc & [Hm7 _ _ _ _ _ _ _] & Hkey).
  assert (El5 : db_ledger (db w5) = db_ledger (db w)) by congruence.
  assert (Eb5 : db_bank (db w5) = db_bank (db w)) by congruence.
  assert (Em5 : db_matches (db w5) = []) by congruence.
  rewrite El5, Eb5 in Hkey.
  destruct (Hkey Hlk Hbk) as [_ _ _ Hcl Hcb _ _ _].
  simpl fst in *. rewrite El5 in Hcl. rewrite Eb5 in Hcb. rewrite Em5 in Hm7.
  simpl in Hm7.
  apply bind_return in Hrun. destruct Hrun as ([] & w8 & He & Hrun).
  apply create_exception_records_return in He.
  destruct He as (_ & _ & Hl8 & Hb8 & Hm8 & Hs8 & _).
  apply bind_return in Hrun. destruct Hrun as ([] & w9 & Hu & Hrun).
  apply update_session_statistics_return in Hu.
  destruct Hu as (s8 & Es8 & Hu). cbv zeta in Hu. destruct Hu as (Hs9 & Hd9 & _).
  assert (s8 = s3) by congruence. subst s8.
  apply bind_return in Hrun. destruct Hrun as (wx & w10 & Hg & Hrun).
  inversion Hg; subst wx w10. clear Hg.
  apply bind_return in Hrun. destruct Hrun as ([] & w11 & Ha & Hrun).
  apply session_assign_return in Ha. destruct Ha as (sa & Esa & Hs11 & _ & _).
  apply bind_return in Hrun. destruct Hrun as ([] & w12 & Ha & Hrun).
  apply session_assign_return in Ha. destruct Ha as (sb & Esb & Hs12 & _ & _).
  apply bind_return in Hrun. destruct Hrun as ([] & w13 & Hsv & Hrun).
  apply session_save_return in Hsv. destruct Hsv as (sc' & Esc & _ & Hd13 & _).
  inversion Hrun; subst w'. clear Hrun.
  rewrite Hd13. simpl. exists sc'. split; [reflexivity|].
  assert (sc' = with_processed_at (Some (now w9)) (with_status Completed sa))
    by congruence.
  subst sc'. rewrite Hs9 in Esa. inversion Esa; subst sa. clear Esa.
  simpl. split; [reflexivity|].
  destruct Hset as (Ht1 & Ht2 & _).
  rewrite Ht1, Ht2, Htl, Htb.
  rewrite Hm8, Hm7.
  unfold task_ledger_records, task_bank_records, qs_filter,
    session_ledger_records, session_bank_records.
  rewrite !filter_order_by_length, Hl8, Hb8.
  assert (Hall_l : List.filter ledger_unmatched (db_ledger (db w)) = db_ledger (db w)).
  { apply forallb_filter_id. apply forallb_forall. intros l Hl.
    unfold ledger_unmatched. rewrite (Hlu l Hl). reflexivity. }
  assert (Hall_b : List.filter bank_unmatched (db_bank (db w)) = db_bank (db w)).
  { apply forallb_filter_id. apply forallb_forall. intros b Hb.
    unfold bank_unmatched. rewrite (Hbu b Hb). reflexivity. }
  rewrite Hall_l in Hcl. rewrite Hall_b in Hcb.
  split; lia.
Qed.

(** ** File processing leaves a freshly parsed session *)

Section FilesFacts.

Variable unicode_decimal : char -> option N.
Variable float_repr : float -> str.
Variable series_repr : nat -> str -> list Cell -> str.
Variable strptime : str -> str -> option Z.
Variable to_datetime : str -> option DateValue.
Variable db_amount : Decimal -> option Z.
Variable db_date : DateValue -> option Z.
Variable db_text : option nat -> str -> bool.
Variable db_json : list (str * Cell) -> bool.

Lemma ledger_table_row_spec k x row :
  ledger_table_row db_amount db_date db_text db_json k x = Some row ->
  lr_id row = k /\ lr_is_matched row = false.
Proof.
  unfold ledger_table_row.
  destruct (db_date (nl_date x)) as [d|]; [|discriminate].
  destruct (db_amount (nl_amount x)) as [a|]; [|discriminate].
  destruct (_ && _); [|discriminate].
  intros H. inversion H. split; reflexivity.
Qed.

Lemma bank_table_row_spec k x row :
  bank_table_row db_amount db_date db_text db_json k x = Some row ->
  br_id row = k /\ br_is_matched row = false.
Proof.
  unfold bank_table_row.
  destruct (db_date (nb_date x)) as [d|]; [|discriminate].
  destruct (db_amount (nb_amount x)) as [a|]; [|discriminate].
  destruct (db_amount (nb_balance x)) as [b|]; [|discriminate].
  destruct (_ && _); [|discriminate].
  intros H. inversion H. split; reflexivity.
Qed.

Lemma ledger_table_rows_spec records : forall k rows,
  ledger_table_rows db_amount db_date db_text db_json k records = Some rows ->
  List.length rows = List.length records
  /\ (forall r, In r rows -> lr_is_matched r = false /\ (k <= lr_id r)%positive)
  /\ NoDup (List.map lr_id rows).
Proof.
  induction records as [|x records IH]; intros k rows H; simpl in H.
  - inversion H. simpl. split; [reflexivity|split; [intros r []|constructor]].
  - destruct (ledger_table_row db_amount db_date db_text db_json k x)
      as [row|] eqn:Ex; [|discriminate].
    destruct (ledger_table_rows db_amount db_date db_text db_json
                (Pos.succ k) records) as [rows'|] eqn:E; [|discriminate].
    inversion H; subst rows. clear H.
    destruct (ledger_table_row_spec _ _ _ Ex) as [Hid Hun].
    destruct (IH _ _ E) as (Hlen & Hall & Hnd).
    simpl. split; [congruence|]. split.
    + intros r0 [<-|Hr]; [split; [assumption|lia]|].
      destruct (Hall r0 Hr). split; [assumption|lia].
    + constructor; [|exact Hnd].
      intros Hin. apply in_map_iff in Hin. destruct Hin as (r & Er & Hr).
      destruct (Hall r Hr) as [_ Hle]. lia.
Qed.

Lemma bank_table_rows_spec records : forall k rows,
  bank_table_rows db_amount db_date db_text db_json k records = Some rows ->
  List.length rows = List.length records
  /\ (forall r, In r rows -> br_is_matched r = false /\ (k <= br_id r)%positive)
  /\ NoDup (List.map br_id rows).
Proof.
  induction records as [|x records IH]; intros k rows H; simpl in H.
  - inversion H. simpl. split; [reflexivity|split; [intros r []|constructor]].
  - destruct (bank_table_row db_amount db_date db_text db_json k x)
      as [row|] eqn:Ex; [|discriminate].
    destruct (bank_table_rows db_amount db_date db_text db_json
                (Pos.succ k) records) as [rows'|] eqn:E; [|discriminate].
    inversion H; subst rows. clear H.
    destruct (bank_table_row_spec _ _ _ Ex) as [Hid Hun].
    destruct (IH _ _ E) as (Hlen & Hall & Hnd).
    simpl. split; [congruence|]. split.
    + intros r0 [<-|Hr]; [split; [assumption|lia]|].
      destruct (Hall r0 Hr). split; [assumption|lia].
    + constructor; [|exact Hnd].
      intros Hin. apply in_map_iff in Hin. destruct Hin as (r & Er & Hr).
      destruct (Hall r Hr) as [_ Hle]. lia.
Qed.

Lemma process_ledger_file_return df records w w' :
  process_ledger_file unicode_decimal float_repr series_repr strptime
    to_datetime db_amount db_date db_text db_json df w
  = (Return records, w') ->
  exists rows,
    db w' = db_add_ledger rows (db w)
    /\ List.length rows = List.length records
    /\ (forall r, In r rows -> lr_is_matched r = false)
    /\ NoDup (List.map lr_id rows)
    /\ session w' = session w
    /\ ledger_table_rows db_amount db_date db_text db_json (next_key w) records
       = Some rows.
Proof.
  unfold process_ledger_file. intros Hrun.
  apply bind_return in Hrun. destruct Hrun as ([] & w1 & Hb & Hrun).
  inversion Hrun; subst w1 records. clear Hrun.
  destruct (ledger_file_records unicode_decimal float_repr series_repr strptime
              to_datetime df)
    as [|x records] eqn:E.
  - inversion Hb; subst w'. exists []. unfold db_add_ledger.
    rewrite app_nil_r. destruct (db w). simpl.
    repeat split; [intros r []|constructor].
  - unfold LedgerRecord_bulk_create in Hb.
    apply bind_return in Hb. destruct Hb as (w0 & w1 & Hg & Hb).
    inversion Hg; subst w0 w1. clear Hg.
    apply bind_return in Hb. destruct Hb as ([] & w2 & Ha & Hb).
    inversion Ha; subst w2. clear Ha.
    destruct (ledger_table_rows db_amount db_date db_text db_json (next_key w)
                (x :: records)) as [rows|] eqn:Er.
    + apply write_run in Hb. destruct Hb as ((Hs & _) & [[_ Hd]|[Hx _]]);
        [|discriminate].
      destruct (ledger_table_rows_spec _ _ _ Er) as (Hlen & Hall & Hnd).
      exists rows. simpl in Hd, Hs. repeat split; auto.
      intros r Hr. destruct (Hall r Hr). assumption.
    + apply bind_return in Hb. destruct Hb as ([] & w3 & _ & Hb). inversion Hb.
Qed.

Lemma process_bank_statement_file_return df records w w' :
  process_bank_statement_file unicode_decimal float_repr series_repr strptime
    to_datetime db_amount db_date db_text db_json df w
  = (Return records, w') ->
  exists rows,
    db w' = db_add_bank rows (db w)
    /\ List.length rows = List.length records
    /\ (forall r, In r rows -> br_is_matched r = false)
    /\ NoDup (List.map br_id rows)
    /\ session w' = session w
    /\ bank_table_rows db_amount db_date db_text db_json (next_key w) records
       = Some rows.
Proof.
  unfold process_bank_statement_file. intros Hrun.
  apply bind_return in Hrun. destruct Hrun as ([] & w1 & Hb & Hrun).
  inversion Hrun; subst w1 records. clear Hrun.
  destruct (bank_file_records unicode_decimal float_repr series_repr strptime
              to_datetime df)
    as [|x records] eqn:E.
  - inversion Hb; subst w'. exists []. unfold db_add_bank.
    rewrite app_nil_r. destruct (db w). simpl.
    repeat split; [intros r []|constructor].
  - unfold BankRecord_bulk_create in Hb.
    apply bind_return in Hb. destruct Hb as (w0 & w1 & Hg & Hb).
    inversion Hg; subst w0 w1. clear Hg.
    apply bind_return in Hb. destruct Hb as ([] & w2 & Ha & Hb).
    inversion Ha; subst w2. clear Ha.
    destruct (bank_table_rows db_amount db_date db_text db_json (next_key w)
                (x :: records)) as [rows|] eqn:Er.
    + apply write_run in Hb. destruct Hb as ((Hs & _) & [[_ Hd]|[Hx _]]);
        [|discriminate].
      destruct (bank_table_rows_spec _ _ _ Er) as (Hlen & Hall & Hnd).
      exists rows. simpl in Hd, Hs. repeat split; auto.
      intros r Hr. destruct (Hall r Hr). assumption.
    + apply bind_return in Hb. destruct Hb as ([] & w3 & _ & Hb). inversion Hb.
Qed.

(** When [process_reconciliation_files] returns its success dictionary on a
    session that had no record and no match, it leaves a freshly parsed
    session. *)
Lemma process_reconciliation_files_freshly_parsed ledger_df bank_df w nl nb :
  uploaded (db w) ->
  fst (process_reconciliation_files unicode_decimal float_repr series_repr
         strptime to_datetime db_amount db_date db_text db_json
      ledger_df bank_df w) = Return (FilesProcessed nl nb) ->
  freshly_parsed
    (db (snd (process_reconciliation_files unicode_decimal float_repr
                series_repr strptime to_datetime
                db_amount db_date db_text db_json ledger_df bank_df w))).
Proof.
  intros (Hl0 & Hb0 & Hm0).
  destruct (process_reconciliation_files _ _ _ _ _ _ _ _ _ ledger_df bank_df w)
    as [o w'] eqn:Hrun.
  simpl fst; simpl snd. intros ->.
  unfold process_reconciliation_files in Hrun.
  apply bind_return in Hrun. destruct Hrun as ([] & wa & Ha & Hrun).
  assert (Hda : db wa = db w) by (inversion Ha; reflexivity). clear Ha.
  apply try_block_returned in Hrun; [|discriminate|discriminate].
  apply bind_return in Hrun. destruct Hrun as ([] & w1 & Hg & Hrun).
  apply ReconciliationSession_get_return in Hg.
  destruct Hg as (s1 & Es1 & Hs1 & Hd1 & _).
  apply bind_return in Hrun. destruct Hrun as ([] & w2 & Hx & Hrun).
  apply session_assign_return in Hx. destruct Hx as (s2 & Es2 & Hs2 & Hd2 & _).
  apply bind_return in Hrun. destruct Hrun as ([] & w3 & Hx & Hrun).
  apply session_save_return in Hx. destruct Hx as (s3 & Es3 & Hs3 & Hd3 & _).
  apply bind_return in Hrun. destruct Hrun as (lrecs & w4 & Hx & Hrun).
  apply process_ledger_file_return in Hx.
  destruct Hx as (lrows & Hd4 & Hll & Hlu & Hlnd & Hs4 & Hlt).
  apply bind_return in Hrun. destruct Hrun as ([] & w5 & Hx & Hrun).
  apply session_assign_return in Hx. destruct Hx as (s5 & Es5 & Hs5 & Hd5 & _).
  apply bind_return in Hrun. destruct Hrun as (brecs & w6 & Hx & Hrun).
  apply process_bank_statement_file_return in Hx.
  destruct Hx as (brows & Hd6 & Hbl & Hbu & Hbnd & Hs6 & Hbt).
  apply bind_return in Hrun. destruct Hrun as ([] & w7 & Hx & Hrun).
  apply session_assign_return in Hx. destruct Hx as (s7 & Es7 & Hs7 & Hd7 & _).
  apply bind_return in Hrun. destruct Hrun as ([] & w8 & Hx & Hrun).
  apply session_save_return in Hx. destruct Hx as (s8 & Es8 & Hs8 & Hd8 & _).
  inversion Hrun; subst w'. clear Hrun.
  assert (El : db_ledger (db w8) = lrows).
  { rewrite Hd8, Hd7, Hd6, Hd5, Hd4, Hd3, Hd2, Hd1, Hda. simpl. rewrite Hl0.
    reflexivity. }
  assert (Eb : db_bank (db w8) = brows).
  { rewrite Hd8, Hd7, Hd6, Hd5, Hd4, Hd3, Hd2, Hd1, Hda. simpl. rewrite Hb0.
    reflexivity. }
  assert (Em : db_matches (db w8) = []).
  { rewrite Hd8, Hd7, Hd6, Hd5, Hd4, Hd3, Hd2, Hd1, Hda. simpl. exact Hm0. }
  exists s8. rewrite El, Eb. rewrite Hd8. simpl.
  assert (E8 : s8 = with_total_bank_records (Z.of_nat (List.length brecs))
                      (with_total_ledger_records (Z.of_nat (List.length lrecs)) s3)).
  { congruence. }
  rewrite E8. simpl. rewrite Hll, Hbl.
  repeat split; auto.
  rewrite Hd7, Hd6, Hd5, Hd4, Hd3, Hd2, Hd1, Hda. simpl. exact Hm0.
Qed.

End FilesFacts.

Lemma C8_counters_add_up_witness :
  let w := snd (Sample.process_files Sample.uploaded_world) in
  let run := start_reconciliation_matching ascii_lower ascii_word in
  freshly_parsed (db w)
  /\ fst (run w) = Return (MatchingDone 1)
  /\ exists s,
       db_session (db (snd (run w))) = Some s
       /\ status s = Completed
       /\ matched_records s + unmatched_ledger_records s = total_ledger_records s
       /\ matched_records s + unmatched_bank_records s = total_bank_records s.
Proof.
  intros w run.
  assert (H1 : freshly_parsed (db w)).
  { apply (process_reconciliation_files_freshly_parsed ascii_only_decimal
             Sample.float_repr
             Sample.series_repr Sample.strptime Sample.to_datetime
             Sample.db_amount Sample.db_date Sample.db_text Sample.db_json
             Sample.ledger_frame Sample.bank_frame Sample.uploaded_world 2 2).
    - repeat split.
    - vm_compute. reflexivity. }
  assert (H2 : fst (run w) = Return (MatchingDone 1)) by (vm_compute; reflexivity).
  split; [exact H1|]. split; [exact H2|].
  exact (C8_counters_add_up ascii_lower ascii_word w 1 H1 H2).
Defined.

(** ** The type of a match *)

(** C1.  On a session with one ledger record, a bank record equal to it in
    date, amount and description, and a later bank record that has nothing
    in common with it, the engine records the first pairing with
    [confidence_score = 1.0] and [match_type = 'partial']: line 277 tests
    [score], which the inner loop left at the score of the last bank record
    (0.0), where the recorded pairing has [best_score]. *)
Theorem C1_exact_pairing_typed_partial :
  let run := start_reconciliation_matching ascii_lower ascii_word in
  let w := Sample.last_score_world in
  fst (run w) = Return (MatchingDone 1)
  /\ exists m,
       db_matches (db (snd (run w))) = [m]
       /\ tm_ledger_record m = 1%positive
       /\ tm_bank_record m = 11%positive
       /\ confidence_score m = 1%float
       /\ (0.95 <=? confidence_score m)%float = true
       /\ match_type m = Partial.
Proof.
  vm_compute. split; [reflexivity|].
  eexists. split; [reflexivity|].
  repeat split.
Qed.

(** ** Amount normalization *)

Lemma remove_currency_formatting_lstrip s :
  remove_currency_formatting (lstrip s) = remove_currency_formatting s.
Proof.
  induction s as [|c s IH]; [reflexivity|].
  simpl. destruct (isspace c) eqn:E; [|reflexivity].
  rewrite IH. unfold is_currency_formatting. rewrite E.
  rewrite !orb_true_r. reflexivity.
Qed.

Lemma remove_currency_formatting_rev s :
  remove_currency_formatting (rev s) = rev (remove_currency_formatting s).
Proof.
  unfold remove_currency_formatting.
  induction s as [|c s IH]; [reflexivity|].
  simpl. rewrite filter_app, IH. simpl.
  destruct (negb (is_currency_formatting c)); simpl; [reflexivity|].
  apply app_nil_r.
Qed.

Lemma remove_currency_formatting_strip s :
  remove_currency_formatting (strip s) = remove_currency_formatting s.
Proof.
  unfold strip, rstrip.
  rewrite remove_currency_formatting_rev, remove_currency_formatting_lstrip,
    remove_currency_formatting_rev, rev_involutive.
  apply remove_currency_formatting_lstrip.
Qed.

Lemma Decimal_of_str_empty ud : Decimal_of_str ud [] = None.
Proof. reflexivity. Qed.

(** [parse_amount] of a string is decided by the string without its
    currency symbols, commas and whitespace. *)
Lemma parse_amount_str ud fr s :
  parse_amount ud fr (CellStr s)
  = Some match Decimal_of_str ud
                 (parentheses_to_minus (remove_currency_formatting s)) with
         | Some d => d
         | None => Decimal_0_00
         end.
Proof.
  unfold parse_amount. destruct (Str.eqb s []) eqn:E.
  - apply Str_eqb_eq in E. subst s. reflexivity.
  - rewrite remove_currency_formatting_strip.
    destruct (Decimal_of_str ud _); reflexivity.
Qed.

(** Strings of digits and points. *)
Lemma digits_and_points_plain s :
  digits_and_points s = true ->
  remove_currency_formatting s = s
  /\ forallb (fun c => negb (isspace c)) s = true
  /\ forall ud, to_ascii ud s = Some s.
Proof.
  unfold digits_and_points. induction s as [|c s IH]; intros H.
  - repeat split.
  - simpl in H. apply andb_prop in H. destruct H as [Hc Hs].
    destruct (IH Hs) as (Hr & Hw & Ha).
    assert (Hrange : (46 <= c <= 57)%N).
    { unfold is_digit, in_range in Hc.
      apply orb_prop in Hc. destruct Hc as [Hc|Hc].
      - apply andb_prop in Hc. destruct Hc as [H1 H2].
        apply N.leb_le in H1, H2. lia.
      - apply N.eqb_eq in Hc. lia. }
    assert (Hsp : isspace c = false).
    { unfold isspace, in_range.
      repeat (apply orb_false_intro);
        try (apply andb_false_iff; (left; apply N.leb_gt; lia) || (right; apply N.leb_gt; lia));
        try (apply N.eqb_neq; lia). }
    assert (Hfmt : is_currency_formatting c = false).
    { unfold is_currency_formatting. rewrite Hsp.
      repeat (apply orb_false_intro); try reflexivity; apply N.eqb_neq; lia. }
    split; [|split].
    + unfold remove_currency_formatting in *. simpl. rewrite Hfmt. simpl.
      f_equal. exact Hr.
    + simpl. rewrite Hsp. exact Hw.
    + intros ud. simpl.
      replace (c =? 95)%N with false by (symmetry; apply N.eqb_neq; lia).
      replace ((0 <? c) && (c <=? 127))%N with true.
      * rewrite Ha. reflexivity.
      * symmetry. apply andb_true_intro. split; [apply N.ltb_lt|apply N.leb_le]; lia.
Qed.

Lemma lstrip_no_space s :
  forallb (fun c => negb (isspace c)) s = true -> lstrip s = s.
Proof.
  destruct s as [|c s]; [reflexivity|]. simpl. intros H.
  apply andb_prop in H. destruct H as [H _].
  apply negb_true_iff in H. rewrite H. reflexivity.
Qed.

Lemma strip_no_space s :
  forallb (fun c => negb (isspace c)) s = true -> strip s = s.
Proof.
  intros H. unfold strip, rstrip. rewrite (lstrip_no_space s H).
  rewrite lstrip_no_space; [apply rev_involutive|].
  apply forallb_forall. intros c Hc. apply in_rev in Hc.
  rewrite forallb_forall in H. exact (H c Hc).
Qed.

(** The sign only decides the sign of what the number parser returns. *)
Lemma parse_numeric_sign neg s :
  parse_numeric neg s
  = match parse_numeric false s with
    | Some (DFinite _ c e) => Some (DFinite neg c e)
    | other => other
    end.
Proof.
  unfold parse_numeric.
  destruct (span_digits s) as [ip r1].
  destruct (match r1 with
            | 46%N :: r => span_digits r
            | _ => ([], r1)
            end) as [fp r2].
  destruct (ip ++ fp) as [|d ds]; [reflexivity|].
  destruct (match r2 with
            | [] => Some 0
            | c :: r3 => if (lower_ascii c =? 101)%N then parse_exponent r3 else None
            end) as [e|]; [|reflexivity].
  destruct (in_max_context _ _); reflexivity.
Qed.

(** A string of digits and points goes to the number parser. *)
Lemma parse_digits_and_points ud neg s :
  digits_and_points s = true ->
  Decimal_of_str ud (sign_prefix neg ++ s) = parse_numeric neg s.
Proof.
  intros H. destruct (digits_and_points_plain s H) as (_ & Hw & Ha).
  assert (Hns : forallb (fun c => negb (isspace c))
                  (sign_prefix neg ++ s) = true).
  { rewrite forallb_app, Hw. destruct neg; reflexivity. }
  unfold Decimal_of_str. rewrite (strip_no_space _ Hns).
  assert (Hto : to_ascii ud (sign_prefix neg ++ s)
                = Some (sign_prefix neg ++ s)).
  { destruct neg; simpl; rewrite Ha; reflexivity. }
  rewrite Hto.
  assert (Hun : parse_unsigned neg s = parse_numeric neg s).
  { unfold parse_unsigned.
    destruct s as [|c s']; [reflexivity|].
    unfold digits_and_points in H. simpl in H.
    apply andb_prop in H. destruct H as [Hc _].
    assert (Hrange : (46 <= c <= 57)%N).
    { unfold is_digit, in_range in Hc.
      apply orb_prop in Hc. destruct Hc as [Hc|Hc].
      - apply andb_prop in Hc. destruct Hc as [H1 H2].
        apply N.leb_le in H1, H2. lia.
      - apply N.eqb_eq in Hc. lia. }
    assert (Hlow : lower_ascii c = c).
    { unfold lower_ascii, is_upper, in_range.
      replace (65 <=? c)%N with false by (symmetry; apply N.leb_gt; lia).
      reflexivity. }
    simpl List.map. rewrite Hlow.
    destruct (Str.eqb (c :: List.map lower_ascii s') (lit "inf")) eqn:E1.
    { apply Str_eqb_eq in E1. inversion E1. lia. }
    destruct (Str.eqb (c :: List.map lower_ascii s') (lit "infinity")) eqn:E2.
    { apply Str_eqb_eq in E2. inversion E2. lia. }
    simpl.
    destruct c as [|p]; [lia|].
    do 7 (destruct p as [p|p|]; try lia; try reflexivity). }
  destruct neg; simpl.
  - exact Hun.
  - destruct s as [|c s']; [reflexivity|].
    unfold digits_and_points in H. simpl in H.
    apply andb_prop in H. destruct H as [Hc _].
    assert (Hrange : (46 <= c <= 57)%N).
    { unfold is_digit, in_range in Hc.
      apply orb_prop in Hc. destruct Hc as [Hc|Hc].
      - apply andb_prop in Hc. destruct Hc as [H1 H2].
        apply N.leb_le in H1, H2. lia.
      - apply N.eqb_eq in Hc. lia. }
    unfold parse_signed.
    destruct c as [|p]; [lia|].
    do 7 (destruct p as [p|p|]; try lia; try exact Hun).
Qed.

Lemma parse_numeric_finite neg s v :
  parse_numeric neg s = Some v -> exists c e, v = DFinite neg c e.
Proof.
  unfold parse_numeric.
  destruct (span_digits s) as [ip r1].
  destruct (match r1 with
            | 46%N :: r => span_digits r
            | _ => ([], r1)
            end) as [fp r2].
  destruct (ip ++ fp) as [|d ds]; [discriminate|].
  destruct (match r2 with
            | [] => Some 0
            | c :: r3 => if (lower_ascii c =? 101)%N then parse_exponent r3 else None
            end) as [e|]; [|discriminate].
  destruct (in_max_context _ _); [|discriminate].
  intros H. inversion H. eauto.
Qed.

(** The parentheses step on a parenthesised string of digits and points. *)
Lemma parentheses_to_minus_wrapped d :
  parentheses_to_minus (40%N :: d ++ [41%N]) = sign_prefix true ++ d.
Proof.
  unfold parentheses_to_minus, endswith, slice_1_m1.
  simpl rev. rewrite rev_app_distr. simpl.
  rewrite removelast_last. reflexivity.
Qed.

(** C9.  Amount normalization of a string: the result is decided by the
    string without its currency symbols ([$], [£], [€], [¥]), commas and
    whitespace; a string of digits and points that parses to a value, once
    wrapped in parentheses, parses to that value negated; ["$1,234.56"]
    gives 1234.56, ["(45.00)"] gives -45.00 and ["abc"] gives 0.00; and
    whenever the cleaned string fails to parse as a decimal the result is
    exactly [Decimal('0.00')], which equals zero, so the row filter of
    [process_ledger_file] and of [process_bank_statement_file] discards the
    row. *)
Theorem C9_amount_normalization ud fr sr sp td :
  (forall s,
      parse_amount ud fr (CellStr s)
      = Some match Decimal_of_str ud
                     (parentheses_to_minus (remove_currency_formatting s)) with
             | Some d => d
             | None => Decimal_0_00
             end)
  /\ (forall c, In c [36; 163; 8364; 165; 44; 32; 9; 10; 160]%N ->
        is_currency_formatting c = true)
  /\ (forall d v,
        digits_and_points d = true ->
        Decimal_of_str ud d = Some v ->
        exists c e,
          v = DFinite false c e
          /\ parse_amount ud fr (CellStr (40%N :: d ++ [41%N]))
             = Some (DFinite true c e))
  /\ parse_amount ud fr (CellStr (lit "$1,234.56"))
     = Some (DFinite false 123456 (-2))
  /\ parse_amount ud fr (CellStr (lit "(45.00)"))
     = Some (DFinite true 4500 (-2))
  /\ parse_amount ud fr (CellStr (lit "abc")) = Some Decimal_0_00
  /\ Decimal_ne_0 Decimal_0_00 = Some false
  /\ (forall s,
        Decimal_of_str ud (parentheses_to_minus (remove_currency_formatting s))
        = None ->
        parse_amount ud fr (CellStr s) = Some Decimal_0_00
        /\ forall cols mapped index row,
             row_get cols row (dict_get mapped (lit "amount") (lit "amount"))
               (CellInt 0) = CellStr s ->
             ledger_row ud fr sr sp td cols mapped index row = None
             /\ bank_row ud fr sr sp td cols mapped index row = None).
Proof.
  split; [intros s; apply parse_amount_str|].
  split.
  { intros c Hc. simpl in Hc.
    repeat (destruct Hc as [<-|Hc]; [reflexivity|]). destruct Hc. }
  split.
  { intros d v Hd Hv.
    pose proof (parse_digits_and_points ud false d Hd) as Hf. simpl in Hf.
    rewrite Hf in Hv.
    destruct (parse_numeric_finite false d v Hv) as (c & e & ->).
    exists c, e. split; [reflexivity|].
    rewrite parse_amount_str.
    destruct (digits_and_points_plain d Hd) as (Hr & _ & _).
    assert (Hrem : remove_currency_formatting (40%N :: d ++ [41%N])
                   = 40%N :: d ++ [41%N]).
    { unfold remove_currency_formatting in *. simpl.
      rewrite filter_app, Hr. reflexivity. }
    rewrite Hrem, parentheses_to_minus_wrapped.
    rewrite (parse_digits_and_points ud true d Hd), parse_numeric_sign, Hv.
    reflexivity. }
  split; [vm_compute; reflexivity|].
  split; [vm_compute; reflexivity|].
  split; [vm_compute; reflexivity|].
  split; [reflexivity|].
  intros s Hs.
  assert (Hp : parse_amount ud fr (CellStr s) = Some Decimal_0_00).
  { rewrite parse_amount_str, Hs. reflexivity. }
  split; [exact Hp|].
  intros cols mapped index row Hcell.
  unfold ledger_row, bank_row. rewrite Hcell, Hp.
  split; destruct (parse_date _ _ _ _) as [[d|]|]; try reflexivity;
    destruct (stripped_str _ _ _ _); reflexivity.
Qed.

Lemma C9_amount_normalization_witness :
  let ud := ascii_only_decimal in
  let fr := Sample.float_repr in
  (exists c e,
      DFinite false 4500 (-2) = DFinite false c e
      /\ parse_amount ud fr (CellStr (40%N :: lit "45.00" ++ [41%N]))
         = Some (DFinite true c e))
  /\ parse_amount ud fr (CellStr (lit "abc")) = Some Decimal_0_00.
Proof.
  intros ud fr.
  destruct (C9_amount_normalization ud fr
      Sample.series_repr Sample.strptime Sample.to_datetime)
    as (_ & _ & Hpar & _ & _ & _ & _ & Hbad).
  split.
  - apply (Hpar (lit "45.00")); vm_compute; reflexivity.
  - apply (Hbad (lit "abc")). vm_compute. reflexivity.
Defined.

(** ** Failure of a matching run *)

Lemma grows_refl w : grows w w.
Proof. split; [auto|]. exists []. rewrite app_nil_r. reflexivity. Qed.

Lemma grows_trans w1 w2 w3 : grows w1 w2 -> grows w2 w3 -> grows w1 w3.
Proof.
  intros [H1 (n1 & E1)] [H2 (n2 & E2)]. split; [auto|].
  exists (n1 ++ n2). rewrite E2, E1, app_assoc. reflexivity.
Qed.

Lemma grows_same w w' :
  session w' = session w -> db_matches (db w') = db_matches (db w) ->
  grows w w'.
Proof.
  intros Hs Hm. split; [rewrite Hs; auto|]. exists []. rewrite app_nil_r. exact Hm.
Qed.

Lemma steady_ret {A} (a : A) : steady (ret a).
Proof. intros w. split; [apply grows_refl|discriminate]. Qed.

Lemma steady_bind {A B} (m : M A) (k : A -> M B) :
  steady m -> (forall a, steady (k a)) -> steady (bind m k).
Proof.
  intros Hm Hk w. unfold bind. specialize (Hm w).
  destruct (m w) as [[a|e] w1]; simpl in *.
  - destruct Hm as [Hg _]. destruct (Hk a w1) as [Hg' Hn].
    split; [eapply grows_trans; eassumption|exact Hn].
  - destruct Hm as [Hg Hn]. split; [exact Hg|]. congruence.
Qed.

Lemma steady_for_each {A S} (body : S -> A -> M S) l :
  (forall s x, steady (body s x)) -> forall s, steady (for_each l body s).
Proof.
  intros Hb. induction l as [|x l IH]; intros s; simpl.
  - apply steady_ret.
  - apply steady_bind; [apply Hb|exact IH].
Qed.

Lemma steady_raise {A} e : e <> DoesNotExist -> steady (@raise A e).
Proof.
  intros He w. split; [apply grows_refl|]. simpl. congruence.
Qed.

Lemma steady_statement : steady statement.
Proof.
  intros w. unfold statement.
  destruct (fault_at w) as [[|n]|]; simpl;
    (split; [apply grows_same; reflexivity|discriminate]).
Qed.

Lemma steady_get_world : steady get_world.
Proof. intros w. split; [apply grows_refl|discriminate]. Qed.

Lemma steady_uuid4 : steady uuid4.
Proof. intros w. split; [apply grows_same; reflexivity|discriminate]. Qed.

Lemma steady_fetch {A} (qs : QuerySet A) : steady (fetch qs).
Proof.
  unfold fetch. apply steady_bind; [apply steady_statement|]. intros _.
  apply steady_bind; [apply steady_get_world|]. intros w. apply steady_ret.
Qed.

Lemma steady_count {A} (qs : QuerySet A) : steady (count qs).
Proof.
  unfold count. apply steady_bind; [apply steady_statement|]. intros _.
  apply steady_bind; [apply steady_get_world|]. intros w. apply steady_ret.
Qed.

Lemma steady_write f :
  (forall d, exists new, db_matches (f d) = db_matches d ++ new) ->
  steady (write f).
Proof.
  intros Hf w. unfold write, bind, statement, get_world, set_db.
  destruct (fault_at w) as [[|n]|]; simpl;
    (split; [|discriminate]); split; simpl; auto.
  exists []. rewrite app_nil_r. reflexivity.
Qed.

Lemma steady_write_same f :
  (forall d, db_matches (f d) = db_matches d) -> steady (write f).
Proof.
  intros Hf. apply steady_write. intros d. exists [].
  rewrite app_nil_r. apply Hf.
Qed.

Lemma steady_the_session : steady the_session.
Proof.
  intros w. unfold the_session, bind, get_world, ret, raise.
  destruct (session w); simpl; (split; [apply grows_refl|discriminate]).
Qed.

Lemma steady_session_assign f : steady (session_assign f).
Proof.
  intros w. unfold session_assign, the_session, bind, get_world, set_session,
    ret, raise.
  destruct (session w) eqn:E; simpl.
  - split; [|discriminate]. split; [simpl; discriminate|].
    exists []. rewrite app_nil_r. reflexivity.
  - split; [apply grows_refl|discriminate].
Qed.

Lemma steady_session_save : steady session_save.
Proof.
  unfold session_save. apply steady_bind; [apply steady_the_session|].
  intros s. apply steady_write_same. reflexivity.
Qed.

Lemma steady_timedelta_days n : steady (timedelta_days n).
Proof.
  unfold timedelta_days. destruct (Z.abs n <=? 999999999)%Z.
  - apply steady_ret.
  - apply steady_raise. discriminate.
Qed.

Lemma steady_match_ledger_record lower is_word dt at_ qs acc l :
  steady (match_ledger_record lower is_word dt at_ qs acc l).
Proof.
  unfold match_ledger_record.
  apply steady_bind; [apply steady_fetch|]. intros cands.
  destruct (best_match _); [|apply steady_ret].
  apply steady_bind.
  { destruct (score _); [apply steady_ret|apply steady_raise; discriminate]. }
  intros sc. apply steady_bind.
  { unfold TransactionMatch_create.
    apply steady_bind; [apply steady_uuid4|]. intros k.
    apply steady_bind; [|intros; apply steady_ret].
    apply steady_write. intros d. eexists. reflexivity. }
  intros m. apply steady_bind; [apply steady_write_same; reflexivity|].
  intros _. apply steady_bind; [apply steady_write_same; reflexivity|].
  intros _. apply steady_ret.
Qed.

Lemma steady_perform_transaction_matching lower is_word s lq bq :
  steady (perform_transaction_matching lower is_word s lq bq).
Proof.
  unfold perform_transaction_matching.
  apply steady_bind; [apply steady_timedelta_days|]. intros dt.
  apply steady_bind; [apply steady_fetch|]. intros rows.
  apply steady_bind; [|intros; apply steady_ret].
  apply steady_for_each. intros acc l. apply steady_match_ledger_record.
Qed.

Lemma steady_create_exception_records : steady create_exception_records.
Proof.
  assert (H : forall A (mk : A -> key -> ReconciliationException) rows,
            steady (for_each rows
                      (fun _ record => ReconciliationException_create (mk record)) tt)).
  { intros A mk rows. apply steady_for_each. intros [] r.
    unfold ReconciliationException_create.
    apply steady_bind; [apply steady_uuid4|]. intros k.
    apply steady_write_same. reflexivity. }
  unfold create_exception_records.
  apply steady_bind; [apply steady_fetch|]. intros ul.
  apply steady_bind; [apply H|]. intros _.
  apply steady_bind; [apply steady_fetch|]. intros ub. apply H.
Qed.

Lemma steady_update_session_statistics : steady update_session_statistics.
Proof.
  unfold update_session_statistics.
  repeat (apply steady_bind;
          [first [apply steady_count|apply steady_session_assign]|intros ?]).
  apply steady_session_save.
Qed.

Lemma steady_matching_steps lower is_word :
  steady (matching_steps lower is_word).
Proof.
  unfold matching_steps.
  apply steady_bind; [apply steady_the_session|]. intros s.
  apply steady_bind.
  { destruct (status s); try apply steady_ret;
      (apply steady_bind; [apply steady_session_assign|intros _;
                           apply steady_session_save]). }
  intros _. apply steady_bind; [apply steady_count|]. intros _.
  apply steady_bind; [apply steady_count|]. intros _.
  apply steady_bind; [apply steady_the_session|]. intros s'.
  apply steady_bind; [apply steady_perform_transaction_matching|]. intros ms.
  apply steady_bind; [apply steady_create_exception_records|]. intros _.
  apply steady_bind; [apply steady_update_session_statistics|]. intros _.
  apply steady_bind; [apply steady_get_world|]. intros w0.
  apply steady_bind; [apply steady_session_assign|]. intros _.
  apply steady_bind; [apply steady_session_assign|]. intros _.
  apply steady_bind; [apply steady_session_save|]. intros _.
  apply steady_ret.
Qed.

(** When the steps return, they return the success dictionary and the
    session was saved as completed. *)
Lemma matching_steps_return lower is_word w r w' :
  matching_steps lower is_word w = (Return r, w') ->
  exists n s, r = MatchingDone n /\ db_session (db w') = Some s
              /\ status s = Completed.
Proof.
  unfold matching_steps. intros Hrun.
  apply bind_return in Hrun. destruct Hrun as (s1 & w1 & _ & Hrun).
  apply bind_return in Hrun. destruct Hrun as ([] & w2 & _ & Hrun).
  apply bind_return in Hrun. destruct Hrun as (c1 & w3 & _ & Hrun).
  apply bind_return in Hrun. destruct Hrun as (c2 & w4 & _ & Hrun).
  apply bind_return in Hrun. destruct Hrun as (s4 & w5 & _ & Hrun).
  apply bind_return in Hrun. destruct Hrun as (ms & w6 & _ & Hrun).
  apply bind_return in Hrun. destruct Hrun as ([] & w7 & _ & Hrun).
  apply bind_return in Hrun. destruct Hrun as ([] & w8 & _ & Hrun).
  apply bind_return in Hrun. destruct Hrun as (wx & w9 & Hg & Hrun).
  inversion Hg; subst wx w9. clear Hg.
  apply bind_return in Hrun. destruct Hrun as ([] & w10 & Ha & Hrun).
  apply session_assign_return in Ha. destruct Ha as (sa & Esa & Hs10 & _ & _).
  apply bind_return in Hrun. destruct Hrun as ([] & w11 & Ha & Hrun).
  apply session_assign_return in Ha. destruct Ha as (sb & Esb & Hs11 & _ & _).
  apply bind_return in Hrun. destruct Hrun as ([] & w12 & Hsv & Hrun).
  apply session_save_return in Hsv. destruct Hsv as (sc & Esc & _ & Hd12 & _).
  inversion Hrun; subst. rewrite Hd12. simpl.
  eexists; eexists. split; [reflexivity|]. split; [reflexivity|].
  assert (sc = with_processed_at (Some (now w8)) (with_status Completed sa))
    by congruence.
  subst sc. reflexivity.
Qed.

Lemma ReconciliationSession_get_run w o w' :
  ReconciliationSession_get w = (o, w') ->
  db w' = db w
  /\ ((o = Return tt /\ exists s, session w' = Some s)
      \/ (o = Raise DatabaseError /\ session w' = session w)
      \/ (o = Raise DoesNotExist /\ session w' = session w
          /\ db_session (db w) = None)).
Proof.
  unfold ReconciliationSession_get, bind, statement, get_world, set_session, raise.
  destruct (fault_at w) as [[|n]|]; simpl;
    try (intros H; inversion H; subst; simpl; auto; fail);
    destruct (db_session (db w)) as [s|]; simpl; intros H; inversion H; subst;
    simpl; eauto 8.
Qed.

(** The handler of [except Exception]: with [session] bound it saves the
    session as failed, unless that statement fails too. *)
Lemma on_exception_run w o w' :
  on_exception w = (o, w') ->
  db_matches (db w') = db_matches (db w)
  /\ match session w with
     | None => o = Return Error /\ db w' = db w
     | Some s =>
         (o = Return Error
          /\ db_session (db w') = Some (with_status Failed s))
         \/ exists e, o = Raise e
     end.
Proof.
  unfold on_exception. intros Hrun.
  apply bind_return in Hrun || idtac.
  unfold bind at 1 in Hrun. unfold get_world at 1 in Hrun.
  destruct (session w) as [s|] eqn:E.
  - apply bind_run in Hrun.
    destruct Hrun as [([] & w1 & Ha & Hrun)|(e & Ha & ->)].
    + apply session_assign_return in Ha. destruct Ha as (s1 & Es1 & Hs1 & Hd1 & _).
      assert (s1 = s) by congruence. subst s1.
      apply bind_run in Hrun.
      destruct Hrun as [([] & w2 & Hsv & Hrun)|(e & Hsv & ->)].
      * apply session_save_return in Hsv. destruct Hsv as (s2 & Es2 & _ & Hd2 & _).
        inversion Hrun; subst. rewrite Hd2, Hd1. simpl.
        split; [reflexivity|]. left. split; [reflexivity|]. congruence.
      * unfold session_save in Hsv. apply bind_run in Hsv.
        destruct Hsv as [(s2 & w2 & Ht & Hsv)|(e' & Ht & _)].
        -- apply the_session_return in Ht. destruct Ht as [-> _].
           apply write_run in Hsv. destruct Hsv as (_ & [[Hx _]|[_ Hd]]);
             [discriminate|].
           split; [congruence|]. right. eauto.
        -- unfold the_session, bind, get_world in Ht. rewrite Hs1 in Ht.
           inversion Ht.
    + unfold session_assign, the_session, bind, get_world in Ha.
      rewrite E in Ha. inversion Ha.
  - inversion Hrun; subst. auto.
Qed.

(** A run of [start_reconciliation_matching] never removes a match: the
    matches table it leaves extends the one it found, so what a pass wrote
    before a failure stays written.  The run ends in one of these ways:
    it returns its success dictionary and the session is saved as
    [completed]; or a failure aborted it and it returns the error
    dictionary, and then either nothing was changed (the session could not
    be loaded) or the session is saved as [failed]; or the session does not
    exist and nothing was changed; or saving the failed session raised in
    its turn. *)
Lemma run_failed_or_completed lower is_word w :
  let run := start_reconciliation_matching lower is_word in
  (exists new, db_matches (db (snd (run w))) = db_matches (db w) ++ new)
  /\ match fst (run w) with
     | Return (MatchingDone _) =>
         exists s, db_session (db (snd (run w))) = Some s
                   /\ status s = Completed
     | Return Error =>
         db (snd (run w)) = db w
         \/ exists s, db_session (db (snd (run w))) = Some s
                      /\ status s = Failed
     | Return ErrorNotFound =>
         db (snd (run w)) = db w /\ db_session (db w) = None
     | Return (FilesProcessed _ _) => False
     | Raise _ => True
     end.
Proof.
  intros run.
  set (w0 := {| db := db w; session := None; next_key := next_key w;
                now := now w; fault_at := fault_at w |}).
  assert (Hrun : run w
                 = try_except
                     (ReconciliationSession_get;; matching_steps lower is_word)
                     except_clauses w0) by reflexivity.
  rewrite Hrun. clear Hrun. unfold try_except.
  assert (Hd0 : db w0 = db w) by reflexivity.
  assert (Hs0 : session w0 = None) by reflexivity.
  clearbody w0.
  destruct ((ReconciliationSession_get;; matching_steps lower is_word) w0)
    as [[r|e] w2] eqn:Hb.
  - apply bind_return in Hb. destruct Hb as ([] & w1 & Hg & Hsteps).
    apply ReconciliationSession_get_run in Hg. destruct Hg as (Hd1 & _).
    destruct (steady_matching_steps lower is_word w1) as [[_ (new & Hnew)] _].
    rewrite Hsteps in Hnew. simpl in Hnew. simpl.
    split; [exists new; rewrite Hnew, Hd1, Hd0; reflexivity|].
    destruct (matching_steps_return _ _ _ _ _ Hsteps) as (n & s & -> & Hs & Hc).
    eauto.
  - apply bind_run in Hb.
    destruct Hb as [([] & w1 & Hg & Hsteps)|(e' & Hg & E)].
    + apply ReconciliationSession_get_run in Hg.
      destruct Hg as (Hd1 & [(_ & s1 & Hs1)|[(Hx & _)|(Hx & _)]]); try discriminate.
      destruct (steady_matching_steps lower is_word w1) as [[Hb (new & Hnew)] Hne].
      rewrite Hsteps in Hnew, Hne, Hb. simpl in Hnew, Hne, Hb.
      assert (Hbound : session w2 <> None) by (apply Hb; congruence).
      assert (Hexc : except_clauses e = on_exception).
      { destruct e; try reflexivity. congruence. }
      rewrite Hexc.
      destruct (on_exception w2) as [o w3] eqn:Ho.
      apply on_exception_run in Ho. destruct Ho as (Hm3 & Ho). simpl.
      split; [exists new; rewrite Hm3, Hnew, Hd1, Hd0; reflexivity|].
      destruct (session w2) as [s2|]; [|congruence].
      destruct Ho as [(-> & Hs3)|(e3 & ->)]; [|exact I].
      right. exists (with_status Failed s2). split; [exact Hs3|reflexivity].
    + inversion E; subst e'. clear E.
      apply ReconciliationSession_get_run in Hg.
      destruct Hg as (Hd2 & [(Hx & _)|[(Hx & Hs2)|(Hx & Hs2 & Hnone)]]);
        try discriminate; inversion Hx; subst e; simpl.
      * destruct (on_exception w2) as [o w3] eqn:Ho.
        apply on_exception_run in Ho. destruct Ho as (Hm3 & Ho).
        rewrite Hs2, Hs0 in Ho. destruct Ho as (-> & Hd3). simpl.
        split; [exists []; rewrite Hm3, Hd2, Hd0, app_nil_r; reflexivity|].
        left. rewrite Hd3, Hd2, Hd0. reflexivity.
      * split; [exists []; rewrite Hd2, Hd0, app_nil_r; reflexivity|].
        split; [rewrite Hd2, Hd0; reflexivity|rewrite <- Hd0; exact Hnone].
Qed.

(** C3.  On a session with two ledger records and their two bank records,
    let the ninth statement of the task raise (the query for the candidates
    of the second ledger record).  The run is aborted, returns the error
    result and saves the session as [failed], but the first match and the
    [is_matched] flags of its two records stay in the database: the run did
    not update matches and counters in full (the undisturbed run creates two
    matches), and it did not leave the tables as it found them.  The task
    writes each match and each flag in a statement of its own, with no
    transaction around the pass to roll them back. *)
Theorem C3_partial_pass_persists :
  let run := start_reconciliation_matching ascii_lower ascii_word in
  let w := Sample.two_pairs_world (Some 8%nat) in
  fst (run w) = Return Error
  /\ option_map status (db_session (db (snd (run w)))) = Some Failed
  /\ ~ leaves_no_trace w (snd (run w))
  /\ List.length (db_matches (db (snd (run w)))) = 1%nat
  /\ List.map lr_is_matched (db_ledger (db (snd (run w)))) = [true; false]
  /\ List.map br_is_matched (db_bank (db (snd (run w)))) = [true; false]
  /\ List.length
       (db_matches (db (snd (run (Sample.two_pairs_world None))))) = 2%nat.
Proof.
  intros run w.
  assert (Hlen : List.length (db_matches (db (snd (run w)))) = 1%nat)
    by (vm_compute; reflexivity).
  split; [vm_compute; reflexivity|].
  split; [vm_compute; reflexivity|].
  split.
  { intros (Hm & _). rewrite Hm in Hlen. discriminate Hlen. }
  split; [exact Hlen|].
  split; [vm_compute; reflexivity|].
  split; vm_compute; reflexivity.
Qed.

(** ** The order of the ledger records *)

Lemma date_amount_le_total d1 a1 d2 a2 :
  date_amount_le d1 a1 d2 a2 = false -> date_amount_le d2 a2 d1 a1 = true.
Proof.
  unfold date_amount_le. intros H.
  apply orb_false_elim in H. destruct H as [H1 H2].
  apply Z.ltb_ge in H1.
  destruct (Z.eq_dec d1 d2) as [->|Hne].
  - rewrite Z.eqb_refl in *. simpl in H2. apply Z.leb_gt in H2.
    apply orb_true_intro. right. simpl. apply Z.leb_le. lia.
  - apply orb_true_intro. left. apply Z.ltb_lt. lia.
Qed.

Lemma date_amount_le_trans d1 a1 d2 a2 d3 a3 :
  date_amount_le d1 a1 d2 a2 = true -> date_amount_le d2 a2 d3 a3 = true ->
  date_amount_le d1 a1 d3 a3 = true.
Proof.
  unfold date_amount_le. intros H1 H2.
  apply orb_prop in H1. apply orb_prop in H2.
  rewrite !andb_true_iff, !Z.ltb_lt, !Z.eqb_eq, !Z.leb_le in *.
  apply orb_true_intro.
  rewrite !andb_true_iff, !Z.ltb_lt, !Z.eqb_eq, !Z.leb_le.
  destruct H1 as [H1|[E1 H1]], H2 as [H2|[E2 H2]]; subst; try (left; lia).
  right. split; [reflexivity|lia].
Qed.

Section OrderBy.

Context {A : Type} (le : A -> A -> bool).
Hypothesis le_total : forall x y, le x y = false -> le y x = true.
Hypothesis le_trans : forall x y z, le x y = true -> le y z = true -> le x z = true.

Let sorted := StronglySorted (fun x y => le x y = true).

Lemma insert_by_sorted x l : sorted l -> sorted (insert_by le x l).
Proof.
  induction l as [|y l IH]; intros Hs; simpl.
  - constructor; constructor.
  - inversion Hs as [|? ? Hs' Hall]; subst.
    destruct (le x y) eqn:E.
    + constructor; [exact Hs|]. constructor; [exact E|].
      rewrite Forall_forall in *. intros z Hz. eapply le_trans; eauto.
    + constructor; [apply IH; exact Hs'|].
      rewrite Forall_forall in *. intros z Hz.
      apply (Permutation_in _ (insert_by_perm le x l)) in Hz.
      destruct Hz as [<-|Hz]; [apply le_total; exact E|auto].
  Qed.

Lemma order_by_sorted l : sorted (order_by le l).
Proof.
  induction l as [|x l IH]; simpl; [constructor|].
  apply insert_by_sorted. exact IH.
Qed.

Lemma filter_sorted p l : sorted l -> sorted (List.filter p l).
Proof.
  induction 1 as [|x l Hs IH Hall]; simpl; [constructor|].
  destruct (p x); [|exact IH].
  constructor; [exact IH|].
  rewrite Forall_forall in *. intros z Hz. apply filter_In in Hz. apply Hall. tauto.
Qed.

End OrderBy.

(** The rows the outer loop iterates over are the unmatched ledger rows in
    ascending order of date, then amount. *)
Lemma task_ledger_records_sorted d :
  StronglySorted (fun a b => ledger_le a b = true) (task_ledger_records d)
  /\ Permutation (task_ledger_records d)
       (List.filter ledger_unmatched (db_ledger d)).
Proof.
  unfold task_ledger_records, qs_filter, session_ledger_records. split.
  - apply filter_sorted. apply order_by_sorted.
    + intros x y. apply date_amount_le_total.
    + intros x y z. apply date_amount_le_trans.
  - apply filter_perm. apply order_by_perm.
Qed.

(** *** Runs without a fault *)

Lemma statement_no_fault w :
  fault_at w = None -> statement w = (Return tt, w).
Proof. unfold statement. intros ->. reflexivity. Qed.

Lemma fetch_no_fault {A} (qs : QuerySet A) w :
  fault_at w = None -> fetch qs w = (Return (qs (db w)), w).
Proof.
  intros H. unfold fetch, bind. rewrite (statement_no_fault w H). reflexivity.
Qed.

Lemma write_no_fault f w :
  fault_at w = None -> write f w = (Return tt, with_db (f (db w)) w).
Proof.
  intros H. unfold write, bind. rewrite (statement_no_fault w H). reflexivity.
Qed.

Section TurnNoFault.

Variable lower : str -> str.
Variable is_word : char -> bool.
Variables date_tolerance amount_tolerance : Z.
Variable bank_records : QuerySet BankRecord.

(** A turn in which no statement fails. *)
Lemma match_ledger_record_no_fault acc l w :
  fault_at w = None ->
  let st := scan_candidates lower is_word l date_tolerance amount_tolerance
              (snd acc) (qs_filter bank_unmatched bank_records (db w)) in
  match_ledger_record lower is_word date_tolerance amount_tolerance
    bank_records acc l w
  = match best_match st, score st with
    | Some best, Some sc =>
        let m := make_match l best (best_score st) sc (next_key w) in
        (Return (fst acc ++ [m], score st),
         with_db
           (db_save_bank (bank_mark_matched (best_score st) best)
              (db_save_ledger (ledger_mark_matched (best_score st) l)
                 (db_add_match m (db w))))
           (with_next_key (Pos.succ (next_key w)) w))
    | Some best, None => (Raise UnboundLocalError, w)
    | None, _ => (Return (fst acc, score st), w)
    end.
Proof.
  intros Hf st. unfold match_ledger_record, bind at 1.
  rewrite (fetch_no_fault _ w Hf). fold st.
  destruct (best_match st) as [best|]; [|reflexivity].
  destruct (score st) as [sc|] eqn:Es; [|reflexivity].
  unfold TransactionMatch_create, LedgerRecord_save, BankRecord_save, uuid4, bind, ret.
  rewrite write_no_fault by exact Hf.
  rewrite write_no_fault by exact Hf.
  rewrite write_no_fault by exact Hf.
  reflexivity.
Qed.

End TurnNoFault.

Lemma bind_returned {A B} (m : M A) (k : A -> M B) w a w1 :
  m w = (Return a, w1) -> bind m k w = k a w1.
Proof. unfold bind. intros ->. reflexivity. Qed.

(** C2 (as amended).  The engine processes the unmatched ledger records in
    the order of the query set, which is ascending date, then amount (the
    [ordering] of the model), not row number.  Consequently, in a run in
    which no statement fails, on a session whose ledger records are two
    unmatched records and whose only bank record is unmatched, if the
    ledger record that comes first in that order reaches the threshold
    against the bank record, it claims the match and the other ledger
    record remains unmatched. *)
Theorem C2_first_by_date_then_amount lower is_word s l1 l2 b w :
  fault_at w = None ->
  Z.abs (date_tolerance_days s) <= 999999999 ->
  Permutation [l1; l2] (db_ledger (db w)) ->
  db_bank (db w) = [b] ->
  lr_is_matched l1 = false -> lr_is_matched l2 = false ->
  br_is_matched b = false ->
  lr_id l1 <> lr_id l2 ->
  ledger_le l2 l1 = false ->
  (0.7 <=? calculate_match_score lower is_word l1 b (date_tolerance_days s)
             (amount_tolerance s))%float = true ->
  let pass := perform_transaction_matching lower is_word s
                task_ledger_records task_bank_records in
  (forall d,
      StronglySorted (fun a b => ledger_le a b = true) (task_ledger_records d)
      /\ Permutation (task_ledger_records d)
           (List.filter ledger_unmatched (db_ledger d)))
  /\ task_ledger_records (db w) = [l1; l2]
  /\ exists m,
       fst (pass w) = Return [m]
       /\ tm_ledger_record m = lr_id l1
       /\ tm_bank_record m = br_id b
       /\ confidence_score m
          = calculate_match_score lower is_word l1 b (date_tolerance_days s)
              (amount_tolerance s)
       /\ db_matches (db (snd (pass w))) = db_matches (db w) ++ [m]
       /\ In l2 (db_ledger (db (snd (pass w))))
       /\ forall r, In r (db_ledger (db (snd (pass w)))) ->
            lr_id r = lr_id l1 -> lr_is_matched r = true.
Proof.
  intros Hf Htol Hperm Hbank Hu1 Hu2 Hub Hid Hlt Hthr pass.
  split; [exact task_ledger_records_sorted|].
  assert (Hle : ledger_le l1 l2 = true).
  { unfold ledger_le in *. apply date_amount_le_total. exact Hlt. }
  assert (Hrows : task_ledger_records (db w) = [l1; l2]).
  { unfold task_ledger_records, qs_filter, session_ledger_records.
    pose proof Hperm as Hp. apply Permutation_length_2_inv in Hp.
    destruct Hp as [->| ->]; unfold order_by; simpl;
      rewrite ?Hle, ?Hlt; simpl; unfold ledger_unmatched;
      rewrite Hu1, Hu2; reflexivity. }
  split; [exact Hrows|].
  set (dt := date_tolerance_days s) in *.
  set (at_ := amount_tolerance s) in *.
  set (c := calculate_match_score lower is_word l1 b dt at_) in *.
  set (m := make_match l1 b c c (next_key w)).
  (* the first turn *)
  assert (Hc1 : qs_filter bank_unmatched task_bank_records (db w) = [b]).
  { unfold task_bank_records, qs_filter, session_bank_records.
    rewrite Hbank. unfold order_by. simpl. unfold bank_unmatched.
    rewrite Hub. simpl. rewrite Hub. reflexivity. }
  pose proof (match_ledger_record_no_fault lower is_word dt at_
                task_bank_records ([], None) l1 w Hf) as H1.
  cbv zeta in H1. rewrite Hc1 in H1. cbn [fst snd] in H1.
  rewrite (scan_candidates_single lower is_word l1 dt at_ None b Hthr) in H1.
  simpl in H1. fold c in H1. fold m in H1.
  set (w1 := with_db
               (db_save_bank (bank_mark_matched c b)
                  (db_save_ledger (ledger_mark_matched c l1)
                     (db_add_match m (db w))))
               (with_next_key (Pos.succ (next_key w)) w)) in *.
  (* the second turn *)
  assert (Hc2 : qs_filter bank_unmatched task_bank_records (db w1) = []).
  { unfold task_bank_records, qs_filter, session_bank_records.
    simpl. rewrite Hbank. unfold save_rows. simpl.
    rewrite Pos.eqb_refl. reflexivity. }
  pose proof (match_ledger_record_no_fault lower is_word dt at_
                task_bank_records ([m], Some c) l2 w1 Hf) as H2.
  cbv zeta in H2. rewrite Hc2 in H2. cbn [fst snd] in H2.
  unfold scan_candidates in H2. simpl in H2.
  (* the pass *)
  assert (Hpass : pass w = (Return [m], w1)).
  { unfold pass, perform_transaction_matching.
    assert (Ht : timedelta_days (date_tolerance_days s) w = (Return dt, w)).
    { unfold timedelta_days. fold dt.
      replace (Z.abs dt <=? 999999999) with true
        by (symmetry; apply Z.leb_le; exact Htol).
      reflexivity. }
    rewrite (bind_returned _ _ _ _ _ Ht).
    rewrite (bind_returned _ _ _ _ _ (fetch_no_fault task_ledger_records w Hf)).
    rewrite Hrows. fold at_.
    assert (Hloop : for_each [l1; l2]
                      (match_ledger_record lower is_word dt at_ task_bank_records)
                      ([], None) w = (Return ([m], Some c), w1)).
    { simpl for_each.
      rewrite (bind_returned _ _ _ _ _ H1).
      rewrite (bind_returned _ _ _ _ _ H2). reflexivity. }
    rewrite (bind_returned _ _ _ _ _ Hloop). reflexivity. }
  exists m. rewrite Hpass. simpl fst; simpl snd.
  split; [reflexivity|]. split; [reflexivity|]. split; [reflexivity|].
  split; [reflexivity|]. split; [reflexivity|]. split.
  - simpl. apply save_rows_keeps.
    + apply (Permutation_in _ Hperm). right. left. reflexivity.
    + simpl. congruence.
  - intros r Hr E. simpl in Hr. apply save_rows_key in Hr; [|exact E].
    subst r. reflexivity.
Qed.

Lemma C2_first_by_date_then_amount_witness :
  let w := Sample.row_order_world in
  let s := Sample.parsed_session 3 0 2 1 in
  let l1 := Sample.ledger 2%positive 738010 "rent" 5000 2 in
  let l2 := Sample.ledger 1%positive 738012 "rent" 5000 1 in
  let b := Sample.bank 11%positive 738011 "rent" 5000 1 in
  let pass := perform_transaction_matching ascii_lower ascii_word s
                task_ledger_records task_bank_records in
  Permutation [l1; l2] (db_ledger (db w))
  /\ ledger_le l2 l1 = false
  /\ task_ledger_records (db w) = [l1; l2]
  /\ exists m,
       fst (pass w) = Return [m]
       /\ tm_ledger_record m = lr_id l1
       /\ tm_bank_record m = br_id b.
Proof.
  intros w s l1 l2 b pass.
  assert (Hperm : Permutation [l1; l2] (db_ledger (db w))) by apply perm_swap.
  assert (Hlt : ledger_le l2 l1 = false) by reflexivity.
  split; [exact Hperm|]. split; [exact Hlt|].
  destruct (C2_first_by_date_then_amount ascii_lower ascii_word s l1 l2 b w)
    as (_ & Hrows & m & Hm & Hl & Hb & _).
  - reflexivity.
  - vm_compute. discriminate.
  - exact Hperm.
  - reflexivity.
  - reflexivity.
  - reflexivity.
  - reflexivity.
  - vm_compute. discriminate.
  - exact Hlt.
  - vm_compute. reflexivity.
  - split; [exact Hrows|]. exists m. auto.
Defined.

(** C2, as stated, fails.  On a session whose ledger file has, in row 1, a
    record dated two days after the record in row 2, and whose bank record
    lies within tolerance of both, each ledger record reaches the threshold
    against the bank record; the loop takes the record of row 2 first, and
    it is the one that claims the match, while the record of row 1, the
    lower row number, remains unmatched. *)
Lemma C2_lower_row_number_unmatched :
  let run := start_reconciliation_matching ascii_lower ascii_word in
  let w := Sample.row_order_world in
  let scores :=
    List.map (fun l => calculate_match_score ascii_lower ascii_word l
                         (Sample.bank 11%positive 738011 "rent" 5000 1) 3 0)
      (db_ledger (db w)) in
  List.map lr_row_number (db_ledger (db w)) = [1; 2]
  /\ List.map (fun x => (0.7 <=? x)%float) scores = [true; true]
  /\ List.map lr_row_number (task_ledger_records (db w)) = [2; 1]
  /\ fst (run w) = Return (MatchingDone 1)
  /\ List.map tm_ledger_record (db_matches (db (snd (run w)))) = [2%positive]
  /\ List.map (fun l => (lr_row_number l, lr_is_matched l))
       (db_ledger (db (snd (run w)))) = [(1, false); (2, true)].
Proof.
  vm_compute. repeat split.
Qed.

(** * The similarity scorer

    The score is a float, and what is claimed of it rests on the rounding
    of binary64 arithmetic.  The library specifies the operations on
    [spec_float]; the lemmas below bound the results of that specification:
    a value rounds to a float between the numbers of the format around it. *)

(** ** Binary64 arithmetic *)

Lemma bpow_pos e : (0 < bpow e)%R.
Proof. apply powerRZ_lt. lra. Qed.

Lemma bpow_add a b : bpow (a + b) = (bpow a * bpow b)%R.
Proof. apply powerRZ_add. lra. Qed.

Lemma bpow_0 : bpow 0 = 1%R.
Proof. reflexivity. Qed.

Lemma bpow_IZR e : 0 <= e -> bpow e = IZR (2 ^ e).
Proof.
  intros H. unfold bpow.
  rewrite <- (Z2Nat.id e H) at 1.
  rewrite <- pow_powerRZ. rewrite pow_IZR. rewrite Z2Nat.id by exact H.
  reflexivity.
Qed.

Lemma bpow_lt a b : a < b -> (bpow a < bpow b)%R.
Proof.
  intros H. replace b with (a + (b - a)) by lia.
  rewrite bpow_add. rewrite (bpow_IZR (b - a)) by lia.
  assert (H1 : (2 <= IZR (2 ^ (b - a)))%R).
  { apply IZR_le. change 2 with (2 ^ 1) at 1. apply Z.pow_le_mono_r; lia. }
  pose proof (bpow_pos a). nra.
Qed.

Lemma bpow_le a b : a <= b -> (bpow a <= bpow b)%R.
Proof.
  intros H. destruct (Z.eq_dec a b) as [->|Hne]; [lra|].
  apply Rlt_le, bpow_lt. lia.
Qed.

Lemma bpow_lt_inv a b : (bpow a < bpow b)%R -> a < b.
Proof.
  intros H. destruct (Z_lt_le_dec a b) as [|Hle]; [assumption|].
  apply bpow_le in Hle. lra.
Qed.

Lemma F2R_shift m e n : 0 <= n -> F2R (m * 2 ^ n) e = F2R m (e + n).
Proof.
  intros H. unfold F2R. rewrite mult_IZR, <- (bpow_IZR n H).
  rewrite (Z.add_comm e n), bpow_add. ring.
Qed.

Lemma F2R_le m1 m2 e : m1 <= m2 -> (F2R m1 e <= F2R m2 e)%R.
Proof.
  intros H. unfold F2R. apply IZR_le in H. pose proof (bpow_pos e). nra.
Qed.

Lemma F2R_lt m1 m2 e : m1 < m2 -> (F2R m1 e < F2R m2 e)%R.
Proof.
  intros H. unfold F2R. apply IZR_lt in H. pose proof (bpow_pos e). nra.
Qed.

Lemma F2R_le_inv m1 m2 e : (F2R m1 e <= F2R m2 e)%R -> m1 <= m2.
Proof.
  intros H. destruct (Z_lt_le_dec m2 m1) as [Hlt|]; [|assumption].
  apply (F2R_lt _ _ e) in Hlt. lra.
Qed.

Lemma F2R_lt_inv m1 m2 e : (F2R m1 e < F2R m2 e)%R -> m1 < m2.
Proof.
  intros H. destruct (Z_lt_le_dec m1 m2) as [|Hle]; [assumption|].
  apply (F2R_le _ _ e) in Hle. lra.
Qed.

Lemma F2R_eq_inv m1 m2 e : F2R m1 e = F2R m2 e -> m1 = m2.
Proof.
  intros H. apply Z.le_antisymm; apply (F2R_le_inv _ _ e); lra.
Qed.

(** *** The number of digits of a mantissa *)

Lemma digits2_pos_bounds p :
  2 ^ (Zpos (digits2_pos p) - 1) <= Zpos p < 2 ^ Zpos (digits2_pos p).
Proof.
  induction p as [p IH|p IH|]; simpl digits2_pos.
  - rewrite Pos2Z.inj_succ.
    replace (Z.succ (Zpos (digits2_pos p)) - 1) with (Z.succ (Zpos (digits2_pos p) - 1)) by lia.
    rewrite !Z.pow_succ_r by lia. lia.
  - rewrite Pos2Z.inj_succ.
    replace (Z.succ (Zpos (digits2_pos p)) - 1) with (Z.succ (Zpos (digits2_pos p) - 1)) by lia.
    rewrite !Z.pow_succ_r by lia. lia.
  - simpl. lia.
Qed.

Lemma Zdigits2_bounds m : 0 < m -> 2 ^ (Zdigits2 m - 1) <= m < 2 ^ Zdigits2 m.
Proof.
  intros H. destruct m as [|p|p]; try lia. apply digits2_pos_bounds.
Qed.

Lemma Zdigits2_pos m : 0 < m -> 0 < Zdigits2 m.
Proof. intros H. destruct m; simpl; lia. Qed.

Lemma Zdigits2_nonneg m : 0 <= Zdigits2 m.
Proof. destruct m; simpl; lia. Qed.

Lemma Zdigits2_unique m d : 0 < d -> 2 ^ (d - 1) <= m < 2 ^ d -> Zdigits2 m = d.
Proof.
  intros Hd [H1 H2].
  assert (Hm : 0 < m) by (pose proof (Z.pow_pos_nonneg 2 (d - 1)); lia).
  pose proof (Zdigits2_bounds m Hm) as [H3 H4].
  pose proof (Zdigits2_pos m Hm) as H5.
  destruct (Z.lt_trichotomy (Zdigits2 m) d) as [Hlt|[Heq|Hgt]]; [|exact Heq|].
  - assert (2 ^ Zdigits2 m <= 2 ^ (d - 1)) by (apply Z.pow_le_mono_r; lia). lia.
  - assert (2 ^ d <= 2 ^ (Zdigits2 m - 1)) by (apply Z.pow_le_mono_r; lia). lia.
Qed.

Lemma Zdigits2_le m1 m2 : 0 < m1 -> m1 <= m2 -> Zdigits2 m1 <= Zdigits2 m2.
Proof.
  intros H1 H2.
  pose proof (Zdigits2_bounds m1 H1) as [H3 _].
  pose proof (Zdigits2_bounds m2 ltac:(lia)) as [_ H4].
  destruct (Z_lt_le_dec (Zdigits2 m2) (Zdigits2 m1)) as [Hlt|]; [|assumption].
  assert (2 ^ Zdigits2 m2 <= 2 ^ (Zdigits2 m1 - 1)) by (apply Z.pow_le_mono_r; pose proof (Zdigits2_nonneg m2); lia).
  lia.
Qed.

Lemma Zdigits2_lt_pow m d : 0 <= d -> 0 <= m < 2 ^ d -> Zdigits2 m <= d.
Proof.
  intros Hd [H1 H2]. destruct (Z.eq_dec m 0) as [->|Hne]; [simpl; lia|].
  pose proof (Zdigits2_bounds m ltac:(lia)) as [H3 _].
  destruct (Z_lt_le_dec d (Zdigits2 m)) as [Hlt|]; [|assumption].
  assert (2 ^ d <= 2 ^ (Zdigits2 m - 1)) by (apply Z.pow_le_mono_r; lia). lia.
Qed.

Lemma Zdigits2_shift m n : 0 < m -> 0 <= n -> Zdigits2 (m * 2 ^ n) = Zdigits2 m + n.
Proof.
  intros Hm Hn. pose proof (Zdigits2_bounds m Hm) as [H1 H2].
  pose proof (Zdigits2_pos m Hm).
  apply Zdigits2_unique; [lia|].
  replace (Zdigits2 m + n - 1) with (Zdigits2 m - 1 + n) by lia.
  rewrite !Z.pow_add_r by lia.
  pose proof (Z.pow_pos_nonneg 2 n). nia.
Qed.

Lemma Zdigits2_div m n : 0 <= n -> 0 < m / 2 ^ n -> Zdigits2 (m / 2 ^ n) = Zdigits2 m - n.
Proof.
  intros Hn Hq.
  assert (Hp : 0 < 2 ^ n) by (apply Z.pow_pos_nonneg; lia).
  assert (Hm : 0 < m).
  { destruct (Z_lt_le_dec 0 m); [assumption|].
    assert (m / 2 ^ n <= 0) by (apply Z.div_le_upper_bound; lia). lia. }
  pose proof (Zdigits2_bounds m Hm) as [H1 H2].
  pose proof (Zdigits2_bounds _ Hq) as [H3 H4].
  pose proof (Zdigits2_pos _ Hq) as H5.
  pose proof (Z.mul_div_le m (2 ^ n) Hp) as H6.
  pose proof (Z.mul_succ_div_gt m (2 ^ n) Hp) as H7.
  set (q := m / 2 ^ n) in *. set (dq := Zdigits2 q) in *.
  (* q*2^n <= m < (q+1)*2^n ; 2^(dq-1) <= q < 2^dq *)
  assert (Hd : Zdigits2 m = dq + n).
  { apply Zdigits2_unique; [lia|].
    replace (dq + n - 1) with (dq - 1 + n) by lia.
    rewrite !Z.pow_add_r by lia. nia. }
  lia.
Qed.

(** *** Shifting a mantissa right *)

Lemma shr_1_shifted x : 0 <= shr_m x -> shifted 1 x (shr_1 x).
Proof.
  intros H. destruct x as [m r s]. simpl in H.
  assert (Hm : shr_m (shr_1 (Build_shr_record m r s)) = Z.div2 m
               /\ shr_r (shr_1 (Build_shr_record m r s)) = Z.odd m
               /\ shr_s (shr_1 (Build_shr_record m r s)) = r || s).
  { destruct m as [|[p|p|]|p]; simpl; auto. lia. }
  destruct Hm as (Hm & Hr & Hs). unfold shifted.
  rewrite Hm, Hr, Hs. simpl shr_m; simpl shr_r; simpl shr_s.
  rewrite Z.div2_div. change (2 ^ 1) with 2.
  split; [apply Z.div_pos; lia|]. split; [reflexivity|].
  intros Hrs Heq. rewrite Hrs, orb_false_r.
  rewrite Heq, Z.mul_comm, Z.odd_mul. reflexivity.
Qed.

Lemma shifted_trans a b x y z :
  0 <= a -> 0 <= b -> 0 <= shr_m x ->
  shifted a x y -> shifted b y z -> shifted (a + b) x z.
Proof.
  intros Ha Hb Hx (Hy0 & Hy & Hey) (Hz0 & Hz & Hez).
  assert (Hpa : 0 < 2 ^ a) by (apply Z.pow_pos_nonneg; lia).
  assert (Hpb : 0 < 2 ^ b) by (apply Z.pow_pos_nonneg; lia).
  split; [exact Hz0|]. split.
  - rewrite Hz, Hy, Z.pow_add_r by lia. apply Z.div_div; lia.
  - intros Hrs Heq. rewrite Z.pow_add_r in Heq by lia.
    assert (Hxy : shr_m x = shr_m y * 2 ^ a).
    { rewrite Hy. rewrite Heq.
      replace (shr_m z * (2 ^ a * 2 ^ b)) with (shr_m z * 2 ^ b * 2 ^ a) by ring.
      rewrite Z.div_mul by lia. reflexivity. }
    apply Hez; [apply Hey; assumption|].
    rewrite Hxy in Heq. nia.
Qed.

Lemma iter_pos_shifted p x :
  0 <= shr_m x -> shifted (Zpos p) x (SpecFloat.iter_pos shr_1 p x).
Proof.
  revert x. induction p as [p IH|p IH|]; intros x Hx; simpl SpecFloat.iter_pos.
  - pose proof (shr_1_shifted x Hx) as H1.
    pose proof (IH _ (proj1 H1)) as H2.
    pose proof (IH _ (proj1 H2)) as H3.
    replace (Zpos p~1) with (1 + (Zpos p + Zpos p)) by lia.
    apply (shifted_trans 1 (Zpos p + Zpos p) _ _ _ ltac:(lia) ltac:(lia) Hx H1).
    apply (shifted_trans (Zpos p) (Zpos p) _ _ _ ltac:(lia) ltac:(lia) (proj1 H1) H2 H3).
  - pose proof (IH _ Hx) as H2.
    pose proof (IH _ (proj1 H2)) as H3.
    replace (Zpos p~0) with (Zpos p + Zpos p) by lia.
    apply (shifted_trans (Zpos p) (Zpos p) _ _ _ ltac:(lia) ltac:(lia) Hx H2 H3).
  - apply shr_1_shifted. exact Hx.
Qed.

Lemma loc_of_shr_record_of_loc m l :
  loc_of_shr_record (shr_record_of_loc m l) = l.
Proof. destruct l as [|[]]; reflexivity. Qed.

Lemma shr_m_record_of_loc m l : shr_m (shr_record_of_loc m l) = m.
Proof. destruct l as [|[]]; reflexivity. Qed.

Lemma loc_Exact_flags x :
  loc_of_shr_record x = loc_Exact <-> shr_r x || shr_s x = false.
Proof.
  destruct x as [m [] []]; simpl; split; intros H; congruence.
Qed.

Lemma located_shift v m e l n :
  0 <= m -> 0 <= n -> located v m e l ->
  forall x, shifted n (shr_record_of_loc m l) x ->
  located v (shr_m x) (e + n) (loc_of_shr_record x).
Proof.
  intros Hm Hn [[Hlo Hhi] Hex] x (Hx0 & Hx & Hflags).
  rewrite shr_m_record_of_loc in Hx, Hflags.
  assert (Hp : 0 < 2 ^ n) by (apply Z.pow_pos_nonneg; lia).
  pose proof (Z.mul_div_le m (2 ^ n) Hp) as H6.
  pose proof (Z.mul_succ_div_gt m (2 ^ n) Hp) as H7.
  rewrite <- Hx in H6, H7.
  split; [split|].
  - rewrite <- F2R_shift by exact Hn.
    apply Rle_trans with (2 := Hlo). apply F2R_le. lia.
  - rewrite <- F2R_shift by exact Hn.
    apply Rlt_le_trans with (1 := Hhi). apply F2R_le. lia.
  - intros Hv. rewrite <- F2R_shift in Hv by exact Hn.
    assert (Hle : m <= shr_m x * 2 ^ n) by (apply (F2R_le_inv _ _ e); lra).
    assert (Heq : m = shr_m x * 2 ^ n) by lia.
    apply loc_Exact_flags. apply Hflags; [|exact Heq].
    apply loc_Exact_flags. rewrite loc_of_shr_record_of_loc.
    apply Hex. rewrite Hv, <- Heq. reflexivity.
Qed.

(** [shr_fexp]: the mantissa brought to the exponent of its format. *)
Lemma shr_fexp_located v m e l :
  0 <= m -> located v m e l -> e <= fexp prec emax (Zdigits2 m + e) ->
  let '(x, e') := shr_fexp prec emax m e l in
  e' = fexp prec emax (Zdigits2 m + e)
  /\ shr_m x = m / 2 ^ (e' - e)
  /\ located v (shr_m x) e' (loc_of_shr_record x).
Proof.
  intros Hm Hloc He. unfold shr_fexp, shr.
  set (e1 := fexp prec emax (Zdigits2 m + e)) in *.
  destruct (e1 - e) as [|p|p] eqn:En; try lia.
  - assert (e1 = e) by lia. subst e1.
    rewrite shr_m_record_of_loc, loc_of_shr_record_of_loc.
    split; [lia|]. split; [|exact Hloc].
    replace (e - e) with 0 by lia. rewrite Z.div_1_r. reflexivity.
  - pose proof (iter_pos_shifted p (shr_record_of_loc m l)) as Hs.
    rewrite shr_m_record_of_loc in Hs. specialize (Hs Hm).
    split; [lia|]. split.
    + destruct Hs as (_ & Hs & _). rewrite shr_m_record_of_loc in Hs.
      rewrite Hs. f_equal. f_equal. lia.
    + exact (located_shift v m e l (Zpos p) Hm ltac:(lia) Hloc _ Hs).
Qed.

(** *** Rounding to the exponent of the format *)

Lemma fexp_eq e : fexp prec emax e = Z.max (e - 53) (-1074).
Proof. reflexivity. Qed.

Lemma Zdigits2_succ k :
  0 < k ->
  Zdigits2 (k + 1) = Zdigits2 k
  \/ (Zdigits2 (k + 1) = Zdigits2 k + 1 /\ k + 1 = 2 ^ Zdigits2 k).
Proof.
  intros Hk. pose proof (Zdigits2_bounds k Hk) as [H1 H2].
  pose proof (Zdigits2_pos k Hk) as H3.
  destruct (Z.eq_dec (k + 1) (2 ^ Zdigits2 k)) as [Heq|Hne].
  - right. split; [|exact Heq]. apply Zdigits2_unique; [lia|].
    replace (Zdigits2 k + 1 - 1) with (Zdigits2 k) by lia.
    rewrite Z.pow_add_r by lia. change (2 ^ 1) with 2. lia.
  - left. apply Zdigits2_unique; [lia|]. lia.
Qed.

Lemma round_nearest_even_cases m l :
  round_nearest_even m l = m
  \/ (round_nearest_even m l = m + 1 /\ l <> loc_Exact).
Proof.
  destruct l as [|[]]; simpl; auto.
  - destruct (Z.even m); [left; reflexivity|right; split; [reflexivity|discriminate]].
  - right. split; [reflexivity|discriminate].
Qed.

(** The second normalisation of [binary_round_aux] loses nothing. *)
Lemma shr_fexp_canonical k e1 m :
  ((k = 0 /\ e1 = -1074) \/ (0 < k /\ fexp prec emax (Zdigits2 k + e1) = e1)) ->
  m = k \/ m = k + 1 ->
  let '(y, e2) := shr_fexp prec emax m e1 loc_Exact in
  0 <= shr_m y
  /\ F2R (shr_m y) e2 = F2R m e1
  /\ (shr_m y = 0 \/ fexp prec emax (Zdigits2 (shr_m y) + e2) = e2).
Proof.
  intros Hk Hm. unfold shr_fexp, shr.
  assert (Hcases : m = 0 /\ e1 = -1074
                   \/ (0 < m /\ fexp prec emax (Zdigits2 m + e1) = e1)
                   \/ (0 < m /\ fexp prec emax (Zdigits2 m + e1) = e1 + 1
                       /\ m = 2 ^ (Zdigits2 m - 1) /\ 1 < Zdigits2 m)).
  { destruct Hk as [[-> ->]|[Hk Hc]].
    - destruct Hm as [->| ->]; [left; split; reflexivity|].
      right. left. split; [lia|reflexivity].
    - destruct Hm as [->| ->]; [right; left; split; assumption|].
      destruct (Zdigits2_succ k Hk) as [Hd|[Hd Hp]].
      + right. left. split; [lia|]. rewrite Hd. exact Hc.
      + pose proof (Zdigits2_pos k Hk).
        rewrite fexp_eq in Hc.
        destruct (Z.eq_dec (fexp prec emax (Zdigits2 (k + 1) + e1)) e1) as [He|He].
        * right. left. split; [lia|exact He].
        * right. right. split; [lia|]. rewrite fexp_eq in He |- *.
          rewrite Hd in *. split; [lia|]. split; [|lia].
          replace (Zdigits2 k + 1 - 1) with (Zdigits2 k) by lia. exact Hp. }
  destruct Hcases as [[-> ->]|[[Hm0 Hc]|(Hm0 & Hc & Hp & Hd)]].
  - simpl. split; [lia|]. split; [reflexivity|]. left. reflexivity.
  - rewrite Hc. replace (e1 - e1) with 0 by lia. simpl.
    split; [lia|]. split; [reflexivity|]. right. exact Hc.
  - rewrite Hc. replace (e1 + 1 - e1) with 1 by lia.
    change (SpecFloat.iter_pos shr_1 1 (shr_record_of_loc m loc_Exact))
      with (shr_1 (Build_shr_record m false false)).
    pose proof (shr_1_shifted (Build_shr_record m false false)) as Hs.
    specialize (Hs ltac:(simpl; lia)). destruct Hs as (Hy0 & Hy & _).
    cbn [shr_m] in Hy. change (2 ^ 1) with 2 in Hy.
    set (y := shr_1 (Build_shr_record m false false)) in *.
    clearbody y. set (d := Zdigits2 m) in *. clearbody d.
    assert (Hhalf : shr_m y = 2 ^ (d - 2)).
    { rewrite Hy, Hp.
      replace (d - 1) with (1 + (d - 2)) by lia.
      rewrite Z.pow_add_r by lia. change (2 ^ 1) with 2.
      rewrite Z.mul_comm, Z.div_mul by lia. reflexivity. }
    assert (Hm2 : m = shr_m y * 2 ^ 1).
    { rewrite Hhalf, Hp.
      replace (d - 1) with (d - 2 + 1) by lia.
      rewrite Z.pow_add_r by lia. reflexivity. }
    split; [exact Hy0|]. split.
    + rewrite Hm2. rewrite F2R_shift by lia. reflexivity.
    + right.
      assert (Hdy : Zdigits2 (shr_m y) = d - 1).
      { apply Zdigits2_unique; [lia|]. rewrite Hhalf.
        replace (d - 1 - 1) with (d - 2) by lia.
        split; [lia|]. apply Z.pow_lt_mono_r; lia. }
      rewrite Hdy. replace (d - 1 + (e1 + 1)) with (d + e1) by lia.
      exact Hc.
Qed.

(** What [binary_round_aux] returns for a located value: with [e1] the
    exponent of the format at this magnitude and [k] the mantissa truncated
    to it, the result has the value of [k] or of [k + 1] at [e1], the latter
    only when the value is above that of [k]; and its mantissa fits the
    format. *)
Lemma binary_round_aux_core sx v m e l :
  0 <= m -> located v m e l -> e <= fexp prec emax (Zdigits2 m + e) ->
  let e1 := fexp prec emax (Zdigits2 m + e) in
  let k := m / 2 ^ (e1 - e) in
  exists m2 e2,
    binary_round_aux prec emax sx m e l
    = match m2 with
      | Z0 => S754_zero sx
      | Zpos p => if e2 <=? emax - prec then S754_finite sx p e2
                  else S754_infinity sx
      | Zneg _ => S754_nan
      end
    /\ 0 <= m2
    /\ (m2 = 0 \/ fexp prec emax (Zdigits2 m2 + e2) = e2)
    /\ (F2R k e1 <= v < F2R (k + 1) e1)%R
    /\ (F2R m2 e2 = F2R k e1 \/ (F2R m2 e2 = F2R (k + 1) e1 /\ v <> F2R k e1)).
Proof.
  intros Hm Hloc He e1 k. unfold binary_round_aux.
  pose proof (shr_fexp_located v m e l Hm Hloc He) as H1.
  destruct (shr_fexp prec emax m e l) as [x e'].
  destruct H1 as (He' & Hx & [Hv Hex]). fold e1 in He'. subst e'. fold k in Hx.
  rewrite Hx in *.
  assert (Hp : 0 < 2 ^ (e1 - e)) by (apply Z.pow_pos_nonneg; lia).
  assert (Hk0 : 0 <= k) by (apply Z.div_pos; lia).
  assert (Hkc : (k = 0 /\ e1 = -1074)
                \/ (0 < k /\ fexp prec emax (Zdigits2 k + e1) = e1)).
  { destruct (Z.eq_dec k 0) as [Hz|Hnz].
    - left. split; [exact Hz|].
      destruct (Z.eq_dec m 0) as [->|Hmz].
      + simpl Zdigits2 in *. unfold e1 in *. rewrite fexp_eq in *. lia.
      + assert (Hlt : m < 2 ^ (e1 - e)).
        { destruct (Z_lt_le_dec m (2 ^ (e1 - e))); [assumption|].
          assert (1 <= k) by (apply Z.div_le_lower_bound; lia). lia. }
        pose proof (Zdigits2_lt_pow m (e1 - e) ltac:(lia) ltac:(lia)).
        unfold e1 in *. rewrite fexp_eq in *. lia.
    - right. split; [lia|].
      unfold k. rewrite Zdigits2_div by (fold k; lia).
      replace (Zdigits2 m - (e1 - e) + e1) with (Zdigits2 m + e) by lia.
      reflexivity. }
  set (m1 := round_nearest_even k (loc_of_shr_record x)).
  assert (Hm1 : m1 = k \/ (m1 = k + 1 /\ loc_of_shr_record x <> loc_Exact))
    by apply round_nearest_even_cases.
  pose proof (shr_fexp_canonical k e1 m1 Hkc
                ltac:(destruct Hm1 as [?|[? _]]; auto)) as H2.
  destruct (shr_fexp prec emax m1 e1 loc_Exact) as [y e2].
  destruct H2 as (Hy0 & Hy & Hyc).
  exists (shr_m y), e2.
  split; [reflexivity|]. split; [exact Hy0|]. split; [exact Hyc|].
  split; [exact Hv|].
  rewrite Hy. destruct Hm1 as [->|[-> Hne]]; [left; reflexivity|].
  right. split; [reflexivity|]. intros Heq. apply Hne, Hex, Heq.
Qed.

(** *** Bounds of a rounded value *)

Lemma bpow_F2R n e : 0 <= n -> bpow (n + e) = F2R (2 ^ n) e.
Proof. intros H. unfold F2R. rewrite bpow_add, (bpow_IZR n H). reflexivity. Qed.

Lemma F2R_lower m e : 0 < m -> (bpow (Zdigits2 m - 1 + e) <= F2R m e)%R.
Proof.
  intros H. pose proof (Zdigits2_bounds m H) as [H1 _].
  pose proof (Zdigits2_pos m H).
  rewrite bpow_F2R by lia. apply F2R_le. exact H1.
Qed.

Lemma F2R_upper m e : 0 < m -> (F2R m e < bpow (Zdigits2 m + e))%R.
Proof.
  intros H. pose proof (Zdigits2_bounds m H) as [_ H1].
  pose proof (Zdigits2_pos m H).
  rewrite bpow_F2R by lia. apply F2R_lt. exact H1.
Qed.

Lemma F2R_pos m e : 0 < m -> (0 < F2R m e)%R.
Proof.
  intros H. unfold F2R. apply IZR_lt in H. pose proof (bpow_pos e). nra.
Qed.

Lemma F2R_0 e : F2R 0 e = 0%R.
Proof. unfold F2R. lra. Qed.

Lemma F2R_le_digits m1 e1 m2 e2 :
  0 < m1 -> 0 < m2 -> (F2R m1 e1 <= F2R m2 e2)%R ->
  Zdigits2 m1 + e1 <= Zdigits2 m2 + e2.
Proof.
  intros H1 H2 H.
  pose proof (F2R_lower m1 e1 H1). pose proof (F2R_upper m2 e2 H2).
  assert (Hlt : Zdigits2 m1 - 1 + e1 < Zdigits2 m2 + e2)
    by (apply bpow_lt_inv; lra).
  lia.
Qed.

(** A value bounded above by a number of the format rounds below it. *)
Lemma binary_round_aux_le v m e l mP eP :
  0 <= m -> located v m e l -> e <= fexp prec emax (Zdigits2 m + e) ->
  0 < mP -> Zdigits2 mP <= 53 -> -1074 <= eP <= 971 ->
  (v <= F2R mP eP)%R ->
  sf_finite_nonneg (binary_round_aux prec emax false m e l) = true
  /\ (SF2R (binary_round_aux prec emax false m e l) <= F2R mP eP)%R.
Proof.
  intros Hm Hloc He HmP HdP HeP Hv.
  destruct (binary_round_aux_core false v m e l Hm Hloc He)
    as (m2 & e2 & Hr & Hm2 & Hc & Hk & Hval).
  rewrite Hr. clear Hr.
  set (e1 := fexp prec emax (Zdigits2 m + e)) in *.
  set (k := m / 2 ^ (e1 - e)) in *.
  destruct Hloc as [[Hlo _] _].
  assert (He1 : e1 <= eP).
  { destruct (Z.eq_dec m 0) as [->|Hmz].
    - simpl Zdigits2 in *. unfold e1 in *. rewrite fexp_eq in *. lia.
    - pose proof (F2R_le_digits m e mP eP ltac:(lia) HmP ltac:(lra)).
      unfold e1. rewrite fexp_eq. lia. }
  assert (HB : F2R mP eP = F2R (mP * 2 ^ (eP - e1)) e1).
  { rewrite F2R_shift by lia. f_equal. lia. }
  assert (Hle : (F2R m2 e2 <= F2R mP eP)%R).
  { destruct Hval as [->|[-> Hne]]; [lra|].
    rewrite HB. apply F2R_le.
    assert (k < mP * 2 ^ (eP - e1)) by (apply (F2R_lt_inv _ _ e1); lra).
    lia. }
  destruct m2 as [|p|p]; [| |lia].
  - simpl. split; [reflexivity|]. apply Rlt_le, F2R_pos. exact HmP.
  - destruct Hc as [Hc|Hc]; [discriminate|].
    pose proof (F2R_le_digits (Zpos p) e2 mP eP ltac:(lia) HmP Hle).
    rewrite fexp_eq in Hc.
    replace (e2 <=? emax - prec) with true
      by (symmetry; apply Z.leb_le; change (emax - prec) with 971; lia).
    simpl. split; [reflexivity|exact Hle].
Qed.

(** A value bounded below by a number of the format rounds above it. *)
Lemma binary_round_aux_ge v m e l mP eP :
  0 <= m -> located v m e l -> e <= fexp prec emax (Zdigits2 m + e) ->
  0 < mP -> Zdigits2 mP <= 53 -> -1074 <= eP ->
  (F2R mP eP <= v)%R ->
  sf_nonneg (binary_round_aux prec emax false m e l) = true
  /\ (binary_round_aux prec emax false m e l = S754_infinity false
      \/ (sf_finite_nonneg (binary_round_aux prec emax false m e l) = true
          /\ F2R mP eP <= SF2R (binary_round_aux prec emax false m e l))%R).
Proof.
  intros Hm Hloc He HmP HdP HeP Hv.
  destruct (binary_round_aux_core false v m e l Hm Hloc He)
    as (m2 & e2 & Hr & Hm2 & Hc & Hk & Hval).
  rewrite Hr. clear Hr.
  set (e1 := fexp prec emax (Zdigits2 m + e)) in *.
  set (k := m / 2 ^ (e1 - e)) in *.
  assert (Hge : (F2R mP eP <= F2R k e1)%R).
  { destruct (Z_le_gt_dec e1 eP) as [He1|He1].
    - assert (HB : F2R mP eP = F2R (mP * 2 ^ (eP - e1)) e1).
      { rewrite F2R_shift by lia. f_equal. lia. }
      rewrite HB. apply F2R_le.
      assert (mP * 2 ^ (eP - e1) < k + 1) by (apply (F2R_lt_inv _ _ e1); lra).
      lia.
    - assert (Hmz : 0 < m).
      { destruct (Z.eq_dec m 0) as [->|Hmz]; [|lia].
        simpl Zdigits2 in *. unfold e1 in *. rewrite fexp_eq in *. lia. }
      assert (Hd : e1 - e = Zdigits2 m - 53)
        by (unfold e1 in *; rewrite fexp_eq in *; lia).
      pose proof (Zdigits2_bounds m Hmz) as [Hlow _].
      assert (Hk52 : 2 ^ 52 <= k).
      { unfold k. rewrite Hd. apply Z.div_le_lower_bound.
        - apply Z.pow_pos_nonneg; lia.
        - rewrite <- Z.pow_add_r by lia.
          replace (Zdigits2 m - 53 + 52) with (Zdigits2 m - 1) by lia.
          exact Hlow. }
      pose proof (Zdigits2_bounds mP HmP) as [_ Hup].
      assert (HmP53 : mP < 2 ^ 53).
      { apply Z.lt_le_trans with (1 := Hup).
        apply Z.pow_le_mono_r; lia. }
      apply Rle_trans with (F2R (2 ^ 52) e1); [|apply F2R_le; exact Hk52].
      replace e1 with (eP + (e1 - eP)) by lia.
      rewrite <- F2R_shift by lia. apply F2R_le.
      assert (2 ^ 1 <= 2 ^ (e1 - eP)) by (apply Z.pow_le_mono_r; lia).
      change (2 ^ 1) with 2 in *. change (2 ^ 53) with (2 ^ 52 * 2) in HmP53.
      nia. }
  assert (Hle : (F2R mP eP <= F2R m2 e2)%R).
  { destruct Hval as [->|[-> Hne]]; [exact Hge|].
    apply Rle_trans with (1 := Hge). apply F2R_le. lia. }
  pose proof (F2R_pos mP eP HmP) as HBpos.
  destruct m2 as [|p|p]; [| |lia].
  - rewrite F2R_0 in Hle. lra.
  - destruct (e2 <=? emax - prec); simpl.
    + split; [reflexivity|]. right. split; [reflexivity|exact Hle].
    + split; [reflexivity|]. left. reflexivity.
Qed.

(** *** Signs *)

Lemma shr_fexp_nonneg m e l :
  0 <= m -> 0 <= shr_m (fst (shr_fexp prec emax m e l)).
Proof.
  intros H. unfold shr_fexp, shr.
  destruct (fexp prec emax (Zdigits2 m + e) - e) as [|p|p]; simpl fst;
    try (rewrite shr_m_record_of_loc; exact H).
  apply iter_pos_shifted. rewrite shr_m_record_of_loc. exact H.
Qed.

Lemma binary_round_aux_sign sx m e l :
  0 <= m ->
  match binary_round_aux prec emax sx m e l with
  | S754_zero s | S754_infinity s | S754_finite s _ _ => s = sx
  | S754_nan => False
  end.
Proof.
  intros H. unfold binary_round_aux.
  pose proof (shr_fexp_nonneg m e l H) as H1.
  destruct (shr_fexp prec emax m e l) as [x e']. simpl fst in H1.
  set (m1 := round_nearest_even (shr_m x) (loc_of_shr_record x)).
  assert (Hm1 : 0 <= m1).
  { destruct (round_nearest_even_cases (shr_m x) (loc_of_shr_record x))
      as [Hc|[Hc _]]; unfold m1; rewrite Hc; lia. }
  pose proof (shr_fexp_nonneg m1 e' loc_Exact Hm1) as H2.
  destruct (shr_fexp prec emax m1 e' loc_Exact) as [y e2]. simpl fst in H2.
  destruct (shr_m y) as [|p|p]; [reflexivity| |lia].
  destruct (e2 <=? emax - prec); reflexivity.
Qed.

Lemma binary_round_aux_nonneg m e l :
  0 <= m -> sf_nonneg (binary_round_aux prec emax false m e l) = true.
Proof.
  intros H. pose proof (binary_round_aux_sign false m e l H) as Hs.
  destruct (binary_round_aux prec emax false m e l); try (subst; reflexivity).
  destruct Hs.
Qed.

(** ** Division *)

Lemma Zdigits2_ge n q : 0 <= q -> 0 < n -> 2 ^ (n - 1) <= q -> n <= Zdigits2 q.
Proof.
  intros Hq Hn H.
  assert (Hq0 : 0 < q) by (pose proof (Z.pow_pos_nonneg 2 (n - 1)); lia).
  pose proof (Zdigits2_bounds q Hq0) as [_ Hup].
  destruct (Z_lt_le_dec (Zdigits2 q) n) as [Hlt|]; [|assumption].
  assert (2 ^ Zdigits2 q <= 2 ^ (n - 1))
    by (apply Z.pow_le_mono_r; pose proof (Zdigits2_nonneg q); lia).
  lia.
Qed.

Lemma new_location_exact n : new_location n 0 = loc_Exact.
Proof.
  unfold new_location, new_location_even, new_location_odd.
  destruct (Z.even n); reflexivity.
Qed.

(** The quotient and remainder of [SFdiv_core_binary] locate the real
    quotient, with enough digits for one rounding. *)
Lemma SFdiv_core_located mx ex my ey :
  let '(q, e', l) := SFdiv_core_binary prec emax (Zpos mx) ex (Zpos my) ey in
  0 <= q
  /\ located (F2R (Zpos mx) ex / F2R (Zpos my) ey) q e' l
  /\ e' <= fexp prec emax (Zdigits2 q + e').
Proof.
  unfold SFdiv_core_binary.
  set (d1 := Zdigits2 (Zpos mx)). set (d2 := Zdigits2 (Zpos my)).
  set (e' := Z.min (fexp prec emax (d1 + ex - (d2 + ey))) (ex - ey)).
  set (s := ex - ey - e').
  assert (Hs : 0 <= s) by (unfold s, e'; lia).
  set (m' := match s with
             | 0 => Zpos mx
             | Zpos _ => Z.shiftl (Zpos mx) s
             | Zneg _ => 0
             end).
  assert (Hm' : m' = Zpos mx * 2 ^ s).
  { unfold m'. destruct s as [|p|p] eqn:Es; [simpl; lia| |lia].
    apply Z.shiftl_mul_pow2. lia. }
  pose proof (Z_div_mod m' (Zpos my) ltac:(lia)) as Hdiv.
  destruct (Z.div_eucl m' (Zpos my)) as [q r]. destruct Hdiv as [Hdiv Hr].
  assert (Hp : 0 < 2 ^ s) by (apply Z.pow_pos_nonneg; lia).
  assert (Hq : 0 <= q) by nia.
  split; [exact Hq|].
  assert (Hv : (F2R (Zpos mx) ex / F2R (Zpos my) ey
                = (IZR q + IZR r * / IZR (Zpos my)) * bpow e')%R).
  { unfold F2R. replace ex with (e' + s + ey) by (unfold s; lia).
    rewrite !bpow_add, (bpow_IZR s Hs).
    assert (Heq : (IZR (Zpos mx) * IZR (2 ^ s)
                   = IZR (Zpos my) * IZR q + IZR r)%R).
    { rewrite <- !mult_IZR, <- plus_IZR. f_equal. lia. }
    pose proof (bpow_pos ey). assert (0 < IZR (Zpos my))%R by (apply IZR_lt; lia).
    replace (IZR (Zpos mx) * (bpow e' * IZR (2 ^ s) * bpow ey))%R
      with ((IZR (Zpos my) * IZR q + IZR r) * bpow e' * bpow ey)%R
      by (rewrite <- Heq; ring).
    field. split; lra. }
  rewrite Hv.
  assert (Hb : (0 < IZR (Zpos my))%R) by (apply IZR_lt; lia).
  pose proof (Rinv_0_lt_compat _ Hb) as Hib.
  assert (Hbi : (IZR (Zpos my) * / IZR (Zpos my) = 1)%R) by (apply Rinv_r; lra).
  assert (Hr0 : (0 <= IZR r)%R) by (apply IZR_le; lia).
  assert (Hr1 : (IZR r < IZR (Zpos my))%R) by (apply IZR_lt; lia).
  pose proof (bpow_pos e') as Hbe.
  assert (Ht0 : (0 <= IZR r * / IZR (Zpos my))%R)
    by (apply Rmult_le_pos; lra).
  assert (Ht1 : (IZR r * / IZR (Zpos my) < 1)%R).
  { rewrite <- Hbi. apply Rmult_lt_compat_r; assumption. }
  assert (Hrt : (IZR r = IZR r * / IZR (Zpos my) * IZR (Zpos my))%R)
    by (field; lra).
  set (t := (IZR r * / IZR (Zpos my))%R) in *.
  split; [split; [split|]|].
  - unfold F2R. nra.
  - unfold F2R. rewrite plus_IZR. nra.
  - intros Heq. unfold F2R in Heq.
    assert (Hz : t = 0%R) by nra.
    assert (Hrz : IZR r = 0%R) by (rewrite Hrt, Hz; ring).
    apply eq_IZR in Hrz. subst r. apply new_location_exact.
  - (* the quotient has enough digits *)
    assert (Hdq : d1 + s - d2 <= Zdigits2 q).
    { destruct (Z_le_gt_dec (d1 + s - d2) 0) as [Hle|Hgt];
        [pose proof (Zdigits2_nonneg q); lia|].
      apply Zdigits2_ge; [exact Hq|lia|].
      pose proof (Zdigits2_bounds (Zpos mx) ltac:(lia)) as [Hlo1 _].
      pose proof (Zdigits2_bounds (Zpos my) ltac:(lia)) as [_ Hup2].
      fold d1 in Hlo1. fold d2 in Hup2.
      assert (Hd2 : 0 < d2) by (apply Zdigits2_pos; lia).
      assert (Hd1 : 0 < d1) by (apply Zdigits2_pos; lia).
      (* 2^(d1-1) * 2^s <= m' < (q+1) * 2^d2 *)
      assert (H1 : 2 ^ (d1 + s - d2 - 1) * 2 ^ d2 <= m').
      { rewrite <- Z.pow_add_r by lia.
        replace (d1 + s - d2 - 1 + d2) with (d1 - 1 + s) by lia.
        rewrite Z.pow_add_r by lia. rewrite Hm'. nia. }
      assert (H2 : m' < (q + 1) * 2 ^ d2) by nia.
      assert (H3 : 2 ^ (d1 + s - d2 - 1) < q + 1).
      { assert (0 < 2 ^ d2) by (apply Z.pow_pos_nonneg; lia). nia. }
      lia. }
    rewrite fexp_eq. unfold s in *. unfold e' in *. rewrite fexp_eq in *. lia.
Qed.

(** ** Alignment and [binary_round] *)

Lemma shl_align_spec mx ex e' :
  let '(mz, ez) := shl_align mx ex e' in
  ez = Z.min ex e' /\ Zpos mz = Zpos mx * 2 ^ (ex - ez).
Proof.
  unfold shl_align. destruct (e' - ex) as [|p|p] eqn:E.
  - split; [lia|]. replace (ex - ex) with 0 by lia. simpl. lia.
  - split; [lia|]. replace (ex - ex) with 0 by lia. simpl. lia.
  - split; [lia|]. replace (ex - e') with (Zpos p) by lia.
    change (Pos.iter xO mx p) with (shift_pos p mx).
    rewrite Zpower.shift_pos_correct, Z.pow_pos_fold. lia.
Qed.

Lemma shl_align_fst mx ex ez :
  ez <= ex -> Zpos (fst (shl_align mx ex ez)) = Zpos mx * 2 ^ (ex - ez).
Proof.
  intros H. pose proof (shl_align_spec mx ex ez) as Hs.
  destruct (shl_align mx ex ez) as [mz ez']. destruct Hs as [He Hm].
  simpl fst. rewrite Hm. f_equal. f_equal. lia.
Qed.

Lemma shl_align_F2R mx ex ez :
  ez <= ex -> F2R (Zpos (fst (shl_align mx ex ez))) ez = F2R (Zpos mx) ex.
Proof.
  intros H. rewrite shl_align_fst by exact H.
  rewrite F2R_shift by lia. f_equal. lia.
Qed.

Lemma binary_round_aligned mx ex :
  exists mz ez,
    binary_round prec emax false mx ex
    = binary_round_aux prec emax false (Zpos mz) ez loc_Exact
    /\ located (F2R (Zpos mx) ex) (Zpos mz) ez loc_Exact
    /\ ez <= fexp prec emax (Zdigits2 (Zpos mz) + ez).
Proof.
  unfold binary_round.
  pose proof (shl_align_spec mx ex
                (fexp prec emax (Zpos (digits2_pos mx) + ex))) as Hs.
  destruct (shl_align mx ex (fexp prec emax (Zpos (digits2_pos mx) + ex)))
    as [mz ez].
  destruct Hs as [He Hm]. exists mz, ez. split; [reflexivity|].
  assert (Hv : F2R (Zpos mz) ez = F2R (Zpos mx) ex).
  { rewrite Hm. rewrite F2R_shift by lia. f_equal. lia. }
  split.
  - split; [split|reflexivity].
    + rewrite Hv. lra.
    + rewrite <- Hv. apply F2R_lt. lia.
  - rewrite Hm. rewrite Zdigits2_shift by lia.
    change (Zdigits2 (Zpos mx)) with (Zpos (digits2_pos mx)).
    rewrite fexp_eq in *. lia.
Qed.

Lemma binary_round_nonneg mx ex :
  sf_nonneg (binary_round prec emax false mx ex) = true.
Proof.
  destruct (binary_round_aligned mx ex) as (mz & ez & -> & _).
  apply binary_round_aux_nonneg. lia.
Qed.

Lemma binary_normalize_nonneg m e :
  0 <= m -> sf_nonneg (binary_normalize prec emax m e false) = true.
Proof.
  intros H. destruct m as [|p|p]; [reflexivity| |lia].
  apply binary_round_nonneg.
Qed.

Lemma binary_normalize_le m e mP eP :
  0 <= m -> 0 < mP -> Zdigits2 mP <= 53 -> -1074 <= eP <= 971 ->
  (F2R m e <= F2R mP eP)%R ->
  sf_finite_nonneg (binary_normalize prec emax m e false) = true
  /\ (SF2R (binary_normalize prec emax m e false) <= F2R mP eP)%R.
Proof.
  intros Hm HmP HdP HeP Hv. destruct m as [|p|p]; [| |lia].
  - simpl. split; [reflexivity|]. apply Rlt_le, F2R_pos. exact HmP.
  - simpl binary_normalize.
    destruct (binary_round_aligned p e) as (mz & ez & -> & Hloc & He).
    apply (binary_round_aux_le (F2R (Zpos p) e)); try assumption; lia.
Qed.

Lemma binary_normalize_ge m e mP eP :
  0 <= m -> 0 < mP -> Zdigits2 mP <= 53 -> -1074 <= eP ->
  (F2R mP eP <= F2R m e)%R ->
  binary_normalize prec emax m e false = S754_infinity false
  \/ (sf_finite_nonneg (binary_normalize prec emax m e false) = true
      /\ F2R mP eP <= SF2R (binary_normalize prec emax m e false))%R.
Proof.
  intros Hm HmP HdP HeP Hv. destruct m as [|p|p]; [| |lia].
  - rewrite F2R_0 in Hv. pose proof (F2R_pos mP eP HmP). lra.
  - simpl binary_normalize.
    destruct (binary_round_aligned p e) as (mz & ez & -> & Hloc & He).
    apply (binary_round_aux_ge (F2R (Zpos p) e)); try assumption; lia.
Qed.

(** ** The operations *)

Lemma valid_finite s m e :
  valid_binary (S754_finite s m e) = true ->
  Zdigits2 (Zpos m) <= 53 /\ -1074 <= e <= 971.
Proof.
  unfold SpecFloat.valid_binary, bounded, canonical_mantissa.
  intros H. apply andb_prop in H. destruct H as [H1 H2].
  apply Z.eqb_eq in H1. apply Z.leb_le in H2.
  rewrite fexp_eq in H1. change (emax - prec) with 971 in H2.
  change (Zdigits2 (Zpos m)) with (Zpos (digits2_pos m)). lia.
Qed.

Lemma sf_finite_nonneg_cases x :
  sf_finite_nonneg x = true ->
  x = S754_zero false \/ exists m e, x = S754_finite false m e.
Proof.
  destruct x as [[]|[]| |[] m e]; try discriminate; intros _; eauto.
Qed.

Lemma sf_finite_nonneg_nonneg x :
  sf_finite_nonneg x = true -> sf_nonneg x = true.
Proof. destruct x as [[]|[]| |[] m e]; try discriminate; reflexivity. Qed.

Lemma sf_finite_pos x :
  sf_finite_nonneg x = true -> (0 < SF2R x)%R ->
  exists m e, x = S754_finite false m e.
Proof.
  intros H Hp. destruct (sf_finite_nonneg_cases x H) as [->|?]; [|assumption].
  simpl in Hp. lra.
Qed.

Lemma SF2R_nonneg x : sf_nonneg x = true -> (0 <= SF2R x)%R.
Proof.
  destruct x as [[]|[]| |[] m e]; try discriminate; intros _; simpl; try lra.
  apply Rlt_le, F2R_pos. lia.
Qed.

(** A quotient below a number of the format. *)
Lemma SFdiv_le x y mP eP :
  sf_finite_nonneg x = true -> sf_finite_nonneg y = true ->
  (0 < SF2R y)%R ->
  0 < mP -> Zdigits2 mP <= 53 -> -1074 <= eP <= 971 ->
  (SF2R x <= F2R mP eP * SF2R y)%R ->
  sf_finite_nonneg (SFdiv prec emax x y) = true
  /\ (SF2R (SFdiv prec emax x y) <= F2R mP eP)%R.
Proof.
  intros Hx Hy Hy0 HmP HdP HeP Hv.
  destruct (sf_finite_pos y Hy Hy0) as (my & ey & ->).
  destruct (sf_finite_nonneg_cases x Hx) as [->|(mx & ex & ->)].
  - simpl. split; [reflexivity|]. apply Rlt_le, F2R_pos. exact HmP.
  - simpl SFdiv. simpl SF2R in Hv, Hy0.
    pose proof (SFdiv_core_located mx ex my ey) as Hc.
    destruct (SFdiv_core_binary prec emax (Zpos mx) ex (Zpos my) ey)
      as [[q e'] l].
    destruct Hc as (Hq & Hloc & He).
    apply (binary_round_aux_le (F2R (Zpos mx) ex / F2R (Zpos my) ey));
      try assumption.
    unfold Rdiv.
    pose proof (Rinv_0_lt_compat _ Hy0) as Hi.
    assert (Hbi : (F2R (Zpos my) ey * / F2R (Zpos my) ey = 1)%R)
      by (apply Rinv_r; lra).
    replace (F2R mP eP)
      with (F2R mP eP * F2R (Zpos my) ey * / F2R (Zpos my) ey)%R
      by (rewrite Rmult_assoc, Hbi; ring).
    apply Rmult_le_compat_r; lra.
Qed.

(** A quotient above a number of the format. *)
Lemma SFdiv_ge x y mP eP :
  sf_finite_nonneg x = true -> sf_finite_nonneg y = true ->
  (0 < SF2R y)%R ->
  0 < mP -> Zdigits2 mP <= 53 -> -1074 <= eP ->
  (F2R mP eP * SF2R y <= SF2R x)%R ->
  SFdiv prec emax x y = S754_infinity false
  \/ (sf_finite_nonneg (SFdiv prec emax x y) = true
      /\ F2R mP eP <= SF2R (SFdiv prec emax x y))%R.
Proof.
  intros Hx Hy Hy0 HmP HdP HeP Hv.
  destruct (sf_finite_pos y Hy Hy0) as (my & ey & ->).
  pose proof (F2R_pos mP eP HmP) as HP.
  assert (Hx0 : (0 < SF2R x)%R) by (simpl SF2R in *; nra).
  destruct (sf_finite_pos x Hx Hx0) as (mx & ex & ->).
  simpl SFdiv. simpl SF2R in Hv, Hy0.
  pose proof (SFdiv_core_located mx ex my ey) as Hc.
  destruct (SFdiv_core_binary prec emax (Zpos mx) ex (Zpos my) ey)
    as [[q e'] l].
  destruct Hc as (Hq & Hloc & He).
  apply (binary_round_aux_ge (F2R (Zpos mx) ex / F2R (Zpos my) ey));
    try assumption.
  unfold Rdiv.
  pose proof (Rinv_0_lt_compat _ Hy0) as Hi.
  assert (Hbi : (F2R (Zpos my) ey * / F2R (Zpos my) ey = 1)%R)
    by (apply Rinv_r; lra).
  replace (F2R mP eP)
    with (F2R mP eP * F2R (Zpos my) ey * / F2R (Zpos my) ey)%R
    by (rewrite Rmult_assoc, Hbi; ring).
  apply Rmult_le_compat_r; lra.
Qed.

Lemma F2R_1 : F2R 1 0 = 1%R.
Proof. unfold F2R. rewrite bpow_0. lra. Qed.

(** The quotient of a number by one no smaller is at most one. *)
Lemma SFdiv_le_1 x y :
  sf_finite_nonneg x = true -> sf_nonneg y = true ->
  y <> S754_zero false ->
  (sf_finite_nonneg y = true -> SF2R x <= SF2R y)%R ->
  sf_finite_nonneg (SFdiv prec emax x y) = true
  /\ (SF2R (SFdiv prec emax x y) <= 1)%R.
Proof.
  intros Hx Hy Hyz Hv.
  destruct y as [[]|[]| |[] my ey]; try discriminate; try congruence.
  - (* infinity *)
    destruct (sf_finite_nonneg_cases x Hx) as [->|(mx & ex & ->)];
      simpl; split; try reflexivity; lra.
  - rewrite <- F2R_1.
    apply SFdiv_le; try assumption; try reflexivity; try lia.
    + simpl. apply F2R_pos. lia.
    + simpl Zdigits2. lia.
    + rewrite F2R_1. specialize (Hv eq_refl). lra.
Qed.

Lemma SF2R_one : SF2R sf_one = 1%R.
Proof.
  simpl. change 4503599627370496 with (1 * 2 ^ 52).
  rewrite F2R_shift by lia. apply F2R_1.
Qed.

(** One minus a number of [[0, 1]] is not negative. *)
Lemma SFsub_one_nonneg q :
  sf_finite_nonneg q = true -> (SF2R q <= 1)%R ->
  sf_nonneg (SFsub prec emax sf_one q) = true.
Proof.
  intros Hq Hv.
  destruct (sf_finite_nonneg_cases q Hq) as [->|(mq & eq & ->)];
    [reflexivity|].
  unfold sf_one, SFsub, cond_Zopp.
  set (ez := Z.min (-52) eq).
  apply binary_normalize_nonneg.
  assert (H1 : F2R (Zpos (fst (shl_align 4503599627370496 (-52) ez))) ez = 1%R).
  { rewrite shl_align_F2R by (unfold ez; lia). exact SF2R_one. }
  assert (H2 : F2R (Zpos (fst (shl_align mq eq ez))) ez = F2R (Zpos mq) eq).
  { apply shl_align_F2R. unfold ez; lia. }
  simpl SF2R in Hv.
  assert (Hle : Zpos (fst (shl_align mq eq ez))
                <= Zpos (fst (shl_align 4503599627370496 (-52) ez))).
  { apply (F2R_le_inv _ _ ez). rewrite H1, H2. exact Hv. }
  lia.
Qed.

Lemma SFmul_nonneg mx ex y :
  sf_nonneg y = true ->
  sf_nonneg (SFmul prec emax (S754_finite false mx ex) y) = true.
Proof.
  intros Hy. destruct y as [[]|[]| |[] my ey]; try discriminate;
    try reflexivity.
  simpl SFmul. apply binary_round_aux_nonneg. lia.
Qed.

Lemma SFadd_nonneg x y :
  sf_nonneg x = true -> sf_nonneg y = true ->
  sf_nonneg (SFadd prec emax x y) = true.
Proof.
  intros Hx Hy.
  destruct x as [[]|[]| |[] mx ex]; try discriminate;
    destruct y as [[]|[]| |[] my ey]; try discriminate; try reflexivity.
  unfold SFadd, cond_Zopp. apply binary_normalize_nonneg. lia.
Qed.

Lemma SFadd_zero_l x :
  sf_nonneg x = true -> SFadd prec emax (S754_zero false) x = x.
Proof. destruct x as [[]|[]| |[] mx ex]; try discriminate; reflexivity. Qed.

Lemma SFadd_zero_r x :
  sf_nonneg x = true -> SFadd prec emax x (S754_zero false) = x.
Proof. destruct x as [[]|[]| |[] mx ex]; try discriminate; reflexivity. Qed.

(** Adding a positive number does not lower a number of the format. *)
Lemma SFadd_ge x my ey :
  sf_nonneg x = true -> valid_binary x = true ->
  SFadd prec emax x (S754_finite false my ey) = S754_infinity false
  \/ (sf_finite_nonneg (SFadd prec emax x (S754_finite false my ey)) = true
      /\ SF2R x <= SF2R (SFadd prec emax x (S754_finite false my ey)))%R.
Proof.
  intros Hx Hval.
  destruct x as [[]|[]| |[] mx ex]; try discriminate.
  - right. simpl. split; [reflexivity|]. apply Rlt_le, F2R_pos. lia.
  - left. reflexivity.
  - destruct (valid_finite _ _ _ Hval) as [Hd He].
    unfold SFadd, cond_Zopp. simpl SF2R at 1.
    set (ez := Z.min ex ey).
    apply binary_normalize_ge; try assumption; try lia.
    unfold F2R at 2. rewrite plus_IZR, Rmult_plus_distr_r.
    fold (F2R (Zpos (fst (shl_align mx ex ez))) ez).
    fold (F2R (Zpos (fst (shl_align my ey ez))) ez).
    rewrite !shl_align_F2R by (unfold ez; lia).
    pose proof (F2R_pos (Zpos my) ey ltac:(lia)). lra.
Qed.

(** ** Comparisons *)

Lemma SFleb_zero r :
  sf_nonneg r = true -> SFleb (S754_zero false) r = true.
Proof. destruct r as [[]|[]| |[] m e]; try discriminate; reflexivity. Qed.

Lemma SFclamp s :
  sf_nonneg s = true ->
  let r := if SFltb sf_one s then sf_one else s in
  SFleb (S754_zero false) r = true /\ SFleb r sf_one = true.
Proof.
  intros Hs.
  destruct s as [[]|[]| |[] m e]; try discriminate;
    try (split; reflexivity).
  cbv zeta. unfold SFltb.
  set (c := match e ?= -52 with
            | Eq => PosDef.Pos.compare_cont Eq m 4503599627370496
            | Lt => Lt
            | Gt => Gt
            end).
  assert (Hd : SFcompare (S754_finite false m e) sf_one = Some c)
    by (unfold sf_one, SFcompare; reflexivity).
  assert (Hc : SFcompare sf_one (S754_finite false m e) = Some (CompOpp c)).
  { unfold sf_one, SFcompare, c. rewrite (Z.compare_antisym e (-52)).
    destruct (e ?= -52); cbn [CompOpp].
    - rewrite Pos.compare_cont_antisym. reflexivity.
    - reflexivity.
    - reflexivity. }
  rewrite Hc. clearbody c.
  destruct c; cbn [CompOpp]; unfold SFleb at 2; try rewrite Hd;
    split; reflexivity.
Qed.

(** ** The floats of the scorer *)

(** [float(n)] is exact below 2^53. *)
Lemma float_of_int_exact n :
  0 <= n < 2 ^ 53 ->
  sf_finite_nonneg (Prim2SF (float_of_int n)) = true
  /\ SF2R (Prim2SF (float_of_int n)) = IZR n.
Proof.
  intros [H0 H1]. unfold float_of_int.
  replace (n <? 0) with false by (symmetry; apply Z.ltb_ge; exact H0).
  rewrite of_uint63_spec, Uint63.of_Z_spec.
  rewrite Z.mod_small
    by (split; [exact H0|]; apply Z.lt_trans with (1 := H1); reflexivity).
  destruct (Z.eq_dec n 0) as [->|Hn].
  - simpl. split; reflexivity.
  - assert (Hd : Zdigits2 n <= 53) by (apply Zdigits2_lt_pow; lia).
    assert (Hv : F2R n 0 = IZR n) by (unfold F2R; rewrite bpow_0; ring).
    destruct (binary_normalize_le n 0 n 0) as [Hf Hle]; try lia; try lra.
    destruct (binary_normalize_ge n 0 n 0) as [Hinf|[_ Hge]]; try lia; try lra.
    + rewrite Hinf in Hf. discriminate.
    + split; [exact Hf|]. rewrite <- Hv. lra.
Qed.

Lemma SF2R_zero_inv x :
  sf_finite_nonneg x = true -> (0 < SF2R x)%R -> x <> S754_zero false.
Proof. intros _ H ->. simpl in H. lra. Qed.

Lemma int_truediv_unit a b :
  0 <= a <= b -> 0 < b < 2 ^ 53 ->
  sf_finite_nonneg (Prim2SF (int_truediv a b)) = true
  /\ (SF2R (Prim2SF (int_truediv a b)) <= 1)%R.
Proof.
  intros Ha Hb. unfold int_truediv.
  rewrite FloatAxioms.div_spec. unfold SF64div.
  destruct (float_of_int_exact a ltac:(lia)) as [Hfa Hva].
  destruct (float_of_int_exact b ltac:(lia)) as [Hfb Hvb].
  apply SFdiv_le_1.
  - exact Hfa.
  - apply sf_finite_nonneg_nonneg. exact Hfb.
  - apply SF2R_zero_inv; [exact Hfb|]. rewrite Hvb. apply IZR_lt. lia.
  - intros _. rewrite Hva, Hvb. apply IZR_le. lia.
Qed.

Lemma one_minus_nonneg q :
  sf_finite_nonneg (Prim2SF q) = true -> (SF2R (Prim2SF q) <= 1)%R ->
  sf_nonneg (Prim2SF (1 - q)%float) = true.
Proof.
  intros Hq Hv. rewrite FloatAxioms.sub_spec. unfold SF64sub.
  change (Prim2SF 1) with sf_one. apply SFsub_one_nonneg; assumption.
Qed.

Lemma mul_nonneg w y :
  (exists m e, Prim2SF w = S754_finite false m e) ->
  sf_nonneg (Prim2SF y) = true ->
  sf_nonneg (Prim2SF (w * y)%float) = true.
Proof.
  intros (m & e & Hw) Hy. rewrite FloatAxioms.mul_spec. unfold SF64mul. rewrite Hw.
  apply SFmul_nonneg. exact Hy.
Qed.

Lemma add_nonneg x y :
  sf_nonneg (Prim2SF x) = true -> sf_nonneg (Prim2SF y) = true ->
  sf_nonneg (Prim2SF (x + y)%float) = true.
Proof.
  intros Hx Hy. rewrite FloatAxioms.add_spec. unfold SF64add.
  apply SFadd_nonneg; assumption.
Qed.

Lemma add_zero_l x : sf_nonneg (Prim2SF x) = true -> (0 + x)%float = x.
Proof.
  intros Hx. apply Prim2SF_inj. rewrite FloatAxioms.add_spec. unfold SF64add.
  change (Prim2SF 0) with (S754_zero false). apply SFadd_zero_l. exact Hx.
Qed.

Lemma add_zero_r x : sf_nonneg (Prim2SF x) = true -> (x + 0)%float = x.
Proof.
  intros Hx. apply Prim2SF_inj. rewrite FloatAxioms.add_spec. unfold SF64add.
  change (Prim2SF 0) with (S754_zero false). apply SFadd_zero_r. exact Hx.
Qed.

(** A weight times one minus a quotient of [[0, 1]]. *)
Lemma decay_nonneg w q :
  (exists m e, Prim2SF w = S754_finite false m e) ->
  sf_finite_nonneg (Prim2SF q) = true -> (SF2R (Prim2SF q) <= 1)%R ->
  sf_nonneg (Prim2SF (w * (1 - q))%float) = true.
Proof.
  intros Hw Hq Hv. apply mul_nonneg; [exact Hw|].
  apply one_minus_nonneg; assumption.
Qed.

Lemma py_min_unit s :
  sf_nonneg (Prim2SF s) = true ->
  (0 <=? py_min s 1)%float = true /\ (py_min s 1 <=? 1)%float = true.
Proof.
  intros Hs. rewrite !FloatAxioms.leb_spec. unfold py_min.
  rewrite FloatAxioms.ltb_spec.
  change (Prim2SF 1) with sf_one. change (Prim2SF 0) with (S754_zero false).
  pose proof (SFclamp (Prim2SF s) Hs) as Hc. cbv zeta in Hc.
  destruct (SFltb sf_one (Prim2SF s)).
  - change (Prim2SF 1) with sf_one. exact Hc.
  - exact Hc.
Qed.

(** *** Amounts *)

Lemma F2R_m7 m : (F2R m (-7) * 128 = IZR m)%R.
Proof.
  unfold F2R. change 128%R with (IZR (2 ^ 7)).
  rewrite <- (bpow_IZR 7) by lia.
  rewrite Rmult_assoc, <- bpow_add. change (-7 + 7) with 0.
  rewrite bpow_0. ring.
Qed.

Lemma F2R_27 : F2R 1 27 = 134217728%R.
Proof.
  unfold F2R. rewrite (bpow_IZR 27) by lia.
  change (2 ^ 27) with 134217728. ring.
Qed.

Lemma SF2R_100 :
  sf_finite_nonneg (Prim2SF 100) = true /\ SF2R (Prim2SF 100) = 100%R.
Proof.
  change (Prim2SF 100) with (S754_finite false 7036874417766400 (-46)).
  split; [reflexivity|]. simpl SF2R.
  change 7036874417766400 with (100 * 2 ^ 46).
  rewrite F2R_shift by lia. change (-46 + 46) with 0.
  unfold F2R. rewrite bpow_0. ring.
Qed.

Lemma float_of_hundredths_bounds c :
  0 < c < 10 ^ 10 ->
  sf_finite_nonneg (Prim2SF (float_of_hundredths c)) = true
  /\ (0 < SF2R (Prim2SF (float_of_hundredths c)))%R.
Proof.
  intros Hc. unfold float_of_hundredths.
  rewrite FloatAxioms.div_spec. unfold SF64div.
  destruct (float_of_int_exact c) as [Hfc Hvc];
    [split; [lia|]; apply Z.lt_trans with (10 ^ 10); [lia|reflexivity]|].
  destruct SF2R_100 as [Hf100 Hv100].
  assert (Hc1 : (1 <= IZR c)%R) by (apply IZR_le; lia).
  assert (Hc2 : (IZR c <= 10000000000)%R).
  { apply IZR_le. change (10 ^ 10) with 10000000000 in Hc. lia. }
  destruct (SFdiv_le (Prim2SF (float_of_int c)) (Prim2SF 100) 1 27)
    as [Hfin _]; try assumption; try lia.
  { rewrite Hv100. lra. }
  { simpl. lia. }
  { rewrite Hvc, Hv100, F2R_27. lra. }
  split; [exact Hfin|].
  destruct (SFdiv_ge (Prim2SF (float_of_int c)) (Prim2SF 100) 1 (-7))
    as [Hinf|[_ Hge]]; try assumption; try lia.
  { rewrite Hv100. lra. }
  { simpl. lia. }
  { rewrite Hvc, Hv100. pose proof (F2R_m7 1). lra. }
  - rewrite Hinf in Hfin. discriminate.
  - pose proof (F2R_m7 1). lra.
Qed.

(** [float] is monotone on amounts: between two distinct amounts there is
    a multiple of 1/128 that is a number of the format. *)
Lemma float_of_hundredths_mono c t :
  0 < c <= t -> t < 10 ^ 10 ->
  (SF2R (Prim2SF (float_of_hundredths c))
   <= SF2R (Prim2SF (float_of_hundredths t)))%R.
Proof.
  intros Hc Ht. destruct (Z.eq_dec c t) as [->|Hne]; [lra|].
  pose proof (float_of_hundredths_bounds t ltac:(lia)) as [Hft _].
  unfold float_of_hundredths in *.
  rewrite !FloatAxioms.div_spec in *. unfold SF64div in *.
  assert (H53 : 10 ^ 10 < 2 ^ 53) by reflexivity.
  destruct (float_of_int_exact c ltac:(lia)) as [Hfc Hvc].
  destruct (float_of_int_exact t ltac:(lia)) as [Hfi Hvt].
  destruct SF2R_100 as [Hf100 Hv100].
  set (M := 128 * t / 100).
  assert (HM1 : 100 * M <= 128 * t) by (apply Z.mul_div_le; lia).
  assert (HM2 : 128 * t < 100 * M + 100).
  { pose proof (Z.mul_succ_div_gt (128 * t) 100 ltac:(lia)). fold M in H. lia. }
  assert (HM0 : 0 < M) by lia.
  assert (HMd : Zdigits2 M <= 53).
  { apply Zdigits2_lt_pow; [lia|]. split; [lia|].
    change (10 ^ 10) with 10000000000 in *.
    change (2 ^ 53) with 9007199254740992. lia. }
  pose proof (F2R_m7 M) as HMv.
  assert (R1 : (100 * IZR M <= 128 * IZR t)%R).
  { apply IZR_le in HM1. rewrite !mult_IZR in HM1. exact HM1. }
  assert (R2 : (128 * IZR c <= 100 * IZR M)%R).
  { assert (H : 128 * c <= 100 * M) by lia.
    apply IZR_le in H. rewrite !mult_IZR in H. exact H. }
  destruct (SFdiv_le (Prim2SF (float_of_int c)) (Prim2SF 100) M (-7))
    as [_ Hle]; try assumption; try lia.
  { rewrite Hv100. lra. }
  { rewrite Hvc, Hv100. lra. }
  destruct (SFdiv_ge (Prim2SF (float_of_int t)) (Prim2SF 100) M (-7))
    as [Hinf|[_ Hge]]; try assumption; try lia.
  { rewrite Hv100. lra. }
  { rewrite Hvt, Hv100. lra. }
  - rewrite Hinf in Hft. discriminate.
  - lra.
Qed.

(** The quotient of the amount branch is in [[0, 1]]. *)
Lemma amount_quotient_unit c t :
  0 < c <= t -> t < 10 ^ 10 ->
  let q := (float_of_hundredths c / (float_of_hundredths t + 0.01))%float in
  sf_finite_nonneg (Prim2SF q) = true /\ (SF2R (Prim2SF q) <= 1)%R.
Proof.
  intros Hc Ht q. unfold q.
  pose proof (float_of_hundredths_bounds c ltac:(lia)) as [Hfc Hpc].
  pose proof (float_of_hundredths_bounds t ltac:(lia)) as [Hft Hpt].
  pose proof (float_of_hundredths_mono c t Hc Ht) as Hmono.
  rewrite FloatAxioms.div_spec. unfold SF64div.
  rewrite FloatAxioms.add_spec. unfold SF64add.
  change (Prim2SF 0.01) with (S754_finite false 5764607523034235 (-59)).
  set (x1 := Prim2SF (float_of_hundredths c)) in *.
  set (x2 := Prim2SF (float_of_hundredths t)) in *.
  assert (Hn2 : sf_nonneg x2 = true) by (apply sf_finite_nonneg_nonneg; exact Hft).
  pose proof (SFadd_ge x2 5764607523034235 (-59) Hn2
                (Prim2SF_valid (float_of_hundredths t))) as Hy.
  pose proof (SFadd_nonneg x2 (S754_finite false 5764607523034235 (-59))
                Hn2 eq_refl) as Hyn.
  set (y := SFadd prec emax x2 (S754_finite false 5764607523034235 (-59))) in *.
  apply SFdiv_le_1.
  - exact Hfc.
  - exact Hyn.
  - destruct Hy as [->|[Hfy Hge]]; [discriminate|].
    apply SF2R_zero_inv; [exact Hfy|lra].
  - intros Hfin. destruct Hy as [Hinf|[Hfy Hge]]; [|lra].
    rewrite Hinf in Hfin. discriminate.
Qed.

(** *** Word sets *)

Lemma split_aux_lstrip s : split_aux [] (lstrip s) = split_aux [] s.
Proof.
  induction s as [|c s IH]; [reflexivity|].
  simpl. destruct (isspace c) eqn:E; [exact IH|].
  simpl. rewrite E. reflexivity.
Qed.

Lemma split_aux_trailing cur s c :
  isspace c = true -> split_aux cur (s ++ [c]) = split_aux cur s.
Proof.
  intros Hc. revert cur. induction s as [|a s IH]; intros cur.
  - simpl. rewrite Hc. destruct cur; reflexivity.
  - simpl. destruct (isspace a).
    + destruct cur; rewrite IH; reflexivity.
    + apply IH.
Qed.

Lemma split_aux_rstrip cur s : split_aux cur (rstrip s) = split_aux cur s.
Proof.
  unfold rstrip. rewrite <- (rev_involutive s) at 2.
  generalize (rev s) as r. induction r as [|a r IH]; [reflexivity|].
  simpl lstrip. destruct (isspace a) eqn:E; [|reflexivity].
  simpl rev. rewrite split_aux_trailing by exact E. exact IH.
Qed.

(** [split] ignores the white space [strip] removes. *)
Lemma split_strip s : split (strip s) = split s.
Proof. unfold split, strip. rewrite split_aux_rstrip. apply split_aux_lstrip. Qed.

Lemma description_words_word_set lower is_word d :
  description_words lower is_word d = word_set lower is_word d.
Proof.
  unfold description_words, word_set, clean_description.
  rewrite split_strip. reflexivity.
Qed.

Lemma calculate_description_similarity_jaccard lower is_word d1 d2 :
  calculate_description_similarity lower is_word d1 d2
  = jaccard (word_set lower is_word d1) (word_set lower is_word d2).
Proof.
  unfold calculate_description_similarity, jaccard.
  rewrite !description_words_word_set.
  destruct (word_set lower is_word d1) as [|a w1]; [reflexivity|].
  destruct (word_set lower is_word d2) as [|b w2]; [reflexivity|].
  unfold union at 1. simpl List.length. rewrite Nat2Z.inj_succ.
  replace (Z.succ _ =? 0) with false by (symmetry; apply Z.eqb_neq; lia).
  reflexivity.
Qed.

Lemma jaccard_nonneg words1 words2 :
  Z.of_nat (List.length words1) < 2 ^ 52 ->
  Z.of_nat (List.length words2) < 2 ^ 52 ->
  sf_nonneg (Prim2SF (jaccard words1 words2)) = true.
Proof.
  intros H1 H2. unfold jaccard.
  destruct words1 as [|a w1]; [reflexivity|].
  destruct words2 as [|b w2]; [reflexivity|].
  set (l1 := a :: w1) in *. set (l2 := b :: w2) in *.
  apply sf_finite_nonneg_nonneg.
  assert (Hi : (List.length (intersection l1 l2) <= List.length l1)%nat)
    by apply filter_length_le.
  assert (Hu : List.length (union l1 l2)
               = (List.length l1
                  + List.length (List.filter (fun w => negb (str_mem w l1)) l2))%nat)
    by apply length_app.
  assert (Hf : (List.length (List.filter (fun w => negb (str_mem w l1)) l2)
                <= List.length l2)%nat) by apply filter_length_le.
  assert (Hl1 : (0 < List.length l1)%nat) by (simpl; lia).
  change (2 ^ 52) with 4503599627370496 in *.
  apply int_truediv_unit.
  - lia.
  - change (2 ^ 53) with 9007199254740992. lia.
Qed.

(** *** The components *)

Lemma date_component_nonneg date_diff date_tolerance :
  0 <= date_diff -> date_tolerance <= 999999999 ->
  sf_nonneg (Prim2SF (date_component date_diff date_tolerance)) = true.
Proof.
  intros Hd Ht. unfold date_component.
  destruct (date_diff =? 0) eqn:E0; [reflexivity|].
  destruct (date_diff <=? date_tolerance) eqn:E1; [|reflexivity].
  apply Z.leb_le in E1.
  destruct (int_truediv_unit date_diff (date_tolerance + 1)) as [Hf Hv].
  - lia.
  - change (2 ^ 53) with 9007199254740992. lia.
  - apply decay_nonneg; [|exact Hf|exact Hv].
    exists 5404319552844595%positive, (-54). reflexivity.
Qed.

Lemma amount_component_nonneg amount_diff amount_tolerance :
  0 <= amount_diff -> amount_tolerance < 10 ^ 10 ->
  sf_nonneg (Prim2SF (amount_component amount_diff amount_tolerance)) = true.
Proof.
  intros Hd Ht. unfold amount_component.
  destruct (amount_diff =? 0) eqn:E0; [reflexivity|].
  destruct (amount_diff <=? amount_tolerance) eqn:E1; [|reflexivity].
  apply Z.leb_le in E1. apply Z.eqb_neq in E0.
  destruct (amount_quotient_unit amount_diff amount_tolerance) as [Hf Hv].
  - lia.
  - exact Ht.
  - apply decay_nonneg; [|exact Hf|exact Hv].
    exists 7205759403792794%positive, (-54). reflexivity.
Qed.

Lemma description_component_nonneg lower is_word desc1 desc2 :
  Z.of_nat (List.length (word_set lower is_word desc1)) < 2 ^ 52 ->
  Z.of_nat (List.length (word_set lower is_word desc2)) < 2 ^ 52 ->
  sf_nonneg (Prim2SF (description_component lower is_word desc1 desc2)) = true.
Proof.
  intros H1 H2. unfold description_component. apply mul_nonneg.
  - exists 5404319552844595%positive, (-54). reflexivity.
  - apply jaccard_nonneg; assumption.
Qed.

(** ** The similarity score *)



(** * Further properties of the code *)

(** ** The order of floats and their values *)

Lemma valid_canonical s m e :
  valid_binary (S754_finite s m e) = true ->
  fexp prec emax (Zdigits2 (Zpos m) + e) = e.
Proof.
  unfold SpecFloat.valid_binary, bounded, canonical_mantissa.
  intros H. apply andb_prop in H. destruct H as [H1 _].
  apply Z.eqb_eq in H1. exact H1.
Qed.

Lemma F2R_lt_exponent m1 e1 m2 e2 :
  valid_binary (S754_finite false m1 e1) = true ->
  valid_binary (S754_finite false m2 e2) = true ->
  e1 < e2 -> (F2R (Zpos m1) e1 < F2R (Zpos m2) e2)%R.
Proof.
  intros H1 H2 He.
  pose proof (valid_canonical _ _ _ H1) as C1.
  pose proof (valid_canonical _ _ _ H2) as C2.
  rewrite fexp_eq in C1, C2.
  pose proof (F2R_upper (Zpos m1) e1 ltac:(lia)) as U.
  pose proof (F2R_lower (Zpos m2) e2 ltac:(lia)) as L.
  assert (Hb : (bpow (Zdigits2 (Zpos m1) + e1)
                <= bpow (Zdigits2 (Zpos m2) - 1 + e2))%R)
    by (apply bpow_le; lia).
  lra.
Qed.

(** On non-negative finite floats of the format, the comparison of the
    library is the comparison of the values. *)
Lemma SFcompare_value x y :
  valid_binary x = true -> valid_binary y = true ->
  sf_finite_nonneg x = true -> sf_finite_nonneg y = true ->
  match SFcompare x y with
  | Some Lt => (SF2R x < SF2R y)%R
  | Some Eq => SF2R x = SF2R y
  | Some Gt => (SF2R y < SF2R x)%R
  | None => False
  end.
Proof.
  intros Vx Vy Hx Hy.
  destruct (sf_finite_nonneg_cases x Hx) as [->|(m1 & e1 & ->)];
    destruct (sf_finite_nonneg_cases y Hy) as [->|(m2 & e2 & ->)].
  - reflexivity.
  - simpl. apply F2R_pos. lia.
  - simpl. apply F2R_pos. lia.
  - unfold SFcompare. simpl SF2R.
    destruct (Z.compare_spec e1 e2) as [E|E|E].
    + subst e2. rewrite Pos.compare_cont_spec. simpl Pos.switch_Eq.
      destruct (Pos.compare_spec m1 m2) as [E|E|E].
      * subst m2. reflexivity.
      * apply F2R_lt. lia.
      * apply F2R_lt. lia.
    + apply F2R_lt_exponent; assumption.
    + apply F2R_lt_exponent; assumption.
Qed.

Lemma leb_of_values x y :
  sf_finite_nonneg (Prim2SF x) = true -> sf_finite_nonneg (Prim2SF y) = true ->
  (SF2R (Prim2SF x) <= SF2R (Prim2SF y))%R ->
  (x <=? y)%float = true.
Proof.
  intros Hx Hy Hv. rewrite FloatAxioms.leb_spec. unfold SFleb.
  pose proof (SFcompare_value _ _ (Prim2SF_valid x) (Prim2SF_valid y) Hx Hy) as H.
  destruct (SFcompare (Prim2SF x) (Prim2SF y)) as [[]|];
    try reflexivity; try (exfalso; lra); destruct H.
Qed.

Lemma leb_false_of_values x y :
  sf_finite_nonneg (Prim2SF x) = true -> sf_finite_nonneg (Prim2SF y) = true ->
  (SF2R (Prim2SF y) < SF2R (Prim2SF x))%R ->
  (x <=? y)%float = false.
Proof.
  intros Hx Hy Hv. rewrite FloatAxioms.leb_spec. unfold SFleb.
  pose proof (SFcompare_value _ _ (Prim2SF_valid x) (Prim2SF_valid y) Hx Hy) as H.
  destruct (SFcompare (Prim2SF x) (Prim2SF y)) as [[]|];
    try reflexivity; try (exfalso; lra); destruct H.
Qed.

Lemma ltb_value x y :
  sf_finite_nonneg (Prim2SF x) = true -> sf_finite_nonneg (Prim2SF y) = true ->
  (x <? y)%float = true -> (SF2R (Prim2SF x) < SF2R (Prim2SF y))%R.
Proof.
  intros Hx Hy. rewrite FloatAxioms.ltb_spec. unfold SFltb.
  pose proof (SFcompare_value _ _ (Prim2SF_valid x) (Prim2SF_valid y) Hx Hy) as H.
  destruct (SFcompare (Prim2SF x) (Prim2SF y)) as [[]|];
    try discriminate; try (destruct H; fail). intros _. exact H.
Qed.

Lemma ltb_false_value x y :
  sf_finite_nonneg (Prim2SF x) = true -> sf_finite_nonneg (Prim2SF y) = true ->
  (x <? y)%float = false -> (SF2R (Prim2SF y) <= SF2R (Prim2SF x))%R.
Proof.
  intros Hx Hy. rewrite FloatAxioms.ltb_spec. unfold SFltb.
  pose proof (SFcompare_value _ _ (Prim2SF_valid x) (Prim2SF_valid y) Hx Hy) as H.
  destruct (SFcompare (Prim2SF x) (Prim2SF y)) as [[]|];
    try discriminate; intros _; try lra; destruct H.
Qed.

Lemma leb_value x y :
  sf_finite_nonneg (Prim2SF x) = true -> sf_finite_nonneg (Prim2SF y) = true ->
  (x <=? y)%float = true -> (SF2R (Prim2SF x) <= SF2R (Prim2SF y))%R.
Proof.
  intros Hx Hy. rewrite FloatAxioms.leb_spec. unfold SFleb.
  pose proof (SFcompare_value _ _ (Prim2SF_valid x) (Prim2SF_valid y) Hx Hy) as H.
  destruct (SFcompare (Prim2SF x) (Prim2SF y)) as [[]|];
    try discriminate; intros _; try lra; destruct H.
Qed.

(** ** Bounds of products, differences and sums *)

Lemma F2R_mult m1 e1 m2 e2 :
  F2R (m1 * m2) (e1 + e2) = (F2R m1 e1 * F2R m2 e2)%R.
Proof. unfold F2R. rewrite mult_IZR, bpow_add. ring. Qed.

Lemma F2R_plus m1 m2 e : F2R (m1 + m2) e = (F2R m1 e + F2R m2 e)%R.
Proof. unfold F2R. rewrite plus_IZR. ring. Qed.

Lemma F2R_minus m1 m2 e : F2R (m1 - m2) e = (F2R m1 e - F2R m2 e)%R.
Proof. unfold F2R. rewrite minus_IZR. ring. Qed.

(** The product by a normal number is located exactly. *)
Lemma SFmul_located mx ex my ey :
  2 ^ 52 <= Zpos mx ->
  located (F2R (Zpos mx) ex * F2R (Zpos my) ey)
    (Zpos (mx * my)) (ex + ey) loc_Exact
  /\ ex + ey <= fexp prec emax (Zdigits2 (Zpos (mx * my)) + (ex + ey)).
Proof.
  intros Hn. split.
  - rewrite <- F2R_mult. change (Zpos mx * Zpos my) with (Zpos (mx * my)).
    split; [split; [lra|apply F2R_lt; lia]|reflexivity].
  - assert (Hd : 53 <= Zdigits2 (Zpos (mx * my))).
    { apply Zdigits2_ge; [lia|lia|]. change (53 - 1) with 52.
      rewrite Pos2Z.inj_mul. nia. }
    rewrite fexp_eq. lia.
Qed.

Lemma SFmul_le mx ex y mP eP :
  2 ^ 52 <= Zpos mx -> sf_finite_nonneg y = true ->
  0 < mP -> Zdigits2 mP <= 53 -> -1074 <= eP <= 971 ->
  (F2R (Zpos mx) ex * SF2R y <= F2R mP eP)%R ->
  sf_finite_nonneg (SFmul prec emax (S754_finite false mx ex) y) = true
  /\ (SF2R (SFmul prec emax (S754_finite false mx ex) y) <= F2R mP eP)%R.
Proof.
  intros Hn Hy HmP HdP HeP Hv.
  destruct (sf_finite_nonneg_cases y Hy) as [->|(my & ey & ->)].
  - simpl. split; [reflexivity|]. apply Rlt_le, F2R_pos. exact HmP.
  - simpl SFmul. simpl SF2R in Hv.
    destruct (SFmul_located mx ex my ey Hn) as [Hloc He].
    apply (binary_round_aux_le (F2R (Zpos mx) ex * F2R (Zpos my) ey));
      try assumption; lia.
Qed.

Lemma SFmul_ge mx ex y mP eP :
  2 ^ 52 <= Zpos mx -> sf_nonneg y = true ->
  0 < mP -> Zdigits2 mP <= 53 -> -1074 <= eP ->
  (sf_finite_nonneg y = true -> F2R mP eP <= F2R (Zpos mx) ex * SF2R y)%R ->
  SFmul prec emax (S754_finite false mx ex) y = S754_infinity false
  \/ (sf_finite_nonneg (SFmul prec emax (S754_finite false mx ex) y) = true
      /\ F2R mP eP <= SF2R (SFmul prec emax (S754_finite false mx ex) y))%R.
Proof.
  intros Hn Hy HmP HdP HeP Hv.
  pose proof (F2R_pos mP eP HmP) as HP.
  destruct y as [[]|[]| |[] my ey]; try discriminate.
  - specialize (Hv eq_refl). simpl in Hv. lra.
  - left. reflexivity.
  - specialize (Hv eq_refl). simpl SFmul. simpl SF2R in Hv.
    destruct (SFmul_located mx ex my ey Hn) as [Hloc He].
    apply (binary_round_aux_ge (F2R (Zpos mx) ex * F2R (Zpos my) ey));
      try assumption; lia.
Qed.

(** One minus a number of [[0, 1]] is a number of [[0, 1]]. *)
Lemma SFsub_one_le q :
  sf_finite_nonneg q = true -> (SF2R q <= 1)%R ->
  sf_finite_nonneg (SFsub prec emax sf_one q) = true
  /\ (SF2R (SFsub prec emax sf_one q) <= 1)%R.
Proof.
  intros Hq Hv.
  destruct (sf_finite_nonneg_cases q Hq) as [->|(mq & eq & ->)].
  - simpl SFsub. split; [reflexivity|]. rewrite SF2R_one. lra.
  - unfold sf_one, SFsub, cond_Zopp.
    set (ez := Z.min (-52) eq).
    assert (H1 : F2R (Zpos (fst (shl_align 4503599627370496 (-52) ez))) ez = 1%R).
    { rewrite shl_align_F2R by (unfold ez; lia). exact SF2R_one. }
    assert (H2 : F2R (Zpos (fst (shl_align mq eq ez))) ez = F2R (Zpos mq) eq).
    { apply shl_align_F2R. unfold ez; lia. }
    simpl SF2R in Hv.
    assert (Hle : Zpos (fst (shl_align mq eq ez))
                  <= Zpos (fst (shl_align 4503599627370496 (-52) ez))).
    { apply (F2R_le_inv _ _ ez). rewrite H1, H2. exact Hv. }
    rewrite <- F2R_1.
    apply binary_normalize_le; try lia.
    + simpl. lia.
    + rewrite F2R_minus, H1, H2, F2R_1.
      pose proof (F2R_pos (Zpos mq) eq ltac:(lia)). lra.
Qed.

Lemma SFadd_le x y mP eP :
  sf_finite_nonneg x = true -> sf_finite_nonneg y = true ->
  0 < mP -> Zdigits2 mP <= 53 -> -1074 <= eP <= 971 ->
  (SF2R x + SF2R y <= F2R mP eP)%R ->
  sf_finite_nonneg (SFadd prec emax x y) = true
  /\ (SF2R (SFadd prec emax x y) <= F2R mP eP)%R.
Proof.
  intros Hx Hy HmP HdP HeP Hv.
  pose proof (F2R_pos mP eP HmP) as HP.
  destruct (sf_finite_nonneg_cases x Hx) as [->|(mx & ex & ->)];
    destruct (sf_finite_nonneg_cases y Hy) as [->|(my & ey & ->)].
  - simpl. split; [reflexivity|lra].
  - simpl SFadd. simpl SF2R in *. split; [reflexivity|lra].
  - simpl SFadd. simpl SF2R in *. split; [reflexivity|lra].
  - unfold SFadd, cond_Zopp. simpl SF2R in Hv.
    set (ez := Z.min ex ey).
    apply binary_normalize_le; try assumption; try lia.
    rewrite F2R_plus, !shl_align_F2R by (unfold ez; lia). exact Hv.
Qed.

Lemma SFadd_ge_pivot x y mP eP :
  sf_nonneg x = true -> sf_nonneg y = true ->
  0 < mP -> Zdigits2 mP <= 53 -> -1074 <= eP ->
  (sf_finite_nonneg x = true -> sf_finite_nonneg y = true ->
   F2R mP eP <= SF2R x + SF2R y)%R ->
  SFadd prec emax x y = S754_infinity false
  \/ (sf_finite_nonneg (SFadd prec emax x y) = true
      /\ F2R mP eP <= SF2R (SFadd prec emax x y))%R.
Proof.
  intros Hx Hy HmP HdP HeP Hv.
  pose proof (F2R_pos mP eP HmP) as HP.
  destruct x as [[]|[]| |[] mx ex]; try discriminate;
    destruct y as [[]|[]| |[] my ey]; try discriminate;
    try (left; reflexivity).
  - specialize (Hv eq_refl eq_refl). simpl in Hv. lra.
  - specialize (Hv eq_refl eq_refl). right. simpl SFadd. simpl SF2R in *.
    split; [reflexivity|lra].
  - specialize (Hv eq_refl eq_refl). right. simpl SFadd. simpl SF2R in *.
    split; [reflexivity|lra].
  - specialize (Hv eq_refl eq_refl). unfold SFadd, cond_Zopp.
    simpl SF2R in Hv. set (ez := Z.min ex ey).
    apply binary_normalize_ge; try assumption; try lia.
    rewrite F2R_plus, !shl_align_F2R by (unfold ez; lia). exact Hv.
Qed.

(** ** The components of the score, bounded *)

Lemma F2R_align m e n : 0 <= n -> F2R m e = F2R (m * 2 ^ n) (e - n).
Proof.
  intros H. rewrite F2R_shift by exact H. f_equal. lia.
Qed.

Lemma Prim2SF_03 : Prim2SF 0.3 = S754_finite false 5404319552844595 (-54).
Proof. reflexivity. Qed.

Lemma Prim2SF_04 : Prim2SF 0.4 = S754_finite false 7205759403792794 (-54).
Proof. reflexivity. Qed.

Lemma Prim2SF_07 : Prim2SF 0.7 = S754_finite false 6305039478318694 (-53).
Proof. reflexivity. Qed.

Lemma one_minus_unit q :
  sf_finite_nonneg (Prim2SF q) = true -> (SF2R (Prim2SF q) <= 1)%R ->
  sf_finite_nonneg (Prim2SF (1 - q)%float) = true
  /\ (SF2R (Prim2SF (1 - q)%float) <= 1)%R.
Proof.
  intros Hq Hv. rewrite FloatAxioms.sub_spec. unfold SF64sub.
  change (Prim2SF 1) with sf_one. apply SFsub_one_le; assumption.
Qed.

(** A weight times a number of [[0, 1]] is at most the weight. *)
Lemma weight_mul_le w mw ew z :
  Prim2SF w = S754_finite false mw ew -> 2 ^ 52 <= Zpos mw ->
  sf_finite_nonneg (Prim2SF z) = true -> (SF2R (Prim2SF z) <= 1)%R ->
  sf_finite_nonneg (Prim2SF (w * z)%float) = true
  /\ (SF2R (Prim2SF (w * z)%float) <= F2R (Zpos mw) ew)%R.
Proof.
  intros Hw Hn Hz Hv. rewrite FloatAxioms.mul_spec. unfold SF64mul.
  pose proof (Prim2SF_valid w) as Vw. rewrite Hw in Vw |- *.
  destruct (valid_finite _ _ _ Vw) as [Hd He].
  apply SFmul_le; try assumption; try lia.
  pose proof (F2R_pos (Zpos mw) ew ltac:(lia)).
  pose proof (SF2R_nonneg _ (sf_finite_nonneg_nonneg _ Hz)). nra.
Qed.

Lemma date_component_le date_diff date_tolerance :
  0 <= date_diff -> date_tolerance <= 999999999 ->
  sf_finite_nonneg (Prim2SF (date_component date_diff date_tolerance)) = true
  /\ (SF2R (Prim2SF (date_component date_diff date_tolerance))
      <= F2R 5404319552844595 (-54))%R.
Proof.
  intros Hd Ht. unfold date_component, date_weight.
  destruct (date_diff =? 0) eqn:E0.
  { rewrite Prim2SF_03. split; [reflexivity|simpl; lra]. }
  destruct (date_diff <=? date_tolerance) eqn:E1.
  - apply Z.leb_le in E1.
    destruct (int_truediv_unit date_diff (date_tolerance + 1)) as [Hf Hv];
      [lia|change (2 ^ 53) with 9007199254740992; lia|].
    destruct (one_minus_unit _ Hf Hv) as [Hf1 Hv1].
    apply (weight_mul_le 0.3 5404319552844595 (-54));
      [reflexivity|change (2 ^ 52) with 4503599627370496; lia|exact Hf1|exact Hv1].
  - change (Prim2SF 0) with (S754_zero false).
    split; [reflexivity|]. simpl. apply Rlt_le, F2R_pos. lia.
Qed.

Lemma jaccard_unit words1 words2 :
  Z.of_nat (List.length words1) < 2 ^ 52 ->
  Z.of_nat (List.length words2) < 2 ^ 52 ->
  sf_finite_nonneg (Prim2SF (jaccard words1 words2)) = true
  /\ (SF2R (Prim2SF (jaccard words1 words2)) <= 1)%R.
Proof.
  intros H1 H2. unfold jaccard.
  destruct words1 as [|a w1]; [split; [reflexivity|simpl; lra]|].
  destruct words2 as [|b w2]; [split; [reflexivity|simpl; lra]|].
  set (l1 := a :: w1) in *. set (l2 := b :: w2) in *.
  assert (Hi : (List.length (intersection l1 l2) <= List.length l1)%nat)
    by apply filter_length_le.
  assert (Hu : List.length (union l1 l2)
               = (List.length l1
                  + List.length (List.filter (fun w => negb (str_mem w l1)) l2))%nat)
    by apply length_app.
  assert (Hf : (List.length (List.filter (fun w => negb (str_mem w l1)) l2)
                <= List.length l2)%nat) by apply filter_length_le.
  assert (Hl1 : (0 < List.length l1)%nat) by (simpl; lia).
  change (2 ^ 52) with 4503599627370496 in *.
  apply int_truediv_unit.
  - lia.
  - change (2 ^ 53) with 9007199254740992. lia.
Qed.

Lemma description_component_le lower is_word desc1 desc2 :
  Z.of_nat (List.length (word_set lower is_word desc1)) < 2 ^ 52 ->
  Z.of_nat (List.length (word_set lower is_word desc2)) < 2 ^ 52 ->
  sf_finite_nonneg
    (Prim2SF (description_component lower is_word desc1 desc2)) = true
  /\ (SF2R (Prim2SF (description_component lower is_word desc1 desc2))
      <= F2R 5404319552844595 (-54))%R.
Proof.
  intros H1 H2. unfold description_component, description_weight.
  destruct (jaccard_unit _ _ H1 H2) as [Hf Hv].
  apply (weight_mul_le 0.3 5404319552844595 (-54));
    [reflexivity|change (2 ^ 52) with 4503599627370496; lia|exact Hf|exact Hv].
Qed.

(** The score is the weighted sum, whenever the date component is not
    negative. *)
Lemma calculate_match_score_weighted lower is_word l b date_tolerance
    amount_tolerance :
  sf_nonneg
    (Prim2SF (date_component (Z.abs (lr_date l - br_date b)) date_tolerance))
  = true ->
  calculate_match_score lower is_word l b date_tolerance amount_tolerance
  = weighted_score lower is_word
      (Z.abs (lr_date l - br_date b)) (Z.abs (lr_amount l - br_amount b))
      (lr_description l) (br_description b) date_tolerance amount_tolerance.
Proof.
  intros Hd.
  set (dd := Z.abs (lr_date l - br_date b)) in *.
  set (ad := Z.abs (lr_amount l - br_amount b)).
  unfold calculate_match_score, weighted_score.
  fold dd. fold ad. cbv zeta.
  rewrite calculate_description_similarity_jaccard.
  fold (description_component lower is_word (lr_description l)
          (br_description b)).
  f_equal. f_equal.
  assert (H1 : (if dd =? 0 then (0 + 0.3)%float
                else if dd <=? date_tolerance
                     then (0 + 0.3 * (1 - int_truediv dd (date_tolerance + 1)))%float
                     else 0%float)
               = date_component dd date_tolerance).
  { revert Hd. unfold date_component, date_weight.
    destruct (dd =? 0); [intros _; reflexivity|].
    destruct (dd <=? date_tolerance); [|reflexivity].
    intros Hd. apply add_zero_l. exact Hd. }
  rewrite H1.
  unfold amount_component, amount_weight.
  destruct (ad =? 0); [reflexivity|].
  destruct (ad <=? amount_tolerance); [reflexivity|].
  symmetry. apply add_zero_r. exact Hd.
Qed.

(** *** The clamp and the threshold *)

Lemma py_min_reaches t s :
  sf_finite_nonneg (Prim2SF t) = true -> (SF2R (Prim2SF t) <= 1)%R ->
  (Prim2SF s = S754_infinity false
   \/ (sf_finite_nonneg (Prim2SF s) = true
       /\ SF2R (Prim2SF t) <= SF2R (Prim2SF s))%R) ->
  (t <=? py_min s 1)%float = true.
Proof.
  intros Ht Ht1 Hs. unfold py_min.
  destruct (1 <? s)%float eqn:E.
  - apply leb_of_values; [exact Ht|reflexivity|].
    change (Prim2SF 1) with sf_one. rewrite SF2R_one. exact Ht1.
  - destruct Hs as [Hinf|[Hf Hv]].
    + rewrite FloatAxioms.ltb_spec, Hinf in E. discriminate.
    + apply leb_of_values; assumption.
Qed.

Lemma py_min_misses t s :
  sf_finite_nonneg (Prim2SF t) = true ->
  sf_finite_nonneg (Prim2SF s) = true ->
  (SF2R (Prim2SF s) < SF2R (Prim2SF t))%R -> (SF2R (Prim2SF s) <= 1)%R ->
  (t <=? py_min s 1)%float = false.
Proof.
  intros Ht Hs Hv H1. unfold py_min.
  destruct (1 <? s)%float eqn:E.
  - apply ltb_value in E; [|reflexivity|exact Hs].
    change (Prim2SF 1) with sf_one in E. rewrite SF2R_one in E. lra.
  - apply leb_false_of_values; assumption.
Qed.

(** ** What reaches the threshold *)

(** The date and amount components alone make 0.7. *)
Lemma score_of_same_date_and_amount lower is_word l b
    date_tolerance amount_tolerance :
  Z.of_nat (List.length (word_set lower is_word (lr_description l))) < 2 ^ 52 ->
  Z.of_nat (List.length (word_set lower is_word (br_description b))) < 2 ^ 52 ->
  lr_date l = br_date b -> lr_amount l = br_amount b ->
  (0.7 <=? calculate_match_score lower is_word l b date_tolerance
             amount_tolerance)%float = true.
Proof.
  intros Hw1 Hw2 Hd Ha.
  assert (Hdd : Z.abs (lr_date l - br_date b) = 0) by lia.
  assert (Had : Z.abs (lr_amount l - br_amount b) = 0) by lia.
  rewrite calculate_match_score_weighted
    by (rewrite Hdd; reflexivity).
  rewrite Hdd, Had. unfold weighted_score.
  change (date_component 0 date_tolerance) with 0.3%float.
  change (amount_component 0 amount_tolerance) with 0.4%float.
  change (0.3 + 0.4)%float with 0.7%float.
  destruct (description_component_le lower is_word _ _ Hw1 Hw2) as [Hf Hv].
  apply py_min_reaches.
  - reflexivity.
  - rewrite Prim2SF_07. simpl SF2R.
    rewrite <- F2R_1. rewrite (F2R_align 1 0 53) by lia.
    change (0 - 53) with (-53). apply F2R_le.
    change (1 * 2 ^ 53) with 9007199254740992. lia.
  - rewrite FloatAxioms.add_spec. unfold SF64add.
    pose proof (SF2R_nonneg _ (sf_finite_nonneg_nonneg _ Hf)) as Hn.
    destruct (SFadd_ge_pivot (Prim2SF 0.7)
                (Prim2SF (description_component lower is_word
                            (lr_description l) (br_description b)))
                6305039478318694 (-53)) as [Hinf|Hfin].
    + reflexivity.
    + apply sf_finite_nonneg_nonneg. exact Hf.
    + lia.
    + simpl. lia.
    + lia.
    + intros _ _. rewrite Prim2SF_07. simpl SF2R. lra.
    + left. exact Hinf.
    + right. rewrite Prim2SF_07 at 2. exact Hfin.
Qed.

(** X1.  A ledger record and a bank record of the same date
    and the same amount score at least 0.70, whatever their descriptions
    and the tolerances: the date and amount components alone make 0.7, so
    such a pair is always eligible for a match. *)
Theorem same_date_and_amount_reach_threshold lower is_word l b
    date_tolerance amount_tolerance :
  Z.of_nat (List.length (word_set lower is_word (lr_description l))) < 2 ^ 52 ->
  Z.of_nat (List.length (word_set lower is_word (br_description b))) < 2 ^ 52 ->
  lr_date l = br_date b -> lr_amount l = br_amount b ->
  (0.7 <=? calculate_match_score lower is_word l b date_tolerance
             amount_tolerance)%float = true.
Proof.
  exact (score_of_same_date_and_amount lower is_word l b date_tolerance amount_tolerance).
Qed.

Lemma same_date_and_amount_reach_threshold_witness :
  let l := Sample.ledger 1%positive 738000 "rent" 5000 1 in
  let b := Sample.bank 11%positive 738000 "coffee shop" 5000 1 in
  Z.of_nat (List.length (word_set ascii_lower ascii_word (lr_description l)))
  < 2 ^ 52
  /\ Z.of_nat (List.length (word_set ascii_lower ascii_word (br_description b)))
     < 2 ^ 52
  /\ lr_date l = br_date b /\ lr_amount l = br_amount b
  /\ (0.7 <=? calculate_match_score ascii_lower ascii_word l b 0 0)%float
     = true.
Proof.
  intros l b.
  assert (H1 : Z.of_nat (List.length
                           (word_set ascii_lower ascii_word (lr_description l)))
               < 2 ^ 52) by (vm_compute; reflexivity).
  assert (H2 : Z.of_nat (List.length
                           (word_set ascii_lower ascii_word (br_description b)))
               < 2 ^ 52) by (vm_compute; reflexivity).
  assert (H3 : lr_date l = br_date b) by reflexivity.
  assert (H4 : lr_amount l = br_amount b) by reflexivity.
  repeat (split; [assumption|]).
  exact (same_date_and_amount_reach_threshold ascii_lower ascii_word l b 0 0
           H1 H2 H3 H4).
Defined.

Lemma SF2R_07 :
  sf_finite_nonneg (Prim2SF 0.7) = true
  /\ SF2R (Prim2SF 0.7) = F2R 6305039478318694 (-53)
  /\ (SF2R (Prim2SF 0.7) <= 1)%R.
Proof.
  rewrite Prim2SF_07. split; [reflexivity|]. split; [reflexivity|].
  simpl SF2R. rewrite <- F2R_1. rewrite (F2R_align 1 0 53) by lia.
  change (0 - 53) with (-53). apply F2R_le.
  change (1 * 2 ^ 53) with 9007199254740992. lia.
Qed.

Lemma F2R_double m e : F2R m (e + 1) = (2 * F2R m e)%R.
Proof.
  rewrite <- F2R_shift by lia. change (2 ^ 1) with 2.
  unfold F2R. rewrite mult_IZR. ring.
Qed.

(** Without the amount component the score is at most 0.6. *)
Lemma score_outside_amount_tolerance lower is_word l b
    date_tolerance amount_tolerance :
  date_tolerance <= 999999999 ->
  Z.of_nat (List.length (word_set lower is_word (lr_description l))) < 2 ^ 52 ->
  Z.of_nat (List.length (word_set lower is_word (br_description b))) < 2 ^ 52 ->
  0 <= amount_tolerance < Z.abs (lr_amount l - br_amount b) ->
  (0.7 <=? calculate_match_score lower is_word l b date_tolerance
             amount_tolerance)%float = false.
Proof.
  intros Hdt Hw1 Hw2 Hat.
  set (dd := Z.abs (lr_date l - br_date b)).
  set (ad := Z.abs (lr_amount l - br_amount b)) in *.
  destruct (date_component_le dd date_tolerance ltac:(unfold dd; lia) Hdt)
    as [Hfd Hvd].
  destruct (description_component_le lower is_word _ _ Hw1 Hw2) as [Hfj Hvj].
  rewrite calculate_match_score_weighted
    by (apply sf_finite_nonneg_nonneg; exact Hfd).
  fold dd. fold ad. unfold weighted_score.
  assert (Ha : amount_component ad amount_tolerance = 0%float).
  { unfold amount_component.
    replace (ad =? 0) with false by (symmetry; apply Z.eqb_neq; lia).
    replace (ad <=? amount_tolerance) with false
      by (symmetry; apply Z.leb_gt; lia).
    reflexivity. }
  rewrite Ha, add_zero_r by (apply sf_finite_nonneg_nonneg; exact Hfd).
  destruct SF2R_07 as (H7f & H7v & H71).
  destruct (SFadd_le _ _ 5404319552844595 (-53) Hfd Hfj) as [Hfs Hvs];
    [lia|simpl; lia|lia| |].
  { change (-53) with (-54 + 1). rewrite F2R_double. lra. }
  rewrite <- FloatAxioms.add_spec in Hfs, Hvs.
  assert (Hlt : (F2R 5404319552844595 (-53) < F2R 6305039478318694 (-53))%R)
    by (apply F2R_lt; lia).
  apply py_min_misses; try assumption; lra.
Qed.

(** X2.  A ledger record and a bank record whose amounts
    differ by more than the amount tolerance score below 0.70, whatever
    their dates and descriptions: without the amount component the score is
    at most 0.6, so such a pair is never eligible for a match. *)
Theorem amount_outside_tolerance_misses_threshold lower is_word l b
    date_tolerance amount_tolerance :
  date_tolerance <= 999999999 ->
  Z.of_nat (List.length (word_set lower is_word (lr_description l))) < 2 ^ 52 ->
  Z.of_nat (List.length (word_set lower is_word (br_description b))) < 2 ^ 52 ->
  0 <= amount_tolerance < Z.abs (lr_amount l - br_amount b) ->
  (0.7 <=? calculate_match_score lower is_word l b date_tolerance
             amount_tolerance)%float = false.
Proof.
  exact (score_outside_amount_tolerance lower is_word l b date_tolerance amount_tolerance).
Qed.

Lemma amount_outside_tolerance_misses_threshold_witness :
  let l := Sample.ledger 1%positive 738000 "rent" 5000 1 in
  let b := Sample.bank 11%positive 738000 "rent" 5002 1 in
  3 <= 999999999
  /\ Z.of_nat (List.length (word_set ascii_lower ascii_word (lr_description l)))
     < 2 ^ 52
  /\ Z.of_nat (List.length (word_set ascii_lower ascii_word (br_description b)))
     < 2 ^ 52
  /\ 0 <= 1 < Z.abs (lr_amount l - br_amount b)
  /\ (0.7 <=? calculate_match_score ascii_lower ascii_word l b 3 1)%float
     = false.
Proof.
  intros l b.
  assert (H0 : 3 <= 999999999) by lia.
  assert (H1 : Z.of_nat (List.length
                           (word_set ascii_lower ascii_word (lr_description l)))
               < 2 ^ 52) by (vm_compute; reflexivity).
  assert (H2 : Z.of_nat (List.length
                           (word_set ascii_lower ascii_word (br_description b)))
               < 2 ^ 52) by (vm_compute; reflexivity).
  assert (H3 : 0 <= 1 < Z.abs (lr_amount l - br_amount b)) by (simpl; lia).
  repeat (split; [assumption|]).
  exact (amount_outside_tolerance_misses_threshold ascii_lower ascii_word
           l b 3 1 H0 H1 H2 H3).
Defined.

(** *** Equal word sets *)

Lemma filter_all {A} (f : A -> bool) (l : list A) :
  (forall x, In x l -> f x = true) -> List.filter f l = l.
Proof.
  induction l as [|a l IH]; intros H; [reflexivity|]. simpl.
  rewrite (H a (or_introl eq_refl)). f_equal. apply IH.
  intros x Hx. apply H. right. exact Hx.
Qed.

Lemma filter_none {A} (f : A -> bool) (l : list A) :
  (forall x, In x l -> f x = false) -> List.filter f l = [].
Proof.
  induction l as [|a l IH]; intros H; [reflexivity|]. simpl.
  rewrite (H a (or_introl eq_refl)). apply IH.
  intros x Hx. apply H. right. exact Hx.
Qed.

Lemma str_mem_in w s : In w s -> str_mem w s = true.
Proof.
  intros H. unfold str_mem. apply existsb_exists.
  exists w. split; [exact H|apply Str_eqb_refl].
Qed.

Lemma intersection_same s1 s2 :
  (forall x, In x s1 <-> In x s2) -> intersection s1 s2 = s1.
Proof.
  intros H. apply filter_all. intros x Hx. apply str_mem_in. apply H. exact Hx.
Qed.

Lemma union_same s1 s2 :
  (forall x, In x s1 <-> In x s2) -> union s1 s2 = s1.
Proof.
  intros H. unfold union. rewrite filter_none; [apply app_nil_r|].
  intros x Hx. rewrite (str_mem_in x s1); [reflexivity|]. apply H. exact Hx.
Qed.

(** Two sets of the same words, not empty, have similarity [n / n]. *)
Lemma jaccard_same_words s1 s2 :
  (forall x, In x s1 <-> In x s2) -> s1 <> [] ->
  jaccard s1 s2
  = int_truediv (Z.of_nat (List.length s1)) (Z.of_nat (List.length s1)).
Proof.
  intros H Hne. unfold jaccard.
  rewrite (intersection_same _ _ H), (union_same _ _ H).
  destruct s1 as [|a s1]; [congruence|].
  destruct s2 as [|b s2]; [|reflexivity].
  destruct (proj1 (H a) (or_introl eq_refl)).
Qed.

Lemma int_truediv_self n :
  0 < n < 2 ^ 53 ->
  sf_finite_nonneg (Prim2SF (int_truediv n n)) = true
  /\ (1 <= SF2R (Prim2SF (int_truediv n n)))%R.
Proof.
  intros Hn. destruct (int_truediv_unit n n ltac:(lia) Hn) as [Hf _].
  split; [exact Hf|]. revert Hf. unfold int_truediv.
  rewrite FloatAxioms.div_spec. unfold SF64div. intros Hf.
  destruct (float_of_int_exact n ltac:(lia)) as [Hfn Hvn].
  assert (Hpos : (0 < IZR n)%R) by (apply IZR_lt; lia).
  destruct (SFdiv_ge (Prim2SF (float_of_int n)) (Prim2SF (float_of_int n)) 1 0)
    as [Hinf|[_ Hge]]; try assumption; try lia.
  - rewrite Hvn. exact Hpos.
  - simpl. lia.
  - rewrite F2R_1. lra.
  - rewrite Hinf in Hf. discriminate.
  - rewrite F2R_1 in Hge. exact Hge.
Qed.

(** X3.  A ledger record and a bank record of the same
    amount whose descriptions have the same, non-empty set of words (in
    whatever order and however often repeated) score
    at least 0.70 however far apart their dates are: the amount and
    description components alone make 0.7, so the date tolerance does not
    keep such a pair from matching. *)
Theorem same_amount_and_words_reach_threshold lower is_word l b
    date_tolerance amount_tolerance :
  date_tolerance <= 999999999 ->
  Z.of_nat (List.length (word_set lower is_word (lr_description l))) < 2 ^ 52 ->
  (forall x, In x (word_set lower is_word (lr_description l))
             <-> In x (word_set lower is_word (br_description b))) ->
  word_set lower is_word (lr_description l) <> [] ->
  lr_amount l = br_amount b ->
  (0.7 <=? calculate_match_score lower is_word l b date_tolerance
             amount_tolerance)%float = true.
Proof.
  intros Hdt Hw Hsame Hne Ha.
  set (dd := Z.abs (lr_date l - br_date b)).
  assert (Had : Z.abs (lr_amount l - br_amount b) = 0) by lia.
  destruct (date_component_le dd date_tolerance ltac:(unfold dd; lia) Hdt)
    as [Hfd Hvd].
  rewrite calculate_match_score_weighted
    by (apply sf_finite_nonneg_nonneg; exact Hfd).
  fold dd. rewrite Had. unfold weighted_score.
  change (amount_component 0 amount_tolerance) with 0.4%float.
  set (D := date_component dd date_tolerance) in *.
  set (J := description_component lower is_word (lr_description l)
              (br_description b)).
  (* the description component is at least 0.3 *)
  assert (HJ : sf_finite_nonneg (Prim2SF J) = true
               /\ (F2R 5404319552844595 (-54) <= SF2R (Prim2SF J))%R).
  { assert (Hw2 : Z.of_nat (List.length
                             (word_set lower is_word (br_description b)))
                  < 2 ^ 52).
    { assert (List.length (word_set lower is_word (br_description b))
              <= List.length (word_set lower is_word (lr_description l)))%nat;
        [|lia].
      apply NoDup_incl_length; [apply NoDup_nodup|].
      intros x Hx. apply Hsame. exact Hx. }
    destruct (description_component_le lower is_word (lr_description l)
                (br_description b) Hw Hw2) as [Hf _].
    split; [exact Hf|]. revert Hf. unfold J, description_component.
    rewrite (jaccard_same_words _ _ Hsame Hne). unfold description_weight.
    assert (Hn : 0 < Z.of_nat (List.length
                                 (word_set lower is_word (lr_description l)))
                 < 2 ^ 53).
    { change (2 ^ 52) with 4503599627370496 in Hw.
      change (2 ^ 53) with 9007199254740992.
      destruct (word_set lower is_word (lr_description l)); [congruence|].
      simpl List.length in *. lia. }
    set (n := Z.of_nat (List.length
                          (word_set lower is_word (lr_description l)))) in *.
    destruct (int_truediv_self n Hn) as [Hfq Hvq].
    rewrite FloatAxioms.mul_spec. unfold SF64mul. rewrite Prim2SF_03.
    intros Hf.
    destruct (SFmul_ge 5404319552844595 (-54) (Prim2SF (int_truediv n n))
                5404319552844595 (-54)) as [Hinf|[_ Hge]].
    - change (2 ^ 52) with 4503599627370496. lia.
    - apply sf_finite_nonneg_nonneg. exact Hfq.
    - lia.
    - simpl. lia.
    - lia.
    - intros _. pose proof (F2R_pos 5404319552844595 (-54) ltac:(lia)). nra.
    - rewrite Hinf in Hf. discriminate.
    - exact Hge. }
  destruct HJ as [HfJ HvJ].
  destruct SF2R_07 as (H7f & H7v & H71).
  apply py_min_reaches; [exact H7f|exact H71|].
  rewrite H7v.
  (* the date and amount components together are at least 0.4 *)
  assert (Hn2 : sf_nonneg (Prim2SF (D + 0.4)%float) = true).
  { apply add_nonneg; [apply sf_finite_nonneg_nonneg; exact Hfd|reflexivity]. }
  assert (H2 : Prim2SF (D + 0.4)%float = S754_infinity false
               \/ (sf_finite_nonneg (Prim2SF (D + 0.4)%float) = true
                   /\ F2R 7205759403792794 (-54)
                      <= SF2R (Prim2SF (D + 0.4)%float))%R).
  { rewrite FloatAxioms.add_spec. unfold SF64add.
    apply SFadd_ge_pivot.
    - apply sf_finite_nonneg_nonneg. exact Hfd.
    - reflexivity.
    - lia.
    - simpl. lia.
    - lia.
    - intros _ _. rewrite Prim2SF_04. simpl SF2R.
      pose proof (SF2R_nonneg _ (sf_finite_nonneg_nonneg _ Hfd)). lra. }
  rewrite FloatAxioms.add_spec. unfold SF64add.
  apply SFadd_ge_pivot.
  - exact Hn2.
  - apply sf_finite_nonneg_nonneg. exact HfJ.
  - lia.
  - simpl. lia.
  - lia.
  - intros Hf2 _. destruct H2 as [Hinf|[_ Hv2]];
      [rewrite Hinf in Hf2; discriminate|].
    assert (Hc : (F2R 6305039478318694 (-53)
                  <= F2R 7205759403792794 (-54) + F2R 5404319552844595 (-54))%R).
    { change (-53) with (-54 + 1). rewrite F2R_double, <- F2R_plus.
      replace (2 * F2R 6305039478318694 (-54))%R
        with (F2R (2 * 6305039478318694) (-54))
        by (unfold F2R; rewrite mult_IZR; ring).
      apply F2R_le. lia. }
    lra.
Qed.

Lemma same_amount_and_words_reach_threshold_witness :
  let l := Sample.ledger 1%positive 738000 "Rent, March" 5000 1 in
  let b := Sample.bank 11%positive 738200 "march RENT" 5000 1 in
  3 <= 999999999
  /\ Z.of_nat (List.length (word_set ascii_lower ascii_word (lr_description l)))
     < 2 ^ 52
  /\ (forall x, In x (word_set ascii_lower ascii_word (lr_description l))
                <-> In x (word_set ascii_lower ascii_word (br_description b)))
  /\ word_set ascii_lower ascii_word (lr_description l) <> []
  /\ lr_amount l = br_amount b
  /\ (0.7 <=? calculate_match_score ascii_lower ascii_word l b 3 0)%float
     = true.
Proof.
  intros l b.
  assert (H0 : 3 <= 999999999) by lia.
  assert (H1 : Z.of_nat (List.length
                           (word_set ascii_lower ascii_word (lr_description l)))
               < 2 ^ 52) by (vm_compute; reflexivity).
  assert (H2 : forall x,
             In x (word_set ascii_lower ascii_word (lr_description l))
             <-> In x (word_set ascii_lower ascii_word (br_description b))).
  { intros x. vm_compute. tauto. }
  assert (H3 : word_set ascii_lower ascii_word (lr_description l) <> [])
    by (vm_compute; discriminate).
  assert (H4 : lr_amount l = br_amount b) by reflexivity.
  repeat (split; [assumption|]).
  exact (same_amount_and_words_reach_threshold ascii_lower ascii_word
           l b 3 0 H0 H1 H2 H3 H4).
Defined.

(** ** What a pass does to the records *)

Lemma ledger_marked_id r0 r : ledger_marked r0 r -> lr_id r = lr_id r0.
Proof. intros [->|(_ & c & ->)]; reflexivity. Qed.

Lemma bank_marked_id r0 r : bank_marked r0 r -> br_id r = br_id r0.
Proof. intros [->|(_ & c & ->)]; reflexivity. Qed.

Lemma ledger_marked_ids l0 l1 :
  Forall2 ledger_marked l0 l1 -> List.map lr_id l1 = List.map lr_id l0.
Proof.
  induction 1 as [|r0 r l0 l1 H _ IH]; [reflexivity|].
  simpl. rewrite IH, (ledger_marked_id _ _ H). reflexivity.
Qed.

Lemma bank_marked_ids l0 l1 :
  Forall2 bank_marked l0 l1 -> List.map br_id l1 = List.map br_id l0.
Proof.
  induction 1 as [|r0 r l0 l1 H _ IH]; [reflexivity|].
  simpl. rewrite IH, (bank_marked_id _ _ H). reflexivity.
Qed.

Lemma ledger_marked_refl l : Forall2 ledger_marked l l.
Proof. induction l; constructor; [left; reflexivity|assumption]. Qed.

Lemma bank_marked_refl l : Forall2 bank_marked l l.
Proof. induction l; constructor; [left; reflexivity|assumption]. Qed.

Lemma ledger_marked_trans l0 l1 l2 :
  Forall2 ledger_marked l0 l1 -> Forall2 ledger_marked l1 l2 ->
  Forall2 ledger_marked l0 l2.
Proof.
  intros H. revert l2. induction H as [|r0 r1 l0 l1 H01 _ IH]; intros l2 H12.
  - inversion H12. constructor.
  - inversion H12 as [|? r2 ? l2' H12' Hrest]; subst. constructor; [|auto].
    destruct H01 as [->|(Hu & c & ->)]; [exact H12'|].
    destruct H12' as [->|(Hm & _)]; [right; eauto|discriminate Hm].
Qed.

Lemma bank_marked_trans l0 l1 l2 :
  Forall2 bank_marked l0 l1 -> Forall2 bank_marked l1 l2 ->
  Forall2 bank_marked l0 l2.
Proof.
  intros H. revert l2. induction H as [|r0 r1 l0 l1 H01 _ IH]; intros l2 H12.
  - inversion H12. constructor.
  - inversion H12 as [|? r2 ? l2' H12' Hrest]; subst. constructor; [|auto].
    destruct H01 as [->|(Hu & c & ->)]; [exact H12'|].
    destruct H12' as [->|(Hm & _)]; [right; eauto|discriminate Hm].
Qed.

Lemma records_kept_refl d : records_kept d d.
Proof. split; [apply ledger_marked_refl|apply bank_marked_refl]. Qed.

Lemma records_kept_trans d0 d1 d2 :
  records_kept d0 d1 -> records_kept d1 d2 -> records_kept d0 d2.
Proof.
  intros [H1 H2] [H3 H4].
  split; [eapply ledger_marked_trans|eapply bank_marked_trans]; eassumption.
Qed.

Lemma records_kept_keys d0 d1 :
  records_kept d0 d1 -> keys_distinct d0 -> keys_distinct d1.
Proof.
  intros [H1 H2] [H3 H4]. unfold keys_distinct.
  rewrite (ledger_marked_ids _ _ H1), (bank_marked_ids _ _ H2). auto.
Qed.

Lemma existsb_key {A} (id : A -> key) (k : key) (l : list A) :
  In k (List.map id l) -> existsb (fun x => Pos.eqb (id x) k) l = true.
Proof.
  intros H. apply in_map_iff in H. destruct H as (x & E & Hx).
  apply existsb_exists. exists x. split; [exact Hx|].
  apply Pos.eqb_eq. exact E.
Qed.

(** Saving a marked copy of an unmatched row of the original table. *)
Lemma save_marked_ledger l0 l1 x c :
  Forall2 ledger_marked l0 l1 -> NoDup (List.map lr_id l0) ->
  In x l0 -> lr_is_matched x = false ->
  Forall2 ledger_marked l0
    (save_rows lr_id (ledger_mark_matched c x) l1).
Proof.
  intros H Hnd Hx Hu. unfold save_rows.
  rewrite existsb_key
    by (rewrite (ledger_marked_ids _ _ H); apply (in_map lr_id _ x); exact Hx).
  assert (Huniq : forall r0, In r0 l0 -> lr_id r0 = lr_id x -> r0 = x).
  { intros r0 Hr0 E. apply (NoDup_map_injective lr_id l0); assumption. }
  clear Hnd Hx. unfold update_rows.
  induction H as [|r0 r l0 l1 Hr _ IH]; [constructor|].
  simpl. constructor.
  - simpl lr_id. destruct (Pos.eqb_spec (lr_id r) (lr_id x)) as [E|E].
    + rewrite (Huniq r0 (or_introl eq_refl))
        by (rewrite <- (ledger_marked_id _ _ Hr); exact E).
      right. split; [exact Hu|]. exists c. reflexivity.
    + exact Hr.
  - apply IH. intros r1 Hr1. apply Huniq. right. exact Hr1.
Qed.

(** Saving a marked copy of an unmatched row of the current table. *)
Lemma save_marked_bank l0 l1 x c :
  Forall2 bank_marked l0 l1 -> NoDup (List.map br_id l0) ->
  In x l1 -> br_is_matched x = false ->
  Forall2 bank_marked l0 (save_rows br_id (bank_mark_matched c x) l1).
Proof.
  intros H Hnd Hx Hu. unfold save_rows.
  rewrite existsb_key by (apply (in_map br_id _ x); exact Hx).
  assert (Hnd1 : NoDup (List.map br_id l1))
    by (rewrite (bank_marked_ids _ _ H); exact Hnd).
  assert (Huniq : forall r, In r l1 -> br_id r = br_id x -> r = x).
  { intros r Hr E. apply (NoDup_map_injective br_id l1); assumption. }
  clear Hnd Hnd1 Hx. unfold update_rows.
  induction H as [|r0 r l0 l1 Hr _ IH]; [constructor|].
  simpl. constructor.
  - simpl br_id. destruct (Pos.eqb_spec (br_id r) (br_id x)) as [E|E].
    + assert (r = x) by (apply Huniq; [left; reflexivity|exact E]). subst r.
      destruct Hr as [->|(_ & c' & ->)]; [|discriminate Hu].
      right. split; [exact Hu|]. exists c. reflexivity.
    + exact Hr.
  - apply IH. intros r1 Hr1. apply Huniq. right. exact Hr1.
Qed.

(** *** The loop of a pass, with an invariant of one's own *)

Section PassRule.

Variable lower : str -> str.
Variable is_word : char -> bool.

(** An invariant [J] of the tables at the head of each turn, and a
    condition [K] of the tables that holds wherever the pass may raise. *)
Lemma pass_rule s w o w'
    (J : list LedgerRecord -> list TransactionMatch * option float -> DB -> Prop)
    (K : DB -> Prop) :
  perform_transaction_matching lower is_word s
    task_ledger_records task_bank_records w = (o, w') ->
  K (db w) ->
  J (task_ledger_records (db w)) ([], None) (db w) ->
  (Z.abs (date_tolerance_days s) <= 999999999 ->
   forall l rest acc w2 o2 w3,
      J (l :: rest) acc (db w2) ->
      match_ledger_record lower is_word (date_tolerance_days s)
        (amount_tolerance s) task_bank_records acc l w2 = (o2, w3) ->
      match o2 with
      | Return acc' => J rest acc' (db w3)
      | Raise _ => K (db w3)
      end) ->
  match o with
  | Return matches => exists sc, J [] (matches, sc) (db w')
  | Raise _ => K (db w')
  end.
Proof.
  intros Hrun HK HJ Hturn.
  unfold perform_transaction_matching in Hrun.
  apply bind_run in Hrun.
  destruct Hrun as [(n & w1 & Ht & Hrun)|(e & Ht & ->)].
  2: { apply timedelta_days_run in Ht. destruct Ht as [-> _]. exact HK. }
  assert (Hdt : Z.abs (date_tolerance_days s) <= 999999999).
  { unfold timedelta_days in Ht.
    destruct (Z.leb_spec (Z.abs (date_tolerance_days s)) 999999999);
      [assumption|discriminate]. }
  specialize (Hturn Hdt).
  apply timedelta_days_run in Ht; destruct Ht as [-> Ht].
  destruct Ht as [Ht|Ht]; [|discriminate]. inversion Ht; subst n. clear Ht.
  apply bind_run in Hrun.
  destruct Hrun as [(rows' & w1 & Hf & Hrun)|(e & Hf & ->)];
    apply fetch_run in Hf; destruct Hf as (Hdb1 & _ & Hf);
    [|rewrite Hdb1; exact HK].
  destruct Hf as [Hf|Hf]; [|discriminate]. inversion Hf; subst rows'. clear Hf.
  apply bind_run in Hrun.
  assert (Hloop : forall acc w2 o2 w3,
            J (task_ledger_records (db w)) acc (db w2) ->
            for_each (task_ledger_records (db w))
              (match_ledger_record lower is_word (date_tolerance_days s)
                 (amount_tolerance s) task_bank_records)
              acc w2 = (o2, w3) ->
            match o2 with
            | Return acc' => J [] acc' (db w3)
            | Raise _ => K (db w3)
            end).
  { apply (for_each_rule _ (fun rest acc w2 => J rest acc (db w2))
             (fun w2 => K (db w2))).
    exact Hturn. }
  rewrite <- Hdb1 in HJ at 2.
  destruct Hrun as [(r & w2 & Hl & Hrun)|(e & Hl & ->)].
  - pose proof (Hloop _ _ _ _ HJ Hl) as H. simpl in H.
    inversion Hrun; subst. destruct r as [matches sc]. exists sc. exact H.
  - exact (Hloop _ _ _ _ HJ Hl).
Qed.

(** Once a record is selected, one stays selected. *)
Lemma fold_consider_some l dt at_ cands : forall st,
  best_match st <> None ->
  best_match (fold_left (consider lower is_word l dt at_) cands st) <> None.
Proof.
  induction cands as [|b cands IH]; intros st H; simpl; [exact H|].
  apply IH. unfold consider.
  destruct (_ && _)%bool; simpl; [discriminate|exact H].
Qed.

Lemma fold_consider_none_inv l dt at_ cands : forall st,
  best_match st = None -> best_score st = 0%float ->
  best_match (fold_left (consider lower is_word l dt at_) cands st) = None ->
  forall b, In b cands -> eligible lower is_word dt at_ l b = false.
Proof.
  induction cands as [|a cands IH]; intros st Hn H0 Hf b Hb; [destruct Hb|].
  simpl in Hf.
  assert (Ha : eligible lower is_word dt at_ l a = false).
  { destruct (eligible lower is_word dt at_ l a) eqn:E; [|reflexivity].
    exfalso. revert Hf. apply fold_consider_some.
    unfold consider. unfold eligible in E.
    rewrite H0, (threshold_positive _ E), E. simpl. discriminate. }
  destruct Hb as [<-|Hb]; [exact Ha|].
  apply (IH (consider lower is_word l dt at_ st a)); try assumption.
  - unfold consider. unfold eligible in Ha. rewrite Ha, andb_false_r. exact Hn.
  - unfold consider. unfold eligible in Ha. rewrite Ha, andb_false_r. exact H0.
Qed.

(** Nothing selected: no candidate reaches the threshold. *)
Lemma scan_candidates_none_inv l dt at_ score0 cands :
  best_match (scan_candidates lower is_word l dt at_ score0 cands) = None ->
  forall b, In b cands -> eligible lower is_word dt at_ l b = false.
Proof.
  unfold scan_candidates. apply fold_consider_none_inv; reflexivity.
Qed.

(** The tables a turn leaves: the same, with no bank record eligible when
    the turn returns; or a match of an eligible pair is added and then, as
    far as the statements succeed, its two records are saved as marked. *)
Lemma turn_tables dt at_ acc l w o w' :
  match_ledger_record lower is_word dt at_ task_bank_records acc l w = (o, w') ->
  (db_ledger (db w') = db_ledger (db w) /\ db_bank (db w') = db_bank (db w)
   /\ db_matches (db w') = db_matches (db w)
   /\ forall acc', o = Return acc' ->
        fst acc' = fst acc
        /\ forall b, In b (db_bank (db w)) -> br_is_matched b = false ->
             eligible lower is_word dt at_ l b = false)
  \/ exists best c m,
       In best (db_bank (db w)) /\ br_is_matched best = false
       /\ eligible lower is_word dt at_ l best = true
       /\ tm_ledger_record m = lr_id l /\ tm_bank_record m = br_id best
       /\ amount_difference m = Z.abs (lr_amount l - br_amount best)
       /\ date_difference_days m = Z.abs (lr_date l - br_date best)
       /\ db_matches (db w') = db_matches (db w) ++ [m]
       /\ (forall acc', o = Return acc' -> fst acc' = fst acc ++ [m])
       /\ ((db_ledger (db w') = db_ledger (db w)
            /\ db_bank (db w') = db_bank (db w)
            /\ o = Raise DatabaseError)
           \/ (db_ledger (db w')
               = save_rows lr_id (ledger_mark_matched c l) (db_ledger (db w))
               /\ db_bank (db w') = db_bank (db w)
               /\ o = Raise DatabaseError)
           \/ (db_ledger (db w')
               = save_rows lr_id (ledger_mark_matched c l) (db_ledger (db w))
               /\ db_bank (db w')
                  = save_rows br_id (bank_mark_matched c best) (db_bank (db w)))).
Proof.
  intros Hrun.
  destruct (match_ledger_record_run _ _ _ _ _ _ _ _ _ _ Hrun)
    as (_ & _ & Hcases). cbv zeta in Hcases.
  set (cands := qs_filter bank_unmatched task_bank_records (db w)) in *.
  set (st := scan_candidates lower is_word l dt at_ (snd acc) cands) in *.
  destruct Hcases as [[-> E] | [(Hn & -> & E) | (best & sc & Hb & Hsc & Hc)]].
  - left. rewrite E. split; [reflexivity|split; [reflexivity|]].
    split; [reflexivity|]. intros acc' H. discriminate H.
  - left. rewrite E. split; [reflexivity|split; [reflexivity|]].
    split; [reflexivity|]. intros acc' H. inversion H; subst acc'.
    split; [reflexivity|]. intros b Hb Hu.
    apply (scan_candidates_none_inv l dt at_ (snd acc) cands Hn).
    apply candidates_in. auto.
  - right.
    destruct (scan_candidates_best lower is_word l dt at_ (snd acc) cands
                best Hb) as (Hin & Hbs & Hth & _).
    fold st in Hbs, Hth.
    apply candidates_in in Hin. destruct Hin as [Hin Hu].
    exists best, (best_score st),
      (make_match l best (best_score st) sc (next_key w)).
    split; [exact Hin|]. split; [exact Hu|].
    split; [unfold eligible; rewrite <- Hbs; exact Hth|].
    do 4 (split; [reflexivity|]).
    destruct Hc as [[-> E] | [[-> E] | [-> E]]]; rewrite E; simpl.
    + split; [reflexivity|]. split; [intros ? H; discriminate H|]. auto.
    + split; [reflexivity|]. split; [intros ? H; discriminate H|]. auto.
    + split; [reflexivity|].
      split; [intros ? H; inversion H; reflexivity|]. auto.
Qed.

End PassRule.

(** *** Computations that keep the records *)

Lemma records_kept_same d d' :
  db_ledger d' = db_ledger d -> db_bank d' = db_bank d -> records_kept d d'.
Proof.
  intros El Eb. unfold records_kept. rewrite El, Eb.
  split; [apply ledger_marked_refl|apply bank_marked_refl].
Qed.

Lemma tidy_ret {A} (a : A) : tidy (ret a).
Proof. intros w _. apply records_kept_refl. Qed.

Lemma tidy_raise {A} e : tidy (@raise A e).
Proof. intros w _. apply records_kept_refl. Qed.

Lemma tidy_bind {A B} (m : M A) (k : A -> M B) :
  tidy m -> (forall a, tidy (k a)) -> tidy (bind m k).
Proof.
  intros Hm Hk w Hw. unfold bind. specialize (Hm w Hw).
  destruct (m w) as [[a|e] w1]; simpl in *; [|exact Hm].
  apply (records_kept_trans _ _ _ Hm). apply Hk.
  exact (records_kept_keys _ _ Hm Hw).
Qed.

Lemma tidy_try_except {A} (m : M A) (h : exn -> M A) :
  tidy m -> (forall e, tidy (h e)) -> tidy (try_except m h).
Proof.
  intros Hm Hh w Hw. unfold try_except. specialize (Hm w Hw).
  destruct (m w) as [[a|e] w1]; simpl in *; [exact Hm|].
  apply (records_kept_trans _ _ _ Hm). apply Hh.
  exact (records_kept_keys _ _ Hm Hw).
Qed.

Lemma tidy_for_each {A S} (body : S -> A -> M S) l :
  (forall s x, tidy (body s x)) -> forall s, tidy (for_each l body s).
Proof.
  intros Hb. induction l as [|x l IH]; intros s; simpl.
  - apply tidy_ret.
  - apply tidy_bind; [apply Hb|exact IH].
Qed.

(** Steps that leave the database as it is. *)
Lemma tidy_same_db {A} (m : M A) :
  (forall w, db (snd (m w)) = db w) -> tidy m.
Proof.
  intros H w _. rewrite H. apply records_kept_refl.
Qed.

Lemma tidy_statement : tidy statement.
Proof.
  apply tidy_same_db. intros w. unfold statement.
  destruct (fault_at w) as [[|n]|]; reflexivity.
Qed.

Lemma tidy_get_world : tidy get_world.
Proof. apply tidy_same_db. reflexivity. Qed.

Lemma tidy_uuid4 : tidy uuid4.
Proof. apply tidy_same_db. reflexivity. Qed.

Lemma tidy_set_session s : tidy (set_session s).
Proof. apply tidy_same_db. reflexivity. Qed.

Lemma tidy_fetch {A} (qs : QuerySet A) : tidy (fetch qs).
Proof.
  unfold fetch. apply tidy_bind; [apply tidy_statement|]. intros _.
  apply tidy_bind; [apply tidy_get_world|]. intros w. apply tidy_ret.
Qed.

Lemma tidy_count {A} (qs : QuerySet A) : tidy (count qs).
Proof.
  unfold count. apply tidy_bind; [apply tidy_statement|]. intros _.
  apply tidy_bind; [apply tidy_get_world|]. intros w. apply tidy_ret.
Qed.

(** A write to another table. *)
Lemma tidy_write f :
  (forall d, db_ledger (f d) = db_ledger d /\ db_bank (f d) = db_bank d) ->
  tidy (write f).
Proof.
  intros Hf w _. unfold write, bind, statement, get_world, set_db.
  destruct (fault_at w) as [[|n]|]; simpl;
    try apply records_kept_refl;
    apply records_kept_same; apply Hf.
Qed.

Lemma tidy_the_session : tidy the_session.
Proof.
  apply tidy_same_db. intros w. unfold the_session, bind, get_world, ret, raise.
  destruct (session w); reflexivity.
Qed.

Lemma tidy_session_assign f : tidy (session_assign f).
Proof.
  apply tidy_same_db. intros w.
  unfold session_assign, the_session, bind, get_world, set_session, ret, raise.
  destruct (session w); reflexivity.
Qed.

Lemma tidy_session_save : tidy session_save.
Proof.
  unfold session_save. apply tidy_bind; [apply tidy_the_session|].
  intros s. apply tidy_write. intros d. split; reflexivity.
Qed.

Lemma tidy_ReconciliationSession_get : tidy ReconciliationSession_get.
Proof.
  unfold ReconciliationSession_get.
  apply tidy_bind; [apply tidy_statement|]. intros _.
  apply tidy_bind; [apply tidy_get_world|]. intros w.
  destruct (db_session (db w)); [apply tidy_set_session|apply tidy_raise].
Qed.

Lemma tidy_create_exception_records : tidy create_exception_records.
Proof.
  assert (H : forall A (mk : A -> key -> ReconciliationException) rows,
            tidy (for_each rows
                    (fun _ record => ReconciliationException_create (mk record)) tt)).
  { intros A mk rows. apply tidy_for_each. intros [] r.
    unfold ReconciliationException_create.
    apply tidy_bind; [apply tidy_uuid4|]. intros k.
    apply tidy_write. intros d. split; reflexivity. }
  unfold create_exception_records.
  apply tidy_bind; [apply tidy_fetch|]. intros ul.
  apply tidy_bind; [apply H|]. intros _.
  apply tidy_bind; [apply tidy_fetch|]. intros ub. apply H.
Qed.

Lemma tidy_update_session_statistics : tidy update_session_statistics.
Proof.
  unfold update_session_statistics.
  repeat (apply tidy_bind;
          [first [apply tidy_count|apply tidy_session_assign]|intros ?]).
  apply tidy_session_save.
Qed.

Lemma tidy_on_exception : tidy on_exception.
Proof.
  unfold on_exception. apply tidy_bind; [apply tidy_get_world|]. intros w.
  destruct (session w); [|apply tidy_ret].
  apply tidy_bind; [apply tidy_session_assign|]. intros _.
  apply tidy_bind; [apply tidy_session_save|]. intros _. apply tidy_ret.
Qed.

(** The pass marks unmatched records, and does nothing else to the two
    tables, however it ends. *)
Lemma tidy_perform_transaction_matching lower is_word s :
  tidy (perform_transaction_matching lower is_word s
          task_ledger_records task_bank_records).
Proof.
  intros w [Hlk Hbk].
  destruct (perform_transaction_matching lower is_word s
              task_ledger_records task_bank_records w) as [o w'] eqn:Hrun.
  simpl snd.
  pose proof (pass_rule lower is_word s w o w'
    (fun rest _ d =>
       records_kept (db w) d
       /\ forall l, In l rest ->
            In l (db_ledger (db w)) /\ lr_is_matched l = false)
    (fun d => records_kept (db w) d) Hrun (records_kept_refl _)) as H.
  cbv beta in H.
  assert (Hend : match o with
                 | Return _ => exists sc : option float,
                     records_kept (db w) (db w')
                     /\ forall l, In l [] ->
                          In l (db_ledger (db w)) /\ lr_is_matched l = false
                 | Raise _ => records_kept (db w) (db w')
                 end).
  { apply H.
    - split; [apply records_kept_refl|].
      intros l Hl. apply unmatched_ledger_in. exact Hl.
    - clear H Hrun o w'.
      intros _ l rest acc w2 o2 w3 [[Hkl Hkb] Hrest] Hturn.
      destruct (Hrest l (or_introl eq_refl)) as [Hl Hlu].
      assert (Hgoal : records_kept (db w) (db w3)).
      { destruct (turn_tables lower is_word _ _ _ _ _ _ _ Hturn)
          as [(El & Eb & _)|(best & c & m & Hb & Hbu & _ & _ & _ & _ & _ & _
                              & _ & Hc)].
        - split; [rewrite El|rewrite Eb]; assumption.
        - destruct Hc as [(El & Eb & _)|[(El & Eb & _)|(El & Eb)]];
            (split; [rewrite El|rewrite Eb]); try assumption;
            try (apply save_marked_ledger; assumption).
          apply save_marked_bank; assumption. }
      destruct o2; [|exact Hgoal].
      split; [exact Hgoal|]. intros l' Hl'. apply Hrest. right. exact Hl'. }
  destruct o; [destruct Hend as (_ & Hk & _)|]; assumption.
Qed.

Lemma tidy_matching_steps lower is_word : tidy (matching_steps lower is_word).
Proof.
  unfold matching_steps.
  apply tidy_bind; [apply tidy_the_session|]. intros s.
  apply tidy_bind.
  { destruct (status s); try apply tidy_ret;
      (apply tidy_bind; [apply tidy_session_assign|intros _;
                         apply tidy_session_save]). }
  intros _. apply tidy_bind; [apply tidy_count|]. intros _.
  apply tidy_bind; [apply tidy_count|]. intros _.
  apply tidy_bind; [apply tidy_the_session|]. intros s'.
  apply tidy_bind; [apply tidy_perform_transaction_matching|]. intros ms.
  apply tidy_bind; [apply tidy_create_exception_records|]. intros _.
  apply tidy_bind; [apply tidy_update_session_statistics|]. intros _.
  apply tidy_bind; [apply tidy_get_world|]. intros w0.
  apply tidy_bind; [apply tidy_session_assign|]. intros _.
  apply tidy_bind; [apply tidy_session_assign|]. intros _.
  apply tidy_bind; [apply tidy_session_save|]. intros _.
  apply tidy_ret.
Qed.

Lemma tidy_start_reconciliation_matching lower is_word :
  tidy (start_reconciliation_matching lower is_word).
Proof.
  unfold start_reconciliation_matching.
  apply tidy_bind; [apply tidy_set_session|]. intros _.
  apply tidy_try_except.
  - apply tidy_bind; [apply tidy_ReconciliationSession_get|]. intros _.
    apply tidy_matching_steps.
  - intros e. destruct e; simpl; try apply tidy_on_exception. apply tidy_ret.
Qed.

(** X4.  A matching run never adds, deletes, reorders or
    rewrites a ledger or bank record, however it ends (completed, failed,
    session not found, or aborted by a failing statement): on tables whose
    keys are distinct, the two tables after [start_reconciliation_matching]
    hold the same records in the same order as before, each one either
    unchanged or, if it was unmatched, with [is_matched] set and a
    [match_confidence], all its other fields as they were. *)
Theorem matching_run_keeps_the_records lower is_word w :
  keys_distinct (db w) ->
  records_kept (db w)
    (db (snd (start_reconciliation_matching lower is_word w))).
Proof.
  intros Hkeys.
  exact (tidy_start_reconciliation_matching lower is_word w Hkeys).
Qed.

Lemma matching_run_keeps_the_records_witness :
  let w := Sample.two_pairs_world (Some 8%nat) in
  keys_distinct (db w)
  /\ records_kept (db w)
       (db (snd (start_reconciliation_matching ascii_lower ascii_word w))).
Proof.
  intros w.
  assert (H : keys_distinct (db w)) by (split; distinct_keys).
  split; [exact H|].
  exact (matching_run_keeps_the_records ascii_lower ascii_word w H).
Defined.

(** ** What a completed run leaves unmatched *)

Section Maximal.

Variable lower : str -> str.
Variable is_word : char -> bool.

Lemma marked_ledger_unmatched c l r :
  lr_is_matched r = false -> r <> ledger_mark_matched c l.
Proof. intros H ->. discriminate H. Qed.

Lemma marked_bank_unmatched c b r :
  br_is_matched r = false -> r <> bank_mark_matched c b.
Proof. intros H ->. discriminate H. Qed.

(** An unmatched row of a table after [save] of a marked record was in
    the table before. *)
Lemma unmatched_ledger_saved c l r rows :
  In r (save_rows lr_id (ledger_mark_matched c l) rows) ->
  lr_is_matched r = false ->
  In r rows /\ lr_id r <> lr_id l.
Proof.
  intros Hin Hu. apply save_rows_in in Hin.
  destruct Hin as [E|H]; [|exact H].
  exfalso. exact (marked_ledger_unmatched c l r Hu E).
Qed.

Lemma unmatched_bank_saved c b r rows :
  In r (save_rows br_id (bank_mark_matched c b) rows) ->
  br_is_matched r = false ->
  In r rows /\ br_id r <> br_id b.
Proof.
  intros Hin Hu. apply save_rows_in in Hin.
  destruct Hin as [E|H]; [|exact H].
  exfalso. exact (marked_bank_unmatched c b r Hu E).
Qed.

(** After a pass that returns, no two unmatched records are eligible
    together, and the unmatched records are records of the tables before
    the pass. *)
Lemma returned_pass_settled s w matches w' :
  perform_transaction_matching lower is_word s
    task_ledger_records task_bank_records w = (Return matches, w') ->
  no_eligible_pair lower is_word (date_tolerance_days s) (amount_tolerance s)
    (db w')
  /\ (forall l, In l (db_ledger (db w')) -> lr_is_matched l = false ->
        In l (db_ledger (db w)))
  /\ (forall b, In b (db_bank (db w')) -> br_is_matched b = false ->
        In b (db_bank (db w))).
Proof.
  intros Hrun.
  set (dt := date_tolerance_days s). set (at_ := amount_tolerance s).
  set (rows := task_ledger_records (db w)).
  pose proof (pass_rule lower is_word s w _ w'
    (fun rest _ d =>
       (exists proc, rows = proc ++ rest
          /\ forall l, In l proc -> In l (db_ledger d) ->
               forall b, In b (db_bank d) -> br_is_matched b = false ->
                 eligible lower is_word dt at_ l b = false)
       /\ (forall l, In l (db_ledger d) -> lr_is_matched l = false ->
             In l (db_ledger (db w)))
       /\ (forall b, In b (db_bank d) -> br_is_matched b = false ->
             In b (db_bank (db w))))
    (fun _ => True) Hrun I) as H.
  cbv beta in H.
  destruct H as (sc & (proc & Hrows & Hproc) & Hl & Hb).
  - split; [|auto]. exists []. split; [reflexivity|]. intros l [].
  - intros _ l rest acc w2 o2 w3 ((proc & Hrows & Hproc) & Hl & Hb) Hturn.
    destruct o2 as [acc'|e]; [|exact I].
    assert (Hlu : lr_is_matched l = false).
    { assert (Hin : In l rows)
        by (rewrite Hrows; apply in_or_app; right; left; reflexivity).
      apply unmatched_ledger_in in Hin. tauto. }
    destruct (turn_tables lower is_word _ _ _ _ _ _ _ Hturn)
      as [(El & Eb & _ & Hret)|(best & c & m & _ & _ & _ & _ & _ & _ & _ & _
                                 & _ & Hc)].
    + destruct (Hret acc' eq_refl) as [_ Hnone].
      rewrite El, Eb. split; [|auto].
      exists (proc ++ [l]). split; [rewrite <- app_assoc; exact Hrows|].
      intros l' Hl' Hin b Hbin Hbu. apply in_app_or in Hl'.
      destruct Hl' as [Hl'|[<-|[]]]; [eauto|]. apply Hnone; assumption.
    + destruct Hc as [(_ & _ & E)|[(_ & _ & E)|(El & Eb)]];
        try discriminate E.
      rewrite El, Eb. split; [|split].
      * exists (proc ++ [l]). split; [rewrite <- app_assoc; exact Hrows|].
        intros l' Hl' Hin b Hbin Hbu.
        apply unmatched_bank_saved in Hbin; [|exact Hbu].
        apply in_app_or in Hl'. destruct Hl' as [Hl'|[<-|[]]].
        -- assert (Hu' : lr_is_matched l' = false).
           { assert (Hr : In l' rows)
               by (rewrite Hrows; apply in_or_app; left; exact Hl').
             apply unmatched_ledger_in in Hr. tauto. }
           apply unmatched_ledger_saved in Hin; [|exact Hu'].
           apply (Hproc l' Hl'); tauto.
        -- apply unmatched_ledger_saved in Hin; [|exact Hlu].
           exfalso. apply (proj2 Hin). reflexivity.
      * intros r Hr Hu. apply unmatched_ledger_saved in Hr; [|exact Hu].
        apply Hl; tauto.
      * intros r Hr Hu. apply unmatched_bank_saved in Hr; [|exact Hu].
        apply Hb; tauto.
  - split; [|auto].
    intros l b Hlin Hlu Hbin Hbu.
    rewrite app_nil_r in Hrows. subst proc.
    apply (Hproc l); try assumption.
    apply unmatched_ledger_in. auto.
Qed.

(** The parts of a run that completes: the session is found, the pass runs
    on the tables as they were, with the tolerances of the session, and
    returns, and the rest of the run leaves the records and the matches
    as the pass left them. *)
Lemma completed_run w n w' :
  start_reconciliation_matching lower is_word w = (Return (MatchingDone n), w') ->
  exists s0 s w1 matches w2,
    db_session (db w) = Some s0 /\ same_settings s0 s
    /\ db_ledger (db w1) = db_ledger (db w)
    /\ db_bank (db w1) = db_bank (db w)
    /\ db_matches (db w1) = db_matches (db w)
    /\ perform_transaction_matching lower is_word s
         task_ledger_records task_bank_records w1 = (Return matches, w2)
    /\ n = Z.of_nat (List.length matches)
    /\ db_ledger (db w') = db_ledger (db w2)
    /\ db_bank (db w') = db_bank (db w2)
    /\ db_matches (db w') = db_matches (db w2).
Proof.
  intros Hrun.
  unfold start_reconciliation_matching in Hrun.
  apply bind_return in Hrun. destruct Hrun as ([] & wa & Ha & Hrun).
  assert (Hda : db wa = db w) by (inversion Ha; reflexivity). clear Ha.
  apply try_block_returned in Hrun; [|discriminate|discriminate].
  apply bind_return in Hrun. destruct Hrun as ([] & w1 & Hg & Hrun).
  apply ReconciliationSession_get_return in Hg.
  destruct Hg as (s0 & Es0 & Hs1 & Hd1 & Hn1).
  unfold matching_steps in Hrun.
  apply bind_return in Hrun. destruct Hrun as (s1 & w2 & Ht & Hrun).
  apply the_session_return in Ht. destruct Ht as [-> Es1'].
  apply bind_return in Hrun. destruct Hrun as ([] & w3 & Hst & Hrun).
  assert (H3 : exists s3, session w3 = Some s3 /\ same_settings s0 s3
                /\ db_ledger (db w3) = db_ledger (db w)
                /\ db_bank (db w3) = db_bank (db w)
                /\ db_matches (db w3) = db_matches (db w)).
  { assert (s1 = s0) by congruence. subst s1.
    destruct (status s0).
    2: { inversion Hst; subst w3. exists s0.
         unfold same_settings. repeat split; congruence. }
    all: apply bind_return in Hst; destruct Hst as ([] & wb & Hx & Hst);
      apply session_assign_return in Hx; destruct Hx as (sx & Ex & Hsx & Hdx & _);
      apply session_save_return in Hst; destruct Hst as (sy & Ey & Hsy & Hdy & _);
      exists sy; assert (sy = with_status Processing s0) by congruence; subst sy;
      (split; [exact Hsy|]); rewrite Hdy; simpl;
      unfold same_settings; simpl; repeat split; congruence. }
  destruct H3 as (s3 & Es3 & Hset & Hl3 & Hb3 & Hm3).
  apply bind_return in Hrun. destruct Hrun as (c1 & w4 & Hc & Hrun).
  apply count_return in Hc. destruct Hc as (_ & Hd4 & Hs4 & _).
  apply bind_return in Hrun. destruct Hrun as (c2 & w5 & Hc & Hrun).
  apply count_return in Hc. destruct Hc as (_ & Hd5 & Hs5 & _).
  apply bind_return in Hrun. destruct Hrun as (s5 & w6 & Ht & Hrun).
  apply the_session_return in Ht. destruct Ht as [-> Es5].
  assert (s5 = s3) by congruence. subst s5.
  apply bind_return in Hrun. destruct Hrun as (matches & w7 & Hp & Hrun).
  apply bind_return in Hrun. destruct Hrun as ([] & w8 & He & Hrun).
  apply create_exception_records_return in He.
  destruct He as (_ & _ & Hl8 & Hb8 & Hm8 & Hs8 & _).
  apply bind_return in Hrun. destruct Hrun as ([] & w9 & Hu & Hrun).
  apply update_session_statistics_return in Hu.
  destruct Hu as (s8 & Es8 & Hu). cbv zeta in Hu. destruct Hu as (Hs9 & Hd9 & _).
  apply bind_return in Hrun. destruct Hrun as (wx & w10 & Hg & Hrun).
  inversion Hg; subst wx w10. clear Hg.
  apply bind_return in Hrun. destruct Hrun as ([] & w11 & Ha & Hrun).
  apply session_assign_return in Ha. destruct Ha as (sa & Esa & Hs11 & Hd11 & _).
  apply bind_return in Hrun. destruct Hrun as ([] & w12 & Ha & Hrun).
  apply session_assign_return in Ha. destruct Ha as (sb & Esb & Hs12 & Hd12 & _).
  apply bind_return in Hrun. destruct Hrun as ([] & w13 & Hsv & Hrun).
  apply session_save_return in Hsv. destruct Hsv as (sc' & Esc & _ & Hd13 & _).
  inversion Hrun; subst w' n. clear Hrun.
  exists s0, s3, w5, matches, w7.
  split; [congruence|]. split; [exact Hset|].
  split; [congruence|]. split; [congruence|]. split; [congruence|].
  split; [exact Hp|]. split; [reflexivity|].
  rewrite Hd13, Hd12, Hd11, Hd9. simpl. auto.
Qed.

(** A run that completes leaves no eligible pair. *)
Lemma completed_run_settled w n s :
  db_session (db w) = Some s ->
  fst (start_reconciliation_matching lower is_word w) = Return (MatchingDone n) ->
  no_eligible_pair lower is_word (date_tolerance_days s) (amount_tolerance s)
    (db (snd (start_reconciliation_matching lower is_word w))).
Proof.
  intros Hs.
  destruct (start_reconciliation_matching lower is_word w) as [o w'] eqn:Hrun.
  simpl. intros ->.
  destruct (completed_run w n w' Hrun)
    as (s0 & s1 & w1 & matches & w2 & Es0 & (_ & _ & Hdt & Hat) & _ & _ & _
        & Hp & _ & El & Eb & _).
  assert (s0 = s) by congruence. subst s0.
  destruct (returned_pass_settled s1 w1 matches w2 Hp) as (Hmax & _).
  rewrite Hdt, Hat in Hmax.
  intros l b. unfold no_eligible_pair in Hmax. rewrite El, Eb. apply Hmax.
Qed.

(** X5.  A run that completes leaves nothing it could still
    match: among the records of the session after the run, no unmatched
    ledger record and unmatched bank record score 0.70 or more against
    each other under the tolerances of the session. *)
Theorem completed_run_is_maximal w n s :
  db_session (db w) = Some s ->
  fst (start_reconciliation_matching lower is_word w) = Return (MatchingDone n) ->
  no_eligible_pair lower is_word (date_tolerance_days s) (amount_tolerance s)
    (db (snd (start_reconciliation_matching lower is_word w))).
Proof.
  exact (completed_run_settled w n s).
Qed.

(** X6.  After a run that completes, no unmatched
    ledger record and unmatched bank record of the session have the same
    date and the same amount: one of two such records is always matched,
    to the other or to a third record. *)
Theorem equal_date_and_amount_not_both_unmatched w n l b :
  descriptions_bounded lower is_word (db w) ->
  fst (start_reconciliation_matching lower is_word w) = Return (MatchingDone n) ->
  let d' := db (snd (start_reconciliation_matching lower is_word w)) in
  In l (db_ledger d') -> In b (db_bank d') ->
  lr_date l = br_date b -> lr_amount l = br_amount b ->
  lr_is_matched l = true \/ br_is_matched b = true.
Proof.
  intros [Hwl Hwb].
  destruct (start_reconciliation_matching lower is_word w) as [o w'] eqn:Hrun.
  simpl. intros -> Hl Hb Hd Ha.
  destruct (completed_run w n w' Hrun)
    as (s0 & s1 & w1 & matches & w2 & Es0 & _ & El1 & Eb1 & _
        & Hp & _ & El & Eb & _).
  destruct (returned_pass_settled s1 w1 matches w2 Hp) as (Hmax & Hlo & Hbo).
  destruct (lr_is_matched l) eqn:Hlu; [left; reflexivity|].
  destruct (br_is_matched b) eqn:Hbu; [right; reflexivity|].
  exfalso. rewrite El in Hl. rewrite Eb in Hb.
  pose proof (Hmax l b Hl Hlu Hb Hbu) as Hno.
  unfold eligible in Hno.
  rewrite score_of_same_date_and_amount in Hno; try assumption;
    [discriminate| |].
  - apply Hwl. rewrite <- El1. apply Hlo; assumption.
  - apply Hwb. rewrite <- Eb1. apply Hbo; assumption.
Qed.

End Maximal.

Lemma completed_run_is_maximal_witness :
  let w := Sample.unrelated_world in
  let s := Sample.parsed_session 0 0 1 1 in
  db_session (db w) = Some s
  /\ fst (start_reconciliation_matching ascii_lower ascii_word w)
     = Return (MatchingDone 0)
  /\ no_eligible_pair ascii_lower ascii_word 0 0
       (db (snd (start_reconciliation_matching ascii_lower ascii_word w))).
Proof.
  intros w s.
  assert (H1 : db_session (db w) = Some s) by reflexivity.
  assert (H2 : fst (start_reconciliation_matching ascii_lower ascii_word w)
               = Return (MatchingDone 0)) by (vm_compute; reflexivity).
  split; [exact H1|]. split; [exact H2|].
  exact (completed_run_is_maximal ascii_lower ascii_word w 0 s H1 H2).
Defined.

Lemma equal_date_and_amount_not_both_unmatched_witness :
  let w := Sample.two_pairs_world None in
  let d' := db (snd (start_reconciliation_matching ascii_lower ascii_word w)) in
  let l := hd (Sample.ledger 1%positive 0 "none" 0 0) (db_ledger d') in
  let b := hd (Sample.bank 1%positive 0 "none" 0 0) (db_bank d') in
  descriptions_bounded ascii_lower ascii_word (db w)
  /\ fst (start_reconciliation_matching ascii_lower ascii_word w)
     = Return (MatchingDone 2)
  /\ In l (db_ledger d') /\ In b (db_bank d')
  /\ lr_date l = br_date b /\ lr_amount l = br_amount b
  /\ (lr_is_matched l = true \/ br_is_matched b = true).
Proof.
  intros w d' l b.
  assert (H1 : descriptions_bounded ascii_lower ascii_word (db w)).
  { split.
    - intros r [<-|[<-|[]]]; vm_compute; reflexivity.
    - intros r [<-|[<-|[]]]; vm_compute; reflexivity. }
  assert (H2 : fst (start_reconciliation_matching ascii_lower ascii_word w)
               = Return (MatchingDone 2)) by (vm_compute; reflexivity).
  assert (H3 : In l (db_ledger d')) by (vm_compute; left; reflexivity).
  assert (H4 : In b (db_bank d')) by (vm_compute; left; reflexivity).
  assert (H5 : lr_date l = br_date b) by (vm_compute; reflexivity).
  assert (H6 : lr_amount l = br_amount b) by (vm_compute; reflexivity).
  repeat (split; [assumption|]).
  exact (equal_date_and_amount_not_both_unmatched ascii_lower ascii_word
           w 2 l b H1 H2 H3 H4 H5 H6).
Defined.

(** ** The amounts of the matches *)

(** X7.  The engine never pairs records whose amounts
    differ by more than the amount tolerance of the session: every match a
    pass adds, whatever way the pass ends, has an [amount_difference]
    within the tolerance (the tolerance being non-negative), however close
    the dates and the descriptions are. *)
Theorem matches_within_amount_tolerance lower is_word s w :
  0 <= amount_tolerance s ->
  descriptions_bounded lower is_word (db w) ->
  let pass := perform_transaction_matching lower is_word s
                task_ledger_records task_bank_records in
  exists new,
    db_matches (db (snd (pass w))) = db_matches (db w) ++ new
    /\ Forall (fun m => amount_difference m <= amount_tolerance s) new
    /\ (forall matches, fst (pass w) = Return matches -> matches = new).
Proof.
  intros Hat [Hwl Hwb] pass.
  destruct (pass w) as [o w'] eqn:Hrun. simpl fst; simpl snd.
  set (P := fun m => amount_difference m <= amount_tolerance s).
  pose proof (pass_rule lower is_word s w o w'
    (fun rest acc d =>
       db_matches d = db_matches (db w) ++ fst acc
       /\ Forall P (fst acc)
       /\ (forall l, In l rest -> In l (db_ledger (db w)))
       /\ (forall b, In b (db_bank d) ->
             Z.of_nat (List.length
                         (word_set lower is_word (br_description b)))
             < 2 ^ 52))
    (fun d => exists new,
       db_matches d = db_matches (db w) ++ new /\ Forall P new) Hrun) as H.
  cbv beta in H.
  assert (Hend : match o with
                 | Return matches => exists sc : option float,
                     db_matches (db w') = db_matches (db w) ++ fst (matches, sc)
                     /\ Forall P (fst (matches, sc))
                     /\ (forall l, In l [] -> In l (db_ledger (db w)))
                     /\ (forall b, In b (db_bank (db w')) ->
                           Z.of_nat (List.length
                                       (word_set lower is_word
                                          (br_description b))) < 2 ^ 52)
                 | Raise _ => exists new,
                     db_matches (db w') = db_matches (db w) ++ new
                     /\ Forall P new
                 end).
  { apply H; clear H.
    - exists []. rewrite app_nil_r. split; [reflexivity|constructor].
    - simpl. rewrite app_nil_r. split; [reflexivity|].
      split; [constructor|]. split; [|exact Hwb].
      intros l Hl. apply unmatched_ledger_in in Hl. tauto.
    - intros Hdt l rest acc w2 o2 w3 (Hm & HP & Hrest & Hb) Hturn.
      destruct (turn_tables lower is_word _ _ _ _ _ _ _ Hturn)
        as [(El & Eb & Em & Hret)|(best & c & m & Hbin & _ & Hel & _ & _
                                    & Had & _ & Em & Hret & Hc)].
      + destruct o2 as [acc'|e].
        * destruct (Hret acc' eq_refl) as [-> _]. rewrite Em, Eb.
          split; [exact Hm|]. split; [exact HP|]. split; [|exact Hb].
          intros l' Hl'. apply Hrest. right. exact Hl'.
        * exists (fst acc). rewrite Em. auto.
      + assert (HPm : P m).
        { unfold P. rewrite Had.
          destruct (Z.le_gt_cases
                      (Z.abs (lr_amount l - br_amount best))
                      (amount_tolerance s)) as [Hle|Hgt]; [exact Hle|].
          exfalso. unfold eligible in Hel.
          rewrite score_outside_amount_tolerance in Hel;
            [discriminate|lia| | |lia].
          - apply Hwl. apply Hrest. left. reflexivity.
          - apply Hb. exact Hbin. }
        assert (HP' : Forall P (fst acc ++ [m])).
        { apply Forall_app. split; [exact HP|]. constructor; [exact HPm|constructor]. }
        assert (Hm' : db_matches (db w3) = db_matches (db w) ++ fst acc ++ [m]).
        { rewrite Em, Hm, app_assoc. reflexivity. }
        destruct o2 as [acc'|e].
        * rewrite (Hret acc' eq_refl).
          split; [exact Hm'|]. split; [exact HP'|].
          split; [intros l' Hl'; apply Hrest; right; exact Hl'|].
          destruct Hc as [(_ & _ & E)|[(_ & _ & E)|(_ & Eb)]];
            try discriminate E.
          rewrite Eb. intros b' Hb'. apply save_rows_in in Hb'.
          destruct Hb' as [->|[Hb' _]]; [|apply Hb; exact Hb'].
          simpl. apply Hb. exact Hbin.
        * exists (fst acc ++ [m]). auto. }
  destruct o as [matches|e].
  - destruct Hend as (sc & Hm & HP & _). simpl in Hm, HP.
    exists matches. split; [exact Hm|]. split; [exact HP|].
    intros ms E. inversion E. reflexivity.
  - destruct Hend as (new & Hm & HP). exists new.
    split; [exact Hm|]. split; [exact HP|]. intros ms E. discriminate E.
Qed.

Lemma matches_within_amount_tolerance_witness :
  let w := Sample.two_pairs_world (Some 8%nat) in
  let s := Sample.parsed_session 0 0 2 2 in
  let pass := perform_transaction_matching ascii_lower ascii_word s
                task_ledger_records task_bank_records in
  0 <= amount_tolerance s
  /\ descriptions_bounded ascii_lower ascii_word (db w)
  /\ exists new,
       db_matches (db (snd (pass w))) = db_matches (db w) ++ new
       /\ Forall (fun m => amount_difference m <= amount_tolerance s) new.
Proof.
  intros w s pass.
  assert (H0 : 0 <= amount_tolerance s) by (simpl; lia).
  assert (H1 : descriptions_bounded ascii_lower ascii_word (db w)).
  { split.
    - intros r [<-|[<-|[]]]; vm_compute; reflexivity.
    - intros r [<-|[<-|[]]]; vm_compute; reflexivity. }
  split; [exact H0|]. split; [exact H1|].
  destruct (matches_within_amount_tolerance ascii_lower ascii_word s w H0 H1)
    as (new & Hm & HP & _).
  exists new. split; [exact Hm|exact HP].
Defined.

(** ** Runs in which no statement fails *)

Lemma completes_ret {A} (a : A) : completes (ret a).
Proof. intros w Hf Hr. exists a, w. auto. Qed.

Lemma completes_bind {A B} (m : M A) (k : A -> M B) :
  completes m -> (forall a, completes (k a)) -> completes (bind m k).
Proof.
  intros Hm Hk w Hf Hr.
  destruct (Hm w Hf Hr) as (a & w1 & E & Hf1 & Hr1).
  destruct (Hk a w1 Hf1 Hr1) as (b & w2 & E2 & Hf2 & Hr2).
  exists b, w2. rewrite (bind_returned _ _ _ _ _ E). auto.
Qed.

Lemma completes_for_each {A S} (body : S -> A -> M S) l :
  (forall s x, completes (body s x)) -> forall s, completes (for_each l body s).
Proof.
  intros Hb. induction l as [|x l IH]; intros s; simpl.
  - apply completes_ret.
  - apply completes_bind; [apply Hb|exact IH].
Qed.

Lemma completes_statement : completes statement.
Proof.
  intros w Hf Hr. exists tt, w. rewrite (statement_no_fault w Hf). auto.
Qed.

Lemma completes_get_world : completes get_world.
Proof. intros w Hf Hr. exists w, w. auto. Qed.

Lemma completes_uuid4 : completes uuid4.
Proof. intros w Hf Hr. eexists. eexists. split; [reflexivity|]. auto. Qed.

Lemma completes_fetch {A} (qs : QuerySet A) : completes (fetch qs).
Proof.
  unfold fetch. apply completes_bind; [apply completes_statement|]. intros _.
  apply completes_bind; [apply completes_get_world|]. intros w.
  apply completes_ret.
Qed.

Lemma completes_count {A} (qs : QuerySet A) : completes (count qs).
Proof.
  unfold count. apply completes_bind; [apply completes_statement|]. intros _.
  apply completes_bind; [apply completes_get_world|]. intros w.
  apply completes_ret.
Qed.

Lemma completes_write f : completes (write f).
Proof.
  intros w Hf Hr. exists tt, (with_db (f (db w)) w).
  rewrite (write_no_fault f w Hf). auto.
Qed.

Lemma completes_the_session : completes the_session.
Proof.
  intros w Hf Hr. pose proof Hr as (s & Es & _).
  exists s, w. unfold the_session, bind, get_world. rewrite Es. auto.
Qed.

(** An assignment that leaves the date tolerance alone. *)
Lemma completes_session_assign f :
  (forall s, date_tolerance_days (f s) = date_tolerance_days s) ->
  completes (session_assign f).
Proof.
  intros Hfs w Hf (s & Es & Hdt).
  eexists. eexists.
  unfold session_assign, the_session, bind, get_world, set_session.
  rewrite Es. split; [reflexivity|]. split; [exact Hf|].
  exists (f s). simpl. rewrite Hfs. auto.
Qed.

Lemma completes_session_save : completes session_save.
Proof.
  unfold session_save. apply completes_bind; [apply completes_the_session|].
  intros s. apply completes_write.
Qed.

(** A turn: [score] is bound whenever a record was selected. *)
Lemma completes_match_ledger_record lower is_word dt at_ qs acc l :
  completes (match_ledger_record lower is_word dt at_ qs acc l).
Proof.
  intros w Hf Hr.
  rewrite (match_ledger_record_no_fault lower is_word dt at_ qs acc l w Hf).
  cbv zeta.
  set (st := scan_candidates lower is_word l dt at_ (snd acc)
               (qs_filter bank_unmatched qs (db w))).
  destruct (best_match st) as [best|] eqn:Eb.
  - destruct (scan_candidates_best lower is_word l dt at_ (snd acc) _ best Eb)
      as (_ & _ & _ & sc & Es).
    fold st in Es. rewrite Es.
    eexists. eexists. split; [reflexivity|]. auto.
  - eexists. eexists. split; [reflexivity|]. auto.
Qed.

(** What follows a read of [session] may rely on its date tolerance. *)
Lemma completes_with_session {B} (k : ReconciliationSession -> M B) :
  (forall s, Z.abs (date_tolerance_days s) <= 999999999 -> completes (k s)) ->
  completes (bind the_session k).
Proof.
  intros Hk w Hf Hr. pose proof Hr as (s & Es & Hdt).
  unfold the_session, bind, get_world. rewrite Es. exact (Hk s Hdt w Hf Hr).
Qed.

Lemma completes_perform_transaction_matching lower is_word s lq bq :
  Z.abs (date_tolerance_days s) <= 999999999 ->
  completes (perform_transaction_matching lower is_word s lq bq).
Proof.
  intros Hdt. unfold perform_transaction_matching, timedelta_days.
  apply Z.leb_le in Hdt. rewrite Hdt.
  apply completes_bind; [apply completes_ret|]. intros n.
  apply completes_bind; [apply completes_fetch|]. intros rows.
  apply completes_bind; [|intros; apply completes_ret].
  apply completes_for_each. intros acc l. apply completes_match_ledger_record.
Qed.

Lemma completes_create_exception_records : completes create_exception_records.
Proof.
  assert (H : forall A (mk : A -> key -> ReconciliationException) rows,
            completes (for_each rows
                         (fun _ record =>
                            ReconciliationException_create (mk record)) tt)).
  { intros A mk rows. apply completes_for_each. intros [] r.
    unfold ReconciliationException_create.
    apply completes_bind; [apply completes_uuid4|]. intros k.
    apply completes_write. }
  unfold create_exception_records.
  apply completes_bind; [apply completes_fetch|]. intros ul.
  apply completes_bind; [apply H|]. intros _.
  apply completes_bind; [apply completes_fetch|]. intros ub. apply H.
Qed.

Lemma completes_update_session_statistics :
  completes update_session_statistics.
Proof.
  unfold update_session_statistics.
  repeat (apply completes_bind;
          [first [apply completes_count
                 |apply completes_session_assign; reflexivity]|intros ?]).
  apply completes_session_save.
Qed.

Lemma completes_matching_steps lower is_word :
  completes (matching_steps lower is_word).
Proof.
  unfold matching_steps.
  apply completes_with_session. intros s _.
  apply completes_bind.
  { destruct (status s); try apply completes_ret;
      (apply completes_bind;
       [apply completes_session_assign; reflexivity
       |intros _; apply completes_session_save]). }
  intros _. apply completes_bind; [apply completes_count|]. intros _.
  apply completes_bind; [apply completes_count|]. intros _.
  apply completes_with_session. intros s' Hdt.
  apply completes_bind;
    [apply completes_perform_transaction_matching; exact Hdt|]. intros ms.
  apply completes_bind; [apply completes_create_exception_records|]. intros _.
  apply completes_bind; [apply completes_update_session_statistics|]. intros _.
  apply completes_bind; [apply completes_get_world|]. intros w0.
  apply completes_bind; [apply completes_session_assign; reflexivity|].
  intros _.
  apply completes_bind; [apply completes_session_assign; reflexivity|].
  intros _.
  apply completes_bind; [apply completes_session_save|]. intros _.
  apply completes_ret.
Qed.

(** X8.  A run on a session that exists and whose date
    tolerance is within the range of [timedelta] (at most 999999999 days
    either way) completes whenever no database statement fails: it returns
    the success result and the session is saved as [completed].  The code
    of the pass raises nothing of its own; in particular [score] is bound
    whenever a record was selected. *)
Theorem undisturbed_run_completes lower is_word w s :
  fault_at w = None ->
  db_session (db w) = Some s ->
  Z.abs (date_tolerance_days s) <= 999999999 ->
  exists n s',
    fst (start_reconciliation_matching lower is_word w)
    = Return (MatchingDone n)
    /\ db_session (db (snd (start_reconciliation_matching lower is_word w)))
       = Some s'
    /\ status s' = Completed.
Proof.
  intros Hf Hs Hdt.
  set (wa := {| db := db w; session := None; next_key := next_key w;
                now := now w; fault_at := fault_at w |}).
  set (w1 := {| db := db w; session := Some s; next_key := next_key w;
                now := now w; fault_at := fault_at w |}).
  assert (Hget : ReconciliationSession_get wa = (Return tt, w1)).
  { unfold ReconciliationSession_get, bind.
    rewrite (statement_no_fault wa Hf). unfold get_world. simpl.
    rewrite Hs. reflexivity. }
  destruct (completes_matching_steps lower is_word w1)
    as (r & w' & Hrun & _ & _); [exact Hf|exists s; auto|].
  destruct (matching_steps_return lower is_word _ r w' Hrun)
    as (n & s' & -> & Hs' & Hst).
  assert (E : start_reconciliation_matching lower is_word w
              = (Return (MatchingDone n), w')).
  { unfold start_reconciliation_matching, try_except, set_session.
    unfold bind at 1. fold wa.
    rewrite (bind_returned _ _ _ _ _ Hget), Hrun. reflexivity. }
  rewrite E. exists n, s'. auto.
Qed.

Lemma undisturbed_run_completes_witness :
  let w := Sample.row_order_world in
  let s := Sample.parsed_session 3 0 2 1 in
  fault_at w = None /\ db_session (db w) = Some s
  /\ Z.abs (date_tolerance_days s) <= 999999999
  /\ exists n s',
       fst (start_reconciliation_matching ascii_lower ascii_word w)
       = Return (MatchingDone n)
       /\ db_session
            (db (snd (start_reconciliation_matching ascii_lower ascii_word w)))
          = Some s'
       /\ status s' = Completed.
Proof.
  intros w s.
  assert (H1 : fault_at w = None) by reflexivity.
  assert (H2 : db_session (db w) = Some s) by reflexivity.
  assert (H3 : Z.abs (date_tolerance_days s) <= 999999999) by (simpl; lia).
  repeat (split; [assumption|]).
  exact (undisturbed_run_completes ascii_lower ascii_word w s H1 H2 H3).
Defined.

(** ** Runs that cannot start *)

(** X9.  A session whose date tolerance is beyond the range of
    [timedelta] (more than 999999999 days either way) cannot be matched:
    when no statement fails, the run returns the error result and saves the
    session as [failed] before any record is looked at, so that the
    records, the matches and the exceptions are as they were. *)
Theorem date_tolerance_out_of_range_fails lower is_word w s :
  fault_at w = None ->
  db_session (db w) = Some s ->
  999999999 < Z.abs (date_tolerance_days s) ->
  let r := start_reconciliation_matching lower is_word w in
  fst r = Return Error
  /\ (exists s', db_session (db (snd r)) = Some s' /\ status s' = Failed)
  /\ db_ledger (db (snd r)) = db_ledger (db w)
  /\ db_bank (db (snd r)) = db_bank (db w)
  /\ db_matches (db (snd r)) = db_matches (db w)
  /\ db_exceptions (db (snd r)) = db_exceptions (db w).
Proof.
  intros Hf Hs Hdt.
  assert (E : (Z.abs (date_tolerance_days s) <=? 999999999) = false)
    by (apply Z.leb_gt; exact Hdt).
  destruct w as [d se k t f]. simpl in Hf, Hs. subst f.
  destruct d as [ds dl dbk dm de]. simpl in Hs. subst ds.
  unfold start_reconciliation_matching, matching_steps,
    perform_transaction_matching, timedelta_days.
  destruct s as [st dt at_ tl tb mr ul ub pa]. simpl in E.
  destruct st;
    cbv [bind try_except set_session ReconciliationSession_get statement
         get_world the_session session_assign session_save write set_db
         count ret raise except_clauses on_exception fst snd
         db session fault_at next_key now with_status status
         date_tolerance_days db_save_session db_session db_ledger db_bank
         db_matches db_exceptions]; rewrite E.
  all: cbv [bind try_except set_session ReconciliationSession_get statement
         get_world the_session session_assign session_save write set_db
         count ret raise except_clauses on_exception fst snd
         db session fault_at next_key now with_status status
         date_tolerance_days db_save_session db_session db_ledger db_bank
         db_matches db_exceptions].
  all: split; [reflexivity|]; split; [eexists; split; reflexivity|];
    repeat split.
Qed.

Lemma date_tolerance_out_of_range_fails_witness :
  let s := Sample.parsed_session 1000000000 0 2 2 in
  let w := Sample.world s
             [Sample.ledger 1%positive 738010 "rent" 5000 1]
             [Sample.bank 11%positive 738010 "rent" 5000 1] None in
  let r := start_reconciliation_matching ascii_lower ascii_word w in
  fault_at w = None /\ db_session (db w) = Some s
  /\ 999999999 < Z.abs (date_tolerance_days s)
  /\ fst r = Return Error
  /\ (exists s', db_session (db (snd r)) = Some s' /\ status s' = Failed)
  /\ db_ledger (db (snd r)) = db_ledger (db w)
  /\ db_bank (db (snd r)) = db_bank (db w)
  /\ db_matches (db (snd r)) = db_matches (db w)
  /\ db_exceptions (db (snd r)) = db_exceptions (db w).
Proof.
  intros s w r.
  assert (H1 : fault_at w = None) by reflexivity.
  assert (H2 : db_session (db w) = Some s) by reflexivity.
  assert (H3 : 999999999 < Z.abs (date_tolerance_days s)) by (simpl; lia).
  repeat (split; [assumption|]).
  exact (date_tolerance_out_of_range_fails ascii_lower ascii_word w s H1 H2 H3).
Defined.

(** X10.  When the session does not exist, the task returns the
    not-found error and touches nothing: no row is written and no status is
    set (the lookup being the only statement sent to the database, which
    is assumed not to fail). *)
Theorem missing_session_changes_nothing lower is_word w :
  db_session (db w) = None ->
  fault_at w <> Some 0%nat ->
  let r := start_reconciliation_matching lower is_word w in
  fst r = Return ErrorNotFound /\ db (snd r) = db w.
Proof.
  intros Hs Hf.
  destruct w as [d se k t f]. simpl in Hs, Hf.
  unfold start_reconciliation_matching.
  cbv [bind try_except set_session ReconciliationSession_get statement
       get_world ret raise except_clauses fst snd db session fault_at
       next_key now].
  destruct f as [[|n]|]; [congruence| |]; rewrite Hs; split; reflexivity.
Qed.

Lemma missing_session_changes_nothing_witness :
  let w := {| db := {| db_session := None; db_ledger := []; db_bank := [];
                       db_matches := []; db_exceptions := [] |};
              session := None; next_key := 1%positive; now := 0%nat;
              fault_at := Some 3%nat |} in
  let r := start_reconciliation_matching ascii_lower ascii_word w in
  db_session (db w) = None /\ fault_at w <> Some 0%nat
  /\ fst r = Return ErrorNotFound /\ db (snd r) = db w.
Proof.
  intros w r.
  assert (H1 : db_session (db w) = None) by reflexivity.
  assert (H2 : fault_at w <> Some 0%nat) by (simpl; discriminate).
  repeat (split; [assumption|]).
  exact (missing_session_changes_nothing ascii_lower ascii_word w H1 H2).
Defined.

(** ** The record a turn selects *)

Lemma leb_false_value x y :
  sf_finite_nonneg (Prim2SF x) = true -> sf_finite_nonneg (Prim2SF y) = true ->
  (x <=? y)%float = false -> (SF2R (Prim2SF y) < SF2R (Prim2SF x))%R.
Proof.
  intros Hx Hy. rewrite FloatAxioms.leb_spec. unfold SFleb.
  pose proof (SFcompare_value _ _ (Prim2SF_valid x) (Prim2SF_valid y) Hx Hy) as H.
  destruct (SFcompare (Prim2SF x) (Prim2SF y)) as [[]|];
    try discriminate; intros _; try lra; destruct H.
Qed.

Lemma py_min_finite s :
  sf_nonneg (Prim2SF s) = true ->
  sf_finite_nonneg (Prim2SF (py_min s 1)) = true.
Proof.
  intros Hs. unfold py_min. destruct (1 <? s)%float eqn:E; [reflexivity|].
  rewrite FloatAxioms.ltb_spec in E. change (Prim2SF 1) with sf_one in E.
  destruct (Prim2SF s) as [[]|[]| |[] m e]; try discriminate; reflexivity.
Qed.

Section Selection.

Variable lower : str -> str.
Variable is_word : char -> bool.
Variable l : LedgerRecord.
Variables dt at_ : Z.
Hypothesis Hdt : dt <= 999999999.
Hypothesis Hat : at_ < 10 ^ 10.
Hypothesis Hl :
  Z.of_nat (List.length (word_set lower is_word (lr_description l))) < 2 ^ 52.

Let calc (b : BankRecord) : float :=
  calculate_match_score lower is_word l b dt at_.
Let value (x : float) : R := SF2R (Prim2SF x).

(** A score is a finite float, and not negative. *)
Lemma score_finite b :
  Z.of_nat (List.length (word_set lower is_word (br_description b))) < 2 ^ 52 ->
  sf_finite_nonneg (Prim2SF (calc b)) = true.
Proof.
  intros Hb. unfold calc.
  destruct (date_component_le (Z.abs (lr_date l - br_date b)) dt
              ltac:(lia) Hdt) as [Hfd _].
  rewrite calculate_match_score_weighted
    by (apply sf_finite_nonneg_nonneg; exact Hfd).
  unfold weighted_score. apply py_min_finite.
  apply add_nonneg; [apply add_nonneg|].
  - apply sf_finite_nonneg_nonneg. exact Hfd.
  - apply amount_component_nonneg; [lia|exact Hat].
  - apply description_component_nonneg; assumption.
Qed.

Lemma fold_consider_best cands : forall seen st,
  (forall b, In b cands ->
     Z.of_nat (List.length (word_set lower is_word (br_description b)))
     < 2 ^ 52) ->
  (forall b, In b seen -> sf_finite_nonneg (Prim2SF (calc b)) = true) ->
  match best_match st with
  | None =>
      best_score st = 0%float
      /\ forall b, In b seen -> (0.7 <=? calc b)%float = false
  | Some b0 =>
      best_score st = calc b0 /\ (0.7 <=? calc b0)%float = true
      /\ exists pre post,
           seen = pre ++ b0 :: post
           /\ (forall b, In b pre -> (value (calc b) < value (calc b0))%R)
           /\ (forall b, In b post -> (value (calc b) <= value (calc b0))%R)
  end ->
  forall best,
    best_match (fold_left (consider lower is_word l dt at_) cands st)
    = Some best ->
    exists pre post,
      seen ++ cands = pre ++ best :: post
      /\ (forall b, In b pre -> (value (calc b) < value (calc best))%R)
      /\ (forall b, In b post -> (value (calc b) <= value (calc best))%R).
Proof.
  induction cands as [|c cands IH]; intros seen st Hw Hfin Hinv best Hbest.
  - simpl in Hbest. rewrite Hbest in Hinv. rewrite app_nil_r.
    destruct Hinv as (_ & _ & H). exact H.
  - simpl in Hbest.
    replace (seen ++ c :: cands) with ((seen ++ [c]) ++ cands)
      by (rewrite <- app_assoc; reflexivity).
    assert (Hc : sf_finite_nonneg (Prim2SF (calc c)) = true)
      by (apply score_finite; apply Hw; left; reflexivity).
    assert (H7 : sf_finite_nonneg (Prim2SF 0.7) = true) by reflexivity.
    apply (IH (seen ++ [c]) (consider lower is_word l dt at_ st c));
      try assumption.
    + intros b Hb. apply Hw. right. exact Hb.
    + intros b Hb. apply in_app_or in Hb.
      destruct Hb as [Hb|[<-|[]]]; [apply Hfin; exact Hb|exact Hc].
    + unfold consider. fold (calc c).
      destruct ((best_score st <? calc c) && (0.7 <=? calc c))%float eqn:E;
        cbn [best_match best_score].
      * apply andb_prop in E. destruct E as [E1 E2].
        split; [reflexivity|]. split; [exact E2|].
        exists seen, []. split; [reflexivity|]. split; [|intros b []].
        intros b Hb. pose proof (Hfin b Hb) as Hfb.
        destruct (best_match st) as [b0|].
        -- destruct Hinv as (Es & Ht & pre & post & -> & Hpre & Hpost).
           rewrite Es in E1.
           assert (Hf0 : sf_finite_nonneg (Prim2SF (calc b0)) = true)
             by (apply Hfin; apply in_or_app; right; left; reflexivity).
           apply ltb_value in E1; [|exact Hf0|exact Hc]. 
           apply in_app_or in Hb. destruct Hb as [Hb|[<-|Hb]].
           ++ pose proof (Hpre b Hb). unfold value in *. lra.
           ++ unfold value. exact E1.
           ++ pose proof (Hpost b Hb). unfold value in *. lra.
        -- destruct Hinv as (_ & Hlow).
           pose proof (leb_false_value _ _ H7 Hfb (Hlow b Hb)) as H1.
           pose proof (leb_value _ _ H7 Hc E2) as H2.
           unfold value in *. lra.
      * destruct (best_match st) as [b0|].
        -- destruct Hinv as (Es & Ht & pre & post & -> & Hpre & Hpost).
           split; [exact Es|]. split; [exact Ht|].
           exists pre, (post ++ [c]).
           split; [rewrite <- app_assoc; reflexivity|].
           split; [exact Hpre|].
           intros b Hb. apply in_app_or in Hb.
           destruct Hb as [Hb|[<-|[]]]; [apply Hpost; exact Hb|].
           assert (Hf0 : sf_finite_nonneg (Prim2SF (calc b0)) = true)
             by (apply Hfin; apply in_or_app; right; left; reflexivity).
           apply andb_false_iff in E. destruct E as [E|E].
           ++ rewrite Es in E.
              unfold value. exact (ltb_false_value _ _ Hf0 Hc E).
           ++ pose proof (leb_false_value _ _ H7 Hc E) as H1.
              pose proof (leb_value _ _ H7 Hf0 Ht) as H2.
              unfold value in *. lra.
        -- destruct Hinv as (E0 & Hlow). split; [exact E0|].
           intros b Hb. apply in_app_or in Hb.
           destruct Hb as [Hb|[<-|[]]]; [apply Hlow; exact Hb|].
           destruct (0.7 <=? calc c)%float eqn:E7; [|reflexivity].
           rewrite E0, (threshold_positive _ E7) in E. discriminate E.
Qed.

End Selection.

(** X11.  The bank record a turn selects for a ledger record is the
    first of the best: among the candidates, in their order, every record
    before it scores strictly lower and no record after it scores higher
    (for tolerances and descriptions in the ranges where the score is a
    finite float). *)
Theorem selected_candidate_is_first_of_best lower is_word l dt at_ score0
    cands best :
  dt <= 999999999 -> at_ < 10 ^ 10 ->
  Z.of_nat (List.length (word_set lower is_word (lr_description l))) < 2 ^ 52 ->
  (forall b, In b cands ->
     Z.of_nat (List.length (word_set lower is_word (br_description b)))
     < 2 ^ 52) ->
  best_match (scan_candidates lower is_word l dt at_ score0 cands) = Some best ->
  let calc b := calculate_match_score lower is_word l b dt at_ in
  exists pre post,
    cands = pre ++ best :: post
    /\ (forall b, In b pre -> (calc b <? calc best)%float = true)
    /\ (forall b, In b post -> (calc best <? calc b)%float = false).
Proof.
  intros Hdt Hat Hl Hw Hbest calc.
  destruct (fold_consider_best lower is_word l dt at_ Hdt Hat Hl cands []
              {| best_match := None; best_score := 0%float; score := score0 |}
              Hw ltac:(intros b []) ltac:(split; [reflexivity|intros b []])
              best Hbest) as (pre & post & E & Hpre & Hpost).
  simpl in E. exists pre, post. split; [exact E|].
  assert (Hfin : forall b, In b cands ->
            sf_finite_nonneg (Prim2SF (calc b)) = true).
  { intros b Hb. apply (score_finite lower is_word l dt at_ Hdt Hat Hl).
    apply Hw. exact Hb. }
  assert (Hfb : sf_finite_nonneg (Prim2SF (calc best)) = true).
  { apply Hfin. rewrite E. apply in_or_app. right. left. reflexivity. }
  split.
  - intros b Hb.
    assert (Hf : sf_finite_nonneg (Prim2SF (calc b)) = true)
      by (apply Hfin; rewrite E; apply in_or_app; left; exact Hb).
    destruct (calc b <? calc best)%float eqn:Elt; [reflexivity|].
    pose proof (ltb_false_value _ _ Hf Hfb Elt).
    pose proof (Hpre b Hb). exfalso. unfold calc in *. lra.
  - intros b Hb.
    assert (Hf : sf_finite_nonneg (Prim2SF (calc b)) = true)
      by (apply Hfin; rewrite E; apply in_or_app; right; right; exact Hb).
    destruct (calc best <? calc b)%float eqn:Elt; [|reflexivity].
    pose proof (ltb_value _ _ Hfb Hf Elt).
    pose proof (Hpost b Hb). exfalso. unfold calc in *. lra.
Qed.

Lemma selected_candidate_is_first_of_best_witness :
  let l := Sample.ledger 1%positive 738000 "rent" 5000 1 in
  let b1 := Sample.bank 11%positive 738001 "rent" 5000 1 in
  let b2 := Sample.bank 12%positive 738000 "rent" 5000 2 in
  let calc b := calculate_match_score ascii_lower ascii_word l b 3 0 in
  3 <= 999999999 /\ 0 < 10 ^ 10
  /\ Z.of_nat (List.length (word_set ascii_lower ascii_word (lr_description l)))
     < 2 ^ 52
  /\ (forall b, In b [b1; b2] ->
        Z.of_nat (List.length
                    (word_set ascii_lower ascii_word (br_description b)))
        < 2 ^ 52)
  /\ best_match (scan_candidates ascii_lower ascii_word l 3 0 None [b1; b2])
     = Some b2
  /\ exists pre post,
       [b1; b2] = pre ++ b2 :: post
       /\ (forall b, In b pre -> (calc b <? calc b2)%float = true)
       /\ (forall b, In b post -> (calc b2 <? calc b)%float = false).
Proof.
  intros l b1 b2 calc.
  assert (H1 : 3 <= 999999999) by lia.
  assert (H2 : 0 < 10 ^ 10) by (vm_compute; reflexivity).
  assert (H3 : Z.of_nat (List.length
                           (word_set ascii_lower ascii_word (lr_description l)))
               < 2 ^ 52) by (vm_compute; reflexivity).
  assert (H4 : forall b, In b [b1; b2] ->
            Z.of_nat (List.length
                        (word_set ascii_lower ascii_word (br_description b)))
            < 2 ^ 52).
  { intros b [<-|[<-|[]]]; vm_compute; reflexivity. }
  assert (H5 : best_match
                 (scan_candidates ascii_lower ascii_word l 3 0 None [b1; b2])
               = Some b2) by (vm_compute; reflexivity).
  repeat (split; [assumption|]).
  exact (selected_candidate_is_first_of_best ascii_lower ascii_word l 3 0 None
           [b1; b2] b2 H1 H2 H3 H4 H5).
Defined.

(** * File processing *)

(** ** Strings without white space at their ends *)

Lemma lstrip_idem s : lstrip (lstrip s) = lstrip s.
Proof.
  induction s as [|c s IH]; [reflexivity|].
  simpl. destruct (isspace c) eqn:E; [exact IH|]. simpl. rewrite E. reflexivity.
Qed.

Lemma rstrip_idem s : rstrip (rstrip s) = rstrip s.
Proof.
  unfold rstrip. rewrite rev_involutive, lstrip_idem. reflexivity.
Qed.

Lemma lstrip_snoc u c :
  isspace c = false -> exists u', lstrip (u ++ [c]) = u' ++ [c].
Proof.
  intros Hc. induction u as [|a u IH]; simpl.
  - rewrite Hc. exists []. reflexivity.
  - destruct (isspace a); [exact IH|]. exists (a :: u). reflexivity.
Qed.

Lemma lstrip_head s c t : lstrip s = c :: t -> isspace c = false.
Proof.
  induction s as [|a s IH]; [discriminate|].
  simpl. destruct (isspace a) eqn:Ea; [exact IH|].
  intros E. inversion E; subst. exact Ea.
Qed.

(** Removing white space at the end leaves the first character, which is
    not white space, where it is. *)
Lemma lstrip_rstrip s : lstrip (rstrip (lstrip s)) = rstrip (lstrip s).
Proof.
  destruct (lstrip s) as [|c t] eqn:E; [reflexivity|].
  pose proof (lstrip_head _ _ _ E) as Hc.
  unfold rstrip. simpl rev.
  destruct (lstrip_snoc (rev t) c Hc) as (u & ->).
  rewrite rev_app_distr. simpl. rewrite Hc. reflexivity.
Qed.

(** [strip] leaves nothing to strip. *)
Lemma strip_idem s : strip (strip s) = strip s.
Proof.
  unfold strip. rewrite lstrip_rstrip. apply rstrip_idem.
Qed.

(** ** Columns *)

Lemma first_present_none names cols :
  (forall a, In a names -> ~ In a cols) -> first_present names cols = None.
Proof.
  induction names as [|a names IH]; intros H; [reflexivity|]. simpl.
  destruct (existsb (Str.eqb a) cols) eqn:E.
  - exfalso. apply existsb_exists in E. destruct E as (x & Hx & Ex).
    apply Str_eqb_eq in Ex. subst x. exact (H a (or_introl eq_refl) Hx).
  - apply IH. intros b Hb. apply H. right. exact Hb.
Qed.

Lemma first_present_in names cols a :
  first_present names cols = Some a -> In a names /\ In a cols.
Proof.
  induction names as [|b names IH]; [discriminate|]. simpl.
  destruct (existsb (Str.eqb b) cols) eqn:E.
  - intros H. inversion H; subst b. split; [left; reflexivity|].
    apply existsb_exists in E. destruct E as (x & Hx & Ex).
    apply Str_eqb_eq in Ex. subst x. exact Hx.
  - intros H. destruct (IH H). auto.
Qed.

(** A field none of whose names is a column is not mapped: the lookup
    gives the default key. *)
Lemma dict_get_unmapped column_mapping cols field default :
  (forall e, In e column_mapping -> Str.eqb (fst e) field = true ->
     first_present (snd e) cols = None) ->
  dict_get (map_columns column_mapping cols) field default = default.
Proof.
  induction column_mapping as [|[f names] rest IH]; intros H; [reflexivity|].
  simpl.
  assert (Hrest : dict_get (map_columns rest cols) field default = default).
  { apply IH. intros e He. apply H. right. exact He. }
  destruct (first_present names cols) as [a|] eqn:E; [|exact Hrest].
  simpl. destruct (Str.eqb f field) eqn:Ef; [|exact Hrest].
  pose proof (H (f, names) (or_introl eq_refl) Ef) as E'. simpl in E'.
  congruence.
Qed.

(** A key that is no column gives the default of [row.get]. *)
Lemma row_cells_absent cols key : forall row,
  ~ In key cols -> row_cells cols row key = [].
Proof.
  induction cols as [|c cols IH]; intros row H; [reflexivity|].
  destruct row as [|v row]; [reflexivity|]. simpl.
  destruct (Str.eqb c key) eqn:E.
  - exfalso. apply H. left. apply Str_eqb_eq. exact E.
  - apply IH. intros Hin. apply H. right. exact Hin.
Qed.

Lemma row_get_default cols key default row :
  ~ In key cols -> row_get cols row key default = default.
Proof.
  intros H. unfold row_get. rewrite (row_cells_absent cols key row H).
  reflexivity.
Qed.

Lemma row_cells_length cols key : forall row,
  List.length row = List.length cols ->
  List.length (row_cells cols row key) = column_count cols key.
Proof.
  unfold column_count.
  induction cols as [|c cols IH]; intros row H.
  - destruct row; reflexivity.
  - destruct row as [|v row]; [discriminate H|]. simpl in H. simpl.
    destruct (Str.eqb c key); simpl; rewrite IH by lia; reflexivity.
Qed.

(** Under a column name that comes twice or more, [row.get] returns a
    [Series]. *)
Lemma row_get_repeated cols row key default :
  List.length row = List.length cols ->
  (2 <= column_count cols key)%nat ->
  exists values, row_get cols row key default = Series key values.
Proof.
  intros Hlen Hcount. unfold row_get.
  rewrite <- (row_cells_length cols key row Hlen) in Hcount.
  destruct (row_cells cols row key) as [|v [|v' vs]]; simpl in Hcount;
    try lia.
  eexists. reflexivity.
Qed.

(** ** The records of a frame *)

Section FrameRecords.

Variable unicode_decimal : char -> option N.
Variable float_repr : float -> str.
Variable series_repr : nat -> str -> list Cell -> str.
Variable strptime : str -> str -> option Z.
Variable to_datetime : str -> option DateValue.

Lemma stripped_str_some index v d :
  stripped_str float_repr series_repr index v = Some d ->
  exists text,
    cell_str float_repr series_repr index v = Some text /\ d = strip text.
Proof.
  unfold stripped_str.
  destruct (cell_str float_repr series_repr index v) as [text|];
    [|discriminate].
  intros H. inversion H. eauto.
Qed.

(** What the row filter lets through. *)
Lemma ledger_row_some cols mapped index row r :
  ledger_row unicode_decimal float_repr series_repr strptime
    to_datetime cols mapped index row = Some r ->
  nl_row_number r = Z.of_nat index + 1
  /\ parse_date float_repr strptime to_datetime
       (row_get cols row (dict_get mapped (lit "date") (lit "date"))
          (CellStr []))
     = Some (Some (nl_date r))
  /\ parse_amount unicode_decimal float_repr
       (row_get cols row (dict_get mapped (lit "amount") (lit "amount"))
          (CellInt 0))
     = Some (nl_amount r)
  /\ Decimal_ne_0 (nl_amount r) = Some true
  /\ stripped_str float_repr series_repr index
       (row_get cols row
          (dict_get mapped (lit "description") (lit "description"))
          (CellStr []))
     = Some (nl_description r)
  /\ nl_description r <> []
  /\ strip (nl_description r) = nl_description r
  /\ stripped_str float_repr series_repr index
       (row_get cols row (dict_get mapped (lit "reference") []) (CellStr []))
     = Some (nl_reference r)
  /\ stripped_str float_repr series_repr index
       (row_get cols row (dict_get mapped (lit "account") []) (CellStr []))
     = Some (nl_account r)
  /\ stripped_str float_repr series_repr index
       (row_get cols row (dict_get mapped (lit "category") []) (CellStr []))
     = Some (nl_category r)
  /\ nl_raw_data r = to_dict cols row.
Proof.
  unfold ledger_row.
  destruct (parse_date _ _ _ _) as [[d|]|] eqn:Ed; try discriminate.
  2: { destruct (parse_amount _ _ _); [|discriminate].
       destruct (stripped_str _ _ _ _); discriminate. }
  destruct (parse_amount _ _ _) as [a|] eqn:Ea; [|discriminate].
  destruct (stripped_str _ _ _ _) as [[|c t]|] eqn:Et; try discriminate.
  { destruct (Decimal_ne_0 a) as [[]|]; discriminate. }
  destruct (Decimal_ne_0 a) as [[]|] eqn:En; try discriminate.
  destruct (stripped_str _ _ _
              (row_get cols row (dict_get mapped (lit "reference") []) _))
    as [reference|] eqn:Er; [|discriminate].
  destruct (stripped_str _ _ _
              (row_get cols row (dict_get mapped (lit "account") []) _))
    as [account|] eqn:Eac; [|discriminate].
  destruct (stripped_str _ _ _
              (row_get cols row (dict_get mapped (lit "category") []) _))
    as [category|] eqn:Ec; [|discriminate].
  intros H. injection H as <-. simpl.
  destruct (stripped_str_some _ _ _ Et) as (text & _ & Htext).
  repeat split; try reflexivity; try assumption; try discriminate.
  rewrite Htext. apply strip_idem.
Qed.

Lemma bank_row_some cols mapped index row r :
  bank_row unicode_decimal float_repr series_repr strptime
    to_datetime cols mapped index row = Some r ->
  nb_row_number r = Z.of_nat index + 1
  /\ parse_date float_repr strptime to_datetime
       (row_get cols row (dict_get mapped (lit "date") (lit "date"))
          (CellStr []))
     = Some (Some (nb_date r))
  /\ parse_amount unicode_decimal float_repr
       (row_get cols row (dict_get mapped (lit "amount") (lit "amount"))
          (CellInt 0))
     = Some (nb_amount r)
  /\ Decimal_ne_0 (nb_amount r) = Some true
  /\ stripped_str float_repr series_repr index
       (row_get cols row
          (dict_get mapped (lit "description") (lit "description"))
          (CellStr []))
     = Some (nb_description r)
  /\ nb_description r <> []
  /\ strip (nb_description r) = nb_description r
  /\ stripped_str float_repr series_repr index
       (row_get cols row (dict_get mapped (lit "reference") []) (CellStr []))
     = Some (nb_reference r)
  /\ parse_amount unicode_decimal float_repr
       (row_get cols row (dict_get mapped (lit "balance") []) CellNA)
     = Some (nb_balance r)
  /\ nb_raw_data r = to_dict cols row.
Proof.
  unfold bank_row.
  destruct (parse_date _ _ _ _) as [[d|]|] eqn:Ed; try discriminate.
  2: { destruct (parse_amount _ _ _); [|discriminate].
       destruct (stripped_str _ _ _ _); discriminate. }
  destruct (parse_amount _ _
              (row_get cols row
                 (dict_get mapped (lit "amount") (lit "amount")) _))
    as [a|] eqn:Ea; [|discriminate].
  destruct (stripped_str _ _ _ _) as [[|c t]|] eqn:Et; try discriminate.
  { destruct (Decimal_ne_0 a) as [[]|]; discriminate. }
  destruct (Decimal_ne_0 a) as [[]|] eqn:En; try discriminate.
  destruct (parse_amount _ _
              (row_get cols row (dict_get mapped (lit "balance") []) _))
    as [balance|] eqn:Eb; [|discriminate].
  destruct (stripped_str _ _ _
              (row_get cols row (dict_get mapped (lit "reference") []) _))
    as [reference|] eqn:Er; [|discriminate].
  intros H. injection H as <-. simpl.
  destruct (stripped_str_some _ _ _ Et) as (text & _ & Htext).
  repeat split; try reflexivity; try assumption; try discriminate.
  rewrite Htext. apply strip_idem.
Qed.

Lemma ledger_rows_from cols mapped rows : forall index r,
  In r (ledger_rows unicode_decimal float_repr series_repr strptime
          to_datetime cols mapped index rows) ->
  exists i row,
    nth_error rows i = Some row
    /\ ledger_row unicode_decimal float_repr series_repr strptime
         to_datetime cols mapped (index + i) row = Some r.
Proof.
  induction rows as [|row rows IH]; intros index r Hr; [destruct Hr|].
  simpl in Hr.
  assert (Htail : In r (ledger_rows unicode_decimal float_repr series_repr
                          strptime to_datetime cols mapped (S index) rows) ->
                  exists i row0,
                    nth_error (row :: rows) i = Some row0
                    /\ ledger_row unicode_decimal float_repr series_repr
                         strptime to_datetime
                         cols mapped (index + i) row0 = Some r).
  { intros H. destruct (IH _ _ H) as (i & row0 & Hn & Hrow).
    exists (S i), row0. split; [exact Hn|].
    replace (index + S i)%nat with (S index + i)%nat by lia. exact Hrow. }
  destruct (ledger_row unicode_decimal float_repr series_repr strptime
              to_datetime cols mapped index row) as [r0|] eqn:E;
    [|exact (Htail Hr)].
  destruct Hr as [<-|Hr]; [|exact (Htail Hr)].
  exists 0%nat, row. split; [reflexivity|].
  rewrite Nat.add_0_r. exact E.
Qed.

Lemma bank_rows_from cols mapped rows : forall index r,
  In r (bank_rows unicode_decimal float_repr series_repr strptime
          to_datetime cols mapped index rows) ->
  exists i row,
    nth_error rows i = Some row
    /\ bank_row unicode_decimal float_repr series_repr strptime
         to_datetime cols mapped (index + i) row = Some r.
Proof.
  induction rows as [|row rows IH]; intros index r Hr; [destruct Hr|].
  simpl in Hr.
  assert (Htail : In r (bank_rows unicode_decimal float_repr series_repr
                          strptime to_datetime cols mapped (S index) rows) ->
                  exists i row0,
                    nth_error (row :: rows) i = Some row0
                    /\ bank_row unicode_decimal float_repr series_repr strptime
                         to_datetime cols mapped (index + i) row0 = Some r).
  { intros H. destruct (IH _ _ H) as (i & row0 & Hn & Hrow).
    exists (S i), row0. split; [exact Hn|].
    replace (index + S i)%nat with (S index + i)%nat by lia. exact Hrow. }
  destruct (bank_row unicode_decimal float_repr series_repr strptime
              to_datetime cols mapped index row) as [r0|] eqn:E;
    [|exact (Htail Hr)].
  destruct Hr as [<-|Hr]; [|exact (Htail Hr)].
  exists 0%nat, row. split; [reflexivity|].
  rewrite Nat.add_0_r. exact E.
Qed.

(** Every row the filter lets through has its record in the list. *)
Lemma ledger_rows_in cols mapped rows : forall index i row r,
  nth_error rows i = Some row ->
  ledger_row unicode_decimal float_repr series_repr strptime
    to_datetime cols mapped (index + i) row = Some r ->
  In r (ledger_rows unicode_decimal float_repr series_repr strptime
          to_datetime cols mapped index rows).
Proof.
  induction rows as [|row0 rows IH]; intros index i row r Hn Hrow.
  - destruct i; discriminate Hn.
  - simpl. destruct i as [|i]; simpl in Hn.
    + inversion Hn; subst row0. rewrite Nat.add_0_r in Hrow. rewrite Hrow.
      left. reflexivity.
    + assert (H : In r (ledger_rows unicode_decimal float_repr series_repr
                          strptime to_datetime cols mapped (S index) rows)).
      { apply (IH (S index) i row r Hn).
        replace (S index + i)%nat with (index + S i)%nat by lia. exact Hrow. }
      destruct (ledger_row unicode_decimal float_repr series_repr strptime
                  to_datetime cols mapped index row0); [right|]; exact H.
Qed.

Lemma bank_rows_in cols mapped rows : forall index i row r,
  nth_error rows i = Some row ->
  bank_row unicode_decimal float_repr series_repr strptime
    to_datetime cols mapped (index + i) row = Some r ->
  In r (bank_rows unicode_decimal float_repr series_repr strptime
          to_datetime cols mapped index rows).
Proof.
  induction rows as [|row0 rows IH]; intros index i row r Hn Hrow.
  - destruct i; discriminate Hn.
  - simpl. destruct i as [|i]; simpl in Hn.
    + inversion Hn; subst row0. rewrite Nat.add_0_r in Hrow. rewrite Hrow.
      left. reflexivity.
    + assert (H : In r (bank_rows unicode_decimal float_repr series_repr
                          strptime to_datetime cols mapped (S index) rows)).
      { apply (IH (S index) i row r Hn).
        replace (S index + i)%nat with (index + S i)%nat by lia. exact Hrow. }
      destruct (bank_row unicode_decimal float_repr series_repr strptime
                  to_datetime cols mapped index row0); [right|]; exact H.
Qed.

Lemma ledger_rows_sorted cols mapped rows : forall index,
  StronglySorted Z.lt
    (List.map nl_row_number (ledger_rows unicode_decimal float_repr series_repr
                               strptime to_datetime cols mapped index rows)).
Proof.
  induction rows as [|row rows IH]; intros index; [constructor|].
  simpl.
  destruct (ledger_row unicode_decimal float_repr series_repr strptime
              to_datetime cols mapped index row) as [r0|] eqn:E; [|apply IH].
  simpl. constructor; [apply IH|].
  apply Forall_forall. intros n Hn. apply in_map_iff in Hn.
  destruct Hn as (r & <- & Hr).
  destruct (ledger_rows_from _ _ _ _ _ Hr) as (i & row' & _ & Hrow).
  destruct (ledger_row_some _ _ _ _ _ E) as (-> & _).
  destruct (ledger_row_some _ _ _ _ _ Hrow) as (-> & _). lia.
Qed.

Lemma bank_rows_sorted cols mapped rows : forall index,
  StronglySorted Z.lt
    (List.map nb_row_number (bank_rows unicode_decimal float_repr series_repr
                               strptime to_datetime cols mapped index rows)).
Proof.
  induction rows as [|row rows IH]; intros index; [constructor|].
  simpl.
  destruct (bank_row unicode_decimal float_repr series_repr strptime
              to_datetime cols mapped index row) as [r0|] eqn:E; [|apply IH].
  simpl. constructor; [apply IH|].
  apply Forall_forall. intros n Hn. apply in_map_iff in Hn.
  destruct Hn as (r & <- & Hr).
  destruct (bank_rows_from _ _ _ _ _ Hr) as (i & row' & _ & Hrow).
  destruct (bank_row_some _ _ _ _ _ E) as (-> & _).
  destruct (bank_row_some _ _ _ _ _ Hrow) as (-> & _). lia.
Qed.

(** A row in which the date or the amount is a [Series] is skipped. *)
Lemma ledger_row_series cols mapped index row :
  (exists values,
     row_get cols row (dict_get mapped (lit "date") (lit "date")) (CellStr [])
     = Series (dict_get mapped (lit "date") (lit "date")) values)
  \/ (exists values,
        row_get cols row (dict_get mapped (lit "amount") (lit "amount"))
          (CellInt 0)
        = Series (dict_get mapped (lit "amount") (lit "amount")) values) ->
  ledger_row unicode_decimal float_repr series_repr strptime
    to_datetime cols mapped index row = None.
Proof.
  unfold ledger_row. intros [(values & E)|(values & E)]; rewrite E.
  - reflexivity.
  - destruct (parse_date _ _ _ _); reflexivity.
Qed.

Lemma bank_row_series cols mapped index row :
  (exists values,
     row_get cols row (dict_get mapped (lit "date") (lit "date")) (CellStr [])
     = Series (dict_get mapped (lit "date") (lit "date")) values)
  \/ (exists values,
        row_get cols row (dict_get mapped (lit "amount") (lit "amount"))
          (CellInt 0)
        = Series (dict_get mapped (lit "amount") (lit "amount")) values) ->
  bank_row unicode_decimal float_repr series_repr strptime
    to_datetime cols mapped index row = None.
Proof.
  unfold bank_row. intros [(values & E)|(values & E)]; rewrite E.
  - reflexivity.
  - destruct (parse_date _ _ _ _); reflexivity.
Qed.

Lemma ledger_rows_skipped cols mapped rows :
  (forall row, In row rows -> forall index,
     ledger_row unicode_decimal float_repr series_repr strptime
       to_datetime cols mapped index row = None) ->
  forall index, ledger_rows unicode_decimal float_repr series_repr strptime
                  to_datetime cols mapped index rows = [].
Proof.
  induction rows as [|row rows IH]; intros H index; [reflexivity|].
  simpl. rewrite (H row (or_introl eq_refl)).
  apply IH. intros row' Hrow'. apply H. right. exact Hrow'.
Qed.

Lemma bank_rows_skipped cols mapped rows :
  (forall row, In row rows -> forall index,
     bank_row unicode_decimal float_repr series_repr strptime
       to_datetime cols mapped index row = None) ->
  forall index, bank_rows unicode_decimal float_repr series_repr strptime
                  to_datetime cols mapped index rows = [].
Proof.
  induction rows as [|row rows IH]; intros H index; [reflexivity|].
  simpl. rewrite (H row (or_introl eq_refl)).
  apply IH. intros row' Hrow'. apply H. right. exact Hrow'.
Qed.

(** X12.  The records [process_ledger_file] builds from a
    frame are those of the rows its filter lets through, in the order of
    the rows.  Their row numbers increase strictly.  Each record comes from
    the row at its row number (counted from 1): its date is what
    [parse_date] returned for the date cell, a date or [NaT] and not
    [None]; its amount is what [parse_amount] returned for the amount cell
    and is not zero; its description is the text of the description cell
    without the white space at its ends and is not empty; its raw data is
    the dictionary of the row.  Every row the filter lets through has its
    record in the list.  And a frame whose rows are full and in which the
    name of the date column or of the amount column comes twice gives no
    record: the cell read is a [Series], on which the parsers raise, and
    every row is skipped. *)
Theorem ledger_records_follow_the_rows df :
  let cols := df_columns df in
  let mapped := map_columns ledger_column_mapping cols in
  let column field := dict_get mapped (lit field) (lit field) in
  let records := ledger_file_records unicode_decimal float_repr series_repr
                   strptime to_datetime df in
  StronglySorted Z.lt (List.map nl_row_number records)
  /\ (forall r, In r records ->
        exists i row,
          nth_error (df_rows df) i = Some row
          /\ ledger_row unicode_decimal float_repr series_repr strptime
               to_datetime cols mapped i row = Some r
          /\ nl_row_number r = Z.of_nat i + 1
          /\ parse_date float_repr strptime to_datetime
               (row_get cols row (column "date"%string) (CellStr []))
             = Some (Some (nl_date r))
          /\ parse_amount unicode_decimal float_repr
               (row_get cols row (column "amount"%string) (CellInt 0))
             = Some (nl_amount r)
          /\ Decimal_ne_0 (nl_amount r) = Some true
          /\ (exists text,
                cell_str float_repr series_repr i
                  (row_get cols row (column "description"%string) (CellStr []))
                = Some text
                /\ nl_description r = strip text)
          /\ nl_description r <> []
          /\ strip (nl_description r) = nl_description r
          /\ nl_raw_data r = to_dict cols row)
  /\ (forall i row r,
        nth_error (df_rows df) i = Some row ->
        ledger_row unicode_decimal float_repr series_repr strptime
          to_datetime cols mapped i row = Some r ->
        In r records)
  /\ (rectangular df ->
      (2 <= column_count cols (column "date"%string))%nat
      \/ (2 <= column_count cols (column "amount"%string))%nat ->
      records = []).
Proof.
  intros cols mapped column records. split; [apply ledger_rows_sorted|].
  split; [|split].
  - intros r Hr.
    destruct (ledger_rows_from _ _ _ _ _ Hr) as (i & row & Hn & Hrow).
    change (0 + i)%nat with i in Hrow.
    destruct (ledger_row_some _ _ _ _ _ Hrow)
      as (Hnum & Hdate & Hamt & Hne & Hdesc & Hd0 & Hst & _ & _ & _ & Hraw).
    destruct (stripped_str_some _ _ _ Hdesc) as (text & Htext & Hd).
    exists i, row. repeat split; try assumption. exists text. auto.
  - intros i row r Hn Hrow.
    apply (ledger_rows_in cols mapped (df_rows df) 0 i row r Hn Hrow).
  - intros Hrect Hrep. unfold records, ledger_file_records.
    apply ledger_rows_skipped. intros row Hrow index.
    unfold rectangular in Hrect. rewrite Forall_forall in Hrect.
    apply ledger_row_series.
    destruct Hrep as [Hrep|Hrep]; [left|right];
      exact (row_get_repeated _ row _ _ (Hrect row Hrow) Hrep).
Qed.

(** X13.  The records [process_bank_statement_file] builds
    from a frame are those of the rows its filter lets through, in the
    order of the rows.  Their row numbers increase strictly.  Each record
    comes from the row at its row number (counted from 1): its date is what
    [parse_date] returned for the date cell, a date or [NaT] and not
    [None]; its amount is what [parse_amount] returned for the amount cell
    and is not zero; its description is the text of the description cell
    without the white space at its ends and is not empty; its balance is
    what [parse_amount] returned for the balance cell, and it is
    [Decimal('0.00')], not a missing value, when the frame has no balance
    column (under none of its names, and no column with an empty name).
    Every row the filter lets through has its record in the list.  And a
    frame whose rows are full and in which the name of the date column or
    of the amount column comes twice gives no record. *)
Theorem bank_records_follow_the_rows df :
  let cols := df_columns df in
  let mapped := map_columns bank_column_mapping cols in
  let column field := dict_get mapped (lit field) (lit field) in
  let records := bank_file_records unicode_decimal float_repr series_repr
                   strptime to_datetime df in
  StronglySorted Z.lt (List.map nb_row_number records)
  /\ (forall r, In r records ->
        (exists i row,
           nth_error (df_rows df) i = Some row
           /\ bank_row unicode_decimal float_repr series_repr strptime
                to_datetime cols mapped i row = Some r
           /\ nb_row_number r = Z.of_nat i + 1
           /\ parse_date float_repr strptime to_datetime
                (row_get cols row (column "date"%string) (CellStr []))
              = Some (Some (nb_date r))
           /\ parse_amount unicode_decimal float_repr
                (row_get cols row (column "amount"%string) (CellInt 0))
              = Some (nb_amount r)
           /\ (exists text,
                 cell_str float_repr series_repr i
                   (row_get cols row (column "description"%string)
                      (CellStr []))
                 = Some text
                 /\ nb_description r = strip text)
           /\ parse_amount unicode_decimal float_repr
                (row_get cols row (dict_get mapped (lit "balance") []) CellNA)
              = Some (nb_balance r)
           /\ nb_raw_data r = to_dict cols row)
        /\ nb_description r <> []
        /\ strip (nb_description r) = nb_description r
        /\ Decimal_ne_0 (nb_amount r) = Some true
        /\ (column_missing bank_column_mapping "balance" df ->
            ~ In [] cols ->
            nb_balance r = Decimal_0_00))
  /\ (forall i row r,
        nth_error (df_rows df) i = Some row ->
        bank_row unicode_decimal float_repr series_repr strptime
          to_datetime cols mapped i row = Some r ->
        In r records)
  /\ (rectangular df ->
      (2 <= column_count cols (column "date"%string))%nat
      \/ (2 <= column_count cols (column "amount"%string))%nat ->
      records = []).
Proof.
  intros cols mapped column records. split; [apply bank_rows_sorted|].
  split; [|split].
  - intros r Hr.
    destruct (bank_rows_from _ _ _ _ _ Hr) as (i & row & Hn & Hrow).
    change (0 + i)%nat with i in Hrow.
    destruct (bank_row_some _ _ _ _ _ Hrow)
      as (Hnum & Hdate & Hamt & Hne & Hdesc & Hd0 & Hst & _ & Hbal & Hraw).
    destruct (stripped_str_some _ _ _ Hdesc) as (text & Htext & Hd).
    split.
    { exists i, row. repeat split; try assumption. exists text. auto. }
    split; [exact Hd0|]. split; [exact Hst|]. split; [exact Hne|].
    intros Hmiss Hempty.
    assert (Hkey : dict_get mapped (lit "balance") [] = []).
    { apply dict_get_unmapped. intros e He Heq. simpl in He.
      repeat (destruct He as [<-|He];
              [vm_compute in Heq; try discriminate Heq|]);
        [|destruct He].
      apply first_present_none. exact Hmiss. }
    unfold mapped, cols in *.
    rewrite Hkey, (row_get_default _ [] CellNA row Hempty) in Hbal.
    simpl in Hbal. congruence.
  - intros i row r Hn Hrow.
    apply (bank_rows_in cols mapped (df_rows df) 0 i row r Hn Hrow).
  - intros Hrect Hrep. unfold records, bank_file_records.
    apply bank_rows_skipped. intros row Hrow index.
    unfold rectangular in Hrect. rewrite Forall_forall in Hrect.
    apply bank_row_series.
    destruct Hrep as [Hrep|Hrep]; [left|right];
      exact (row_get_repeated _ row _ _ (Hrect row Hrow) Hrep).
Qed.

End FrameRecords.

Lemma ledger_records_follow_the_rows_witness :
  let records df :=
    ledger_file_records ascii_only_decimal Sample.float_repr
      Sample.series_repr Sample.strptime Sample.to_datetime df in
  let df := Sample.two_dates_frame in
  List.map (fun r => (nl_row_number r, nl_date r, nl_amount r))
    (records Sample.ledger_frame)
  = [(1, ADate 738010, DFinite false 125000 (-2));
     (2, ADate 738012, DFinite true 4500 (-2))]
  /\ List.map nl_date (records Sample.blank_date_frame) = [ADate 738010; NaT]
  /\ rectangular df
  /\ (2 <= column_count (df_columns df) (lit "date"))%nat
  /\ records df = [].
Proof.
  intros records df.
  assert (H1 : rectangular df) by (repeat constructor).
  assert (H2 : (2 <= column_count (df_columns df)
                       (dict_get
                          (map_columns ledger_column_mapping (df_columns df))
                          (lit "date") (lit "date")))%nat)
    by (vm_compute; apply le_n).
  split; [vm_compute; reflexivity|]. split; [vm_compute; reflexivity|].
  split; [exact H1|]. split; [vm_compute; apply le_n|].
  destruct (ledger_records_follow_the_rows ascii_only_decimal
              Sample.float_repr
              Sample.series_repr Sample.strptime Sample.to_datetime df)
    as (_ & _ & _ & H).
  exact (H H1 (or_introl H2)).
Defined.

Lemma bank_records_follow_the_rows_witness :
  let df := Sample.bank_frame in
  let records :=
    bank_file_records ascii_only_decimal Sample.float_repr
      Sample.series_repr Sample.strptime Sample.to_datetime df in
  column_missing bank_column_mapping "balance" df
  /\ ~ In [] (df_columns df)
  /\ List.map (fun r => (nb_row_number r, nb_date r, nb_amount r)) records
     = [(1, ADate 738010, DFinite false 125000 (-2));
        (2, ADate 738020, DFinite false 310 (-2))]
  /\ forall r, In r records -> nb_balance r = Decimal_0_00.
Proof.
  intros df records.
  assert (H1 : column_missing bank_column_mapping "balance" df).
  { intros a Ha Hin. vm_compute in Ha, Hin.
    repeat (destruct Ha as [<-|Ha];
            [repeat (destruct Hin as [Hin|Hin]; [discriminate Hin|]);
             destruct Hin|]).
    destruct Ha. }
  assert (H2 : ~ In [] (df_columns df)).
  { intros Hin. vm_compute in Hin.
    repeat (destruct Hin as [Hin|Hin]; [discriminate Hin|]). destruct Hin. }
  split; [exact H1|]. split; [exact H2|]. split; [vm_compute; reflexivity|].
  intros r Hr.
  destruct (bank_records_follow_the_rows ascii_only_decimal
              Sample.float_repr
              Sample.series_repr Sample.strptime Sample.to_datetime df)
    as (_ & H & _).
  destruct (H r Hr) as (_ & _ & _ & _ & Hbal).
  exact (Hbal H1 H2).
Defined.

(** ** Frames without a required column *)

Section MissingColumn.

Variable unicode_decimal : char -> option N.
Variable float_repr : float -> str.
Variable series_repr : nat -> str -> list Cell -> str.
Variable strptime : str -> str -> option Z.
Variable to_datetime : str -> option DateValue.

Lemma ledger_rows_none cols mapped rows :
  (forall index row,
     ledger_row unicode_decimal float_repr series_repr strptime
       to_datetime cols mapped index row
     = None) ->
  forall index,
    ledger_rows unicode_decimal float_repr series_repr strptime
      to_datetime cols mapped index rows
    = [].
Proof.
  intros H. induction rows as [|row rows IH]; intros index; [reflexivity|].
  simpl. rewrite H. apply IH.
Qed.

Lemma bank_rows_none cols mapped rows :
  (forall index row,
     bank_row unicode_decimal float_repr series_repr strptime
       to_datetime cols mapped index row
     = None) ->
  forall index,
    bank_rows unicode_decimal float_repr series_repr strptime
      to_datetime cols mapped index rows
    = [].
Proof.
  intros H. induction rows as [|row rows IH]; intros index; [reflexivity|].
  simpl. rewrite H. apply IH.
Qed.

(** The cell read for a field that has no column is the default. *)
Lemma missing_cell column_mapping field df row default :
  (forall e, In e column_mapping -> Str.eqb (fst e) (lit field) = true ->
     snd e = aliases column_mapping field) ->
  In (lit field) (aliases column_mapping field) ->
  column_missing column_mapping field df ->
  row_get (df_columns df) row
    (dict_get (map_columns column_mapping (df_columns df)) (lit field)
       (lit field)) default
  = default.
Proof.
  intros Hone Hself Hmiss.
  rewrite dict_get_unmapped.
  - apply row_get_default. apply Hmiss. exact Hself.
  - intros e He Heq. rewrite (Hone e He Heq).
    apply first_present_none. exact Hmiss.
Qed.

End MissingColumn.

(** X14.  A frame that lacks a required column yields no
    record at all, and no error: when none of the names of the amount
    column is a column of the frame, or none of the description column, or
    none of the date column, every row is filtered out, for the ledger
    file and for the bank statement alike. *)
Theorem missing_column_gives_no_record ud fr sr sp td df :
  (column_missing ledger_column_mapping "amount" df
   \/ column_missing ledger_column_mapping "description" df
   \/ column_missing ledger_column_mapping "date" df ->
   ledger_file_records ud fr sr sp td df = [])
  /\ (column_missing bank_column_mapping "amount" df
      \/ column_missing bank_column_mapping "description" df
      \/ column_missing bank_column_mapping "date" df ->
      bank_file_records ud fr sr sp td df = []).
Proof.
  assert (Hzero : parse_amount ud fr (CellInt 0) = Some (DFinite false 0 0))
    by (vm_compute; reflexivity).
  assert (Hdate : parse_date fr sp td (CellStr []) = Some None)
    by reflexivity.
  assert (Hdesc : forall index, stripped_str fr sr index (CellStr []) = Some [])
    by reflexivity.
  split.
  - intros H. unfold ledger_file_records. apply ledger_rows_none.
    intros index row. unfold ledger_row.
    destruct H as [H|[H|H]].
    + rewrite (missing_cell ledger_column_mapping "amount" df row (CellInt 0));
        [|one_entry|vm_compute; left; reflexivity|exact H].
      rewrite Hzero.
      destruct (parse_date _ _ _ (row_get _ _ _ _)) as [[d|]|]; try reflexivity;
        destruct (stripped_str _ _ _ (row_get _ _ _ _)); reflexivity.
    + rewrite (missing_cell ledger_column_mapping "description" df row
                 (CellStr []));
        [|one_entry|vm_compute; left; reflexivity|exact H].
      rewrite Hdesc.
      destruct (parse_date _ _ _ (row_get _ _ _ _)) as [[d|]|]; try reflexivity;
        destruct (parse_amount _ _ (row_get _ _ _ (CellInt 0))) as [a|];
          try reflexivity;
        destruct (Decimal_ne_0 a) as [[]|]; reflexivity.
    + rewrite (missing_cell ledger_column_mapping "date" df row (CellStr []));
        [|one_entry|vm_compute; left; reflexivity|exact H].
      rewrite Hdate.
      destruct (parse_amount _ _ (row_get _ _ _ (CellInt 0))); [|reflexivity].
      destruct (stripped_str _ _ _ (row_get _ _ _ _)); reflexivity.
  - intros H. unfold bank_file_records. apply bank_rows_none.
    intros index row. unfold bank_row.
    destruct H as [H|[H|H]].
    + rewrite (missing_cell bank_column_mapping "amount" df row (CellInt 0));
        [|one_entry|vm_compute; left; reflexivity|exact H].
      rewrite Hzero.
      destruct (parse_date _ _ _ (row_get _ _ _ _)) as [[d|]|]; try reflexivity;
        destruct (stripped_str _ _ _ (row_get _ _ _ _)); reflexivity.
    + rewrite (missing_cell bank_column_mapping "description" df row
                 (CellStr []));
        [|one_entry|vm_compute; left; reflexivity|exact H].
      rewrite Hdesc.
      destruct (parse_date _ _ _ (row_get _ _ _ _)) as [[d|]|]; try reflexivity;
        destruct (parse_amount _ _
                    (row_get _ _ _ (CellInt 0))) as [a|]; try reflexivity;
        destruct (Decimal_ne_0 a) as [[]|]; reflexivity.
    + rewrite (missing_cell bank_column_mapping "date" df row (CellStr []));
        [|one_entry|vm_compute; left; reflexivity|exact H].
      rewrite Hdate.
      destruct (parse_amount _ _ (row_get _ _ _ (CellInt 0))); [|reflexivity].
      destruct (stripped_str _ _ _ (row_get _ _ _ _)); reflexivity.
Qed.

Lemma missing_column_gives_no_record_witness :
  let df := {| df_columns := List.map lit ["date"; "description"; "total"]%string;
               df_rows := [[CellStr (lit "2021-08-08"); CellStr (lit "Rent");
                            CellStr (lit "12.00")]] |} in
  column_missing ledger_column_mapping "amount" df
  /\ ledger_file_records ascii_only_decimal Sample.float_repr
       Sample.series_repr Sample.strptime Sample.to_datetime df = [].
Proof.
  intros df.
  assert (H : column_missing ledger_column_mapping "amount" df).
  { intros a Ha Hin. vm_compute in Ha, Hin.
    repeat (destruct Ha as [<-|Ha];
            [repeat (destruct Hin as [Hin|Hin]; [discriminate Hin|]);
             destruct Hin|]).
    destruct Ha. }
  split; [exact H|].
  exact (proj1 (missing_column_gives_no_record ascii_only_decimal
                  Sample.float_repr
                  Sample.series_repr Sample.strptime Sample.to_datetime df)
           (or_introl H)).
Defined.

(** ** What file processing does to the tables *)

Lemma appends_refl d : appends d d.
Proof.
  repeat split; try (exists []; rewrite app_nil_r; reflexivity).
Qed.

Lemma appends_trans d0 d1 d2 : appends d0 d1 -> appends d1 d2 -> appends d0 d2.
Proof.
  intros ((l1 & E1) & (b1 & F1) & M1 & X1) ((l2 & E2) & (b2 & F2) & M2 & X2).
  split; [exists (l1 ++ l2); rewrite E2, E1, app_assoc; reflexivity|].
  split; [exists (b1 ++ b2); rewrite F2, F1, app_assoc; reflexivity|].
  split; congruence.
Qed.

Lemma appending_ret {A} (a : A) : appending (ret a).
Proof. intros w. apply appends_refl. Qed.

Lemma appending_raise {A} e : appending (@raise A e).
Proof. intros w. apply appends_refl. Qed.

Lemma appending_bind {A B} (m : M A) (k : A -> M B) :
  appending m -> (forall a, appending (k a)) -> appending (bind m k).
Proof.
  intros Hm Hk w. unfold bind. specialize (Hm w).
  destruct (m w) as [[a|e] w1]; simpl in *; [|exact Hm].
  exact (appends_trans _ _ _ Hm (Hk a w1)).
Qed.

Lemma appending_try_except {A} (m : M A) (h : exn -> M A) :
  appending m -> (forall e, appending (h e)) -> appending (try_except m h).
Proof.
  intros Hm Hh w. unfold try_except. specialize (Hm w).
  destruct (m w) as [[a|e] w1]; simpl in *; [exact Hm|].
  exact (appends_trans _ _ _ Hm (Hh e w1)).
Qed.

Lemma appending_same_db {A} (m : M A) :
  (forall w, db (snd (m w)) = db w) -> appending m.
Proof. intros H w. rewrite H. apply appends_refl. Qed.

Lemma appending_statement : appending statement.
Proof.
  apply appending_same_db. intros w. unfold statement.
  destruct (fault_at w) as [[|n]|]; reflexivity.
Qed.

Lemma appending_write f :
  (forall d, appends d (f d)) -> appending (write f).
Proof.
  intros Hf w. unfold write, bind, statement, get_world, set_db.
  destruct (fault_at w) as [[|n]|]; simpl;
    try apply appends_refl; apply Hf.
Qed.

Lemma appending_session_assign f : appending (session_assign f).
Proof.
  apply appending_same_db. intros w.
  unfold session_assign, the_session, bind, get_world, set_session, ret, raise.
  destruct (session w); reflexivity.
Qed.

Lemma appending_session_save : appending session_save.
Proof.
  unfold session_save. apply appending_bind.
  - apply appending_same_db. intros w.
    unfold the_session, bind, get_world, ret, raise.
    destruct (session w); reflexivity.
  - intros s. apply appending_write. intros d.
    repeat split; try (exists []; rewrite app_nil_r; reflexivity).
Qed.

Lemma appending_on_exception : appending on_exception.
Proof.
  unfold on_exception.
  apply appending_bind; [apply appending_same_db; reflexivity|]. intros w.
  destruct (session w); [|apply appending_ret].
  apply appending_bind; [apply appending_session_assign|]. intros _.
  apply appending_bind; [apply appending_session_save|]. intros _.
  apply appending_ret.
Qed.

Section FilesAppend.

Variable unicode_decimal : char -> option N.
Variable float_repr : float -> str.
Variable series_repr : nat -> str -> list Cell -> str.
Variable strptime : str -> str -> option Z.
Variable to_datetime : str -> option DateValue.
Variable db_amount : Decimal -> option Z.
Variable db_date : DateValue -> option Z.
Variable db_text : option nat -> str -> bool.
Variable db_json : list (str * Cell) -> bool.

Lemma appending_process_ledger_file df :
  appending (process_ledger_file unicode_decimal float_repr series_repr strptime
               to_datetime db_amount db_date db_text db_json df).
Proof.
  unfold process_ledger_file.
  apply appending_bind; [|intros; apply appending_ret].
  destruct (ledger_file_records _ _ _ _ _ df); [apply appending_ret|].
  unfold LedgerRecord_bulk_create.
  apply appending_bind; [apply appending_same_db; reflexivity|]. intros w.
  apply appending_bind; [apply appending_same_db; reflexivity|]. intros _.
  destruct (ledger_table_rows _ _ _ _ _ _) as [rows|].
  - apply appending_write. intros d. split; [exists rows; reflexivity|].
    repeat split. exists []. rewrite app_nil_r. reflexivity.
  - apply appending_bind; [apply appending_statement|]. intros _.
    apply appending_raise.
Qed.

Lemma appending_process_bank_statement_file df :
  appending (process_bank_statement_file unicode_decimal float_repr series_repr
               strptime to_datetime db_amount db_date db_text db_json df).
Proof.
  unfold process_bank_statement_file.
  apply appending_bind; [|intros; apply appending_ret].
  destruct (bank_file_records _ _ _ _ _ df); [apply appending_ret|].
  unfold BankRecord_bulk_create.
  apply appending_bind; [apply appending_same_db; reflexivity|]. intros w.
  apply appending_bind; [apply appending_same_db; reflexivity|]. intros _.
  destruct (bank_table_rows _ _ _ _ _ _) as [rows|].
  - apply appending_write. intros d.
    split; [exists []; rewrite app_nil_r; reflexivity|].
    split; [exists rows; reflexivity|]. split; reflexivity.
  - apply appending_bind; [apply appending_statement|]. intros _.
    apply appending_raise.
Qed.

(** X15.  File processing only ever adds records: however
    [process_reconciliation_files] ends (success, failure of a statement,
    rows the database rejects, session not found), the ledger and bank
    records that existed are all still there, unchanged and in place, with
    the new ones after them, and no match or exception is touched.  In
    particular the ledger records of a run whose bank file fails are not
    rolled back, and processing a session twice keeps the first records. *)
Theorem file_processing_only_appends ledger_df bank_df w :
  appends (db w)
    (db (snd (process_reconciliation_files unicode_decimal float_repr
                series_repr strptime to_datetime
                db_amount db_date db_text db_json ledger_df bank_df w))).
Proof.
  revert w.
  change (appending (process_reconciliation_files unicode_decimal float_repr
                       series_repr strptime to_datetime
                       db_amount db_date db_text db_json ledger_df bank_df)).
  unfold process_reconciliation_files.
  apply appending_bind; [apply appending_same_db; reflexivity|]. intros _.
  apply appending_try_except.
  - apply appending_bind.
    { apply appending_same_db. intros w.
      unfold ReconciliationSession_get, bind, statement, get_world,
        set_session, raise.
      destruct (fault_at w) as [[|n]|]; simpl; try reflexivity;
        destruct (db_session (db w)); reflexivity. }
    intros _.
    apply appending_bind; [apply appending_session_assign|]. intros _.
    apply appending_bind; [apply appending_session_save|]. intros _.
    apply appending_bind; [apply appending_process_ledger_file|]. intros lr.
    apply appending_bind; [apply appending_session_assign|]. intros _.
    apply appending_bind; [apply appending_process_bank_statement_file|].
    intros br.
    apply appending_bind; [apply appending_session_assign|]. intros _.
    apply appending_bind; [apply appending_session_save|]. intros _.
    apply appending_ret.
  - intros e. destruct e; simpl; try apply appending_on_exception.
    apply appending_ret.
Qed.

Lemma process_ledger_file_records df records w w' :
  process_ledger_file unicode_decimal float_repr series_repr strptime
    to_datetime db_amount db_date db_text db_json df w
  = (Return records, w') ->
  records = ledger_file_records unicode_decimal float_repr series_repr strptime
              to_datetime df.
Proof.
  unfold process_ledger_file. intros Hrun.
  apply bind_return in Hrun. destruct Hrun as ([] & w1 & _ & Hrun).
  inversion Hrun. reflexivity.
Qed.

Lemma process_bank_statement_file_records df records w w' :
  process_bank_statement_file unicode_decimal float_repr series_repr strptime
    to_datetime db_amount db_date db_text db_json
    df w = (Return records, w') ->
  records = bank_file_records unicode_decimal float_repr series_repr strptime
              to_datetime df.
Proof.
  unfold process_bank_statement_file. intros Hrun.
  apply bind_return in Hrun. destruct Hrun as ([] & w1 & _ & Hrun).
  inversion Hrun. reflexivity.
Qed.

(** X16.  When [process_reconciliation_files] returns its
    success result, the two counts it returns are the numbers of records
    built from the two frames; the rows the database made of these records
    (which it all accepted), exactly that many and all unmatched, were
    added to the ledger and bank tables after the rows already there; and
    the session is saved with status [processing] and with these two
    counts as its totals, whatever the tables held before (so after a
    second processing the totals count the last files only). *)
Theorem processed_files_are_counted ledger_df bank_df w nl nb :
  let run :=
    process_reconciliation_files unicode_decimal float_repr series_repr strptime
      to_datetime db_amount db_date db_text db_json ledger_df bank_df in
  fst (run w) = Return (FilesProcessed nl nb) ->
  let d' := db (snd (run w)) in
  let ledger_records :=
    ledger_file_records unicode_decimal float_repr series_repr strptime
      to_datetime ledger_df in
  let bank_records :=
    bank_file_records unicode_decimal float_repr series_repr strptime
      to_datetime bank_df in
  nl = Z.of_nat (List.length ledger_records)
  /\ nb = Z.of_nat (List.length bank_records)
  /\ (exists rows k,
        db_ledger d' = db_ledger (db w) ++ rows
        /\ ledger_table_rows db_amount db_date db_text db_json k ledger_records
           = Some rows
        /\ Z.of_nat (List.length rows) = nl
        /\ forall r, In r rows -> lr_is_matched r = false)
  /\ (exists rows k,
        db_bank d' = db_bank (db w) ++ rows
        /\ bank_table_rows db_amount db_date db_text db_json k bank_records
           = Some rows
        /\ Z.of_nat (List.length rows) = nb
        /\ forall r, In r rows -> br_is_matched r = false)
  /\ exists s,
       db_session d' = Some s /\ status s = Processing
       /\ total_ledger_records s = nl /\ total_bank_records s = nb.
Proof.
  intros run. unfold run. clear run.
  destruct (process_reconciliation_files _ _ _ _ _ _ _ _ _ ledger_df bank_df w)
    as [o w'] eqn:Hrun.
  simpl fst; simpl snd. intros ->.
  unfold process_reconciliation_files in Hrun.
  apply bind_return in Hrun. destruct Hrun as ([] & wa & Ha & Hrun).
  assert (Hda : db wa = db w) by (inversion Ha; reflexivity). clear Ha.
  apply try_block_returned in Hrun; [|discriminate|discriminate].
  apply bind_return in Hrun. destruct Hrun as ([] & w1 & Hg & Hrun).
  apply ReconciliationSession_get_return in Hg.
  destruct Hg as (s1 & Es1 & Hs1 & Hd1 & _).
  apply bind_return in Hrun. destruct Hrun as ([] & w2 & Hx & Hrun).
  apply session_assign_return in Hx. destruct Hx as (s2 & Es2 & Hs2 & Hd2 & _).
  apply bind_return in Hrun. destruct Hrun as ([] & w3 & Hx & Hrun).
  apply session_save_return in Hx. destruct Hx as (s3 & Es3 & Hs3 & Hd3 & _).
  apply bind_return in Hrun. destruct Hrun as (lrecs & w4 & Hx & Hrun).
  pose proof (process_ledger_file_records _ _ _ _ Hx) as Elr.
  apply process_ledger_file_return in Hx.
  destruct Hx as (lrows & Hd4 & Hll & Hlu & Hlnd & Hs4 & Hlt).
  apply bind_return in Hrun. destruct Hrun as ([] & w5 & Hx & Hrun).
  apply session_assign_return in Hx. destruct Hx as (s5 & Es5 & Hs5 & Hd5 & _).
  apply bind_return in Hrun. destruct Hrun as (brecs & w6 & Hx & Hrun).
  pose proof (process_bank_statement_file_records _ _ _ _ Hx) as Ebr.
  apply process_bank_statement_file_return in Hx.
  destruct Hx as (brows & Hd6 & Hbl & Hbu & Hbnd & Hs6 & Hbt).
  apply bind_return in Hrun. destruct Hrun as ([] & w7 & Hx & Hrun).
  apply session_assign_return in Hx. destruct Hx as (s7 & Es7 & Hs7 & Hd7 & _).
  apply bind_return in Hrun. destruct Hrun as ([] & w8 & Hx & Hrun).
  apply session_save_return in Hx. destruct Hx as (s8 & Es8 & Hs8 & Hd8 & _).
  inversion Hrun; subst w' nl nb. clear Hrun.
  assert (E8 : s8 = with_total_bank_records (Z.of_nat (List.length brecs))
                      (with_total_ledger_records (Z.of_nat (List.length lrecs))
                         (with_status Processing s1))).
  { congruence. }
  cbv zeta. rewrite Hd8, Hd7, Hd6, Hd5, Hd4, Hd3, Hd2, Hd1, Hda. simpl.
  split; [rewrite Elr; reflexivity|]. split; [rewrite Ebr; reflexivity|].
  split.
  { exists lrows, (next_key w3). rewrite <- Elr, Hll. auto. }
  split.
  { exists brows, (next_key w5). rewrite <- Ebr, Hbl. auto. }
  exists s8. split; [reflexivity|]. rewrite E8. simpl. auto.
Qed.

End FilesAppend.

Lemma processed_files_are_counted_witness :
  let w := Sample.uploaded_world in
  let run := Sample.process_files in
  let repeated := Sample.process Sample.two_dates_frame Sample.bank_frame in
  let blank := Sample.process Sample.blank_date_frame Sample.bank_frame in
  let missing := Sample.process Sample.missing_note_frame Sample.bank_frame in
  fst (run w) = Return (FilesProcessed 2 2)
  /\ List.map (fun r => (lr_date r, lr_amount r, lr_row_number r))
       (db_ledger (db (snd (run w))))
     = [(738010, 125000, 1); (738012, -4500, 2)]
  /\ (exists rows k,
        db_ledger (db (snd (run w))) = db_ledger (db w) ++ rows
        /\ ledger_table_rows Sample.db_amount Sample.db_date Sample.db_text
             Sample.db_json k
             (ledger_file_records ascii_only_decimal Sample.float_repr
                Sample.series_repr Sample.strptime Sample.to_datetime
                Sample.ledger_frame)
           = Some rows
        /\ Z.of_nat (List.length rows) = 2
        /\ forall r, In r rows -> lr_is_matched r = false)
  /\ (exists s,
        db_session (db (snd (run w))) = Some s /\ status s = Processing
        /\ total_ledger_records s = 2 /\ total_bank_records s = 2)
  /\ fst (repeated w) = Return (FilesProcessed 0 2)
  /\ 0 = Z.of_nat
           (List.length
              (ledger_file_records ascii_only_decimal Sample.float_repr
                 Sample.series_repr Sample.strptime Sample.to_datetime
                 Sample.two_dates_frame))
  /\ fst (blank w) = Return Error
  /\ option_map status (db_session (db (snd (blank w)))) = Some Failed
  /\ db_ledger (db (snd (blank w))) = []
  /\ fst (missing w) = Return Error
  /\ option_map status (db_session (db (snd (missing w)))) = Some Failed.
Proof.
  intros w run repeated blank missing.
  assert (H : fst (run w) = Return (FilesProcessed 2 2))
    by (vm_compute; reflexivity).
  assert (H0 : fst (repeated w) = Return (FilesProcessed 0 2))
    by (vm_compute; reflexivity).
  split; [exact H|]. split; [vm_compute; reflexivity|].
  destruct (processed_files_are_counted ascii_only_decimal Sample.float_repr
              Sample.series_repr Sample.strptime Sample.to_datetime
              Sample.db_amount Sample.db_date Sample.db_text Sample.db_json
              Sample.ledger_frame Sample.bank_frame w 2 2 H)
    as (_ & _ & Hl & _ & Hs).
  split; [exact Hl|]. split; [exact Hs|].
  destruct (processed_files_are_counted ascii_only_decimal Sample.float_repr
              Sample.series_repr Sample.strptime Sample.to_datetime
              Sample.db_amount Sample.db_date Sample.db_text Sample.db_json
              Sample.two_dates_frame Sample.bank_frame w 0 2 H0)
    as (Hnl & _).
  split; [exact H0|]. split; [exact Hnl|].
  repeat (split; [vm_compute; reflexivity|]). vm_compute. reflexivity.
Defined.

(** * Exact values *)

(** Two non-negative finite floats of the same value are the same float. *)
Lemma float_of_value x y :
  sf_finite_nonneg (Prim2SF x) = true -> sf_finite_nonneg (Prim2SF y) = true ->
  SF2R (Prim2SF x) = SF2R (Prim2SF y) -> x = y.
Proof.
  intros Hx Hy Hv. apply Prim2SF_inj.
  pose proof (Prim2SF_valid x) as Vx. pose proof (Prim2SF_valid y) as Vy.
  destruct (sf_finite_nonneg_cases _ Hx) as [Ex|(m1 & e1 & Ex)];
    destruct (sf_finite_nonneg_cases _ Hy) as [Ey|(m2 & e2 & Ey)];
    rewrite Ex, Ey in *; simpl in Hv.
  - reflexivity.
  - pose proof (F2R_pos (Zpos m2) e2 ltac:(lia)). lra.
  - pose proof (F2R_pos (Zpos m1) e1 ltac:(lia)). lra.
  - destruct (Z.lt_trichotomy e1 e2) as [H|[H|H]].
    + pose proof (F2R_lt_exponent _ _ _ _ Vx Vy H). lra.
    + subst e2. apply F2R_eq_inv in Hv. inversion Hv. reflexivity.
    + pose proof (F2R_lt_exponent _ _ _ _ Vy Vx H). lra.
Qed.

Lemma int_truediv_self_one n : 0 < n < 2 ^ 53 -> int_truediv n n = 1%float.
Proof.
  intros Hn.
  destruct (int_truediv_unit n n ltac:(lia) Hn) as [Hf Hle].
  destruct (int_truediv_self n Hn) as [_ Hge].
  apply float_of_value; [exact Hf|reflexivity|].
  change (Prim2SF 1) with sf_one. rewrite SF2R_one. lra.
Qed.

(** X17.  A ledger record and a bank record with the same date,
    the same amount and the same non-empty set of description words score
    exactly 1.0, whatever the tolerances. *)
Theorem identical_records_score_one lower is_word l b date_tolerance
    amount_tolerance :
  Z.of_nat (List.length (word_set lower is_word (lr_description l))) < 2 ^ 52 ->
  (forall x, In x (word_set lower is_word (lr_description l))
             <-> In x (word_set lower is_word (br_description b))) ->
  word_set lower is_word (lr_description l) <> [] ->
  lr_date l = br_date b -> lr_amount l = br_amount b ->
  calculate_match_score lower is_word l b date_tolerance amount_tolerance
  = 1%float.
Proof.
  intros Hw Hsame Hne Hd Ha.
  assert (Hdd : Z.abs (lr_date l - br_date b) = 0) by lia.
  assert (Had : Z.abs (lr_amount l - br_amount b) = 0) by lia.
  rewrite calculate_match_score_weighted by (rewrite Hdd; reflexivity).
  rewrite Hdd, Had. unfold weighted_score.
  change (date_component 0 date_tolerance) with 0.3%float.
  change (amount_component 0 amount_tolerance) with 0.4%float.
  unfold description_component, description_weight.
  rewrite (jaccard_same_words _ _ Hsame Hne).
  rewrite int_truediv_self_one; [reflexivity|].
  change (2 ^ 52) with 4503599627370496 in Hw.
  change (2 ^ 53) with 9007199254740992.
  destruct (word_set lower is_word (lr_description l)); [congruence|].
  simpl List.length in *. lia.
Qed.

Lemma identical_records_score_one_witness :
  let l := Sample.ledger 1%positive 738000 "Rent, March" 5000 1 in
  let b := Sample.bank 11%positive 738000 "march RENT" 5000 1 in
  Z.of_nat (List.length (word_set ascii_lower ascii_word (lr_description l)))
  < 2 ^ 52
  /\ (forall x, In x (word_set ascii_lower ascii_word (lr_description l))
                <-> In x (word_set ascii_lower ascii_word (br_description b)))
  /\ word_set ascii_lower ascii_word (lr_description l) <> []
  /\ lr_date l = br_date b /\ lr_amount l = br_amount b
  /\ calculate_match_score ascii_lower ascii_word l b 3 0 = 1%float.
Proof.
  intros l b.
  assert (H1 : Z.of_nat (List.length
                           (word_set ascii_lower ascii_word (lr_description l)))
               < 2 ^ 52) by (vm_compute; reflexivity).
  assert (H2 : forall x,
             In x (word_set ascii_lower ascii_word (lr_description l))
             <-> In x (word_set ascii_lower ascii_word (br_description b))).
  { intros x. vm_compute. tauto. }
  assert (H3 : word_set ascii_lower ascii_word (lr_description l) <> [])
    by (vm_compute; discriminate).
  assert (H4 : lr_date l = br_date b) by reflexivity.
  assert (H5 : lr_amount l = br_amount b) by reflexivity.
  repeat (split; [assumption|]).
  exact (identical_records_score_one ascii_lower ascii_word l b 3 0
           H1 H2 H3 H4 H5).
Defined.

(** * The models *)

(** ** The percentage of matched records *)

Lemma SFmul_comm x y : SFmul prec emax x y = SFmul prec emax y x.
Proof.
  destruct x as [sx|sx| |sx mx ex]; destruct y as [sy|sy| |sy my ey];
    simpl; try reflexivity;
    try (rewrite xorb_comm; reflexivity).
  rewrite xorb_comm, Pos.mul_comm, Z.add_comm. reflexivity.
Qed.

Lemma mul_comm x y : (x * y)%float = (y * x)%float.
Proof.
  apply Prim2SF_inj. rewrite !FloatAxioms.mul_spec. unfold SF64mul.
  apply SFmul_comm.
Qed.

(** X18.  [match_percentage] never divides by zero and stays a
    percentage: for a session whose matched records are counted among its
    ledger records, it is the integer 0 when the session has no ledger
    record, and otherwise a float from 0 to 100, which is exactly 0.0 when
    nothing is matched and exactly 100.0 when everything is. *)
Theorem match_percentage_is_a_percentage s :
  0 <= matched_records s <= total_ledger_records s ->
  total_ledger_records s < 2 ^ 53 ->
  match match_percentage s with
  | PyInt z => z = 0 /\ total_ledger_records s = 0
  | PyFloat f =>
      total_ledger_records s <> 0
      /\ (0 <=? f)%float = true /\ (f <=? 100)%float = true
      /\ (matched_records s = 0 -> f = 0%float)
      /\ (matched_records s = total_ledger_records s -> f = 100%float)
  end.
Proof.
  intros Hm Ht. unfold match_percentage.
  destruct (Z.eqb_spec (total_ledger_records s) 0) as [E|E]; [auto|].
  set (m := matched_records s) in *. set (t := total_ledger_records s) in *.
  split; [exact E|].
  destruct (int_truediv_unit m t Hm ltac:(lia)) as [Hf Hv].
  destruct SF2R_100 as [H100f H100v].
  assert (Hp : sf_finite_nonneg (Prim2SF (int_truediv m t * 100)%float) = true
               /\ (SF2R (Prim2SF (int_truediv m t * 100)%float)
                   <= F2R 7036874417766400 (-46))%R).
  { rewrite mul_comm.
    apply (weight_mul_le 100 7036874417766400 (-46)); try assumption.
    - reflexivity.
    - change (2 ^ 52) with 4503599627370496. lia. }
  destruct Hp as [Hpf Hpv].
  split; [|split; [|split]].
  - apply leb_of_values; [reflexivity|exact Hpf|].
    change (SF2R (Prim2SF 0)) with 0%R.
    apply SF2R_nonneg, sf_finite_nonneg_nonneg. exact Hpf.
  - apply leb_of_values; [exact Hpf|exact H100f|].
    change (Prim2SF 100) with (S754_finite false 7036874417766400 (-46)).
    exact Hpv.
  - intros E0. rewrite E0. unfold int_truediv.
    destruct (float_of_int_exact t ltac:(lia)) as [Hft Hvt].
    destruct (sf_finite_pos _ Hft) as (mt & et & Et).
    { rewrite Hvt. apply IZR_lt. lia. }
    apply Prim2SF_inj.
    rewrite FloatAxioms.mul_spec, FloatAxioms.div_spec, Et. reflexivity.
  - intros Eall. rewrite Eall, int_truediv_self_one by lia. reflexivity.
Qed.

Lemma match_percentage_is_a_percentage_witness :
  let s := {| status := Completed; date_tolerance_days := 0;
              amount_tolerance := 0;
              total_ledger_records := 8; total_bank_records := 9;
              matched_records := 6; unmatched_ledger_records := 2;
              unmatched_bank_records := 3; processed_at := None |} in
  0 <= matched_records s <= total_ledger_records s
  /\ total_ledger_records s < 2 ^ 53
  /\ match match_percentage s with
     | PyInt z => z = 0 /\ total_ledger_records s = 0
     | PyFloat f =>
         total_ledger_records s <> 0
         /\ (0 <=? f)%float = true /\ (f <=? 100)%float = true
         /\ (matched_records s = 0 -> f = 0%float)
         /\ (matched_records s = total_ledger_records s -> f = 100%float)
     end.
Proof.
  intros s.
  assert (H1 : 0 <= matched_records s <= total_ledger_records s)
    by (simpl; lia).
  assert (H2 : total_ledger_records s < 2 ^ 53) by (vm_compute; reflexivity).
  split; [exact H1|]. split; [exact H2|].
  exact (match_percentage_is_a_percentage s H1 H2).
Defined.

(** ** The path of an uploaded file *)

(** The last piece is what follows the last separator, or the whole
    string when it has none. *)
Lemma split_on_spec c s :
  exists ps ext,
    split_on c s = ps ++ [ext] /\ ~ In c ext
    /\ (ps = [] -> s = ext)
    /\ (ps <> [] -> exists stem, s = stem ++ c :: ext).
Proof.
  induction s as [|x s IH].
  - exists [], []. simpl. repeat split; auto. intros H. congruence.
  - destruct IH as (ps & ext & E & Hno & Hnil & Hcons). simpl.
    destruct (N.eqb_spec x c) as [->|Hx].
    + exists ([] :: ps), ext. rewrite E. split; [reflexivity|].
      split; [exact Hno|]. split; [discriminate|]. intros _.
      destruct ps as [|p ps].
      * exists []. simpl. rewrite (Hnil eq_refl). reflexivity.
      * destruct (Hcons ltac:(discriminate)) as (stem & ->).
        exists (c :: stem). reflexivity.
    + rewrite E. destruct ps as [|p ps]; simpl.
      * exists [], (x :: ext). split; [reflexivity|].
        split; [intros [H|H]; [congruence|exact (Hno H)]|].
        split; [intros _; rewrite (Hnil eq_refl); reflexivity|].
        intros H. congruence.
      * exists ((x :: p) :: ps), ext. split; [reflexivity|].
        split; [exact Hno|]. split; [discriminate|]. intros _.
        destruct (Hcons ltac:(discriminate)) as (stem & ->).
        exists (x :: stem). reflexivity.
Qed.

(** X19.  The path under which an uploaded file is stored
    keeps nothing of its name but the extension: it is
    [reconciliation/<hex>.<ext>], where [<hex>] are the digits of the
    fresh UUID and [<ext>], which has no dot, is what follows the last dot
    of the name, or the whole name when the name has no dot. *)
Theorem upload_path_keeps_the_extension hex filename :
  forallb is_hex_digit hex = true ->
  exists ext,
    reconciliation_upload_path hex filename
    = lit "reconciliation/" ++ hex ++ 46%N :: ext
    /\ ~ In 46%N ext
    /\ (filename = ext \/ exists stem, filename = stem ++ 46%N :: ext).
Proof.
  intros Hhex. unfold reconciliation_upload_path.
  destruct (split_on_spec 46%N filename) as (ps & ext & E & Hno & Hnil & Hcons).
  rewrite E, last_last. exists ext.
  split; [|split; [exact Hno|]].
  - unfold path_join.
    assert (Hs : startswith (hex ++ 46%N :: ext) 47%N = false).
    { destruct hex as [|h hex]; [reflexivity|]. simpl in *.
      apply andb_prop in Hhex. destruct Hhex as [Hh _].
      unfold is_hex_digit, in_range in Hh.
      destruct (N.eqb_spec h 47); [|reflexivity]. subst h. discriminate Hh. }
    rewrite Hs. reflexivity.
  - destruct ps as [|p ps]; [left; exact (Hnil eq_refl)|].
    right. apply Hcons. discriminate.
Qed.

Lemma upload_path_keeps_the_extension_witness :
  let hex := lit "0123456789abcdef0123456789abcdef" in
  forallb is_hex_digit hex = true
  /\ exists ext,
       reconciliation_upload_path hex (lit "ledger.2024.CSV")
       = lit "reconciliation/" ++ hex ++ 46%N :: ext
       /\ ~ In 46%N ext
       /\ (lit "ledger.2024.CSV" = ext
           \/ exists stem, lit "ledger.2024.CSV" = stem ++ 46%N :: ext).
Proof.
  intros hex.
  assert (H : forallb is_hex_digit hex = true) by (vm_compute; reflexivity).
  split; [exact H|].
  exact (upload_path_keeps_the_extension hex (lit "ledger.2024.CSV") H).
Defined.

(** * The end of a completed run *)

Lemma keyed_from_length {A} (l : list (key -> A)) : forall k,
  List.length (keyed_from k l) = List.length l.
Proof.
  induction l as [|x l IH]; intros k; simpl; [reflexivity|].
  rewrite IH. reflexivity.
Qed.

Lemma task_ledger_records_length d :
  List.length (task_ledger_records d)
  = List.length (List.filter ledger_unmatched (db_ledger d)).
Proof. apply filter_order_by_length. Qed.

Lemma task_bank_records_length d :
  List.length (task_bank_records d)
  = List.length (List.filter bank_unmatched (db_bank d)).
Proof. apply filter_order_by_length. Qed.

Section Summary.

Variable lower : str -> str.
Variable is_word : char -> bool.

(** What a run that completes leaves: the matches of the pass after those
    that were there, one more exception for each record left unmatched,
    and the session saved as completed, with its settings, and with the
    counters of the tables as they are now. *)
Lemma completed_run_summary w n w' :
  start_reconciliation_matching lower is_word w = (Return (MatchingDone n), w') ->
  exists s0 s' new,
    db_session (db w) = Some s0
    /\ db_session (db w') = Some s' /\ same_settings s0 s'
    /\ status s' = Completed
    /\ db_matches (db w') = db_matches (db w) ++ new
    /\ n = Z.of_nat (List.length new)
    /\ matched_records s' = Z.of_nat (List.length (db_matches (db w')))
    /\ unmatched_ledger_records s'
       = Z.of_nat (List.length (List.filter ledger_unmatched (db_ledger (db w'))))
    /\ unmatched_bank_records s'
       = Z.of_nat (List.length (List.filter bank_unmatched (db_bank (db w'))))
    /\ List.length (db_exceptions (db w'))
       = (List.length (db_exceptions (db w))
          + List.length (List.filter ledger_unmatched (db_ledger (db w')))
          + List.length (List.filter bank_unmatched (db_bank (db w'))))%nat
    /\ exists k,
         db_exceptions (db w')
         = db_exceptions (db w)
           ++ keyed_from k
                (List.map unmatched_ledger_exception
                   (task_ledger_records (db w'))
                 ++ List.map unmatched_bank_exception
                      (task_bank_records (db w'))).
Proof.
  intros Hrun.
  unfold start_reconciliation_matching in Hrun.
  apply bind_return in Hrun. destruct Hrun as ([] & wa & Ha & Hrun).
  assert (Hda : db wa = db w) by (inversion Ha; reflexivity). clear Ha.
  apply try_block_returned in Hrun; [|discriminate|discriminate].
  apply bind_return in Hrun. destruct Hrun as ([] & w1 & Hg & Hrun).
  apply ReconciliationSession_get_return in Hg.
  destruct Hg as (s0 & Es0 & Hs1 & Hd1 & Hn1).
  unfold matching_steps in Hrun.
  apply bind_return in Hrun. destruct Hrun as (s1 & w2 & Ht & Hrun).
  apply the_session_return in Ht. destruct Ht as [-> Es1'].
  apply bind_return in Hrun. destruct Hrun as ([] & w3 & Hst & Hrun).
  assert (H3 : exists s3, session w3 = Some s3 /\ same_settings s0 s3
                /\ db_ledger (db w3) = db_ledger (db w)
                /\ db_bank (db w3) = db_bank (db w)
                /\ db_matches (db w3) = db_matches (db w)
                /\ db_exceptions (db w3) = db_exceptions (db w)).
  { assert (s1 = s0) by congruence. subst s1.
    destruct (status s0).
    2: { inversion Hst; subst w3. exists s0.
         unfold same_settings. repeat split; congruence. }
    all: apply bind_return in Hst; destruct Hst as ([] & wb & Hx & Hst);
      apply session_assign_return in Hx; destruct Hx as (sx & Ex & Hsx & Hdx & _);
      apply session_save_return in Hst; destruct Hst as (sy & Ey & Hsy & Hdy & _);
      exists sy; assert (sy = with_status Processing s0) by congruence; subst sy;
      (split; [exact Hsy|]); rewrite Hdy; simpl;
      unfold same_settings; simpl; repeat split; congruence. }
  destruct H3 as (s3 & Es3 & Hset & Hl3 & Hb3 & Hm3 & Hx3).
  apply bind_return in Hrun. destruct Hrun as (c1 & w4 & Hc & Hrun).
  apply count_return in Hc. destruct Hc as (_ & Hd4 & Hs4 & _).
  apply bind_return in Hrun. destruct Hrun as (c2 & w5 & Hc & Hrun).
  apply count_return in Hc. destruct Hc as (_ & Hd5 & Hs5 & _).
  apply bind_return in Hrun. destruct Hrun as (s5 & w6 & Ht & Hrun).
  apply the_session_return in Ht. destruct Ht as [-> Es5].
  assert (s5 = s3) by congruence. subst s5.
  apply bind_return in Hrun. destruct Hrun as (matches & w7 & Hp & Hrun).
  destruct (pass_run lower is_word s3 w5 _ w7 Hp)
    as (Hs7 & _ & _ & Hx7 & Hpost).
  destruct Hpost as (sc & [Hm7 _ _ _ _ _ _ _] & _). simpl fst in Hm7.
  apply bind_return in Hrun. destruct Hrun as ([] & w8 & He & Hrun).
  apply create_exception_records_return in He. cbv zeta in He.
  destruct He as (Hx8 & _ & Hl8 & Hb8 & Hm8 & Hs8 & _).
  apply bind_return in Hrun. destruct Hrun as ([] & w9 & Hu & Hrun).
  apply update_session_statistics_return in Hu.
  destruct Hu as (s8 & Es8 & Hu). cbv zeta in Hu. destruct Hu as (Hs9 & Hd9 & _).
  assert (s8 = s3) by congruence. subst s8.
  apply bind_return in Hrun. destruct Hrun as (wx & w10 & Hg & Hrun).
  inversion Hg; subst wx w10. clear Hg.
  apply bind_return in Hrun. destruct Hrun as ([] & w11 & Ha & Hrun).
  apply session_assign_return in Ha. destruct Ha as (sa & Esa & Hs11 & Hd11 & _).
  apply bind_return in Hrun. destruct Hrun as ([] & w12 & Ha & Hrun).
  apply session_assign_return in Ha. destruct Ha as (sb & Esb & Hs12 & Hd12 & _).
  apply bind_return in Hrun. destruct Hrun as ([] & w13 & Hsv & Hrun).
  apply session_save_return in Hsv. destruct Hsv as (sc' & Esc & _ & Hd13 & _).
  inversion Hrun; subst w' n. clear Hrun.
  assert (Esc' : sc' = with_processed_at (Some (now w9))
                         (with_status Completed sa)) by congruence.
  rewrite Hs9 in Esa. inversion Esa; subst sa. clear Esa.
  exists s0, sc', matches.
  assert (El : db_ledger (db w13) = db_ledger (db w8))
    by (rewrite Hd13, Hd12, Hd11, Hd9; reflexivity).
  assert (Eb : db_bank (db w13) = db_bank (db w8))
    by (rewrite Hd13, Hd12, Hd11, Hd9; reflexivity).
  assert (Em : db_matches (db w13) = db_matches (db w8))
    by (rewrite Hd13, Hd12, Hd11, Hd9; reflexivity).
  assert (Ex : db_exceptions (db w13) = db_exceptions (db w8))
    by (rewrite Hd13, Hd12, Hd11, Hd9; reflexivity).
  split; [congruence|].
  split; [rewrite Hd13; reflexivity|].
  split.
  { subst sc'. destruct Hset as (H1 & H2 & H3 & H4).
    unfold same_settings. simpl. auto. }
  split; [subst sc'; reflexivity|].
  split.
  { rewrite Em, Hm8, Hm7. congruence. }
  split; [reflexivity|].
  rewrite El, Eb, Em, Ex. subst sc'. simpl.
  rewrite task_ledger_records_length, task_bank_records_length.
  split; [reflexivity|]. split; [reflexivity|]. split; [reflexivity|].
  assert (Hx : db_exceptions (db w8)
               = db_exceptions (db w)
                 ++ keyed_from (next_key w7)
                      (List.map unmatched_ledger_exception
                         (task_ledger_records (db w8))
                       ++ List.map unmatched_bank_exception
                            (task_bank_records (db w8)))).
  { rewrite Hx8, (task_ledger_records_ext (db w8) (db w7) Hl8),
      (task_bank_records_ext (db w8) (db w7) Hb8).
    rewrite Hx7, Hd5, Hd4, Hx3. reflexivity. }
  split.
  - rewrite Hx, length_app, keyed_from_length, length_app, !length_map.
    rewrite task_ledger_records_length, task_bank_records_length. lia.
  - exists (next_key w7).
    rewrite (task_ledger_records_ext (db w13) (db w8) El),
      (task_bank_records_ext (db w13) (db w8) Eb).
    exact Hx.
Qed.

(** X20.  When a run completes, whatever the session held
    before, the counters it saves are those of the tables at that moment:
    [matched_records] is the number of matches of the session (earlier ones
    included), [unmatched_ledger_records] and [unmatched_bank_records] are
    the numbers of records still unmatched, and the [matches_found] the
    task returns is the number of matches this run added. *)
Theorem completed_run_counts_the_tables w n :
  fst (start_reconciliation_matching lower is_word w) = Return (MatchingDone n) ->
  let d' := db (snd (start_reconciliation_matching lower is_word w)) in
  exists s' new,
    db_session d' = Some s' /\ status s' = Completed
    /\ db_matches d' = db_matches (db w) ++ new
    /\ n = Z.of_nat (List.length new)
    /\ matched_records s' = Z.of_nat (List.length (db_matches d'))
    /\ unmatched_ledger_records s'
       = Z.of_nat (List.length (List.filter ledger_unmatched (db_ledger d')))
    /\ unmatched_bank_records s'
       = Z.of_nat (List.length (List.filter bank_unmatched (db_bank d'))).
Proof.
  destruct (start_reconciliation_matching lower is_word w) as [o w'] eqn:Hrun.
  simpl. intros ->.
  destruct (completed_run_summary w n w' Hrun)
    as (s0 & s' & new & _ & Hs & _ & Hst & Hm & Hn & H1 & H2 & H3 & _).
  exists s', new. auto 10.
Qed.

End Summary.

(** ** A second run *)

Section SecondRun.

Variable lower : str -> str.
Variable is_word : char -> bool.

(** A pass over tables without an eligible pair changes nothing. *)
Lemma settled_pass s w matches w' :
  no_eligible_pair lower is_word (date_tolerance_days s) (amount_tolerance s)
    (db w) ->
  perform_transaction_matching lower is_word s
    task_ledger_records task_bank_records w = (Return matches, w') ->
  matches = []
  /\ db_ledger (db w') = db_ledger (db w)
  /\ db_bank (db w') = db_bank (db w)
  /\ db_matches (db w') = db_matches (db w).
Proof.
  intros Hno Hrun.
  pose proof (pass_rule lower is_word s w _ w'
    (fun rest acc d =>
       fst acc = []
       /\ db_ledger d = db_ledger (db w)
       /\ db_bank d = db_bank (db w)
       /\ db_matches d = db_matches (db w)
       /\ forall l, In l rest ->
            In l (db_ledger (db w)) /\ lr_is_matched l = false)
    (fun _ => True) Hrun I) as H.
  cbv beta in H.
  destruct H as (sc & Ha & El & Eb & Em & _).
  - repeat split; try reflexivity.
    + apply unmatched_ledger_in. assumption.
    + apply unmatched_ledger_in in H. tauto.
  - intros _ l rest acc w2 o2 w3 (Ha & El & Eb & Em & Hrest) Hturn.
    destruct (Hrest l (or_introl eq_refl)) as [Hl Hlu].
    destruct (turn_tables lower is_word _ _ _ _ _ _ _ Hturn)
      as [(El' & Eb' & Em' & Hret)|(best & c & m & Hbin & Hbu & Hel & _)].
    + destruct o2 as [acc'|e]; [|exact I].
      destruct (Hret acc' eq_refl) as [Hacc _].
      split; [congruence|]. split; [congruence|]. split; [congruence|].
      split; [congruence|]. intros l' Hl'. apply Hrest. right. exact Hl'.
    + exfalso. rewrite Eb in Hbin.
      rewrite (Hno l best Hl Hlu Hbin Hbu) in Hel. discriminate Hel.
  - simpl in Ha. auto.
Qed.

(** X21.  A run that follows a completed run with nothing in
    between finds nothing to match: when it completes it has added no match
    and changed no record.  It keeps the exceptions that were there and
    appends as many as there are unmatched records; on tables with distinct
    keys, its exceptions and those the first run appended each hold exactly
    one exception for every unmatched ledger record, referring to it, of
    type [unmatched_ledger], and the two have the same description, and
    none for a matched one; and likewise for the bank records.  So every
    unmatched record has its exception twice after the second run. *)
Theorem second_run_matches_nothing w n n2 :
  let run := start_reconciliation_matching lower is_word in
  fst (run w) = Return (MatchingDone n) ->
  fst (run (snd (run w))) = Return (MatchingDone n2) ->
  let d1 := db (snd (run w)) in
  let d2 := db (snd (run (snd (run w)))) in
  n2 = 0
  /\ db_matches d2 = db_matches d1
  /\ db_ledger d2 = db_ledger d1
  /\ db_bank d2 = db_bank d1
  /\ exists first second,
       db_exceptions d1 = db_exceptions (db w) ++ first
       /\ db_exceptions d2 = db_exceptions d1 ++ second
       /\ List.length second
          = (List.length (List.filter ledger_unmatched (db_ledger d1))
             + List.length (List.filter bank_unmatched (db_bank d1)))%nat
       /\ (keys_distinct (db w) ->
           (forall l, In l (db_ledger d1) ->
              if lr_is_matched l
              then List.filter (refers_to_ledger (lr_id l)) first = []
                   /\ List.filter (refers_to_ledger (lr_id l)) second = []
              else exists e1 e2,
                  List.filter (refers_to_ledger (lr_id l)) first = [e1]
                  /\ List.filter (refers_to_ledger (lr_id l)) second = [e2]
                  /\ ex_ledger_record e1 = Some (lr_id l)
                  /\ ex_ledger_record e2 = Some (lr_id l)
                  /\ exception_type e1 = UnmatchedLedger
                  /\ exception_type e2 = UnmatchedLedger
                  /\ ex_description e2 = ex_description e1)
           /\ (forall b, In b (db_bank d1) ->
                 if br_is_matched b
                 then List.filter (refers_to_bank (br_id b)) first = []
                      /\ List.filter (refers_to_bank (br_id b)) second = []
                 else exists e1 e2,
                     List.filter (refers_to_bank (br_id b)) first = [e1]
                     /\ List.filter (refers_to_bank (br_id b)) second = [e2]
                     /\ ex_bank_record e1 = Some (br_id b)
                     /\ ex_bank_record e2 = Some (br_id b)
                     /\ exception_type e1 = UnmatchedBank
                     /\ exception_type e2 = UnmatchedBank
                     /\ ex_description e2 = ex_description e1)).
Proof.
  intros run.
  pose proof (tidy_start_reconciliation_matching lower is_word w) as Htidy.
  fold run in Htidy.
  destruct (run w) as [o1 w1] eqn:Hrun1. simpl fst in *; simpl snd in *.
  destruct (run w1) as [o2 w2] eqn:Hrun2. simpl fst; simpl snd.
  intros -> ->. cbv zeta.
  destruct (completed_run_summary lower is_word w n w1 Hrun1)
    as (s0 & s1 & new1 & Es0 & Es1 & Hset & _ & _ & _ & _ & _ & _ & _
        & k1 & Hx1).
  pose proof (completed_run_settled lower is_word w n s0 Es0) as Hmax.
  unfold run in Hrun1. rewrite Hrun1 in Hmax. simpl in Hmax.
  specialize (Hmax eq_refl).
  destruct (completed_run lower is_word w1 n2 w2 Hrun2)
    as (s1' & s2 & wp & matches & wq & Es1' & Hset2 & Elp & Ebp & Emp
        & Hp & Hn2 & El2 & Eb2 & Em2).
  assert (s1' = s1) by congruence. subst s1'.
  destruct Hset as (_ & _ & Hdt1 & Hat1).
  destruct Hset2 as (_ & _ & Hdt2 & Hat2).
  assert (Hno : no_eligible_pair lower is_word (date_tolerance_days s2)
                  (amount_tolerance s2) (db wp)).
  { rewrite Hdt2, Hat2, Hdt1, Hat1. intros l b.
    rewrite Elp, Ebp. apply Hmax. }
  destruct (settled_pass s2 wp matches wq Hno Hp) as (-> & Elq & Ebq & Emq).
  destruct (completed_run_summary lower is_word w1 n2 w2 Hrun2)
    as (_ & _ & _ & _ & _ & _ & _ & _ & _ & _ & _ & _ & _ & k2 & Hx2).
  assert (El : db_ledger (db w2) = db_ledger (db w1)) by congruence.
  assert (Eb : db_bank (db w2) = db_bank (db w1)) by congruence.
  rewrite (task_ledger_records_ext (db w2) (db w1) El),
    (task_bank_records_ext (db w2) (db w1) Eb) in Hx2.
  split; [exact Hn2|]. split; [congruence|].
  split; [exact El|]. split; [exact Eb|].
  eexists. eexists. split; [exact Hx1|]. split; [exact Hx2|].
  split.
  { rewrite keyed_from_length, length_app, !length_map.
    rewrite task_ledger_records_length, task_bank_records_length.
    reflexivity. }
  intros Hkeys.
  destruct (records_kept_keys (db w) (db w1) (Htidy Hkeys) Hkeys) as [Hlk Hbk].
  destruct (unmatched_exceptions_refer (db w1) k1 Hlk Hbk) as [HL1 HB1].
  destruct (unmatched_exceptions_refer (db w1) k2 Hlk Hbk) as [HL2 HB2].
  cbv zeta in HL1, HB1, HL2, HB2.
  split.
  - intros l Hl. specialize (HL1 l Hl). specialize (HL2 l Hl).
    destruct (lr_is_matched l); [split; assumption|].
    destruct HL1 as (k1' & E1). destruct HL2 as (k2' & E2).
    exists (unmatched_ledger_exception l k1'), (unmatched_ledger_exception l k2').
    split; [exact E1|]. split; [exact E2|]. repeat split.
  - intros b Hb. specialize (HB1 b Hb). specialize (HB2 b Hb).
    destruct (br_is_matched b); [split; assumption|].
    destruct HB1 as (k1' & E1). destruct HB2 as (k2' & E2).
    exists (unmatched_bank_exception b k1'), (unmatched_bank_exception b k2').
    split; [exact E1|]. split; [exact E2|]. repeat split.
Qed.

End SecondRun.

Lemma second_run_matches_nothing_witness :
  let run := start_reconciliation_matching ascii_lower ascii_word in
  let w := Sample.unrelated_world in
  let d1 := db (snd (run w)) in
  let d2 := db (snd (run (snd (run w)))) in
  fst (run w) = Return (MatchingDone 0)
  /\ fst (run (snd (run w))) = Return (MatchingDone 0)
  /\ keys_distinct (db w)
  /\ List.map lr_is_matched (db_ledger d1) = [false]
  /\ List.map br_is_matched (db_bank d1) = [false]
  /\ List.map (fun e => (ex_ledger_record e, ex_bank_record e))
       (db_exceptions d2)
     = [(Some 1%positive, None); (None, Some 11%positive);
        (Some 1%positive, None); (None, Some 11%positive)]
  /\ db_matches d2 = db_matches d1
  /\ exists first second,
       db_exceptions d1 = db_exceptions (db w) ++ first
       /\ db_exceptions d2 = db_exceptions d1 ++ second
       /\ forall l, In l (db_ledger d1) ->
            if lr_is_matched l
            then List.filter (refers_to_ledger (lr_id l)) first = []
                 /\ List.filter (refers_to_ledger (lr_id l)) second = []
            else exists e1 e2,
                List.filter (refers_to_ledger (lr_id l)) first = [e1]
                /\ List.filter (refers_to_ledger (lr_id l)) second = [e2]
                /\ ex_ledger_record e1 = Some (lr_id l)
                /\ ex_ledger_record e2 = Some (lr_id l)
                /\ exception_type e1 = UnmatchedLedger
                /\ exception_type e2 = UnmatchedLedger
                /\ ex_description e2 = ex_description e1.
Proof.
  intros run w d1 d2.
  assert (H1 : fst (run w) = Return (MatchingDone 0))
    by (vm_compute; reflexivity).
  assert (H2 : fst (run (snd (run w))) = Return (MatchingDone 0))
    by (vm_compute; reflexivity).
  assert (H3 : keys_distinct (db w)) by (split; distinct_keys).
  split; [exact H1|]. split; [exact H2|]. split; [exact H3|].
  split; [vm_compute; reflexivity|]. split; [vm_compute; reflexivity|].
  split; [vm_compute; reflexivity|].
  destruct (second_run_matches_nothing ascii_lower ascii_word w 0 0 H1 H2)
    as (_ & Hm & _ & _ & first & second & Hx1 & Hx2 & _ & Hk).
  split; [exact Hm|].
  exists first, second. split; [exact Hx1|]. split; [exact Hx2|].
  exact (proj1 (Hk H3)).
Defined.

Lemma completed_run_counts_the_tables_witness :
  let run := start_reconciliation_matching ascii_lower ascii_word in
  let w := Sample.last_score_world in
  fst (run w) = Return (MatchingDone 1)
  /\ exists s' new,
       db_session (db (snd (run w))) = Some s' /\ status s' = Completed
       /\ db_matches (db (snd (run w))) = db_matches (db w) ++ new
       /\ 1 = Z.of_nat (List.length new)
       /\ matched_records s'
          = Z.of_nat (List.length (db_matches (db (snd (run w)))))
       /\ unmatched_ledger_records s'
          = Z.of_nat (List.length
                        (List.filter ledger_unmatched
                           (db_ledger (db (snd (run w))))))
       /\ unmatched_bank_records s'
          = Z.of_nat (List.length
                        (List.filter bank_unmatched
                           (db_bank (db (snd (run w)))))).
Proof.
  intros run w.
  assert (H : fst (run w) = Return (MatchingDone 1))
    by (vm_compute; reflexivity).
  split; [exact H|].
  exact (completed_run_counts_the_tables ascii_lower ascii_word w 1 H).
Defined.

(** * The similarity of descriptions *)

Lemma str_mem_iff w s : str_mem w s = true <-> In w s.
Proof.
  split; [|apply str_mem_in].
  unfold str_mem. intros H. apply existsb_exists in H.
  destruct H as (x & Hx & E). apply Str_eqb_eq in E. subst x. exact Hx.
Qed.

Lemma intersection_in s1 s2 x :
  In x (intersection s1 s2) <-> In x s1 /\ In x s2.
Proof.
  unfold intersection. rewrite filter_In, str_mem_iff. reflexivity.
Qed.

Lemma union_in s1 s2 x : In x (union s1 s2) <-> In x s1 \/ In x s2.
Proof.
  unfold union. rewrite in_app_iff, filter_In, negb_true_iff.
  destruct (str_mem x s1) eqn:E.
  - apply str_mem_iff in E. intuition congruence.
  - assert (~ In x s1) by (rewrite <- str_mem_iff; congruence). tauto.
Qed.

Lemma intersection_NoDup s1 s2 : NoDup s1 -> NoDup (intersection s1 s2).
Proof. apply NoDup_filter. Qed.

Lemma union_NoDup s1 s2 : NoDup s1 -> NoDup s2 -> NoDup (union s1 s2).
Proof.
  intros H1 H2. unfold union. apply NoDup_app.
  - exact H1.
  - apply NoDup_filter. exact H2.
  - intros x Hx Hf. apply filter_In in Hf. destruct Hf as [_ Hf].
    apply negb_true_iff in Hf. apply str_mem_in in Hx. congruence.
Qed.

Lemma intersection_length_comm s1 s2 :
  NoDup s1 -> NoDup s2 ->
  List.length (intersection s1 s2) = List.length (intersection s2 s1).
Proof.
  intros H1 H2. apply Permutation_length. apply NoDup_Permutation.
  - apply intersection_NoDup. exact H1.
  - apply intersection_NoDup. exact H2.
  - intros x. rewrite !intersection_in. tauto.
Qed.

Lemma union_length_comm s1 s2 :
  NoDup s1 -> NoDup s2 ->
  List.length (union s1 s2) = List.length (union s2 s1).
Proof.
  intros H1 H2. apply Permutation_length. apply NoDup_Permutation.
  - apply union_NoDup; assumption.
  - apply union_NoDup; assumption.
  - intros x. rewrite !union_in. tauto.
Qed.

(** X22.  The similarity of two descriptions does not depend
    on which of them comes first. *)
Theorem description_similarity_is_symmetric lower is_word desc1 desc2 :
  calculate_description_similarity lower is_word desc1 desc2
  = calculate_description_similarity lower is_word desc2 desc1.
Proof.
  unfold calculate_description_similarity.
  assert (N1 : NoDup (description_words lower is_word desc1))
    by apply NoDup_nodup.
  assert (N2 : NoDup (description_words lower is_word desc2))
    by apply NoDup_nodup.
  cbv zeta.
  rewrite (intersection_length_comm _ _ N1 N2), (union_length_comm _ _ N1 N2).
  destruct (description_words lower is_word desc1);
    destruct (description_words lower is_word desc2); reflexivity.
Qed.

(** * Amounts read from integer cells *)

Lemma digits_value_acc u : forall acc,
  digits_value (Npos acc) (of_uint u) = Npos (Pos.of_uint_acc u acc).
Proof.
  induction u; intros acc;
    cbn [of_uint digits_value Pos.of_uint_acc]; [reflexivity|..];
    rewrite <- IHu; f_equal; lia.
Qed.

Lemma digits_value_of_uint u : digits_value 0 (of_uint u) = Pos.of_uint u.
Proof.
  induction u; cbn [of_uint digits_value Pos.of_uint];
    [reflexivity|exact IHu|..];
    rewrite <- digits_value_acc; f_equal.
Qed.

Lemma of_uint_length u :
  List.length (of_uint u) = Decimal.nb_digits u.
Proof. induction u; simpl; congruence. Qed.

Lemma of_uint_digits u : forallb is_digit (of_uint u) = true.
Proof. induction u; simpl; auto. Qed.

Lemma span_all_digits s :
  forallb is_digit s = true -> span_digits s = (s, []).
Proof.
  induction s as [|c s IH]; [reflexivity|]. simpl. intros H.
  apply andb_prop in H. destruct H as [Hc Hs]. rewrite Hc, (IH Hs). reflexivity.
Qed.


Lemma digits_are_digits_and_points s :
  forallb is_digit s = true -> digits_and_points s = true.
Proof.
  unfold digits_and_points. induction s as [|c s IH]; [reflexivity|].
  simpl. intros H. apply andb_prop in H. destruct H as [Hc Hs].
  rewrite Hc, (IH Hs). reflexivity.
Qed.

(** A string of digits is the number it writes, with exponent 0. *)
Lemma parse_numeric_digits neg s :
  forallb is_digit s = true -> s <> [] ->
  in_max_context (digits_value 0 s) 0 = true ->
  parse_numeric neg s = Some (DFinite neg (digits_value 0 s) 0).
Proof.
  intros Hd Hne Hctx. unfold parse_numeric.
  rewrite (span_all_digits s Hd), app_nil_r.
  destruct s as [|c s]; [congruence|].
  change (0 - Z.of_nat (List.length (@nil char))) with 0.
  rewrite Hctx. reflexivity.
Qed.

(** The number a string of digits writes lies below the power of ten of
    its length, and at or above the previous one when its first digit is
    not zero. *)
Lemma digits_value_bounds s : forall acc,
  forallb is_digit s = true ->
  (acc * 10 ^ N.of_nat (List.length s) <= digits_value acc s
   /\ digits_value acc s < (acc + 1) * 10 ^ N.of_nat (List.length s))%N.
Proof.
  induction s as [|c s IH]; intros acc H.
  - simpl. lia.
  - simpl in H. apply andb_prop in H. destruct H as [Hc Hs].
    unfold is_digit, in_range in Hc. apply andb_prop in Hc.
    destruct Hc as [H1 H2]. apply N.leb_le in H1, H2.
    cbn [digits_value List.length].
    destruct (IH (10 * acc + (c - 48))%N Hs) as [Hlo Hhi].
    rewrite Nat2N.inj_succ, N.pow_succ_r'.
    set (P := (10 ^ N.of_nat (List.length s))%N) in *.
    split; nia.
Qed.

Lemma of_uint_head u :
  match of_uint u with
  | c :: _ => c = 48%N <-> exists u', u = Decimal.D0 u'
  | [] => u = Decimal.Nil
  end.
Proof.
  destruct u; simpl; try reflexivity;
    try (split; [discriminate|intros (u' & E); discriminate E]).
  split; [eauto|reflexivity].
Qed.

(** The decimal writing of a positive number has no leading zero. *)
Lemma to_uint_head p u' : Pos.to_uint p <> Decimal.D0 u'.
Proof.
  intros E.
  pose proof (DecimalPos.Unsigned.to_of (Pos.to_uint p)) as H.
  rewrite DecimalPos.Unsigned.of_to in H. simpl in H.
  pose proof (DecimalPos.Unsigned.to_uint_nonzero p) as Hnz.
  unfold Decimal.unorm in H.
  destruct (Decimal.nzhead (Pos.to_uint p)) eqn:En;
    try (rewrite H in E; discriminate E).
  - apply Hnz. exact H.
  - rewrite H in En. exact (DecimalFacts.nzhead_nonzero _ _ En).
Qed.

(** A positive number has at most [n] digits exactly when it is below the
    [n]th power of ten. *)
Lemma int_digits_length p n :
  (List.length (of_uint (Pos.to_uint p)) <= n)%nat
  <-> Zpos p < 10 ^ Z.of_nat n.
Proof.
  set (s := of_uint (Pos.to_uint p)).
  assert (Hv : digits_value 0 s = Npos p).
  { unfold s. rewrite digits_value_of_uint. apply DecimalPos.Unsigned.of_to. }
  assert (Hd : forallb is_digit s = true) by apply of_uint_digits.
  assert (Hhi : (Npos p < 10 ^ N.of_nat (List.length s))%N).
  { destruct (digits_value_bounds s 0 Hd) as [_ H]. rewrite Hv in H. lia. }
  assert (Hlo : (10 ^ N.of_nat (List.length s - 1) <= Npos p)%N).
  { pose proof (of_uint_head (Pos.to_uint p)) as Hh. fold s in Hh.
    destruct s as [|c t] eqn:Es.
    - exfalso. exact (DecimalPos.Unsigned.to_uint_nonnil p Hh).
    - simpl in Hd. apply andb_prop in Hd. destruct Hd as [Hc Ht].
      assert (Hc1 : (49 <= c)%N).
      { unfold is_digit, in_range in Hc. apply andb_prop in Hc.
        destruct Hc as [H1 _]. apply N.leb_le in H1.
        destruct (N.eq_dec c 48) as [E|E]; [|lia].
        exfalso. apply Hh in E. destruct E as (u' & E).
        exact (to_uint_head p u' E). }
      cbn [digits_value] in Hv.
      destruct (digits_value_bounds t (10 * 0 + (c - 48))%N Ht) as [H _].
      rewrite Hv in H.
      replace (List.length (c :: t) - 1)%nat with (List.length t)
        by (simpl; lia).
      set (P := (10 ^ N.of_nat (List.length t))%N) in *. nia. }
  assert (Hz : forall k, Z.of_N (10 ^ N.of_nat k) = 10 ^ Z.of_nat k).
  { intros k. rewrite N2Z.inj_pow, nat_N_Z. reflexivity. }
  split.
  - intros Hn.
    apply Z.lt_le_trans with (10 ^ Z.of_nat (List.length s)).
    + rewrite <- Hz. lia.
    + apply Z.pow_le_mono_r; lia.
  - intros Hp.
    destruct (Nat.le_gt_cases (List.length s) n) as [H|H]; [exact H|].
    exfalso.
    assert (10 ^ Z.of_nat n <= 10 ^ Z.of_nat (List.length s - 1))
      by (apply Z.pow_le_mono_r; lia).
    rewrite <- Hz in H0. lia.
Qed.

Lemma of_int_some z :
  Z.abs z < 10 ^ 4300 ->
  of_int z = Some (sign_prefix (z <? 0) ++ int_digits z).
Proof.
  intros H. unfold of_int.
  destruct z as [|p|p]; [reflexivity| |];
    (assert (Hlen : (List.length (of_uint (Pos.to_uint p))
                     <= int_max_str_digits)%nat)
       by (apply int_digits_length; exact H));
    apply Nat.leb_le in Hlen; cbn [int_digits]; rewrite Hlen; reflexivity.
Qed.

Lemma of_int_none z : 10 ^ 4300 <= Z.abs z -> of_int z = None.
Proof.
  intros H. unfold of_int.
  destruct z as [|p|p].
  - exfalso. revert H. apply Z.lt_nge. reflexivity.
  - cbn [int_digits].
    destruct (List.length (of_uint (Pos.to_uint p)) <=? int_max_str_digits)%nat
      eqn:E; [|reflexivity].
    apply Nat.leb_le, int_digits_length in E.
    change (Z.of_nat int_max_str_digits) with 4300 in E.
    change (Z.abs _) with (Zpos p) in H. lia.
  - cbn [int_digits].
    destruct (List.length (of_uint (Pos.to_uint p)) <=? int_max_str_digits)%nat
      eqn:E; [|reflexivity].
    apply Nat.leb_le, int_digits_length in E.
    change (Z.of_nat int_max_str_digits) with 4300 in E.
    change (Z.abs _) with (Zpos p) in H. lia.
Qed.

(** The decimal of the text of an integer that can be printed. *)
Lemma Decimal_of_int_digits ud neg p :
  Zpos p < 10 ^ 4300 ->
  Decimal_of_str ud (sign_prefix neg ++ of_uint (Pos.to_uint p))
  = Some (DFinite neg (Npos p) 0).
Proof.
  intros H.
  rewrite parse_digits_and_points
    by (apply digits_are_digits_and_points, of_uint_digits).
  rewrite parse_numeric_digits.
  - rewrite digits_value_of_uint, DecimalPos.Unsigned.of_to. reflexivity.
  - apply of_uint_digits.
  - pose proof (DecimalPos.Unsigned.to_uint_nonnil p) as Hn.
    destruct (Pos.to_uint p); [congruence|..]; discriminate.
  - rewrite digits_value_of_uint, DecimalPos.Unsigned.of_to.
    unfold in_max_context, nb_digits. simpl N.eqb. cbv iota.
    change (N.to_uint (Npos p)) with (Pos.to_uint p).
    rewrite <- of_uint_length.
    apply (int_digits_length p 4300) in H.
    apply andb_true_intro. split; [reflexivity|].
    apply Z.leb_le. unfold MAX_EMAX. lia.
Qed.

(** X23.  An amount cell that holds an integer of at most
    4300 digits (its absolute value is below 10^4300) is read exactly:
    [parse_amount] gives the decimal of that sign and that coefficient,
    with exponent 0.  On an integer of more digits [parse_amount] raises:
    the interpreter refuses to print it, and line 441 is outside the
    [try]. *)
Theorem integer_amount_is_read_exactly ud fr z :
  (Z.abs z < 10 ^ 4300 ->
   parse_amount ud fr (CellInt z)
   = Some (DFinite (z <? 0) (Z.to_N (Z.abs z)) 0))
  /\ (10 ^ 4300 <= Z.abs z -> parse_amount ud fr (CellInt z) = None).
Proof.
  split; intros H; unfold parse_amount.
  - rewrite (of_int_some z H).
    destruct z as [|p|p]; [vm_compute; reflexivity| |].
    + exact (Decimal_of_int_digits ud false p H).
    + exact (Decimal_of_int_digits ud true p H).
  - rewrite (of_int_none z H). reflexivity.
Qed.

Lemma integer_amount_is_read_exactly_witness :
  Z.abs (-1250) < 10 ^ 4300
  /\ parse_amount ascii_only_decimal Sample.float_repr (CellInt (-1250))
     = Some (DFinite true 1250 0)
  /\ 10 ^ 4300 <= Z.abs (10 ^ 4300)
  /\ parse_amount ascii_only_decimal Sample.float_repr (CellInt (10 ^ 4300))
     = None.
Proof.
  assert (H1 : Z.abs (-1250) < 10 ^ 4300) by (vm_compute; reflexivity).
  assert (H2 : 10 ^ 4300 <= Z.abs (10 ^ 4300)) by (vm_compute; discriminate).
  split; [exact H1|].
  split; [exact (proj1 (integer_amount_is_read_exactly ascii_only_decimal
                          Sample.float_repr (-1250)) H1)|].
  split; [exact H2|].
  exact (proj2 (integer_amount_is_read_exactly ascii_only_decimal
                  Sample.float_repr (10 ^ 4300)) H2).
Defined.
